(** * UFS host controller driver (drivers/scsi/ufs/ufshcd.c)

    A shallow embedding of the command-slot manager, the transfer-request
    completion path, the link-control (UIC) command channel, the clock-gating
    state machine, the clock/gear scaling controller and the submission-time
    run-state check of [ufshcd.c], together with the properties the
    specification states about them.

    Conventions.
    - [unsigned long] bitmaps ([lrb_in_use], [outstanding_reqs], ...) and
      [u32] register values are non-negative [Z]; bit operations are
      [Z.testbit], [Z.setbit], [Z.clearbit], [Z.lxor].
    - [int] counters are [Z] with the two's-complement wrap written out
      ([sint32]).
    - Constants that come from headers outside this tree (errno values,
      SCSI result codes, UFSHCI masks) are the fields of the class
      [UfsHeaders]; [linux_headers] instantiates it for running examples.
    - Calls into collaborators (SCSI completion, work queues, barriers,
      register writes) are recorded, in program order, in the [trace] field
      of the adapter state. *)

From stdpp Require Import base numbers list option.

Local Open Scope Z_scope.

(** ** Header constants *)

Class UfsHeaders := {
  (* errno *)
  EAGAIN : Z;
  ETIMEDOUT : Z;
  EINVAL : Z;
  EIO : Z;
  ENOLINK : Z;
  EBUSY : Z;
  (* SCSI mid-layer *)
  SCSI_MLQUEUE_HOST_BUSY : Z;
  DID_OK : Z;
  DID_BAD_TARGET : Z;
  DID_ABORT : Z;
  DID_ERROR : Z;
  DID_REQUEUE : Z;
  COMMAND_COMPLETE : Z;
  SAM_STAT_GOOD : Z;
  SAM_STAT_CHECK_CONDITION : Z;
  SAM_STAT_BUSY : Z;
  SAM_STAT_TASK_SET_FULL : Z;
  SAM_STAT_TASK_ABORTED : Z;
  set_host_byte : Z -> Z -> Z;      (* result -> status -> result *)
  (* UFSHCI / UPIU *)
  MASK_OCS : Z;
  OCS_SUCCESS : Z;
  OCS_ABORTED : Z;
  OCS_INVALID_COMMAND_STATUS : Z;
  UPIU_TRANSACTION_RESPONSE : Z;
  UPIU_TRANSACTION_REJECT_UPIU : Z;
  MASK_RSP_UPIU_RESULT : Z;
  MASK_SCSI_STATUS : Z;
  MASK_RSP_EXCEPTION_EVENT : Z;
  UFSHCD_QUIRK_BROKEN_OCS_FATAL_ERROR : Z;
  UFSHCI_QUIRK_SKIP_RESET_INTR_AGGR : Z;
  INT_AGGR_ENABLE : Z;
  INT_AGGR_COUNTER_AND_TIMER_RESET : Z;
  MASK_UIC_COMMAND_RESULT : Z;
  UIC_COMMAND_COMPL : Z;
  UFSHCD_UIC_PWR_MASK : Z;
  UIC_COMMAND_READY : Z;
  COMMAND_OPCODE_MASK : Z;
  PWR_OK : Z;
  PWR_LOCAL : Z;
  UFS_HS_G1 : Z;
  UIC_CMD_DME_HIBER_ENTER : Z;
  UIC_CMD_DME_HIBER_EXIT : Z;
  UFSHCI_QUIRK_BROKEN_REQ_LIST_CLR : Z;
  (* build configuration *)
  OPLUS_FEATURE_UFS_DRIVER : bool;
  OPLUS_FEATURE_UFSPLUS : bool;
  CONFIG_UFSFEATURE : bool;
  CONFIG_UFSHPB : bool
}.

(** The values the Linux headers give these names (errno-base.h, errno.h,
    scsi.h, scsi_proto.h, ufshci.h, ufs.h, ufshcd.h, unipro.h). *)
Definition linux_headers : UfsHeaders := {|
  EAGAIN := 11; ETIMEDOUT := 110; EINVAL := 22; EIO := 5; ENOLINK := 67;
  EBUSY := 16;
  SCSI_MLQUEUE_HOST_BUSY := 0x1055;
  DID_OK := 0; DID_BAD_TARGET := 4; DID_ABORT := 5; DID_ERROR := 7;
  DID_REQUEUE := 13;
  COMMAND_COMPLETE := 0;
  SAM_STAT_GOOD := 0; SAM_STAT_CHECK_CONDITION := 2; SAM_STAT_BUSY := 8;
  SAM_STAT_TASK_SET_FULL := 0x28; SAM_STAT_TASK_ABORTED := 0x40;
  set_host_byte := fun result status =>
    Z.lor (Z.land result 0xff00ffff) (Z.shiftl status 16);
  MASK_OCS := 0x0F;
  OCS_SUCCESS := 0; OCS_ABORTED := 6; OCS_INVALID_COMMAND_STATUS := 0x0F;
  UPIU_TRANSACTION_RESPONSE := 0x21; UPIU_TRANSACTION_REJECT_UPIU := 0x3F;
  MASK_RSP_UPIU_RESULT := 0xFFFF; MASK_SCSI_STATUS := 0xFF;
  MASK_RSP_EXCEPTION_EVENT := 0x10000;
  UFSHCD_QUIRK_BROKEN_OCS_FATAL_ERROR := 0x40;
  UFSHCI_QUIRK_SKIP_RESET_INTR_AGGR := 0x200;
  INT_AGGR_ENABLE := 0x80000000;
  INT_AGGR_COUNTER_AND_TIMER_RESET := 0x10000;
  MASK_UIC_COMMAND_RESULT := 0xFF;
  UIC_COMMAND_COMPL := 0x400;
  UFSHCD_UIC_PWR_MASK := 0x70;
  UIC_COMMAND_READY := 0x8;
  COMMAND_OPCODE_MASK := 0xFF;
  PWR_OK := 0; PWR_LOCAL := 1;
  UFS_HS_G1 := 1;
  UIC_CMD_DME_HIBER_ENTER := 0x17; UIC_CMD_DME_HIBER_EXIT := 0x18;
  UFSHCI_QUIRK_BROKEN_REQ_LIST_CLR := 0x400;
  OPLUS_FEATURE_UFS_DRIVER := true;
  OPLUS_FEATURE_UFSPLUS := true;
  CONFIG_UFSFEATURE := true;
  CONFIG_UFSHPB := true
|}.

(** ** Machine integers and kernel bit operations *)

Definition sint32 (z : Z) : Z := (z + 2 ^ 31) mod 2 ^ 32 - 2 ^ 31.
Definition uint32 (z : Z) : Z := z mod 2 ^ 32.
Definition BITS_PER_LONG : Z := 64.
Definition ulong (z : Z) : Z := z mod 2 ^ BITS_PER_LONG.

Module Bitops.

Definition test_bit (nr : Z) (addr : Z) : bool := Z.testbit addr nr.

(** [__set_bit] / [set_bit] *)
Definition set_bit (nr : Z) (addr : Z) : Z := Z.setbit addr nr.

(** [__clear_bit] / [clear_bit_unlock] *)
Definition clear_bit (nr : Z) (addr : Z) : Z := Z.clearbit addr nr.

(** [test_and_set_bit_lock]: one atomic read-modify-write; returns the
    old value of the bit together with the updated word. *)
Definition test_and_set_bit_lock (nr : Z) (addr : Z) : bool * Z :=
  (Z.testbit addr nr, Z.setbit addr nr).

(** Scan of the bit positions [n-1, n-2, ..., 0] for the first one that
    is set; [dflt] when there is none. *)
Fixpoint find_last_from (n : nat) (addr : Z) (dflt : Z) : Z :=
  match n with
  | O => dflt
  | S k => if Z.testbit addr (Z.of_nat k) then Z.of_nat k
           else find_last_from k addr dflt
  end.

(** [find_last_bit(addr, size)]: the number of the last set bit below
    [size], or [size] if no bit is set. *)
Definition find_last_bit (addr : Z) (size : Z) : Z :=
  find_last_from (Z.to_nat size) addr size.

(** The positions [for_each_set_bit(index, addr, size)] visits, in the
    order it visits them (ascending). *)
Fixpoint set_bits_below (n : nat) (addr : Z) : list Z :=
  match n with
  | O => []
  | S k => set_bits_below k addr ++
           (if Z.testbit addr (Z.of_nat k) then [Z.of_nat k] else [])
  end.

Definition for_each_set_bit (addr : Z) (size : Z) : list Z :=
  set_bits_below (Z.to_nat size) addr.

End Bitops.

(** ** Data model *)

(** [enum clk_gating_state] *)
Inductive clk_gating_state : Set :=
  CLKS_OFF | CLKS_ON | REQ_CLKS_OFF | REQ_CLKS_ON.

(** [enum uic_link_state] *)
Inductive uic_link_state : Set :=
  | UIC_LINK_OFF_STATE
  | UIC_LINK_ACTIVE_STATE
  | UIC_LINK_HIBERN8_STATE
  | UIC_LINK_BROKEN_STATE.

(** Transfer request command types used by this file. *)
Inductive utp_cmd_type : Set :=
  UTP_CMD_TYPE_SCSI | UTP_CMD_TYPE_DEV_MANAGE | UTP_CMD_TYPE_UFS_STORAGE.

(** [enum dma_data_direction] *)
Inductive dma_data_direction : Set :=
  DMA_BIDIRECTIONAL | DMA_TO_DEVICE | DMA_FROM_DEVICE | DMA_NONE.

#[global] Instance clk_gating_state_eq_dec : EqDecision clk_gating_state.
Proof. solve_decision. Defined.
#[global] Instance uic_link_state_eq_dec : EqDecision uic_link_state.
Proof. solve_decision. Defined.
#[global] Instance utp_cmd_type_eq_dec : EqDecision utp_cmd_type.
Proof. solve_decision. Defined.
#[global] Instance dma_data_direction_eq_dec : EqDecision dma_data_direction.
Proof. solve_decision. Defined.

(** UFSHCD states: the anonymous enum at the top of ufshcd.c; the field
    [hba->ufshcd_state] holds the number. *)
Definition UFSHCD_STATE_RESET : Z := 0.
Definition UFSHCD_STATE_ERROR : Z := 1.
Definition UFSHCD_STATE_OPERATIONAL : Z := 2.
Definition UFSHCD_STATE_EH_SCHEDULED_FATAL : Z := 3.
Definition UFSHCD_STATE_EH_SCHEDULED_NON_FATAL : Z := 4.

(** [struct scsi_cmnd], the fields the driver core reads and writes. *)
Record scsi_cmnd : Set := {
  request_tag : Z;                       (* cmd->request->tag *)
  sc_data_direction : dma_data_direction;
  cmnd0 : Z;                             (* cmd->cmnd[0], the opcode *)
  requeue_cnt : Z;                       (* cmd->requeue_cnt *)
  result : Z
}.

Definition cmd_set_result (r : Z) (c : scsi_cmnd) : scsi_cmnd :=
  {| request_tag := request_tag c;
     sc_data_direction := sc_data_direction c;
     cmnd0 := cmnd0 c;
     requeue_cnt := requeue_cnt c;
     result := r |}.

(** [struct uic_command] *)
Record uic_command : Set := {
  command : Z;
  argument1 : Z;
  argument2 : Z;
  argument3 : Z;
  cmd_active : Z
}.

(** [struct ufshcd_lrb]: the local reference block of one slot.  The
    descriptor and response words are held in CPU byte order. *)
Record ufshcd_lrb : Set := {
  cmd : option scsi_cmnd;
  command_type : utp_cmd_type;
  task_tag : Z;
  intr_cmd : bool;
  req_abort_skip : bool;
  utrd_dword_2 : Z;          (* utr_descriptor_ptr->header.dword_2 *)
  rsp_dword_0 : Z;           (* ucd_rsp_ptr->header.dword_0 *)
  rsp_dword_1 : Z;
  rsp_dword_2 : Z
}.

Definition lrb_set_cmd (c : option scsi_cmnd) (l : ufshcd_lrb) : ufshcd_lrb :=
  {| cmd := c; command_type := command_type l; task_tag := task_tag l;
     intr_cmd := intr_cmd l; req_abort_skip := req_abort_skip l;
     utrd_dword_2 := utrd_dword_2 l; rsp_dword_0 := rsp_dword_0 l;
     rsp_dword_1 := rsp_dword_1 l; rsp_dword_2 := rsp_dword_2 l |}.

(** Memory-mapped registers the modelled paths touch. *)
Inductive ufs_reg : Set :=
  | REG_UTP_TRANSFER_REQ_DOOR_BELL
  | REG_UTP_TRANSFER_REQ_LIST_CLEAR
  | REG_UTP_TASK_REQ_DOOR_BELL
  | REG_UTP_TRANSFER_REQ_INT_AGG_CONTROL
  | REG_UIC_COMMAND
  | REG_UIC_COMMAND_ARG_1
  | REG_UIC_COMMAND_ARG_2
  | REG_UIC_COMMAND_ARG_3.

#[global] Instance ufs_reg_eq_dec : EqDecision ufs_reg.
Proof. solve_decision. Defined.

(** Work items of the clock-gating work queue. *)
Inductive gating_work : Set := GATE_WORK | UNGATE_WORK.

(** Effects on collaborators and on shared words, in program order. *)
Inductive event : Set :=
  | EvPrepareReqDescHdr (tag : Z) (dir : dma_data_direction)
  | EvPrepareCmdUpiu (tag : Z)
  | EvMapSg (tag : Z) (sg_segments : Z)
  | EvWmb
  | EvSetOutstanding (tag : Z)
  | EvWritel (val : Z) (reg : ufs_reg)
  | EvScsiDmaUnmap (tag : Z)
  | EvScsiDone (tag : Z) (c : scsi_cmnd)
  | EvCopySenseData (tag : Z)
  | EvCompleteDevCmd (tag : Z)
  | EvCompleteUic
  | EvCompleteUicAsync
  | EvWakeUpTagWq
  | EvQueueWork (w : gating_work)
  | EvCancelWork (w : gating_work)
  | EvScsiBlockRequests
  | EvScheduleEehWork
  | EvDisableIntr (intrs : Z)
  | EvEnableIntr (intrs : Z)
  | EvScheduleEhWork.

(** [struct ufs_clk_gating] *)
Record ufs_clk_gating : Set := {
  state : clk_gating_state;
  active_reqs : Z;
  is_suspended : bool;
  gate_work_pending : bool;      (* delayed work pending, not yet running *)
  ungate_work_pending : bool
}.

(** [struct ufs_hba]: the per-adapter instance. *)
Record ufs_hba : Set := {
  (* capabilities and quirks *)
  cap_clk_gating : bool;                 (* UFSHCD_CAP_CLK_GATING        *)
  cap_hibern8_with_clk_gating : bool;    (* UFSHCD_CAP_HIBERN8_WITH_CLK_GATING *)
  cap_clk_scaling : bool;                (* UFSHCD_CAP_CLK_SCALING       *)
  cap_intr_aggr : bool;                  (* UFSHCD_CAP_INTR_AGGR         *)
  quirks : Z;
  nutrs : Z;
  (* slot table *)
  lrb : list ufshcd_lrb;
  lrb_in_use : Z;
  outstanding_reqs : Z;
  outstanding_tasks : Z;
  (* run state *)
  ufshcd_state : Z;
  pm_op_in_progress : bool;
  force_reset : bool;
  (* link control *)
  uic_link_state_of : uic_link_state;
  active_uic_cmd : option uic_command;
  uic_async_done : bool;                 (* pointer is non-NULL *)
  (* device management *)
  dev_cmd_complete : bool;               (* dev_cmd.complete is non-NULL *)
  dev_cmd_done : bool;                   (* ... and the completion it was
                                            last set to has been signalled:
                                            dev_cmd.complete->done != 0 *)
  (* clock gating and scaling *)
  clk_gating : ufs_clk_gating;
  clk_scaling_active_reqs : Z;
  (* hardware *)
  doorbell : Z;                          (* REG_UTP_TRANSFER_REQ_DOOR_BELL *)
  (* effects so far, oldest first *)
  trace : list event
}.

(** Field updates ([hba->f = v]). *)

Definition set_lrb (v : list ufshcd_lrb) (hba : ufs_hba) : ufs_hba :=
  {| cap_clk_gating := cap_clk_gating hba;
     cap_hibern8_with_clk_gating := cap_hibern8_with_clk_gating hba;
     cap_clk_scaling := cap_clk_scaling hba;
     cap_intr_aggr := cap_intr_aggr hba;
     quirks := quirks hba;
     nutrs := nutrs hba;
     lrb := v;
     lrb_in_use := lrb_in_use hba;
     outstanding_reqs := outstanding_reqs hba;
     outstanding_tasks := outstanding_tasks hba;
     ufshcd_state := ufshcd_state hba;
     pm_op_in_progress := pm_op_in_progress hba;
     force_reset := force_reset hba;
     uic_link_state_of := uic_link_state_of hba;
     active_uic_cmd := active_uic_cmd hba;
     uic_async_done := uic_async_done hba;
     dev_cmd_complete := dev_cmd_complete hba;
     dev_cmd_done := dev_cmd_done hba;
     clk_gating := clk_gating hba;
     clk_scaling_active_reqs := clk_scaling_active_reqs hba;
     doorbell := doorbell hba;
     trace := trace hba |}.

Definition set_lrb_in_use (v : Z) (hba : ufs_hba) : ufs_hba :=
  {| cap_clk_gating := cap_clk_gating hba;
     cap_hibern8_with_clk_gating := cap_hibern8_with_clk_gating hba;
     cap_clk_scaling := cap_clk_scaling hba;
     cap_intr_aggr := cap_intr_aggr hba;
     quirks := quirks hba;
     nutrs := nutrs hba;
     lrb := lrb hba;
     lrb_in_use := v;
     outstanding_reqs := outstanding_reqs hba;
     outstanding_tasks := outstanding_tasks hba;
     ufshcd_state := ufshcd_state hba;
     pm_op_in_progress := pm_op_in_progress hba;
     force_reset := force_reset hba;
     uic_link_state_of := uic_link_state_of hba;
     active_uic_cmd := active_uic_cmd hba;
     uic_async_done := uic_async_done hba;
     dev_cmd_complete := dev_cmd_complete hba;
     dev_cmd_done := dev_cmd_done hba;
     clk_gating := clk_gating hba;
     clk_scaling_active_reqs := clk_scaling_active_reqs hba;
     doorbell := doorbell hba;
     trace := trace hba |}.

Definition set_outstanding_reqs (v : Z) (hba : ufs_hba) : ufs_hba :=
  {| cap_clk_gating := cap_clk_gating hba;
     cap_hibern8_with_clk_gating := cap_hibern8_with_clk_gating hba;
     cap_clk_scaling := cap_clk_scaling hba;
     cap_intr_aggr := cap_intr_aggr hba;
     quirks := quirks hba;
     nutrs := nutrs hba;
     lrb := lrb hba;
     lrb_in_use := lrb_in_use hba;
     outstanding_reqs := v;
     outstanding_tasks := outstanding_tasks hba;
     ufshcd_state := ufshcd_state hba;
     pm_op_in_progress := pm_op_in_progress hba;
     force_reset := force_reset hba;
     uic_link_state_of := uic_link_state_of hba;
     active_uic_cmd := active_uic_cmd hba;
     uic_async_done := uic_async_done hba;
     dev_cmd_complete := dev_cmd_complete hba;
     dev_cmd_done := dev_cmd_done hba;
     clk_gating := clk_gating hba;
     clk_scaling_active_reqs := clk_scaling_active_reqs hba;
     doorbell := doorbell hba;
     trace := trace hba |}.

Definition set_outstanding_tasks (v : Z) (hba : ufs_hba) : ufs_hba :=
  {| cap_clk_gating := cap_clk_gating hba;
     cap_hibern8_with_clk_gating := cap_hibern8_with_clk_gating hba;
     cap_clk_scaling := cap_clk_scaling hba;
     cap_intr_aggr := cap_intr_aggr hba;
     quirks := quirks hba;
     nutrs := nutrs hba;
     lrb := lrb hba;
     lrb_in_use := lrb_in_use hba;
     outstanding_reqs := outstanding_reqs hba;
     outstanding_tasks := v;
     ufshcd_state := ufshcd_state hba;
     pm_op_in_progress := pm_op_in_progress hba;
     force_reset := force_reset hba;
     uic_link_state_of := uic_link_state_of hba;
     active_uic_cmd := active_uic_cmd hba;
     uic_async_done := uic_async_done hba;
     dev_cmd_complete := dev_cmd_complete hba;
     dev_cmd_done := dev_cmd_done hba;
     clk_gating := clk_gating hba;
     clk_scaling_active_reqs := clk_scaling_active_reqs hba;
     doorbell := doorbell hba;
     trace := trace hba |}.

Definition set_ufshcd_state (v : Z) (hba : ufs_hba) : ufs_hba :=
  {| cap_clk_gating := cap_clk_gating hba;
     cap_hibern8_with_clk_gating := cap_hibern8_with_clk_gating hba;
     cap_clk_scaling := cap_clk_scaling hba;
     cap_intr_aggr := cap_intr_aggr hba;
     quirks := quirks hba;
     nutrs := nutrs hba;
     lrb := lrb hba;
     lrb_in_use := lrb_in_use hba;
     outstanding_reqs := outstanding_reqs hba;
     outstanding_tasks := outstanding_tasks hba;
     ufshcd_state := v;
     pm_op_in_progress := pm_op_in_progress hba;
     force_reset := force_reset hba;
     uic_link_state_of := uic_link_state_of hba;
     active_uic_cmd := active_uic_cmd hba;
     uic_async_done := uic_async_done hba;
     dev_cmd_complete := dev_cmd_complete hba;
     dev_cmd_done := dev_cmd_done hba;
     clk_gating := clk_gating hba;
     clk_scaling_active_reqs := clk_scaling_active_reqs hba;
     doorbell := doorbell hba;
     trace := trace hba |}.

Definition set_force_reset (v : bool) (hba : ufs_hba) : ufs_hba :=
  {| cap_clk_gating := cap_clk_gating hba;
     cap_hibern8_with_clk_gating := cap_hibern8_with_clk_gating hba;
     cap_clk_scaling := cap_clk_scaling hba;
     cap_intr_aggr := cap_intr_aggr hba;
     quirks := quirks hba;
     nutrs := nutrs hba;
     lrb := lrb hba;
     lrb_in_use := lrb_in_use hba;
     outstanding_reqs := outstanding_reqs hba;
     outstanding_tasks := outstanding_tasks hba;
     ufshcd_state := ufshcd_state hba;
     pm_op_in_progress := pm_op_in_progress hba;
     force_reset := v;
     uic_link_state_of := uic_link_state_of hba;
     active_uic_cmd := active_uic_cmd hba;
     uic_async_done := uic_async_done hba;
     dev_cmd_complete := dev_cmd_complete hba;
     dev_cmd_done := dev_cmd_done hba;
     clk_gating := clk_gating hba;
     clk_scaling_active_reqs := clk_scaling_active_reqs hba;
     doorbell := doorbell hba;
     trace := trace hba |}.

Definition set_uic_link_state_of (v : uic_link_state) (hba : ufs_hba) : ufs_hba :=
  {| cap_clk_gating := cap_clk_gating hba;
     cap_hibern8_with_clk_gating := cap_hibern8_with_clk_gating hba;
     cap_clk_scaling := cap_clk_scaling hba;
     cap_intr_aggr := cap_intr_aggr hba;
     quirks := quirks hba;
     nutrs := nutrs hba;
     lrb := lrb hba;
     lrb_in_use := lrb_in_use hba;
     outstanding_reqs := outstanding_reqs hba;
     outstanding_tasks := outstanding_tasks hba;
     ufshcd_state := ufshcd_state hba;
     pm_op_in_progress := pm_op_in_progress hba;
     force_reset := force_reset hba;
     uic_link_state_of := v;
     active_uic_cmd := active_uic_cmd hba;
     uic_async_done := uic_async_done hba;
     dev_cmd_complete := dev_cmd_complete hba;
     dev_cmd_done := dev_cmd_done hba;
     clk_gating := clk_gating hba;
     clk_scaling_active_reqs := clk_scaling_active_reqs hba;
     doorbell := doorbell hba;
     trace := trace hba |}.

Definition set_active_uic_cmd (v : option uic_command) (hba : ufs_hba) : ufs_hba :=
  {| cap_clk_gating := cap_clk_gating hba;
     cap_hibern8_with_clk_gating := cap_hibern8_with_clk_gating hba;
     cap_clk_scaling := cap_clk_scaling hba;
     cap_intr_aggr := cap_intr_aggr hba;
     quirks := quirks hba;
     nutrs := nutrs hba;
     lrb := lrb hba;
     lrb_in_use := lrb_in_use hba;
     outstanding_reqs := outstanding_reqs hba;
     outstanding_tasks := outstanding_tasks hba;
     ufshcd_state := ufshcd_state hba;
     pm_op_in_progress := pm_op_in_progress hba;
     force_reset := force_reset hba;
     uic_link_state_of := uic_link_state_of hba;
     active_uic_cmd := v;
     uic_async_done := uic_async_done hba;
     dev_cmd_complete := dev_cmd_complete hba;
     dev_cmd_done := dev_cmd_done hba;
     clk_gating := clk_gating hba;
     clk_scaling_active_reqs := clk_scaling_active_reqs hba;
     doorbell := doorbell hba;
     trace := trace hba |}.

Definition set_uic_async_done (v : bool) (hba : ufs_hba) : ufs_hba :=
  {| cap_clk_gating := cap_clk_gating hba;
     cap_hibern8_with_clk_gating := cap_hibern8_with_clk_gating hba;
     cap_clk_scaling := cap_clk_scaling hba;
     cap_intr_aggr := cap_intr_aggr hba;
     quirks := quirks hba;
     nutrs := nutrs hba;
     lrb := lrb hba;
     lrb_in_use := lrb_in_use hba;
     outstanding_reqs := outstanding_reqs hba;
     outstanding_tasks := outstanding_tasks hba;
     ufshcd_state := ufshcd_state hba;
     pm_op_in_progress := pm_op_in_progress hba;
     force_reset := force_reset hba;
     uic_link_state_of := uic_link_state_of hba;
     active_uic_cmd := active_uic_cmd hba;
     uic_async_done := v;
     dev_cmd_complete := dev_cmd_complete hba;
     dev_cmd_done := dev_cmd_done hba;
     clk_gating := clk_gating hba;
     clk_scaling_active_reqs := clk_scaling_active_reqs hba;
     doorbell := doorbell hba;
     trace := trace hba |}.

Definition set_dev_cmd_complete (v : bool) (hba : ufs_hba) : ufs_hba :=
  {| cap_clk_gating := cap_clk_gating hba;
     cap_hibern8_with_clk_gating := cap_hibern8_with_clk_gating hba;
     cap_clk_scaling := cap_clk_scaling hba;
     cap_intr_aggr := cap_intr_aggr hba;
     quirks := quirks hba;
     nutrs := nutrs hba;
     lrb := lrb hba;
     lrb_in_use := lrb_in_use hba;
     outstanding_reqs := outstanding_reqs hba;
     outstanding_tasks := outstanding_tasks hba;
     ufshcd_state := ufshcd_state hba;
     pm_op_in_progress := pm_op_in_progress hba;
     force_reset := force_reset hba;
     uic_link_state_of := uic_link_state_of hba;
     active_uic_cmd := active_uic_cmd hba;
     uic_async_done := uic_async_done hba;
     dev_cmd_complete := v;
     dev_cmd_done := dev_cmd_done hba;
     clk_gating := clk_gating hba;
     clk_scaling_active_reqs := clk_scaling_active_reqs hba;
     doorbell := doorbell hba;
     trace := trace hba |}.

Definition set_dev_cmd_done (v : bool) (hba : ufs_hba) : ufs_hba :=
  {| cap_clk_gating := cap_clk_gating hba;
     cap_hibern8_with_clk_gating := cap_hibern8_with_clk_gating hba;
     cap_clk_scaling := cap_clk_scaling hba;
     cap_intr_aggr := cap_intr_aggr hba;
     quirks := quirks hba;
     nutrs := nutrs hba;
     lrb := lrb hba;
     lrb_in_use := lrb_in_use hba;
     outstanding_reqs := outstanding_reqs hba;
     outstanding_tasks := outstanding_tasks hba;
     ufshcd_state := ufshcd_state hba;
     pm_op_in_progress := pm_op_in_progress hba;
     force_reset := force_reset hba;
     uic_link_state_of := uic_link_state_of hba;
     active_uic_cmd := active_uic_cmd hba;
     uic_async_done := uic_async_done hba;
     dev_cmd_complete := dev_cmd_complete hba;
     dev_cmd_done := v;
     clk_gating := clk_gating hba;
     clk_scaling_active_reqs := clk_scaling_active_reqs hba;
     doorbell := doorbell hba;
     trace := trace hba |}.

Definition set_clk_gating (v : ufs_clk_gating) (hba : ufs_hba) : ufs_hba :=
  {| cap_clk_gating := cap_clk_gating hba;
     cap_hibern8_with_clk_gating := cap_hibern8_with_clk_gating hba;
     cap_clk_scaling := cap_clk_scaling hba;
     cap_intr_aggr := cap_intr_aggr hba;
     quirks := quirks hba;
     nutrs := nutrs hba;
     lrb := lrb hba;
     lrb_in_use := lrb_in_use hba;
     outstanding_reqs := outstanding_reqs hba;
     outstanding_tasks := outstanding_tasks hba;
     ufshcd_state := ufshcd_state hba;
     pm_op_in_progress := pm_op_in_progress hba;
     force_reset := force_reset hba;
     uic_link_state_of := uic_link_state_of hba;
     active_uic_cmd := active_uic_cmd hba;
     uic_async_done := uic_async_done hba;
     dev_cmd_complete := dev_cmd_complete hba;
     dev_cmd_done := dev_cmd_done hba;
     clk_gating := v;
     clk_scaling_active_reqs := clk_scaling_active_reqs hba;
     doorbell := doorbell hba;
     trace := trace hba |}.

Definition set_clk_scaling_active_reqs (v : Z) (hba : ufs_hba) : ufs_hba :=
  {| cap_clk_gating := cap_clk_gating hba;
     cap_hibern8_with_clk_gating := cap_hibern8_with_clk_gating hba;
     cap_clk_scaling := cap_clk_scaling hba;
     cap_intr_aggr := cap_intr_aggr hba;
     quirks := quirks hba;
     nutrs := nutrs hba;
     lrb := lrb hba;
     lrb_in_use := lrb_in_use hba;
     outstanding_reqs := outstanding_reqs hba;
     outstanding_tasks := outstanding_tasks hba;
     ufshcd_state := ufshcd_state hba;
     pm_op_in_progress := pm_op_in_progress hba;
     force_reset := force_reset hba;
     uic_link_state_of := uic_link_state_of hba;
     active_uic_cmd := active_uic_cmd hba;
     uic_async_done := uic_async_done hba;
     dev_cmd_complete := dev_cmd_complete hba;
     dev_cmd_done := dev_cmd_done hba;
     clk_gating := clk_gating hba;
     clk_scaling_active_reqs := v;
     doorbell := doorbell hba;
     trace := trace hba |}.

Definition set_doorbell (v : Z) (hba : ufs_hba) : ufs_hba :=
  {| cap_clk_gating := cap_clk_gating hba;
     cap_hibern8_with_clk_gating := cap_hibern8_with_clk_gating hba;
     cap_clk_scaling := cap_clk_scaling hba;
     cap_intr_aggr := cap_intr_aggr hba;
     quirks := quirks hba;
     nutrs := nutrs hba;
     lrb := lrb hba;
     lrb_in_use := lrb_in_use hba;
     outstanding_reqs := outstanding_reqs hba;
     outstanding_tasks := outstanding_tasks hba;
     ufshcd_state := ufshcd_state hba;
     pm_op_in_progress := pm_op_in_progress hba;
     force_reset := force_reset hba;
     uic_link_state_of := uic_link_state_of hba;
     active_uic_cmd := active_uic_cmd hba;
     uic_async_done := uic_async_done hba;
     dev_cmd_complete := dev_cmd_complete hba;
     dev_cmd_done := dev_cmd_done hba;
     clk_gating := clk_gating hba;
     clk_scaling_active_reqs := clk_scaling_active_reqs hba;
     doorbell := v;
     trace := trace hba |}.

Definition set_trace (v : list event) (hba : ufs_hba) : ufs_hba :=
  {| cap_clk_gating := cap_clk_gating hba;
     cap_hibern8_with_clk_gating := cap_hibern8_with_clk_gating hba;
     cap_clk_scaling := cap_clk_scaling hba;
     cap_intr_aggr := cap_intr_aggr hba;
     quirks := quirks hba;
     nutrs := nutrs hba;
     lrb := lrb hba;
     lrb_in_use := lrb_in_use hba;
     outstanding_reqs := outstanding_reqs hba;
     outstanding_tasks := outstanding_tasks hba;
     ufshcd_state := ufshcd_state hba;
     pm_op_in_progress := pm_op_in_progress hba;
     force_reset := force_reset hba;
     uic_link_state_of := uic_link_state_of hba;
     active_uic_cmd := active_uic_cmd hba;
     uic_async_done := uic_async_done hba;
     dev_cmd_complete := dev_cmd_complete hba;
     dev_cmd_done := dev_cmd_done hba;
     clk_gating := clk_gating hba;
     clk_scaling_active_reqs := clk_scaling_active_reqs hba;
     doorbell := doorbell hba;
     trace := v |}.

Definition set_cg_state (v : clk_gating_state) (hba : ufs_hba) : ufs_hba :=
  set_clk_gating
    {| state := v;
       active_reqs := active_reqs (clk_gating hba);
       is_suspended := is_suspended (clk_gating hba);
       gate_work_pending := gate_work_pending (clk_gating hba);
       ungate_work_pending := ungate_work_pending (clk_gating hba) |} hba.

Definition set_cg_active_reqs (v : Z) (hba : ufs_hba) : ufs_hba :=
  set_clk_gating
    {| state := state (clk_gating hba);
       active_reqs := v;
       is_suspended := is_suspended (clk_gating hba);
       gate_work_pending := gate_work_pending (clk_gating hba);
       ungate_work_pending := ungate_work_pending (clk_gating hba) |} hba.

Definition set_cg_is_suspended (v : bool) (hba : ufs_hba) : ufs_hba :=
  set_clk_gating
    {| state := state (clk_gating hba);
       active_reqs := active_reqs (clk_gating hba);
       is_suspended := v;
       gate_work_pending := gate_work_pending (clk_gating hba);
       ungate_work_pending := ungate_work_pending (clk_gating hba) |} hba.

Definition set_cg_gate_work_pending (v : bool) (hba : ufs_hba) : ufs_hba :=
  set_clk_gating
    {| state := state (clk_gating hba);
       active_reqs := active_reqs (clk_gating hba);
       is_suspended := is_suspended (clk_gating hba);
       gate_work_pending := v;
       ungate_work_pending := ungate_work_pending (clk_gating hba) |} hba.

Definition set_cg_ungate_work_pending (v : bool) (hba : ufs_hba) : ufs_hba :=
  set_clk_gating
    {| state := state (clk_gating hba);
       active_reqs := active_reqs (clk_gating hba);
       is_suspended := is_suspended (clk_gating hba);
       gate_work_pending := gate_work_pending (clk_gating hba);
       ungate_work_pending := v |} hba.

(** Append one effect to the trace. *)
Definition emit (e : event) (hba : ufs_hba) : ufs_hba :=
  set_trace (trace hba ++ [e]) hba.

(** ** Clock gating: [ufshcd_hold], [__ufshcd_release], [ufshcd_gate_work],
       [ufshcd_ungate_work] *)

Definition ufshcd_is_clkgating_allowed (hba : ufs_hba) : bool :=
  cap_clk_gating hba.
Definition ufshcd_can_hibern8_during_gating (hba : ufs_hba) : bool :=
  cap_hibern8_with_clk_gating hba.
Definition ufshcd_is_link_hibern8 (hba : ufs_hba) : bool :=
  bool_decide (uic_link_state_of hba = UIC_LINK_HIBERN8_STATE).
Definition ufshcd_is_link_active (hba : ufs_hba) : bool :=
  bool_decide (uic_link_state_of hba = UIC_LINK_ACTIVE_STATE).
Definition ufshcd_is_link_broken (hba : ufs_hba) : bool :=
  bool_decide (uic_link_state_of hba = UIC_LINK_BROKEN_STATE).

(** Work-queue primitives on the two gating work items.
    [cancel_delayed_work] reports whether the work was pending and takes it
    off the queue; [queue_work] and [queue_delayed_work] report whether the
    work was newly queued. *)
Definition cancel_delayed_work_gate (hba : ufs_hba) : bool * ufs_hba :=
  (gate_work_pending (clk_gating hba),
   emit (EvCancelWork GATE_WORK) (set_cg_gate_work_pending false hba)).

Definition queue_work_ungate (hba : ufs_hba) : bool * ufs_hba :=
  (negb (ungate_work_pending (clk_gating hba)),
   emit (EvQueueWork UNGATE_WORK) (set_cg_ungate_work_pending true hba)).

Definition queue_delayed_work_gate (hba : ufs_hba) : bool * ufs_hba :=
  (negb (gate_work_pending (clk_gating hba)),
   emit (EvQueueWork GATE_WORK) (set_cg_gate_work_pending true hba)).

(** How one pass through the body of [ufshcd_hold] ends: the function
    returns [rc], or the caller drops the host lock and sleeps in
    [flush_work(&ungate_work)] before jumping back to [start]
    ([from_clks_on] tells the two [flush_work] sites apart). *)
Inductive hold_outcome : Set :=
  | HoldReturn (rc : Z)
  | HoldFlushUngate (from_clks_on : bool).

Section ClockGating.
Context `{UfsHeaders}.

Definition cg_inc_active_reqs (hba : ufs_hba) : ufs_hba :=
  set_cg_active_reqs (sint32 (active_reqs (clk_gating hba) + 1)) hba.
Definition cg_dec_active_reqs (hba : ufs_hba) : ufs_hba :=
  set_cg_active_reqs (sint32 (active_reqs (clk_gating hba) - 1)) hba.

(** [case REQ_CLKS_ON:] *)
Definition hold_case_req_clks_on (async : bool) (hba : ufs_hba)
  : hold_outcome * ufs_hba :=
  if async then (HoldReturn (- EAGAIN), cg_dec_active_reqs hba)
  else (HoldFlushUngate false, hba).

(** [case CLKS_OFF:], falling through to [REQ_CLKS_ON] *)
Definition hold_case_clks_off (async : bool) (hba : ufs_hba)
  : hold_outcome * ufs_hba :=
  let hba := set_cg_state REQ_CLKS_ON hba in
  let '(queued, hba) := queue_work_ungate hba in
  let hba := if queued then emit EvScsiBlockRequests hba else hba in
  hold_case_req_clks_on async hba.

(** The [switch] at label [start], host lock held. *)
Definition ufshcd_hold_start (async : bool) (hba : ufs_hba)
  : hold_outcome * ufs_hba :=
  match state (clk_gating hba) with
  | CLKS_ON =>
      if ufshcd_can_hibern8_during_gating hba && ufshcd_is_link_hibern8 hba
      then
        if async then (HoldReturn (- EAGAIN), cg_dec_active_reqs hba)
        else (HoldFlushUngate true, hba)
      else (HoldReturn 0, hba)
  | REQ_CLKS_OFF =>
      let '(cancelled, hba') := cancel_delayed_work_gate hba in
      if cancelled then (HoldReturn 0, set_cg_state CLKS_ON hba')
      else hold_case_clks_off async hba'
  | CLKS_OFF => hold_case_clks_off async hba
  | REQ_CLKS_ON => hold_case_req_clks_on async hba
  end.

(** [ufshcd_hold] up to its first return or sleep. *)
Definition ufshcd_hold (async : bool) (hba : ufs_hba)
  : hold_outcome * ufs_hba :=
  if negb (ufshcd_is_clkgating_allowed hba) then (HoldReturn 0, hba)
  else ufshcd_hold_start async (cg_inc_active_reqs hba).

(** Continuation after [flush_work] came back with [flush_result]. *)
Definition ufshcd_hold_resume (from_clks_on flush_result async : bool)
    (hba : ufs_hba) : hold_outcome * ufs_hba :=
  if from_clks_on && is_suspended (clk_gating hba) && negb flush_result
  then (HoldReturn 0, hba)
  else ufshcd_hold_start async hba.

(** The condition under which neither [__ufshcd_release] nor
    [ufshcd_gate_work] may start gating (the part the two share). *)
Definition gating_blocked (hba : ufs_hba) : bool :=
  negb (active_reqs (clk_gating hba) =? 0)
  || negb (ufshcd_state hba =? UFSHCD_STATE_OPERATIONAL)
  || negb (lrb_in_use hba =? 0)
  || negb (outstanding_tasks hba =? 0)
  || bool_decide (active_uic_cmd hba <> None)
  || uic_async_done hba.

(** [__ufshcd_release]; the host lock is held by the caller. *)
Definition __ufshcd_release (hba : ufs_hba) : ufs_hba :=
  if negb (ufshcd_is_clkgating_allowed hba) then hba
  else
    let hba := cg_dec_active_reqs hba in
    if negb (active_reqs (clk_gating hba) =? 0)
       || is_suspended (clk_gating hba)
       || negb (ufshcd_state hba =? UFSHCD_STATE_OPERATIONAL)
       || negb (lrb_in_use hba =? 0)
       || negb (outstanding_tasks hba =? 0)
       || bool_decide (active_uic_cmd hba <> None)
       || uic_async_done hba
    then hba
    else snd (queue_delayed_work_gate (set_cg_state REQ_CLKS_OFF hba)).

Definition ufshcd_release (hba : ufs_hba) : ufs_hba := __ufshcd_release hba.

(** [ufshcd_gate_work], first critical section: decide whether to gate.
    [true] means the work goes on to switch the clocks off. *)
Definition ufshcd_gate_work_check (hba : ufs_hba) : bool * ufs_hba :=
  if OPLUS_FEATURE_UFS_DRIVER
     && bool_decide (state (clk_gating hba) = CLKS_OFF)
  then (false, hba)
  else if is_suspended (clk_gating hba)
          || bool_decide (state (clk_gating hba) <> REQ_CLKS_OFF)
  then (false, set_cg_state CLKS_ON hba)
  else if gating_blocked hba then (false, hba)
  else (true, hba).

(** [ufshcd_gate_work], host lock dropped: park the link ([h8_ret] is
    what [ufshcd_uic_hibern8_enter] returned) and switch the clocks off.
    [true] means the work reaches its second critical section. *)
Definition ufshcd_gate_work_clocks (h8_ret : Z) (hba : ufs_hba)
  : bool * ufs_hba :=
  if ufshcd_can_hibern8_during_gating hba then
    if negb (h8_ret =? 0) then (false, set_cg_state CLKS_ON hba)
    else (true, set_uic_link_state_of UIC_LINK_HIBERN8_STATE hba)
  else (true, hba).

(** [ufshcd_gate_work], second critical section. *)
Definition ufshcd_gate_work_finish (hba : ufs_hba) : ufs_hba :=
  if bool_decide (state (clk_gating hba) = REQ_CLKS_OFF)
  then set_cg_state CLKS_OFF hba
  else hba.

(** The whole work function when nothing else runs in between. *)
Definition ufshcd_gate_work (h8_ret : Z) (hba : ufs_hba) : ufs_hba :=
  let '(go, hba) := ufshcd_gate_work_check hba in
  if go then
    let '(go, hba) := ufshcd_gate_work_clocks h8_ret hba in
    if go then ufshcd_gate_work_finish hba else hba
  else hba.

(** [ufshcd_ungate_work] after [cancel_delayed_work_sync(&gate_work)]:
    [clk_ret] is what [ufshcd_setup_clocks(hba, true)] returned (it sets
    [CLKS_ON] on success), [h8_ret] what [ufshcd_uic_hibern8_exit] did. *)
Definition ufshcd_ungate_work (clk_ret h8_ret : Z) (hba : ufs_hba)
  : ufs_hba :=
  let hba := set_cg_gate_work_pending false hba in
  if bool_decide (state (clk_gating hba) = CLKS_ON) then hba
  else
    let hba := if clk_ret =? 0 then set_cg_state CLKS_ON hba else hba in
    if ufshcd_can_hibern8_during_gating hba then
      let hba := set_cg_is_suspended true hba in
      let hba :=
        if ufshcd_is_link_hibern8 hba && (h8_ret =? 0)
        then set_uic_link_state_of UIC_LINK_ACTIVE_STATE hba
        else hba in
      set_cg_is_suspended false hba
    else hba.

End ClockGating.

(** ** Register access *)

(** [ufshcd_writel]: the write is recorded; for the transfer-request
    doorbell the register keeps the bits written to it set until the
    controller clears them at completion. *)
Definition ufshcd_writel (val : Z) (reg : ufs_reg) (hba : ufs_hba) : ufs_hba :=
  let hba := emit (EvWritel val reg) hba in
  match reg with
  | REG_UTP_TRANSFER_REQ_DOOR_BELL =>
      set_doorbell (Z.lor (doorbell hba) val) hba
  | _ => hba
  end.

(** [ufshcd_readl(hba, REG_UTP_TRANSFER_REQ_DOOR_BELL)] *)
Definition ufshcd_readl_doorbell (hba : ufs_hba) : Z := uint32 (doorbell hba).

(** ** Slot table: [lrb] access *)

Definition lrb_at (hba : ufs_hba) (tag : Z) : option ufshcd_lrb :=
  lrb hba !! Z.to_nat tag.

Definition lrb_update (tag : Z) (f : ufshcd_lrb -> ufshcd_lrb) (hba : ufs_hba)
  : ufs_hba :=
  set_lrb (alter f (Z.to_nat tag) (lrb hba)) hba.

(** [lrbp->cmd = cmd; lrbp->task_tag = tag; lrbp->intr_cmd = ...] *)
Definition lrb_bind_cmd (c : scsi_cmnd) (tag : Z) (intr : bool)
    (l : ufshcd_lrb) : ufshcd_lrb :=
  {| cmd := Some c; command_type := command_type l; task_tag := tag;
     intr_cmd := intr; req_abort_skip := req_abort_skip l;
     utrd_dword_2 := utrd_dword_2 l; rsp_dword_0 := rsp_dword_0 l;
     rsp_dword_1 := rsp_dword_1 l; rsp_dword_2 := rsp_dword_2 l |}.

(** [lrbp->req_abort_skip = false], the command type chosen by
    [ufshcd_comp_scsi_upiu] and the overall command status written by
    [ufshcd_prepare_req_desc_hdr]. *)
Definition lrb_compose (ty : utp_cmd_type) (ocs : Z) (l : ufshcd_lrb)
  : ufshcd_lrb :=
  {| cmd := cmd l; command_type := ty; task_tag := task_tag l;
     intr_cmd := intr_cmd l; req_abort_skip := false;
     utrd_dword_2 := ocs; rsp_dword_0 := rsp_dword_0 l;
     rsp_dword_1 := rsp_dword_1 l; rsp_dword_2 := rsp_dword_2 l |}.

(** ** Submission: [ufshcd_send_command], [ufshcd_queuecommand],
       [ufshcd_get_dev_cmd_tag] *)

(** What the collaborators called by [ufshcd_queuecommand] answer. *)
Record qc_env : Set := {
  qc_trylock : bool;          (* down_read_trylock(&hba->clk_scaling_lock) *)
  qc_legacy_version : bool;   (* ufs_version is UFSHCI 1.0 or 1.1          *)
  qc_crypto_err : Z;          (* ufshcd_prepare_lrbp_crypto                *)
  qc_sg_segments : Z;         (* scsi_dma_map                              *)
  qc_sg_crypto_err : Z        (* ufshcd_map_sg_crypto                      *)
}.

Inductive qc_result : Set :=
  | QcBug                     (* BUG() *)
  | QcReturn (err : Z).

Definition hold_rc (o : hold_outcome) : Z :=
  match o with HoldReturn rc => rc | HoldFlushUngate _ => 0 end.

Section Submission.
Context `{UfsHeaders}.

Definition ufshcd_valid_tag (hba : ufs_hba) (tag : Z) : bool :=
  (0 <=? tag) && (tag <? nutrs hba).

Definition ufshcd_is_clkscaling_supported (hba : ufs_hba) : bool :=
  cap_clk_scaling hba.
Definition ufshcd_is_intr_aggr_allowed (hba : ufs_hba) : bool :=
  cap_intr_aggr hba.

(** [ufshcd_clk_scaling_start_busy]: the request counter; the busy-time
    stopwatch is kept by the sampling policy. *)
Definition ufshcd_clk_scaling_start_busy (hba : ufs_hba) : ufs_hba :=
  if negb (ufshcd_is_clkscaling_supported hba) then hba
  else set_clk_scaling_active_reqs
         (sint32 (clk_scaling_active_reqs hba + 1)) hba.

Definition ufshcd_send_command (task_tag : Z) (hba : ufs_hba) : ufs_hba :=
  let hba := ufshcd_clk_scaling_start_busy hba in
  let hba := emit (EvSetOutstanding task_tag)
               (set_outstanding_reqs
                  (Bitops.set_bit task_tag (outstanding_reqs hba)) hba) in
  let hba := ufshcd_writel (uint32 (Z.shiftl 1 task_tag))
               REG_UTP_TRANSFER_REQ_DOOR_BELL hba in
  emit EvWmb hba.

(** [ufshcd_comp_scsi_upiu]: command type, descriptor header
    ([ufshcd_prepare_req_desc_hdr]) and command UPIU. *)
Definition ufshcd_comp_scsi_upiu (env : qc_env) (c : scsi_cmnd) (tag : Z)
    (hba : ufs_hba) : ufs_hba :=
  let ty := if qc_legacy_version env then UTP_CMD_TYPE_SCSI
            else UTP_CMD_TYPE_UFS_STORAGE in
  let hba := lrb_update tag (lrb_compose ty OCS_INVALID_COMMAND_STATUS)
               hba in
  let hba := emit (EvPrepareReqDescHdr tag (sc_data_direction c)) hba in
  emit (EvPrepareCmdUpiu tag) hba.

(** [ufshcd_map_sg]: builds the PRD table from the mapped scatterlist. *)
Definition ufshcd_map_sg (env : qc_env) (tag : Z) (hba : ufs_hba)
  : Z * ufs_hba :=
  if qc_sg_segments env <? 0 then (qc_sg_segments env, hba)
  else (qc_sg_crypto_err env, emit (EvMapSg tag (qc_sg_segments env)) hba).

(** Error exits that give the slot and the clock reference back:
    [ufshcd_release; lrbp->cmd = NULL; clear_bit_unlock]. *)
Definition qc_undo (tag : Z) (hba : ufs_hba) : ufs_hba :=
  let hba := ufshcd_release hba in
  let hba := lrb_update tag (lrb_set_cmd None) hba in
  set_lrb_in_use (Bitops.clear_bit tag (lrb_in_use hba)) hba.

(** Label [out_compl_cmd]. *)
Definition qc_out_compl_cmd (err : Z) (c : scsi_cmnd) (tag : Z)
    (hba : ufs_hba) : qc_result * ufs_hba :=
  let hba := emit (EvScsiDmaUnmap tag) hba in
  let hba := lrb_update tag (lrb_set_cmd None) hba in
  let hba := set_lrb_in_use (Bitops.clear_bit tag (lrb_in_use hba)) hba in
  let hba := ufshcd_release hba in
  let hba := if err =? 0 then emit (EvScsiDone tag c) hba else hba in
  (QcReturn err, hba).

(** The critical section of [ufshcd_queuecommand]: the run-state switch
    and, when the state allows it, [ufshcd_send_command]. *)
Definition ufshcd_queuecommand_issue (c : scsi_cmnd) (tag : Z)
    (hba : ufs_hba) : qc_result * ufs_hba :=
  let st := ufshcd_state hba in
  if (st =? UFSHCD_STATE_OPERATIONAL)
     || (st =? UFSHCD_STATE_EH_SCHEDULED_NON_FATAL)
  then (QcReturn 0, ufshcd_send_command tag hba)
  else if (st =? UFSHCD_STATE_EH_SCHEDULED_FATAL) && pm_op_in_progress hba
  then
    qc_out_compl_cmd 0
      (cmd_set_result (set_host_byte (result c) DID_BAD_TARGET) c) tag
      (set_force_reset true hba)
  else if (st =? UFSHCD_STATE_EH_SCHEDULED_FATAL)
          || (st =? UFSHCD_STATE_RESET)
  then qc_out_compl_cmd SCSI_MLQUEUE_HOST_BUSY c tag hba
  else if st =? UFSHCD_STATE_ERROR
  then
    qc_out_compl_cmd 0
      (cmd_set_result (set_host_byte (result c) DID_ERROR) c) tag hba
  else
    qc_out_compl_cmd 0
      (cmd_set_result (set_host_byte (result c) DID_BAD_TARGET) c) tag hba.

(** The block of [ufshcd_queuecommand] that is compiled under
    [OPLUS_FEATURE_UFSPLUS] with [CONFIG_UFSFEATURE] and
    [CONFIG_UFSHPB]: a requeued command that is not a READ(10) hits
    [BUG_ON(cmd->requeue_cnt)]; a requeued READ(10) leaves with
    [-EAGAIN]. *)
Definition ufshpb_built : bool :=
  OPLUS_FEATURE_UFSPLUS && CONFIG_UFSFEATURE && CONFIG_UFSHPB.
Definition requeued_not_read (c : scsi_cmnd) : bool :=
  negb (cmnd0 c =? 0x28) && negb (requeue_cnt c =? 0).

(** Everything between a successful [ufshcd_hold] and the critical
    section: slot set-up, UPIU composition, the requeue check,
    scatter-gather mapping and the barrier. *)
Definition ufshcd_queuecommand_prepare (env : qc_env) (c : scsi_cmnd)
    (tag : Z) (hba : ufs_hba) : option qc_result * ufs_hba :=
  let hba := lrb_update tag
               (lrb_bind_cmd c tag (negb (ufshcd_is_intr_aggr_allowed hba)))
               hba in
  if negb (qc_crypto_err env =? 0)
  then (Some (QcReturn (qc_crypto_err env)), qc_undo tag hba)
  else
    let hba := ufshcd_comp_scsi_upiu env c tag hba in
    if ufshpb_built && requeued_not_read c then (Some QcBug, hba)
    else if ufshpb_built && negb (requeue_cnt c =? 0)
    then (Some (QcReturn (- EAGAIN)), qc_undo tag hba)
    else
      let '(err, hba) := ufshcd_map_sg env tag hba in
      if negb (err =? 0) then (Some (QcReturn err), qc_undo tag hba)
      else (None, emit EvWmb hba).

(** [ufshcd_queuecommand] up to the critical section, when nothing
    else runs in between: either the function has already returned
    (left), or it arrives at [spin_lock_irqsave] with the slot claimed,
    the clocks held and the descriptors built (right). *)
Definition ufshcd_queuecommand_front (env : qc_env) (c : scsi_cmnd)
    (hba : ufs_hba) : (qc_result * ufs_hba) + ufs_hba :=
  let tag := request_tag c in
  if negb (ufshcd_valid_tag hba tag) then inl (QcBug, hba)
  else if negb (qc_trylock env)
  then inl (QcReturn SCSI_MLQUEUE_HOST_BUSY, hba)
  else
    let '(was_set, in_use) :=
      Bitops.test_and_set_bit_lock tag (lrb_in_use hba) in
    if was_set then inl (QcReturn SCSI_MLQUEUE_HOST_BUSY, hba)
    else
      let hba := set_lrb_in_use in_use hba in
      let '(o, hba) := ufshcd_hold true hba in
      if negb (hold_rc o =? 0) then
        inl (QcReturn SCSI_MLQUEUE_HOST_BUSY,
             set_lrb_in_use (Bitops.clear_bit tag (lrb_in_use hba)) hba)
      else
        match ufshcd_queuecommand_prepare env c tag hba with
        | (Some r, hba) => inl (r, hba)
        | (None, hba) => inr hba
        end.

(** [ufshcd_queuecommand] *)
Definition ufshcd_queuecommand (env : qc_env) (c : scsi_cmnd)
    (hba : ufs_hba) : qc_result * ufs_hba :=
  match ufshcd_queuecommand_front env c hba with
  | inl r => r
  | inr hba => ufshcd_queuecommand_issue c (request_tag c) hba
  end.

(** One round of the loop of [ufshcd_get_dev_cmd_tag], split at its two
    accesses to [lrb_in_use]: the read that picks a candidate ... *)
Definition dev_cmd_tag_candidate (hba_nutrs : Z) (in_use : Z) : option Z :=
  let tmp := ulong (Z.lnot in_use) in
  let tag := Bitops.find_last_bit tmp hba_nutrs in
  if tag >=? hba_nutrs then None else Some tag.

(** ... and the whole function when nothing else touches the bitmap in
    between ([None] is the [false] return). *)
Definition ufshcd_get_dev_cmd_tag (hba : ufs_hba) : option Z * ufs_hba :=
  match dev_cmd_tag_candidate (nutrs hba) (lrb_in_use hba) with
  | None => (None, hba)
  | Some tag =>
      let '(_, in_use) :=
        Bitops.test_and_set_bit_lock tag (lrb_in_use hba) in
      (Some tag, set_lrb_in_use in_use hba)
  end.

Definition ufshcd_put_dev_cmd_tag (tag : Z) (hba : ufs_hba) : ufs_hba :=
  set_lrb_in_use (Bitops.clear_bit tag (lrb_in_use hba)) hba.

End Submission.

(** ** Completion: [ufshcd_transfer_rsp_status],
       [__ufshcd_transfer_req_compl], [ufshcd_transfer_req_compl] *)

Inductive irqreturn_t : Set := IRQ_NONE | IRQ_HANDLED.

Section Completion.
Context `{UfsHeaders}.

Definition ufshcd_get_tr_ocs (lrbp : ufshcd_lrb) : Z :=
  Z.land (utrd_dword_2 lrbp) MASK_OCS.
Definition ufshcd_get_req_rsp (lrbp : ufshcd_lrb) : Z :=
  Z.shiftr (rsp_dword_0 lrbp) 24.
Definition ufshcd_get_rsp_upiu_result (lrbp : ufshcd_lrb) : Z :=
  Z.land (rsp_dword_1 lrbp) MASK_RSP_UPIU_RESULT.
Definition ufshcd_is_exception_event (lrbp : ufshcd_lrb) : bool :=
  negb (Z.land (rsp_dword_2 lrbp) MASK_RSP_EXCEPTION_EVENT =? 0).

(** [ufshcd_scsi_cmd_status]: the result word and the effects (sense
    data copied to the caller's buffer). *)
Definition ufshcd_scsi_cmd_status (lrbp : ufshcd_lrb) (scsi_status : Z)
  : Z * list event :=
  if scsi_status =? SAM_STAT_CHECK_CONDITION then
    (Z.lor (Z.lor (Z.shiftl DID_OK 16) (Z.shiftl COMMAND_COMPLETE 8))
       scsi_status,
     [EvCopySenseData (task_tag lrbp)])
  else if scsi_status =? SAM_STAT_GOOD then
    (Z.lor (Z.lor (Z.shiftl DID_OK 16) (Z.shiftl COMMAND_COMPLETE 8))
       scsi_status,
     [])
  else if (scsi_status =? SAM_STAT_TASK_SET_FULL)
          || (scsi_status =? SAM_STAT_BUSY)
          || (scsi_status =? SAM_STAT_TASK_ABORTED) then
    (scsi_status, [EvCopySenseData (task_tag lrbp)])
  else (Z.shiftl DID_ERROR 16, []).

(** [ufshcd_transfer_rsp_status]: maps the overall command status of the
    descriptor (and, on success, the response UPIU) to the SCSI result. *)
Definition ufshcd_transfer_rsp_status (hba : ufs_hba) (lrbp : ufshcd_lrb)
  : Z * list event :=
  let ocs := ufshcd_get_tr_ocs lrbp in
  let ocs :=
    if negb (Z.land (quirks hba) UFSHCD_QUIRK_BROKEN_OCS_FATAL_ERROR =? 0)
       && negb (Z.land (rsp_dword_1 lrbp) MASK_RSP_UPIU_RESULT =? 0)
    then OCS_SUCCESS else ocs in
  if ocs =? OCS_SUCCESS then
    let rsp := ufshcd_get_req_rsp lrbp in
    if rsp =? UPIU_TRANSACTION_RESPONSE then
      let scsi_status :=
        Z.land (ufshcd_get_rsp_upiu_result lrbp) MASK_SCSI_STATUS in
      let '(res, evs) := ufshcd_scsi_cmd_status lrbp scsi_status in
      (res,
       evs ++ (if negb (pm_op_in_progress hba)
                  && ufshcd_is_exception_event lrbp
               then [EvScheduleEehWork] else []))
    else (Z.shiftl DID_ERROR 16, [])
  else if ocs =? OCS_ABORTED then (Z.shiftl DID_ABORT 16, [])
  else if ocs =? OCS_INVALID_COMMAND_STATUS
  then (Z.shiftl DID_REQUEUE 16, [])
  else (Z.shiftl DID_ERROR 16, []).

(** [if (ufshcd_is_clkscaling_supported(hba))
        hba->clk_scaling.active_reqs--;] *)
Definition clk_scaling_dec_active_reqs (hba : ufs_hba) : ufs_hba :=
  if ufshcd_is_clkscaling_supported hba
  then set_clk_scaling_active_reqs
         (sint32 (clk_scaling_active_reqs hba - 1)) hba
  else hba.

(** Body of the [for_each_set_bit] loop of
    [__ufshcd_transfer_req_compl] for one [index]: the [if (cmd) ...
    else if (...)] part. *)
Definition transfer_req_compl_cmd (index : Z) (hba : ufs_hba) : ufs_hba :=
  match lrb_at hba index with
  | None => hba
  | Some lrbp =>
      match cmd lrbp with
      | Some c =>
          let '(res, evs) := ufshcd_transfer_rsp_status hba lrbp in
          let hba := set_trace (trace hba ++ evs) hba in
          let hba := emit (EvScsiDmaUnmap index) hba in
          let c := cmd_set_result res c in
          let hba := lrb_update index (lrb_set_cmd None) hba in
          let hba :=
            set_lrb_in_use (Bitops.clear_bit index (lrb_in_use hba)) hba in
          let hba := emit (EvScsiDone index c) hba in
          __ufshcd_release hba
      | None =>
          if bool_decide (command_type lrbp = UTP_CMD_TYPE_DEV_MANAGE)
             || bool_decide (command_type lrbp = UTP_CMD_TYPE_UFS_STORAGE)
          then
            if dev_cmd_complete hba
            then emit (EvCompleteDevCmd index) (set_dev_cmd_done true hba)
            else hba
          else hba
      end
  end.

(** One iteration of the loop. *)
Definition transfer_req_compl_slot (index : Z) (hba : ufs_hba) : ufs_hba :=
  clk_scaling_dec_active_reqs (transfer_req_compl_cmd index hba).

Definition __ufshcd_transfer_req_compl (completed_reqs : Z) (hba : ufs_hba)
  : ufs_hba :=
  let hba :=
    foldl (fun h index => transfer_req_compl_slot index h) hba
      (Bitops.for_each_set_bit completed_reqs (nutrs hba)) in
  let hba :=
    set_outstanding_reqs (Z.lxor (outstanding_reqs hba) completed_reqs)
      hba in
  emit EvWakeUpTagWq hba.

Definition ufshcd_reset_intr_aggr (hba : ufs_hba) : ufs_hba :=
  ufshcd_writel (Z.lor INT_AGGR_ENABLE INT_AGGR_COUNTER_AND_TIMER_RESET)
    REG_UTP_TRANSFER_REQ_INT_AGG_CONTROL hba.

(** The completed set computed by [ufshcd_transfer_req_compl]. *)
Definition completed_reqs_of (hba : ufs_hba) : Z :=
  Z.lxor (ufshcd_readl_doorbell hba) (outstanding_reqs hba).

Definition ufshcd_transfer_req_compl (hba : ufs_hba)
  : irqreturn_t * ufs_hba :=
  let hba :=
    if ufshcd_is_intr_aggr_allowed hba
       && (Z.land (quirks hba) UFSHCI_QUIRK_SKIP_RESET_INTR_AGGR =? 0)
    then ufshcd_reset_intr_aggr hba else hba in
  let completed_reqs := completed_reqs_of hba in
  if negb (completed_reqs =? 0)
  then (IRQ_HANDLED, __ufshcd_transfer_req_compl completed_reqs hba)
  else (IRQ_NONE, hba).

End Completion.

(** ** Link control channel: [ufshcd_uic_cmd_compl],
       [ufshcd_wait_for_uic_cmd], [ufshcd_uic_pwr_ctrl] *)

Definition uic_set_cmd_active (v : Z) (c : uic_command) : uic_command :=
  {| command := command c; argument1 := argument1 c;
     argument2 := argument2 c; argument3 := argument3 c; cmd_active := v |}.

Definition uic_set_result (a2 a3 : Z) (c : uic_command) : uic_command :=
  {| command := command c; argument1 := argument1 c;
     argument2 := a2; argument3 := a3; cmd_active := cmd_active c |}.

(** What the hardware and the scheduler answer while one power-mode
    command runs. *)
Record pwr_env : Set := {
  pe_ready : bool;           (* REG_CONTROLLER_STATUS & UIC_COMMAND_READY   *)
  pe_intr_enabled : bool;    (* REG_INTERRUPT_ENABLE & UIC_COMMAND_COMPL    *)
  pe_irq : option (Z * Z * Z);
                             (* interrupt status and the two result
                                registers, if the handler runs before the
                                waiter looks at the command again           *)
  pe_in_time : bool;         (* ... and whether it ran before the timeout   *)
  pe_hcs : Z                 (* REG_CONTROLLER_STATUS read at check_upmcrs  *)
}.

Section LinkControl.
Context `{UfsHeaders}.

(** [ufshcd_uic_cmd_compl]; [reg_arg2] and [reg_arg3] are the values of
    REG_UIC_COMMAND_ARG_2 and REG_UIC_COMMAND_ARG_3. *)
Definition ufshcd_uic_cmd_compl (intr_status reg_arg2 reg_arg3 : Z)
    (hba : ufs_hba) : irqreturn_t * ufs_hba :=
  let '(r1, hba) :=
    match active_uic_cmd hba with
    | Some c =>
        if negb (Z.land intr_status UIC_COMMAND_COMPL =? 0) then
          let c := uic_set_result
                     (Z.lor (argument2 c)
                        (Z.land reg_arg2 MASK_UIC_COMMAND_RESULT))
                     reg_arg3 c in
          let c := if negb (uic_async_done hba)
                   then uic_set_cmd_active 0 c else c in
          (IRQ_HANDLED, emit EvCompleteUic (set_active_uic_cmd (Some c) hba))
        else (IRQ_NONE, hba)
    | None => (IRQ_NONE, hba)
    end in
  let '(r2, hba) :=
    if negb (Z.land intr_status UFSHCD_UIC_PWR_MASK =? 0)
       && uic_async_done hba
    then
      let hba :=
        match active_uic_cmd hba with
        | Some c => set_active_uic_cmd (Some (uic_set_cmd_active 0 c)) hba
        | None => hba
        end in
      (IRQ_HANDLED, emit EvCompleteUicAsync hba)
    else (r1, hba) in
  (r2, hba).

(** [ufshcd_dispatch_uic_cmd] after [uic_cmd->cmd_active = 1]. *)
Definition ufshcd_dispatch_uic_cmd (uic_cmd : uic_command) (hba : ufs_hba)
  : ufs_hba :=
  let hba := set_active_uic_cmd (Some uic_cmd) hba in
  let hba := ufshcd_writel (argument1 uic_cmd) REG_UIC_COMMAND_ARG_1 hba in
  let hba := ufshcd_writel (argument2 uic_cmd) REG_UIC_COMMAND_ARG_2 hba in
  let hba := ufshcd_writel (argument3 uic_cmd) REG_UIC_COMMAND_ARG_3 hba in
  let hba := ufshcd_writel (Z.land (command uic_cmd) COMMAND_OPCODE_MASK)
               REG_UIC_COMMAND hba in
  emit EvWmb hba.

Definition __ufshcd_send_uic_cmd (ready : bool) (uic_cmd : uic_command)
    (hba : ufs_hba) : Z * ufs_hba :=
  if negb ready then (- EIO, hba)
  else (0, ufshcd_dispatch_uic_cmd (uic_set_cmd_active 1 uic_cmd) hba).

(** [ufshcd_wait_for_uic_cmd]: [completed] is whether
    [wait_for_completion_timeout] saw the completion before the
    timeout; [uic_cmd] is the command as the waiter finds it. *)
Definition ufshcd_wait_for_uic_cmd (completed : bool)
    (uic_cmd : uic_command) (hba : ufs_hba) : Z * ufs_hba :=
  let ret :=
    if completed then Z.land (argument2 uic_cmd) MASK_UIC_COMMAND_RESULT
    else if cmd_active uic_cmd =? 0
         then Z.land (argument2 uic_cmd) MASK_UIC_COMMAND_RESULT
         else - ETIMEDOUT in
  (ret, set_active_uic_cmd None hba).

(** The command as its issuer sees it: the issuer's [struct uic_command]
    is the object [hba->active_uic_cmd] points to. *)
Definition issuer_view (dflt : uic_command) (hba : ufs_hba) : uic_command :=
  default dflt (active_uic_cmd hba).

(** Whether one run of the handler signals [uic_cmd->done], respectively
    [hba->uic_async_done]. *)
Definition signals_done (intr_status : Z) (hba : ufs_hba) : bool :=
  negb (Z.land intr_status UIC_COMMAND_COMPL =? 0)
  && bool_decide (active_uic_cmd hba <> None).
Definition signals_async_done (intr_status : Z) (hba : ufs_hba) : bool :=
  negb (Z.land intr_status UFSHCD_UIC_PWR_MASK =? 0) && uic_async_done hba.

Definition run_irq (env : pwr_env) (hba : ufs_hba) : ufs_hba :=
  match pe_irq env with
  | Some (st, a2, a3) => snd (ufshcd_uic_cmd_compl st a2 a3 hba)
  | None => hba
  end.

(** [ufshcd_send_uic_cmd] between taking and dropping [uic_cmd_mutex]
    (the caller's [ufshcd_hold]/[ufshcd_release] pair is outside). *)
Definition ufshcd_send_uic_cmd (env : pwr_env) (uic_cmd : uic_command)
    (hba : ufs_hba) : Z * ufs_hba :=
  let '(ret, hba) := __ufshcd_send_uic_cmd (pe_ready env) uic_cmd hba in
  if negb (ret =? 0) then (ret, hba)
  else
    let completed :=
      match pe_irq env with
      | Some (st, _, _) => pe_in_time env && signals_done st hba
      | None => false
      end in
    let hba := run_irq env hba in
    ufshcd_wait_for_uic_cmd completed (issuer_view uic_cmd hba) hba.

(** [ufshcd_get_upmcrs] *)
Definition ufshcd_get_upmcrs (hcs : Z) : Z := Z.land (Z.shiftr hcs 8) 7.

(** [ufshcd_uic_pwr_ctrl] from the wait to label [out]: the value of
    [ret] ([0] on entry). *)
Definition ufshcd_uic_pwr_ctrl_wait (completed : bool) (hcs : Z)
    (cmd : uic_command) : Z :=
  if negb completed && negb (cmd_active cmd =? 0) then - ETIMEDOUT
  else
    let status := ufshcd_get_upmcrs hcs in
    if negb (status =? PWR_LOCAL)
    then (if negb (status =? PWR_OK) then status else -1)
    else 0.

(** [ufshcd_uic_pwr_ctrl], first critical section. The second component
    is [reenable_intr]. *)
Definition ufshcd_uic_pwr_ctrl_issue (env : pwr_env) (cmd : uic_command)
    (hba : ufs_hba) : Z * bool * ufs_hba :=
  let hba := set_uic_async_done true hba in
  let hba := if pe_intr_enabled env
             then emit EvWmb (emit (EvDisableIntr UIC_COMMAND_COMPL) hba)
             else hba in
  let '(ret, hba) := __ufshcd_send_uic_cmd (pe_ready env) cmd hba in
  (ret, pe_intr_enabled env, hba).

(** [ufshcd_uic_pwr_ctrl], label [out]: second critical section. *)
Definition ufshcd_uic_pwr_ctrl_finish (ret : Z) (reenable_intr : bool)
    (hba : ufs_hba) : ufs_hba :=
  let hba := set_active_uic_cmd None hba in
  let hba := set_uic_async_done false hba in
  let hba := if reenable_intr
             then emit (EvEnableIntr UIC_COMMAND_COMPL) hba else hba in
  if negb (ret =? 0)
  then emit EvScheduleEhWork
         (set_uic_link_state_of UIC_LINK_BROKEN_STATE hba)
  else hba.

Definition ufshcd_uic_pwr_ctrl (env : pwr_env) (cmd : uic_command)
    (hba : ufs_hba) : Z * ufs_hba :=
  if ufshcd_is_link_broken hba then (- ENOLINK, hba)
  else
    let '(ret, reenable_intr, hba) :=
      ufshcd_uic_pwr_ctrl_issue env cmd hba in
    if negb (ret =? 0)
    then (ret, ufshcd_uic_pwr_ctrl_finish ret reenable_intr hba)
    else
      let completed :=
        match pe_irq env with
        | Some (st, _, _) => pe_in_time env && signals_async_done st hba
        | None => false
        end in
      let hba := run_irq env hba in
      let ret := ufshcd_uic_pwr_ctrl_wait completed (pe_hcs env)
                   (issuer_view cmd hba) in
      (ret, ufshcd_uic_pwr_ctrl_finish ret reenable_intr hba).

End LinkControl.

(** ** Clock and gear scaling: [ufshcd_set_clk_freq], [ufshcd_scale_clks],
       [ufshcd_scale_gear], [ufshcd_devfreq_scale] *)

Module Scaling.

(** [struct ufs_pa_layer_attr], the two gears and the rest folded into
    one word. *)
Record ufs_pa_layer_attr : Set := {
  gear_rx : Z;
  gear_tx : Z;
  other_attrs : Z         (* lanes, power modes, HS rate *)
}.

#[global] Instance ufs_pa_layer_attr_eq_dec : EqDecision ufs_pa_layer_attr.
Proof. solve_decision. Defined.

(** [struct ufs_clk_info] *)
Record ufs_clk_info : Set := {
  clk_valid : bool;       (* !IS_ERR_OR_NULL(clki->clk) *)
  clk_is_ice_hw_ctl : bool;  (* name is "core_clk_ice_hw_ctl" *)
  max_freq : Z;
  min_freq : Z;
  curr_freq : Z
}.

Definition clk_set_curr (f : Z) (c : ufs_clk_info) : ufs_clk_info :=
  {| clk_valid := clk_valid c; clk_is_ice_hw_ctl := clk_is_ice_hw_ctl c;
     max_freq := max_freq c; min_freq := min_freq c; curr_freq := f |}.

Inductive notify_status : Set := PRE_CHANGE | POST_CHANGE.

(** Calls into collaborators, in program order. *)
Inductive sc_event : Set :=
  | ScHold
  | ScRelease
  | ScBlockRequests
  | ScUnblockRequests
  | ScDownWrite                      (* down_write(&clk_scaling_lock) *)
  | ScUpWrite                        (* up_write(&clk_scaling_lock)   *)
  | ScWaitDoorbellClr (ret : Z)
  | ScClkScaleNotify (scale_up : bool) (st : notify_status) (ret : Z)
  | ScClkSetRate (idx : nat) (freq : Z) (ret : Z)
  | ScConfigPwrMode (mode : ufs_pa_layer_attr) (ret : Z)
  | ScWbCtrl (enable : bool)
  | ScScaleGearRet (scale_up : bool) (ret : Z)  (* ufshcd_scale_gear returned *)
  | ScScaleClksRet (scale_up : bool) (ret : Z). (* ufshcd_scale_clks returned *)

(** The part of the adapter state scaling works on, with the answers
    the collaborators will give, each list in call order (an exhausted
    list answers 0, success). *)
Record sc_hba : Set := {
  pwr_info : ufs_pa_layer_attr;
  saved_pwr_info : ufs_pa_layer_attr;
  clk_list : list ufs_clk_info;
  ans_doorbell_clr : Z;              (* ufshcd_wait_for_doorbell_clr  *)
  ans_notify : list Z;               (* ufshcd_vops_clk_scale_notify  *)
  ans_clk_set_rate : list Z;         (* clk_set_rate                  *)
  ans_pwr_mode : list Z;             (* ufshcd_uic_change_pwr_mode    *)
  sc_trace : list sc_event
}.

Definition sc_emit (e : sc_event) (h : sc_hba) : sc_hba :=
  {| pwr_info := pwr_info h; saved_pwr_info := saved_pwr_info h;
     clk_list := clk_list h; ans_doorbell_clr := ans_doorbell_clr h;
     ans_notify := ans_notify h; ans_clk_set_rate := ans_clk_set_rate h;
     ans_pwr_mode := ans_pwr_mode h; sc_trace := sc_trace h ++ [e] |}.

Definition set_pwr_info (v : ufs_pa_layer_attr) (h : sc_hba) : sc_hba :=
  {| pwr_info := v; saved_pwr_info := saved_pwr_info h;
     clk_list := clk_list h; ans_doorbell_clr := ans_doorbell_clr h;
     ans_notify := ans_notify h; ans_clk_set_rate := ans_clk_set_rate h;
     ans_pwr_mode := ans_pwr_mode h; sc_trace := sc_trace h |}.

Definition set_saved_pwr_info (v : ufs_pa_layer_attr) (h : sc_hba)
  : sc_hba :=
  {| pwr_info := pwr_info h; saved_pwr_info := v;
     clk_list := clk_list h; ans_doorbell_clr := ans_doorbell_clr h;
     ans_notify := ans_notify h; ans_clk_set_rate := ans_clk_set_rate h;
     ans_pwr_mode := ans_pwr_mode h; sc_trace := sc_trace h |}.

Definition set_clk_list (v : list ufs_clk_info) (h : sc_hba) : sc_hba :=
  {| pwr_info := pwr_info h; saved_pwr_info := saved_pwr_info h;
     clk_list := v; ans_doorbell_clr := ans_doorbell_clr h;
     ans_notify := ans_notify h; ans_clk_set_rate := ans_clk_set_rate h;
     ans_pwr_mode := ans_pwr_mode h; sc_trace := sc_trace h |}.

Definition next_answer (l : list Z) : Z * list Z :=
  match l with
  | [] => (0, [])
  | a :: l' => (a, l')
  end.

Definition take_notify (h : sc_hba) : Z * sc_hba :=
  let '(a, l) := next_answer (ans_notify h) in
  (a, {| pwr_info := pwr_info h; saved_pwr_info := saved_pwr_info h;
         clk_list := clk_list h; ans_doorbell_clr := ans_doorbell_clr h;
         ans_notify := l; ans_clk_set_rate := ans_clk_set_rate h;
         ans_pwr_mode := ans_pwr_mode h; sc_trace := sc_trace h |}).

Definition take_clk_set_rate (h : sc_hba) : Z * sc_hba :=
  let '(a, l) := next_answer (ans_clk_set_rate h) in
  (a, {| pwr_info := pwr_info h; saved_pwr_info := saved_pwr_info h;
         clk_list := clk_list h; ans_doorbell_clr := ans_doorbell_clr h;
         ans_notify := ans_notify h; ans_clk_set_rate := l;
         ans_pwr_mode := ans_pwr_mode h; sc_trace := sc_trace h |}).

Definition take_pwr_mode (h : sc_hba) : Z * sc_hba :=
  let '(a, l) := next_answer (ans_pwr_mode h) in
  (a, {| pwr_info := pwr_info h; saved_pwr_info := saved_pwr_info h;
         clk_list := clk_list h; ans_doorbell_clr := ans_doorbell_clr h;
         ans_notify := ans_notify h; ans_clk_set_rate := ans_clk_set_rate h;
         ans_pwr_mode := l; sc_trace := sc_trace h |}).

Section WithHeaders.
Context `{UfsHeaders}.

Definition ufshcd_vops_clk_scale_notify (scale_up : bool)
    (st : notify_status) (h : sc_hba) : Z * sc_hba :=
  let '(ret, h) := take_notify h in
  (ret, sc_emit (ScClkScaleNotify scale_up st ret) h).

(** The loop of [ufshcd_set_clk_freq] from clock number [idx] on. *)
Fixpoint set_clk_freq_from (scale_up : bool) (idx : nat)
    (todo : list ufs_clk_info) (h : sc_hba) : Z * sc_hba :=
  match todo with
  | [] => (0, h)
  | clki :: rest =>
      let target := if scale_up then max_freq clki else min_freq clki in
      if clk_valid clki && negb (target =? 0) then
        if (curr_freq clki =? target) || clk_is_ice_hw_ctl clki
        then set_clk_freq_from scale_up (S idx) rest h
        else
          let '(ret, h) := take_clk_set_rate h in
          let h := sc_emit (ScClkSetRate idx target ret) h in
          if negb (ret =? 0) then (ret, h)
          else
            let h := set_clk_list
                       (<[idx := clk_set_curr target clki]> (clk_list h))
                       h in
            set_clk_freq_from scale_up (S idx) rest h
      else set_clk_freq_from scale_up (S idx) rest h
  end.

Definition ufshcd_set_clk_freq (scale_up : bool) (h : sc_hba)
  : Z * sc_hba :=
  set_clk_freq_from scale_up 0 (clk_list h) h.

Definition scale_clks_body (scale_up : bool) (h : sc_hba)
  : Z * sc_hba :=
  let '(ret, h) := ufshcd_vops_clk_scale_notify scale_up PRE_CHANGE h in
  if negb (ret =? 0) then (ret, h)
  else
    let '(ret, h) := ufshcd_set_clk_freq scale_up h in
    if negb (ret =? 0) then (ret, h)
    else
      let '(ret, h) :=
        ufshcd_vops_clk_scale_notify scale_up POST_CHANGE h in
      if negb (ret =? 0)
      then (ret, snd (ufshcd_set_clk_freq (negb scale_up) h))
      else (ret, h).

(** [ufshcd_scale_clks]; its return is recorded in the trace. *)
Definition ufshcd_scale_clks (scale_up : bool) (h : sc_hba)
  : Z * sc_hba :=
  let '(ret, h) := scale_clks_body scale_up h in
  (ret, sc_emit (ScScaleClksRet scale_up ret) h).

(** [ufshcd_config_pwr_mode] with no vendor hook:
    [ufshcd_change_power_mode] returns 0 at once when the requested
    mode is the current one, and copies the mode into [pwr_info] only
    when the UIC power-mode change succeeded. *)
Definition ufshcd_config_pwr_mode (mode : ufs_pa_layer_attr)
    (h : sc_hba) : Z * sc_hba :=
  if bool_decide (mode = pwr_info h) then (0, h)
  else
    let '(ret, h) := take_pwr_mode h in
    let h := sc_emit (ScConfigPwrMode mode ret) h in
    if negb (ret =? 0) then (ret, h) else (ret, set_pwr_info mode h).

Definition UFS_MIN_GEAR_TO_SCALE_DOWN : Z := UFS_HS_G1.

Definition scale_gear_body (scale_up : bool) (h : sc_hba)
  : Z * sc_hba :=
  if scale_up then ufshcd_config_pwr_mode (saved_pwr_info h) h
  else if (gear_tx (pwr_info h) >? UFS_MIN_GEAR_TO_SCALE_DOWN)
          || (gear_rx (pwr_info h) >? UFS_MIN_GEAR_TO_SCALE_DOWN)
  then
    let h := set_saved_pwr_info (pwr_info h) h in
    ufshcd_config_pwr_mode
      {| gear_rx := UFS_MIN_GEAR_TO_SCALE_DOWN;
         gear_tx := UFS_MIN_GEAR_TO_SCALE_DOWN;
         other_attrs := other_attrs (pwr_info h) |} h
  else ufshcd_config_pwr_mode (pwr_info h) h.

(** [ufshcd_scale_gear]; its return is recorded in the trace. *)
Definition ufshcd_scale_gear (scale_up : bool) (h : sc_hba)
  : Z * sc_hba :=
  let '(ret, h) := scale_gear_body scale_up h in
  (ret, sc_emit (ScScaleGearRet scale_up ret) h).

Definition ufshcd_clock_scaling_prepare (h : sc_hba) : Z * sc_hba :=
  let h := if OPLUS_FEATURE_UFS_DRIVER
           then sc_emit ScBlockRequests (sc_emit ScDownWrite h)
           else sc_emit ScDownWrite (sc_emit ScBlockRequests h) in
  let h := sc_emit (ScWaitDoorbellClr (ans_doorbell_clr h)) h in
  if negb (ans_doorbell_clr h =? 0)
  then (- EBUSY, sc_emit ScUnblockRequests (sc_emit ScUpWrite h))
  else (0, h).

Definition ufshcd_clock_scaling_unprepare (h : sc_hba) : sc_hba :=
  sc_emit ScUnblockRequests (sc_emit ScUpWrite h).

Definition ufshcd_devfreq_scale (scale_up : bool) (h : sc_hba)
  : Z * sc_hba :=
  let h := sc_emit ScHold h in
  let '(ret, h) := ufshcd_clock_scaling_prepare h in
  if negb (ret =? 0) then (ret, sc_emit ScRelease h)
  else
    let '(ret, h) :=
      if scale_up then (0, h) else ufshcd_scale_gear false h in
    if negb (ret =? 0)
    then (ret, sc_emit ScRelease (ufshcd_clock_scaling_unprepare h))
    else
      let '(ret, h) := ufshcd_scale_clks scale_up h in
      if negb (ret =? 0) then
        (* scale_up_gear: *)
        let h := if scale_up then h
                 else snd (ufshcd_scale_gear true h) in
        (ret, sc_emit ScRelease (ufshcd_clock_scaling_unprepare h))
      else
        let '(ret, h) :=
          if scale_up then ufshcd_scale_gear true h else (0, h) in
        if negb (ret =? 0) then
          let h := snd (ufshcd_scale_clks false h) in
          (ret, sc_emit ScRelease (ufshcd_clock_scaling_unprepare h))
        else
          let h := sc_emit ScUpWrite h in
          let h := sc_emit (ScWbCtrl scale_up) h in
          let h := sc_emit ScDownWrite h in
          (ret, sc_emit ScRelease (ufshcd_clock_scaling_unprepare h)).

(** The step returns and the releases of the scaling barrier, in
    the order they occur in a trace. *)
Definition scale_steps (l : list sc_event) : list sc_event :=
  omap (fun e => match e with
                 | ScScaleGearRet _ _ | ScScaleClksRet _ _ | ScUpWrite =>
                     Some e
                 | _ => None
                 end) l.

(** What [ufshcd_set_clk_freq] does to one clock when it succeeds. *)
Definition retarget (up : bool) (c : ufs_clk_info) : ufs_clk_info :=
  let target := if up then max_freq c else min_freq c in
  if clk_valid c && negb (target =? 0)
     && negb ((curr_freq c =? target) || clk_is_ice_hw_ctl c)
  then clk_set_curr target c else c.

(** A clock [ufshcd_set_clk_freq(hba, false)] would lower. *)
Definition clk_scalable_down (c : ufs_clk_info) : bool :=
  clk_valid c && negb (min_freq c =? 0) && negb (clk_is_ice_hw_ctl c).

(** The claim as the specification words it: a failed scale attempt
    leaves the prior gear and the prior frequencies in place. *)
Definition failed_scale_restores (scale_up : bool) (h : sc_hba) : Prop :=
  fst (ufshcd_devfreq_scale scale_up h) <> 0 ->
  pwr_info (snd (ufshcd_devfreq_scale scale_up h)) = pwr_info h
  /\ clk_list (snd (ufshcd_devfreq_scale scale_up h)) = clk_list h.

End WithHeaders.

(** One scalable clock at its low rate, gear 1 in use after an earlier
    scale-down that saved gear 3.  The gear change will fail, and so
    will the vendor notification of the roll-back. *)
Definition h_rollback_fails : sc_hba :=
  {| pwr_info := {| gear_rx := 1; gear_tx := 1; other_attrs := 0 |};
     saved_pwr_info := {| gear_rx := 3; gear_tx := 3; other_attrs := 0 |};
     clk_list := [ {| clk_valid := true; clk_is_ice_hw_ctl := false;
                      max_freq := 200; min_freq := 100;
                      curr_freq := 100 |} ];
     ans_doorbell_clr := 0;
     ans_notify := [0; 0; -22];
     ans_clk_set_rate := [];
     ans_pwr_mode := [-5];
     sc_trace := [] |}.

(** The same adapter when only the gear change fails. *)
Definition h_gear_fails : sc_hba :=
  {| pwr_info := {| gear_rx := 1; gear_tx := 1; other_attrs := 0 |};
     saved_pwr_info := {| gear_rx := 3; gear_tx := 3; other_attrs := 0 |};
     clk_list := [ {| clk_valid := true; clk_is_ice_hw_ctl := false;
                      max_freq := 200; min_freq := 100;
                      curr_freq := 100 |} ];
     ans_doorbell_clr := 0;
     ans_notify := [];
     ans_clk_set_rate := [];
     ans_pwr_mode := [-5];
     sc_trace := [] |}.

End Scaling.

(** ** Test adapters *)

Definition idle_lrb (tag : Z) : ufshcd_lrb :=
  {| cmd := None; command_type := UTP_CMD_TYPE_SCSI; task_tag := tag;
     intr_cmd := false; req_abort_skip := false; utrd_dword_2 := 0;
     rsp_dword_0 := 0; rsp_dword_1 := 0; rsp_dword_2 := 0 |}.

(** A 4-slot adapter, operational, clocks on, nothing in flight. *)
Definition hba_idle : ufs_hba :=
  {| cap_clk_gating := true; cap_hibern8_with_clk_gating := true;
     cap_clk_scaling := false; cap_intr_aggr := false; quirks := 0;
     nutrs := 4;
     lrb := [idle_lrb 0; idle_lrb 1; idle_lrb 2; idle_lrb 3];
     lrb_in_use := 0; outstanding_reqs := 0; outstanding_tasks := 0;
     ufshcd_state := UFSHCD_STATE_OPERATIONAL;
     pm_op_in_progress := false; force_reset := false;
     uic_link_state_of := UIC_LINK_ACTIVE_STATE;
     active_uic_cmd := None; uic_async_done := false;
     dev_cmd_complete := false; dev_cmd_done := false;
     clk_gating := {| state := CLKS_ON; active_reqs := 0;
                      is_suspended := false; gate_work_pending := false;
                      ungate_work_pending := false |};
     clk_scaling_active_reqs := 0; doorbell := 0; trace := [] |}.

(** The same adapter with its clocks gated. *)
Definition hba_gated : ufs_hba :=
  set_uic_link_state_of UIC_LINK_HIBERN8_STATE (set_cg_state CLKS_OFF hba_idle).

(** ** Reading the trace *)

#[global] Instance scsi_cmnd_eq_dec : EqDecision scsi_cmnd.
Proof. solve_decision. Defined.
#[global] Instance gating_work_eq_dec : EqDecision gating_work.
Proof. solve_decision. Defined.
#[global] Instance event_eq_dec : EqDecision event.
Proof. solve_decision. Defined.

(** The values written to the transfer-request doorbell, oldest first. *)
Definition doorbell_writes (l : list event) : list Z :=
  omap (fun e => match e with
                 | EvWritel v REG_UTP_TRANSFER_REQ_DOOR_BELL => Some v
                 | _ => None
                 end) l.

(** The commands handed back through [scsi_done], oldest first. *)
Definition scsi_done_calls (l : list event) : list (Z * scsi_cmnd) :=
  omap (fun e => match e with
                 | EvScsiDone tag c => Some (tag, c)
                 | _ => None
                 end) l.

(** The slots for which the device-management waiter was woken. *)
Definition dev_cmd_completions (l : list event) : list Z :=
  omap (fun e => match e with
                 | EvCompleteDevCmd tag => Some tag
                 | _ => None
                 end) l.

(** [subseqb s l]: the events of [s] occur in [l] in the order of [s]
    (not necessarily next to each other). *)
Fixpoint subseqb (s l : list event) : bool :=
  match s, l with
  | [], _ => true
  | _ :: _, [] => false
  | e :: s', e' :: l' =>
      if bool_decide (e = e') then subseqb s' l' else subseqb s l'
  end.

(** Collaborators that all succeed. *)
Definition qc_env_ok : qc_env :=
  {| qc_trylock := true; qc_legacy_version := false; qc_crypto_err := 0;
     qc_sg_segments := 1; qc_sg_crypto_err := 0 |}.

(** A read request carrying block-layer tag [tag]. *)
Definition read_cmd (tag : Z) : scsi_cmnd :=
  {| request_tag := tag; sc_data_direction := DMA_FROM_DEVICE;
     cmnd0 := 0x28; requeue_cnt := 0; result := 0 |}.

(** A WRITE(10) that the block layer has requeued once. *)
Definition requeued_write_cmd (tag : Z) : scsi_cmnd :=
  {| request_tag := tag; sc_data_direction := DMA_TO_DEVICE;
     cmnd0 := 0x2a; requeue_cnt := 1; result := 0 |}.

(** ** Vocabulary of the statements *)

Section Statements.
Context `{UfsHeaders}.

(** The claim as the specification words it: after a non-blocking hold
    that returned the in-progress indication, the gating state (the
    counter and the enumerated state) is what it was before. *)
Definition failed_async_hold_leaves_gating_unchanged (hba : ufs_hba)
  : Prop :=
  forall hba',
    ufshcd_hold true hba = (HoldReturn (- EAGAIN), hba') ->
    active_reqs (clk_gating hba') = active_reqs (clk_gating hba)
    /\ state (clk_gating hba') = state (clk_gating hba).

(** What a step that does not ring the doorbell leaves alone. *)
Definition not_issuing (hba hba' : ufs_hba) : Prop :=
  doorbell hba' = doorbell hba
  /\ outstanding_reqs hba' = outstanding_reqs hba
  /\ doorbell_writes (trace hba') = doorbell_writes (trace hba)
  /\ ufshcd_state hba' = ufshcd_state hba
  /\ pm_op_in_progress hba' = pm_op_in_progress hba
  /\ nutrs hba' = nutrs hba.

(** Error recovery is in progress. *)
Definition recovering (hba : ufs_hba) : Prop :=
  ufshcd_state hba = UFSHCD_STATE_RESET
  \/ (ufshcd_state hba = UFSHCD_STATE_EH_SCHEDULED_FATAL
      /\ pm_op_in_progress hba = false).

Definition with_host_byte (status : Z) (c : scsi_cmnd) : scsi_cmnd :=
  cmd_set_result (set_host_byte (result c) status) c.

(** The claim as the specification words it, for one submission. *)
Definition rejected_by_run_state (env : qc_env) (c : scsi_cmnd)
    (hba : ufs_hba) : Prop :=
  (recovering hba ->
   fst (ufshcd_queuecommand env c hba) = QcReturn SCSI_MLQUEUE_HOST_BUSY)
  /\ (ufshcd_state hba = UFSHCD_STATE_ERROR ->
      fst (ufshcd_queuecommand env c hba) = QcReturn 0
      /\ scsi_done_calls (trace (snd (ufshcd_queuecommand env c hba))) =
         scsi_done_calls (trace hba)
         ++ [(request_tag c, with_host_byte DID_ERROR c)])
  /\ (recovering hba \/ ufshcd_state hba = UFSHCD_STATE_ERROR ->
      doorbell_writes (trace (snd (ufshcd_queuecommand env c hba))) =
      doorbell_writes (trace hba)).

(** The events of one successful submission of [c], from the descriptor
    header to the barrier after the doorbell write. *)
Definition submit_steps (env : qc_env) (c : scsi_cmnd) : list event :=
  [ EvPrepareReqDescHdr (request_tag c) (sc_data_direction c);
    EvPrepareCmdUpiu (request_tag c);
    EvMapSg (request_tag c) (qc_sg_segments env);
    EvWmb;
    EvSetOutstanding (request_tag c);
    EvWritel (uint32 (Z.shiftl 1 (request_tag c)))
      REG_UTP_TRANSFER_REQ_DOOR_BELL;
    EvWmb ].

(** The order the specification gives: header, scatter-gather table,
    outstanding bit, barrier, doorbell. *)
Definition spec_submit_order (env : qc_env) (c : scsi_cmnd)
    (evs : list event) : bool :=
  subseqb
    [ EvPrepareReqDescHdr (request_tag c) (sc_data_direction c);
      EvMapSg (request_tag c) (qc_sg_segments env);
      EvSetOutstanding (request_tag c);
      EvWmb;
      EvWritel (uint32 (Z.shiftl 1 (request_tag c)))
        REG_UTP_TRANSFER_REQ_DOOR_BELL ]
    evs.

(** The specification's reading of the data path: a submission that
    gets its slot has taken the lowest free tag. *)
Definition data_path_takes_lowest_free (env : qc_env) (c : scsi_cmnd)
    (hba : ufs_hba) : Prop :=
  forall hba1,
    ufshcd_queuecommand_front env c hba = inr hba1 ->
    forall t, 0 <= t < request_tag c ->
              Z.testbit (lrb_in_use hba) t = true.

(** Fields no step of the completion loop writes. *)
Definition compl_frame (h h' : ufs_hba) : Prop :=
  outstanding_reqs h' = outstanding_reqs h
  /\ doorbell h' = doorbell h
  /\ quirks h' = quirks h
  /\ pm_op_in_progress h' = pm_op_in_progress h
  /\ nutrs h' = nutrs h
  /\ dev_cmd_complete h' = dev_cmd_complete h
  /\ cap_intr_aggr h' = cap_intr_aggr h.

(** What one reconciliation pass owes a slot: the [scsi_done] call for
    slot [index] if it holds a SCSI command ... *)
Definition scsi_done_of (hba : ufs_hba) (index : Z)
  : option (Z * scsi_cmnd) :=
  lrbp ← lrb_at hba index;
  c ← cmd lrbp;
  Some (index,
        cmd_set_result (fst (ufshcd_transfer_rsp_status hba lrbp)) c).

(** ... and the wake-up of the device-management waiter if the slot
    holds no SCSI command, is of a device-management type and a waiter
    is registered. *)
Definition dev_cmd_completion_of (hba : ufs_hba) (index : Z) : option Z :=
  lrbp ← lrb_at hba index;
  match cmd lrbp with
  | Some _ => None
  | None =>
      if (bool_decide (command_type lrbp = UTP_CMD_TYPE_DEV_MANAGE)
          || bool_decide (command_type lrbp = UTP_CMD_TYPE_UFS_STORAGE))
         && dev_cmd_complete hba
      then Some index else None
  end.

Definition holds_scsi_cmd (hba : ufs_hba) (index : Z) : bool :=
  match lrb_at hba index with
  | Some lrbp => bool_decide (cmd lrbp <> None)
  | None => false
  end.

(** The claim as the specification words it: every bit of the completed
    set has its outstanding bit cleared, its tag released and its
    caller notified by the pass. *)
Definition reconciles_every_completed_bit (hba : ufs_hba) : Prop :=
  let hba' := snd (ufshcd_transfer_req_compl hba) in
  forall index,
    0 <= index < nutrs hba ->
    Z.testbit (completed_reqs_of hba) index = true ->
    Z.testbit (outstanding_reqs hba') index = false
    /\ Z.testbit (lrb_in_use hba') index = false
    /\ (index ∈ (scsi_done_calls (trace hba')).*1
        \/ index ∈ dev_cmd_completions (trace hba')).

End Statements.

(** A device-management command (a query) in flight on tag 3, the highest
    tag, and already completed by the device: the doorbell bit is clear,
    the outstanding bit still set, the waiter registered. *)
Definition hba_dev_cmd_done : ufs_hba :=
  set_dev_cmd_complete true
    (set_outstanding_reqs 8
       (set_lrb_in_use 8
          (lrb_update 3 (lrb_compose UTP_CMD_TYPE_UFS_STORAGE 0) hba_idle))).

(** Two reads in flight on tags 0 and 1; the device has finished tag 0
    with overall status SUCCESS and a GOOD response. *)
Definition hba_two_reads : ufs_hba :=
  let rd tag dword_0 :=
    {| cmd := Some (read_cmd tag); command_type := UTP_CMD_TYPE_UFS_STORAGE;
       task_tag := tag; intr_cmd := true; req_abort_skip := false;
       utrd_dword_2 := 0; rsp_dword_0 := dword_0; rsp_dword_1 := 0;
       rsp_dword_2 := 0 |} in
  set_doorbell 2
    (set_outstanding_reqs 3
       (set_lrb_in_use 3
          (set_cg_active_reqs 2
             (set_lrb [rd 0 0x21000000; rd 1 0; idle_lrb 2; idle_lrb 3]
                hba_idle)))).

(** A DME_SET command and the environments of a late and of a missing
    interrupt. *)
Definition dme_set_cmd : uic_command :=
  {| command := 2; argument1 := 0x15710000; argument2 := 0; argument3 := 0x11;
     cmd_active := 0 |}.

Definition late_irq_env : pwr_env :=
  {| pe_ready := true; pe_intr_enabled := true;
     pe_irq := Some (0x400, 0, 0);      (* UIC_COMMAND_COMPL, result 0 *)
     pe_in_time := false;
     pe_hcs := 0x10f |}.

Definition no_irq_env : pwr_env :=
  {| pe_ready := true; pe_intr_enabled := true; pe_irq := None;
     pe_in_time := false; pe_hcs := 0x10f |}.

(** A hibern8-enter command whose power-mode interrupt (UIC_HIBERNATE_ENTER,
    with UIC_COMMAND_COMPL) arrives after the timeout; the power-mode
    change status read afterwards is PWR_LOCAL. *)
Definition hibern8_enter_cmd : uic_command :=
  {| command := 0x17; argument1 := 0; argument2 := 0; argument3 := 0;
     cmd_active := 0 |}.

Definition late_pwr_irq_env : pwr_env :=
  {| pe_ready := true; pe_intr_enabled := true;
     pe_irq := Some (0x410, 0, 0);
     pe_in_time := false;
     pe_hcs := 0x10f |}.

(** ** The clock-gating machine

    The adapter shared by any number of client threads, the interrupt
    handler and the one worker of the ordered work queue
    [clk_gating_workq].  A step is one critical section under the host
    lock (or one atomic bit operation, or one plain store made outside the
    lock); any thread may run between two steps of another.

    Clients are the callers of [ufshcd_hold]/[ufshcd_release]: SCSI
    commands ([ufshcd_queuecommand], released by the completion
    handler), device-management commands ([ufshcd_exec_dev_cmd] inside
    its callers' hold and [dev_cmd.lock]), task-management requests
    ([__ufshcd_issue_tm_cmd]), UIC commands ([ufshcd_send_uic_cmd]) and
    power-mode changes ([ufshcd_uic_change_pwr_mode]).  The runtime
    power-management and error-handling paths are not part of the
    machine; the run state they write may change at any time.  Clock
    scaling is not part of it either: the read side of
    [clk_scaling_lock] is granted when [ufshcd_exec_dev_cmd] asks for
    it.

    The controller clears doorbell bits when it likes ([LHwComplete]);
    it need not answer a write to the clear register, in which case
    [ufshcd_clear_cmd] times out with the doorbell bit still set. *)

Module Gating.

(** Where a client thread stands. *)
Inductive cpc : Type :=
| CIdle
| CBug                                    (* BUG() *)
| CWait (from_clks_on : bool)             (* ufshcd_hold(hba, false), asleep
                                           in flush_work(&ungate_work) *)
| CHold                                   (* owns one clock reference *)
| CTask (free_slot : Z)                   (* outstanding_tasks bit set *)
| CUic (cmd : uic_command)                (* UIC command dispatched *)
| CPwr (reenable_intr : bool) (ret : Z) (cmd : uic_command)
                                        (* ufshcd_uic_pwr_ctrl after its
                                           first critical section *)
(* ufshcd_queuecommand *)
| QClaimed (env : qc_env) (c : scsi_cmnd) (* slot bit claimed *)
| QHeld (env : qc_env) (c : scsi_cmnd)    (* ufshcd_hold succeeded *)
| QBound (env : qc_env) (c : scsi_cmnd)   (* lrbp->cmd = cmd *)
| QBug (c : scsi_cmnd)                    (* BUG_ON(cmd->requeue_cnt): the
                                           thread stops with the slot,
                                           the command and the clock
                                           reference it has *)
| QReady (c : scsi_cmnd)                  (* descriptors built, wmb() *)
| QOut (err : Z) (c : scsi_cmnd)          (* out_compl_cmd, lock dropped *)
| QRelease (tag : Z)                      (* error exit, before
                                           ufshcd_release *)
| QUnbind (tag : Z)                       (* before lrbp->cmd = NULL *)
| QUnclaim (tag : Z)                      (* before clear_bit_unlock *)
(* ufshcd_exec_dev_cmd, with dev_cmd.lock held *)
| DevPick                                 (* before tmp = ~lrb_in_use *)
| DevTry (tag : Z)                        (* before test_and_set_bit_lock *)
| DevTagged (tag : Z)                     (* tag acquired *)
| DevComposed (tag : Z)                   (* lrbp->cmd = NULL, UPIU built,
                                           dev_cmd.complete = &wait *)
| DevIssued (tag : Z)                     (* ufshcd_send_command done, in
                                           wait_for_completion_timeout *)
| DevWoken (tag : Z) (time_left : bool)   (* the wait returned; before the
                                           critical section of
                                           ufshcd_wait_for_dev_cmd *)
| DevTimedOut (tag : Z)                   (* before ufshcd_clear_cmd *)
| DevClearing (tag : Z)                   (* clear register written, in
                                           ufshcd_wait_for_register *)
| DevReqClear (tag : Z) (err : Z)         (* ufshcd_clear_cmd returned err;
                                           before the read of
                                           outstanding_reqs in __clear_bit *)
| DevReqWrite (tag : Z) (val : Z)         (* outstanding_reqs read as val;
                                           before the store *)
| DevDone (tag : Z)                       (* before ufshcd_put_dev_cmd_tag *)
| DevUnlock.                              (* before mutex_unlock(dev_cmd.lock) *)

(** Where the worker stands. *)
Inductive wpc : Type :=
| WIdle
(* ufshcd_gate_work *)
| WGateStart                   (* before the first critical section *)
| WGateH8                      (* lock dropped, before hibern8 enter *)
| WGateH8Wait (reenable_intr : bool) (ret : Z)
                             (* in ufshcd_uic_pwr_ctrl, before label out *)
| WGateH8Ret (ret : Z)         (* ufshcd_uic_hibern8_enter returned *)
| WGateClocks                  (* before ufshcd_disable_irq and
                                ufshcd_setup_clocks(hba, false) *)
| WGateFinish                  (* before the second critical section *)
(* ufshcd_ungate_work *)
| WUngateStart                 (* before cancel_delayed_work_sync *)
| WUngateCheck                 (* before the critical section *)
| WUngateClocks                (* before ufshcd_setup_clocks(hba, true) *)
| WUngateSuspend               (* before is_suspended = true *)
| WUngateLink                  (* before ufshcd_is_link_hibern8 *)
| WUngateH8                    (* before hibern8 exit *)
| WUngateH8Wait (reenable_intr : bool) (ret : Z)
| WUngateH8Ret (ret : Z)       (* ufshcd_uic_hibern8_exit returned *)
| WUngateResume.               (* before is_suspended = false *)

(** The steps of a client, with what its collaborators answer. *)
Inductive clabel : Type :=
| LHold (async : bool)
| LResume (flush_result : bool)
| LRelease
| LTmIssue (free_slot : Z)
| LTmDone
| LUicIssue (ready : bool) (cmd : uic_command)
| LUicDone (completed : bool)
| LPwrIssue (env : pwr_env) (cmd : uic_command)
| LPwrDone (completed : bool) (hcs : Z)
| LQueuecommand (env : qc_env) (c : scsi_cmnd)
| LQcHold
| LQcBind
| LQcCompose
| LQcIssue
| LQcOut
| LQcRelease
| LQcUnbind
| LQcUnclaim
| LDevStart
| LDevRead
| LDevTestAndSet
| LDevCompose (legacy_version : bool) (err : Z)
| LDevIssue
| LDevWake (time_left : bool)
| LDevWait
| LDevClear
| LDevClearPoll (deadline : bool)
| LDevReqRead
| LDevReqWrite
| LDevPut
| LDevUnlock.

(** The steps of the hardware, of the interrupt handler and of the
  error handling that runs elsewhere. *)
Inductive elabel : Type :=
| LHwComplete (mask : Z)          (* the controller clears doorbell bits *)
| LIrqTransfer                    (* ufshcd_transfer_req_compl *)
| LIrqUic (intr_status reg_arg2 reg_arg3 : Z)
                                (* ufshcd_uic_cmd_compl *)
| LRunState (v : Z).              (* hba->ufshcd_state = v *)

(** What the collaborators of the worker answer. *)
Record woracle : Set := {
wo_clk_ret : Z;         (* ufshcd_setup_clocks(hba, true) *)
wo_env : pwr_env;       (* registers read by ufshcd_uic_pwr_ctrl *)
wo_completed : bool;    (* wait_for_completion_timeout(uic_async_done) *)
wo_hcs : Z              (* REG_CONTROLLER_STATUS at check_upmcrs *)
}.

Inductive label : Type :=
| LClient (i : nat) (l : clabel)
| LEnv (l : elabel)
| LWorker (o : woracle).

Record machine : Type := {
adapter : ufs_hba;
worker : wpc;
wq : list gating_work;      (* clk_gating_workq, oldest first *)
clients : list cpc
}.

(** *** The ordered work queue

  The two work items are queued and cancelled by the modelled
  functions through the pending flags; the queue keeps the order in
  which they became pending. *)

Definition wq_remove (w : gating_work) (q : list gating_work)
: list gating_work :=
filter (fun x => x <> w) q.

Definition wq_sync (before after : ufs_hba) (q : list gating_work)
: list gating_work :=
let g0 := gate_work_pending (clk_gating before) in
let g1 := gate_work_pending (clk_gating after) in
let u0 := ungate_work_pending (clk_gating before) in
let u1 := ungate_work_pending (clk_gating after) in
let q := if g0 && negb g1 then wq_remove GATE_WORK q else q in
let q := if u0 && negb u1 then wq_remove UNGATE_WORK q else q in
let q := if negb u0 && u1 then q ++ [UNGATE_WORK] else q in
if negb g0 && g1 then q ++ [GATE_WORK] else q.

Section Steps.
Context `{UfsHeaders}.

(** *** Pieces of the client paths *)

Definition of_hold_outcome (o : hold_outcome) : cpc :=
match o with
| HoldReturn rc => if rc =? 0 then CHold else CIdle
| HoldFlushUngate from_clks_on => CWait from_clks_on
end.

(** [__ufshcd_issue_tm_cmd], first critical section. *)
Definition tm_cmd_send (free_slot : Z) (hba : ufs_hba) : ufs_hba :=
let hba := set_outstanding_tasks
           (Bitops.set_bit free_slot (outstanding_tasks hba)) hba in
let hba := emit EvWmb hba in
let hba := ufshcd_writel (Z.shiftl 1 free_slot)
           REG_UTP_TASK_REQ_DOOR_BELL hba in
emit EvWmb hba.

(** [__ufshcd_issue_tm_cmd], second critical section. *)
Definition tm_cmd_clear (free_slot : Z) (hba : ufs_hba) : ufs_hba :=
set_outstanding_tasks
(Bitops.clear_bit free_slot (outstanding_tasks hba)) hba.

(** [ufshcd_queuecommand] up to [test_and_set_bit_lock]. *)
Definition qc_claim (env : qc_env) (c : scsi_cmnd) (hba : ufs_hba)
: cpc * ufs_hba :=
let tag := request_tag c in
if negb (ufshcd_valid_tag hba tag) then (CBug, hba)
else if negb (qc_trylock env) then (CIdle, hba)
else
let '(was_set, in_use) :=
  Bitops.test_and_set_bit_lock tag (lrb_in_use hba) in
if was_set then (CIdle, hba)
else (QClaimed env c, set_lrb_in_use in_use hba).

(** [lrbp->cmd = cmd] ... [ufshcd_prepare_lrbp_crypto]. *)
Definition qc_bind (env : qc_env) (c : scsi_cmnd) (hba : ufs_hba)
: cpc * ufs_hba :=
let tag := request_tag c in
let hba := lrb_update tag
           (lrb_bind_cmd c tag (negb (ufshcd_is_intr_aggr_allowed hba)))
           hba in
if negb (qc_crypto_err env =? 0) then (QRelease tag, hba)
else (QBound env c, hba).

(** [ufshcd_comp_scsi_upiu], the requeue check of a build with
[CONFIG_UFSHPB], [ufshcd_map_sg], [wmb]. *)
Definition qc_compose (env : qc_env) (c : scsi_cmnd) (hba : ufs_hba)
: cpc * ufs_hba :=
let tag := request_tag c in
let hba := ufshcd_comp_scsi_upiu env c tag hba in
if ufshpb_built && requeued_not_read c then (QBug c, hba)
else if ufshpb_built && negb (requeue_cnt c =? 0) then (QRelease tag, hba)
else
let '(err, hba) := ufshcd_map_sg env tag hba in
if negb (err =? 0) then (QRelease tag, hba)
else (QReady c, emit EvWmb hba).

(** Label [out_compl_cmd] up to [spin_unlock_irqrestore]. *)
Definition qc_out_locked (tag : Z) (hba : ufs_hba) : ufs_hba :=
let hba := emit (EvScsiDmaUnmap tag) hba in
let hba := lrb_update tag (lrb_set_cmd None) hba in
set_lrb_in_use (Bitops.clear_bit tag (lrb_in_use hba)) hba.

(** The critical section of [ufshcd_queuecommand]. *)
Definition qc_issue (c : scsi_cmnd) (hba : ufs_hba) : cpc * ufs_hba :=
let tag := request_tag c in
let st := ufshcd_state hba in
if (st =? UFSHCD_STATE_OPERATIONAL)
 || (st =? UFSHCD_STATE_EH_SCHEDULED_NON_FATAL)
then (CIdle, ufshcd_send_command tag hba)
else if (st =? UFSHCD_STATE_EH_SCHEDULED_FATAL) && pm_op_in_progress hba
then
(QOut 0 (cmd_set_result (set_host_byte (result c) DID_BAD_TARGET) c),
 qc_out_locked tag (set_force_reset true hba))
else if (st =? UFSHCD_STATE_EH_SCHEDULED_FATAL)
      || (st =? UFSHCD_STATE_RESET)
then (QOut SCSI_MLQUEUE_HOST_BUSY c, qc_out_locked tag hba)
else if st =? UFSHCD_STATE_ERROR
then
(QOut 0 (cmd_set_result (set_host_byte (result c) DID_ERROR) c),
 qc_out_locked tag hba)
else
(QOut 0 (cmd_set_result (set_host_byte (result c) DID_BAD_TARGET) c),
 qc_out_locked tag hba).

(** Label [out_compl_cmd] after [spin_unlock_irqrestore]. *)
Definition qc_out_unlocked (err : Z) (c : scsi_cmnd) (hba : ufs_hba)
: ufs_hba :=
let hba := ufshcd_release hba in
if err =? 0 then emit (EvScsiDone (request_tag c) c) hba else hba.

(** [ufshcd_compose_dev_cmd] and [hba->dev_cmd.complete = &wait], a
completion that [init_completion] has just reset. *)
Definition lrb_compose_dev (ty : utp_cmd_type) (tag : Z) (ocs : Z)
(l : ufshcd_lrb) : ufshcd_lrb :=
{| cmd := None; command_type := ty; task_tag := tag;
 intr_cmd := true; req_abort_skip := req_abort_skip l;
 utrd_dword_2 := ocs; rsp_dword_0 := rsp_dword_0 l;
 rsp_dword_1 := rsp_dword_1 l; rsp_dword_2 := rsp_dword_2 l |}.

Definition dev_compose (legacy_version : bool) (err : Z) (tag : Z)
(hba : ufs_hba) : cpc * ufs_hba :=
let ty := if legacy_version then UTP_CMD_TYPE_DEV_MANAGE
        else UTP_CMD_TYPE_UFS_STORAGE in
let hba := lrb_update tag
           (lrb_compose_dev ty tag OCS_INVALID_COMMAND_STATUS) hba in
let hba := emit (EvPrepareReqDescHdr tag DMA_NONE) hba in
if negb (err =? 0) then (DevDone tag, hba)
else (DevComposed tag,
    emit EvWmb (set_dev_cmd_done false (set_dev_cmd_complete true hba))).

(** [ufshcd_utrl_clear] *)
Definition ufshcd_utrl_clear (pos : Z) (hba : ufs_hba) : ufs_hba :=
if negb (Z.land (quirks hba) UFSHCI_QUIRK_BROKEN_REQ_LIST_CLR =? 0)
then ufshcd_writel (uint32 (Z.shiftl 1 pos))
     REG_UTP_TRANSFER_REQ_LIST_CLEAR hba
else ufshcd_writel (uint32 (Z.lnot (Z.shiftl 1 pos)))
     REG_UTP_TRANSFER_REQ_LIST_CLEAR hba.

(** [ufshcd_outstanding_req_clear] *)
Definition ufshcd_outstanding_req_clear (tag : Z) (hba : ufs_hba)
: ufs_hba :=
set_outstanding_reqs (Bitops.clear_bit tag (outstanding_reqs hba)) hba.

(** [ufshcd_wait_for_dev_cmd], its critical section:
[hba->dev_cmd.complete = NULL] (the status and the response are read
there when the wait did not time out). *)
Definition dev_wait_locked (hba : ufs_hba) : ufs_hba :=
set_dev_cmd_complete false (emit EvWmb hba).

(** [ufshcd_clear_cmd], the read of the doorbell that ends
[ufshcd_wait_for_register]: the wait is over once the slot's bit is
seen clear, or with [-ETIMEDOUT] when it is still set at the read
made after the deadline.  [ufshcd_wait_for_dev_cmd] then returns
[-EAGAIN], respectively [-ETIMEDOUT]. *)
Definition dev_clear_poll (deadline : bool) (tag : Z) (hba : ufs_hba)
: cpc :=
if negb (Z.testbit (ufshcd_readl_doorbell hba) tag)
then DevReqClear tag (- EAGAIN)
else if deadline then DevReqClear tag (- ETIMEDOUT)
else DevClearing tag.

(** The result [ufshcd_uic_pwr_ctrl] arrives with at label [out]. *)
Definition pwr_ctrl_ret (ret : Z) (completed : bool) (hcs : Z)
(cmd : uic_command) (hba : ufs_hba) : Z :=
if negb (ret =? 0) then ret
else ufshcd_uic_pwr_ctrl_wait completed hcs (issuer_view cmd hba).

(** One step of a client.  [wait_for_completion_timeout] returns a
positive [time_left] when the completion [dev_cmd.complete] points
to has been signalled, and 0 when the time is up and it has not.
After a time-out the locked section, the write to the clear
register, each read of the doorbell in [ufshcd_wait_for_register]
and the two halves of the plain [__clear_bit] on [outstanding_reqs]
are steps of their own: the reads of the doorbell and the
[__clear_bit] run without the host lock. *)
Definition client_step (l : clabel) (p : cpc) (hba : ufs_hba)
: option (cpc * ufs_hba) :=
match l, p with
| LHold async, CIdle =>
  let '(o, hba) := ufshcd_hold async hba in
  Some (of_hold_outcome o, hba)
| LResume flush_result, CWait from_clks_on =>
  let '(o, hba) :=
    ufshcd_hold_resume from_clks_on flush_result false hba in
  Some (of_hold_outcome o, hba)
| LRelease, CHold => Some (CIdle, ufshcd_release hba)
| LTmIssue free_slot, CHold =>
  Some (CTask free_slot, tm_cmd_send free_slot hba)
| LTmDone, CTask free_slot => Some (CHold, tm_cmd_clear free_slot hba)
| LUicIssue ready cmd, CHold =>
  let '(ret, hba) := __ufshcd_send_uic_cmd ready cmd hba in
  Some (if ret =? 0 then CUic cmd else CHold, hba)
| LUicDone completed, CUic cmd =>
  Some (CHold,
        snd (ufshcd_wait_for_uic_cmd completed (issuer_view cmd hba)
               hba))
| LPwrIssue env cmd, CHold =>
  if ufshcd_is_link_broken hba then Some (CHold, hba)
  else
    let '(ret, reenable_intr, hba) :=
      ufshcd_uic_pwr_ctrl_issue env cmd hba in
    Some (CPwr reenable_intr ret cmd, hba)
| LPwrDone completed hcs, CPwr reenable_intr ret cmd =>
  Some (CHold,
        ufshcd_uic_pwr_ctrl_finish
          (pwr_ctrl_ret ret completed hcs cmd hba) reenable_intr hba)
| LQueuecommand env c, CIdle => Some (qc_claim env c hba)
| LQcHold, QClaimed env c =>
  let '(o, hba) := ufshcd_hold true hba in
  Some (if negb (hold_rc o =? 0) then QUnclaim (request_tag c)
        else QHeld env c, hba)
| LQcBind, QHeld env c => Some (qc_bind env c hba)
| LQcCompose, QBound env c => Some (qc_compose env c hba)
| LQcIssue, QReady c => Some (qc_issue c hba)
| LQcOut, QOut err c => Some (CIdle, qc_out_unlocked err c hba)
| LQcRelease, QRelease tag => Some (QUnbind tag, ufshcd_release hba)
| LQcUnbind, QUnbind tag =>
  Some (QUnclaim tag, lrb_update tag (lrb_set_cmd None) hba)
| LQcUnclaim, QUnclaim tag =>
  Some (CIdle,
        set_lrb_in_use (Bitops.clear_bit tag (lrb_in_use hba)) hba)
| LDevStart, CHold => Some (DevPick, hba)
| LDevRead, DevPick =>
  match dev_cmd_tag_candidate (nutrs hba) (lrb_in_use hba) with
  | Some tag => Some (DevTry tag, hba)
  | None => Some (DevPick, hba)
  end
| LDevTestAndSet, DevTry tag =>
  let '(was_set, in_use) :=
    Bitops.test_and_set_bit_lock tag (lrb_in_use hba) in
  Some (if was_set then DevPick else DevTagged tag,
        set_lrb_in_use in_use hba)
| LDevCompose legacy_version err, DevTagged tag =>
  Some (dev_compose legacy_version err tag hba)
| LDevIssue, DevComposed tag =>
  Some (DevIssued tag, ufshcd_send_command tag hba)
| LDevWake time_left, DevIssued tag =>
  if bool_decide (time_left = dev_cmd_done hba)
  then Some (DevWoken tag time_left, hba)
  else None
| LDevWait, DevWoken tag time_left =>
  Some (if time_left then DevDone tag else DevTimedOut tag,
        dev_wait_locked hba)
| LDevClear, DevTimedOut tag =>
  Some (DevClearing tag, ufshcd_utrl_clear tag hba)
| LDevClearPoll deadline, DevClearing tag =>
  Some (dev_clear_poll deadline tag hba, hba)
| LDevReqRead, DevReqClear tag err =>
  Some (DevReqWrite tag (outstanding_reqs hba), hba)
| LDevReqWrite, DevReqWrite tag val =>
  Some (DevDone tag,
        set_outstanding_reqs (Bitops.clear_bit tag val) hba)
| LDevPut, DevDone tag => Some (DevUnlock, ufshcd_put_dev_cmd_tag tag hba)
| LDevUnlock, DevUnlock => Some (CHold, hba)
| _, _ => None
end.

(** [mutex_lock(&hba->dev_cmd.lock)], taken by the callers of
[ufshcd_exec_dev_cmd]: a thread gets past it only while no other
thread is inside. *)
Definition in_dev (p : cpc) : bool :=
match p with
| DevPick | DevTry _ | DevTagged _ | DevComposed _ | DevIssued _
| DevWoken _ _ | DevTimedOut _ | DevClearing _ | DevReqClear _ _
| DevReqWrite _ _ | DevDone _ | DevUnlock => true
| _ => false
end.

Definition dev_cmd_lock_held (cl : list cpc) : bool := existsb in_dev cl.

Definition blocked (l : clabel) (cl : list cpc) : bool :=
match l with
| LDevStart => dev_cmd_lock_held cl
| _ => false
end.

(** One step of the environment. *)
Definition env_step (l : elabel) (hba : ufs_hba) : ufs_hba :=
match l with
| LHwComplete mask => set_doorbell (Z.ldiff (doorbell hba) mask) hba
| LIrqTransfer => snd (ufshcd_transfer_req_compl hba)
| LIrqUic intr_status reg_arg2 reg_arg3 =>
  snd (ufshcd_uic_cmd_compl intr_status reg_arg2 reg_arg3 hba)
| LRunState v => set_ufshcd_state v hba
end.

(** *** Pieces of the two work functions *)

Definition hiber_cmd (opcode : Z) : uic_command :=
{| command := opcode; argument1 := 0; argument2 := 0; argument3 := 0;
 cmd_active := 0 |}.

(** [ufshcd_uic_pwr_ctrl], first critical section, as the worker runs
it for the hibern8 command [opcode]: the next position and the
adapter. *)
Definition worker_h8_issue (opcode : Z) (env : pwr_env)
(wait : bool -> Z -> wpc) (ret : Z -> wpc) (hba : ufs_hba)
: wpc * ufs_hba :=
if ufshcd_is_link_broken hba then (ret (- ENOLINK), hba)
else
let '(r, reenable_intr, hba) :=
  ufshcd_uic_pwr_ctrl_issue env (hiber_cmd opcode) hba in
(wait reenable_intr r, hba).

(** ... and from the wait to its return. *)
Definition worker_h8_finish (opcode : Z) (o : woracle)
(reenable_intr : bool) (r : Z) (ret : Z -> wpc) (hba : ufs_hba)
: wpc * ufs_hba :=
let r := pwr_ctrl_ret r (wo_completed o) (wo_hcs o) (hiber_cmd opcode)
         hba in
(ret r, ufshcd_uic_pwr_ctrl_finish r reenable_intr hba).

(** [ufshcd_ungate_work], the critical section: [true] is
[goto unblock_reqs]. *)
Definition ufshcd_ungate_work_check (hba : ufs_hba) : bool :=
bool_decide (state (clk_gating hba) = CLKS_ON).

(** [ufshcd_setup_clocks(hba, true)] returning [clk_ret]. *)
Definition ufshcd_setup_clocks_on (clk_ret : Z) (hba : ufs_hba) : ufs_hba :=
if clk_ret =? 0 then set_cg_state CLKS_ON hba else hba.

(** One step of the worker: it takes the oldest work off the queue
when it is idle, and otherwise goes on with the work it is in. *)
Definition worker_step (o : woracle) (w : wpc) (q : list gating_work)
(hba : ufs_hba) : option (wpc * list gating_work * ufs_hba) :=
match w with
| WIdle =>
  match q with
  | [] => None
  | GATE_WORK :: q =>
      Some (WGateStart, q, set_cg_gate_work_pending false hba)
  | UNGATE_WORK :: q =>
      Some (WUngateStart, q, set_cg_ungate_work_pending false hba)
  end
| WGateStart =>
  let '(go, hba) := ufshcd_gate_work_check hba in
  Some (if go
        then if ufshcd_can_hibern8_during_gating hba
             then WGateH8 else WGateClocks
        else WIdle, q, hba)
| WGateH8 =>
  let '(w, hba) :=
    worker_h8_issue UIC_CMD_DME_HIBER_ENTER (wo_env o)
      WGateH8Wait WGateH8Ret hba in
  Some (w, q, hba)
| WGateH8Wait reenable_intr r =>
  let '(w, hba) :=
    worker_h8_finish UIC_CMD_DME_HIBER_ENTER o reenable_intr r
      WGateH8Ret hba in
  Some (w, q, hba)
| WGateH8Ret r =>
  let '(go, hba) := ufshcd_gate_work_clocks r hba in
  Some (if go then WGateClocks else WIdle, q, hba)
| WGateClocks => Some (WGateFinish, q, hba)
| WGateFinish => Some (WIdle, q, ufshcd_gate_work_finish hba)
| WUngateStart =>
  Some (WUngateCheck, wq_remove GATE_WORK q,
        set_cg_gate_work_pending false hba)
| WUngateCheck =>
  Some (if ufshcd_ungate_work_check hba then WIdle else WUngateClocks,
        q, hba)
| WUngateClocks =>
  let hba := ufshcd_setup_clocks_on (wo_clk_ret o) hba in
  Some (if ufshcd_can_hibern8_during_gating hba
        then WUngateSuspend else WIdle, q, hba)
| WUngateSuspend => Some (WUngateLink, q, set_cg_is_suspended true hba)
| WUngateLink =>
  Some (if ufshcd_is_link_hibern8 hba then WUngateH8 else WUngateResume,
        q, hba)
| WUngateH8 =>
  let '(w, hba) :=
    worker_h8_issue UIC_CMD_DME_HIBER_EXIT (wo_env o)
      WUngateH8Wait WUngateH8Ret hba in
  Some (w, q, hba)
| WUngateH8Wait reenable_intr r =>
  let '(w, hba) :=
    worker_h8_finish UIC_CMD_DME_HIBER_EXIT o reenable_intr r
      WUngateH8Ret hba in
  Some (w, q, hba)
| WUngateH8Ret r =>
  Some (WUngateResume, q,
        if r =? 0
        then set_uic_link_state_of UIC_LINK_ACTIVE_STATE hba else hba)
| WUngateResume => Some (WIdle, q, set_cg_is_suspended false hba)
end.

(** *** The machine *)

Definition step (l : label) (m : machine) : option machine :=
match l with
| LClient i l =>
  match clients m !! i with
  | Some p =>
      if blocked l (clients m) then None
      else
      match client_step l p (adapter m) with
      | Some (p', hba') =>
          Some {| adapter := hba'; worker := worker m;
                  wq := wq_sync (adapter m) hba' (wq m);
                  clients := <[i := p']> (clients m) |}
      | None => None
      end
  | None => None
  end
| LEnv l =>
  let hba' := env_step l (adapter m) in
  Some {| adapter := hba'; worker := worker m;
          wq := wq_sync (adapter m) hba' (wq m);
          clients := clients m |}
| LWorker o =>
  match worker_step o (worker m) (wq m) (adapter m) with
  | Some (w, q, hba') =>
      Some {| adapter := hba'; worker := w; wq := q;
              clients := clients m |}
  | None => None
  end
end.

(** Runs in which no wait for a device-management command times out. *)
Definition timeout_label (l : label) : bool :=
match l with
| LClient _ (LDevWake false) => true
| _ => false
end.

Definition timeout_free (sched : list label) : bool :=
forallb (fun l => negb (timeout_label l)) sched.

Fixpoint run (sched : list label) (m : machine) : option machine :=
match sched with
| [] => Some m
| l :: sched =>
  match step l m with
  | Some m' => run sched m'
  | None => None
  end
end.

End Steps.

(** *** Start states *)

(** The adapter after [ufshcd_init_clk_gating], with nothing in flight
  and every thread idle. *)
Record initial (m : machine) : Prop := {
init_cap : cap_clk_gating (adapter m) = true;
init_state : state (clk_gating (adapter m)) = CLKS_ON;
init_active : active_reqs (clk_gating (adapter m)) = 0;
init_gate : gate_work_pending (clk_gating (adapter m)) = false;
init_ungate : ungate_work_pending (clk_gating (adapter m)) = false;
init_reqs : outstanding_reqs (adapter m) = 0;
init_doorbell : doorbell (adapter m) = 0;
init_tasks : outstanding_tasks (adapter m) = 0;
init_uic : active_uic_cmd (adapter m) = None;
init_async : uic_async_done (adapter m) = false;
init_nutrs : 0 <= nutrs (adapter m) <= 32;
init_lrb : Z.of_nat (length (lrb (adapter m))) = nutrs (adapter m);
init_clients : Forall (fun p => p = CIdle) (clients m);
init_bound : Z.of_nat (length (clients m)) + 33 < 2 ^ 31;
init_worker : worker m = WIdle;
init_wq : wq m = []
}.

(** *** The safety statement *)

(** Nothing is outstanding and no link command or power-mode change is
  under way. *)
Definition quiescent (hba : ufs_hba) : Prop :=
outstanding_reqs hba = 0
/\ outstanding_tasks hba = 0
/\ active_uic_cmd hba = None
/\ uic_async_done hba = false.

Definition gating_safe (m : machine) : Prop :=
state (clk_gating (adapter m)) = CLKS_OFF -> quiescent (adapter m).

(** *** What every reachable state satisfies *)

(** Threads that have incremented [clk_gating.active_reqs] and not yet
  decremented it. *)
Definition counted (p : cpc) : bool :=
match p with
| CIdle | CBug | QClaimed _ _ | QUnbind _ | QUnclaim _ => false
| _ => true
end.

(** Threads asleep until the ungate work has run. *)
Definition waits_ungate (p : cpc) : bool :=
match p with
| CWait false => true
| _ => false
end.

(** The slot a thread has claimed in [lrb_in_use]. *)
Definition owner (p : cpc) : option Z :=
match p with
| QClaimed _ c | QHeld _ c | QBound _ c | QBug c | QReady c =>
    Some (request_tag c)
| QRelease t | QUnbind t | QUnclaim t => Some t
| DevTagged t | DevComposed t | DevIssued t | DevWoken t _
| DevTimedOut t | DevClearing t | DevReqClear t _ | DevReqWrite t _
| DevDone t => Some t
| _ => None
end.

(** The slot whose [cmd] a thread has set, respectively cleared. *)
Definition binds (p : cpc) : option Z :=
match p with
| QBound _ c | QBug c | QReady c => Some (request_tag c)
| _ => None
end.
Definition unbinds (p : cpc) : option Z :=
match p with
| DevComposed t | DevIssued t | DevWoken t _ | DevTimedOut t
| DevClearing t | DevReqClear t _ | DevReqWrite t _ => Some t
| _ => None
end.

(** The slot of a device-management command whose bit in
  [outstanding_reqs] its thread has set and not yet seen cleared, and
  the tag a device-management thread is about to claim. *)
Definition issued (p : cpc) : option Z :=
match p with
| DevIssued t | DevWoken t false | DevTimedOut t | DevClearing t
| DevReqClear t _ | DevReqWrite t _ => Some t
| _ => None
end.
Definition trying (p : cpc) : option Z :=
match p with
| DevTry t => Some t
| _ => None
end.
Definition tasked (p : cpc) : option Z :=
match p with
| CTask s => Some s
| _ => None
end.

(** Threads on the path [ufshcd_wait_for_dev_cmd] takes after a
  time-out. *)
Definition timeout_pc (p : cpc) : bool :=
match p with
| DevWoken _ false | DevTimedOut _ | DevClearing _ | DevReqClear _ _
| DevReqWrite _ _ => true
| _ => false
end.

Definition uic_owner (p : cpc) : bool :=
match p with
| CUic _ | CPwr _ _ _ => true
| _ => false
end.
Definition pwr_owner (p : cpc) : bool :=
match p with
| CPwr _ _ _ => true
| _ => false
end.

(** The worker is between the two critical sections of
  [ufshcd_uic_pwr_ctrl]. *)
Definition worker_uic (w : wpc) : bool :=
match w with
| WGateH8Wait _ _ | WUngateH8Wait _ _ => true
| _ => false
end.

(** The worker is in [ufshcd_gate_work]. *)
Definition worker_gate (w : wpc) : bool :=
match w with
| WGateStart | WGateH8 | WGateH8Wait _ _ | WGateH8Ret _ | WGateClocks
| WGateFinish => true
| _ => false
end.

(** The worker is past the point where it may find the clocks off:
  anywhere but idle or at the start of the gate work. *)
Definition worker_committed (w : wpc) : bool :=
match w with
| WIdle | WGateStart => false
| _ => true
end.

Fixpoint count (f : cpc -> bool) (l : list cpc) : nat :=
match l with
| [] => O
| p :: l => ((if f p then 1 else 0) + count f l)%nat
end.

Definition slot_has_cmd (hba : ufs_hba) (t : Z) : bool :=
match lrb_at hba t with
| Some l => bool_decide (cmd l <> None)
| None => false
end.

(** Slot [t] carries a SCSI command that has been issued. *)
Definition slot_busy (hba : ufs_hba) (t : Z) : bool :=
Z.testbit (outstanding_reqs hba) t && slot_has_cmd hba t.

Fixpoint count_below (f : Z -> bool) (n : nat) : nat :=
match n with
| O => O
| S k => (count_below f k + (if f (Z.of_nat k) then 1 else 0))%nat
end.

(** The SCSI commands in flight: each owns the clock reference its
  submitter took, until the completion handler gives it back. *)
Definition inflight (hba : ufs_hba) : nat :=
count_below (slot_busy hba) (Z.to_nat (nutrs hba)).

(** Fields a step leaves as they are. *)
Definition same_slots (h h' : ufs_hba) : Prop :=
cap_clk_gating h' = cap_clk_gating h
/\ nutrs h' = nutrs h
/\ lrb h' = lrb h
/\ lrb_in_use h' = lrb_in_use h
/\ outstanding_reqs h' = outstanding_reqs h
/\ doorbell h' = doorbell h.

Definition same_chan (h h' : ufs_hba) : Prop :=
outstanding_tasks h' = outstanding_tasks h
/\ active_uic_cmd h' = active_uic_cmd h
/\ uic_async_done h' = uic_async_done h.

(** What one step of a client or of the interrupt handler may do to
  the gating record, with the change of [active_reqs]: nothing; take a
  reference with the clocks on or already requested; revive the clocks
  by cancelling the pending gate work; request the clocks; give [k]
  references back; give the last [k] back and request gating. *)
Definition cg_is (g' : ufs_clk_gating) (s : clk_gating_state) (a : Z)
  (gp up : bool) (g : ufs_clk_gating) : Prop :=
state g' = s /\ active_reqs g' = a
/\ is_suspended g' = is_suspended g
/\ gate_work_pending g' = gp /\ ungate_work_pending g' = up.

Inductive gtrans (g g' : ufs_clk_gating) : Z -> Prop :=
| gt_same :
  cg_is g' (state g) (active_reqs g) (gate_work_pending g)
    (ungate_work_pending g) g ->
  gtrans g g' 0
| gt_take :
  state g = CLKS_ON \/ state g = REQ_CLKS_ON ->
  cg_is g' (state g) (active_reqs g + 1) (gate_work_pending g)
    (ungate_work_pending g) g ->
  gtrans g g' 1
| gt_cancel :
  state g = REQ_CLKS_OFF -> gate_work_pending g = true ->
  cg_is g' CLKS_ON (active_reqs g + 1) false (ungate_work_pending g) g ->
  gtrans g g' 1
| gt_request (d : Z) :
  d = 0 \/ d = 1 ->
  state g = CLKS_OFF
  \/ (state g = REQ_CLKS_OFF /\ gate_work_pending g = false) ->
  cg_is g' REQ_CLKS_ON (active_reqs g + d) (gate_work_pending g) true g ->
  gtrans g g' d
| gt_drop (k : Z) :
  0 < k -> state g = CLKS_ON ->
  cg_is g' CLKS_ON (active_reqs g - k) (gate_work_pending g)
    (ungate_work_pending g) g ->
  gtrans g g' (- k)
| gt_idle (k : Z) :
  0 < k -> state g = CLKS_ON -> active_reqs g = k ->
  cg_is g' REQ_CLKS_OFF 0 true (ungate_work_pending g) g ->
  gtrans g g' (- k).

(** The adapter's constants. *)
Record inv_adapter (m : machine) : Prop := {
inv_cap : cap_clk_gating (adapter m) = true;
inv_nutrs : 0 <= nutrs (adapter m) <= 32;
inv_lrb : Z.of_nat (length (lrb (adapter m))) = nutrs (adapter m);
inv_bound : Z.of_nat (length (clients m)) + 33 < 2 ^ 31
}.

(** Clock references, the work queue and the worker. *)
Record inv_gating (m : machine) : Prop := {
inv_refs :
  active_reqs (clk_gating (adapter m)) =
    Z.of_nat (count counted (clients m))
    + Z.of_nat (inflight (adapter m));
inv_on :
  state (clk_gating (adapter m)) <> CLKS_ON ->
  inflight (adapter m) = O
  /\ forall i p, clients m !! i = Some p -> counted p = true ->
                 p = CWait false;
inv_off :
  state (clk_gating (adapter m)) = CLKS_OFF
  \/ state (clk_gating (adapter m)) = REQ_CLKS_OFF ->
  active_reqs (clk_gating (adapter m)) = 0;
inv_wq :
  wq m =
    (if gate_work_pending (clk_gating (adapter m)) then [GATE_WORK]
     else [])
    ++ (if ungate_work_pending (clk_gating (adapter m))
        then [UNGATE_WORK] else [])
  \/ (wq m = [UNGATE_WORK; GATE_WORK]
      /\ gate_work_pending (clk_gating (adapter m)) = true
      /\ ungate_work_pending (clk_gating (adapter m)) = true);
inv_committed :
  worker_committed (worker m) = true ->
  state (clk_gating (adapter m)) <> CLKS_OFF;
inv_ungate_pending :
  ungate_work_pending (clk_gating (adapter m)) = true ->
  state (clk_gating (adapter m)) <> CLKS_OFF;
inv_gate_running :
  worker_gate (worker m) = true ->
  ungate_work_pending (clk_gating (adapter m)) = true ->
  state (clk_gating (adapter m)) = REQ_CLKS_ON
  /\ gate_work_pending (clk_gating (adapter m)) = false;
inv_gate_first :
  wq m = [GATE_WORK; UNGATE_WORK] ->
  state (clk_gating (adapter m)) = REQ_CLKS_ON /\ worker m = WIdle;
inv_off_gate :
  state (clk_gating (adapter m)) = CLKS_OFF ->
  gate_work_pending (clk_gating (adapter m)) = true ->
  worker m = WIdle
}.

(** Slots: who owns which, and what is outstanding. *)
Record inv_slots (m : machine) : Prop := {
inv_out :
  forall t, Z.testbit (outstanding_reqs (adapter m)) t = true ->
    0 <= t < nutrs (adapter m)
    /\ Z.testbit (lrb_in_use (adapter m)) t = true
    /\ (slot_has_cmd (adapter m) t = true
        \/ exists i p, clients m !! i = Some p /\ issued p = Some t);
inv_door :
  forall t, Z.testbit (doorbell (adapter m)) t = true ->
    Z.testbit (outstanding_reqs (adapter m)) t = true;
inv_own :
  forall i p t, clients m !! i = Some p -> owner p = Some t ->
    0 <= t < nutrs (adapter m)
    /\ Z.testbit (lrb_in_use (adapter m)) t = true;
inv_uniq :
  forall i j p q t,
    clients m !! i = Some p -> clients m !! j = Some q ->
    owner p = Some t -> owner q = Some t -> i = j;
inv_free :
  forall i p t, clients m !! i = Some p -> owner p = Some t ->
    issued p = None ->
    Z.testbit (outstanding_reqs (adapter m)) t = false;
inv_binds :
  forall i p t, clients m !! i = Some p -> binds p = Some t ->
    slot_has_cmd (adapter m) t = true;
inv_unbinds :
  forall i p t, clients m !! i = Some p -> unbinds p = Some t ->
    slot_has_cmd (adapter m) t = false;
inv_try :
  forall i p t, clients m !! i = Some p -> trying p = Some t ->
    0 <= t < nutrs (adapter m)
}.

(** Task management and the link control channel. *)
Record inv_chan (m : machine) : Prop := {
inv_tasks :
  forall s, Z.testbit (outstanding_tasks (adapter m)) s = true ->
    exists i p, clients m !! i = Some p /\ tasked p = Some s;
inv_uic :
  active_uic_cmd (adapter m) <> None ->
  (exists i p, clients m !! i = Some p /\ uic_owner p = true)
  \/ worker_uic (worker m) = true;
inv_async :
  uic_async_done (adapter m) = true ->
  (exists i p, clients m !! i = Some p /\ pwr_owner p = true)
  \/ worker_uic (worker m) = true
}.

Record inv (m : machine) : Prop := {
inv_a : inv_adapter m;
inv_g : inv_gating m;
inv_s : inv_slots m;
inv_c : inv_chan m
}.

(** Device management while no wait has timed out: nobody is on the
  time-out path, [dev_cmd.lock] admits one thread, and the completion
  registered for it is signalled only once the handler has taken the
  command's slot out of [outstanding_reqs]. *)
Record inv_dev (m : machine) : Prop := {
inv_no_timeout :
  forall i p, clients m !! i = Some p -> timeout_pc p = false;
inv_mutex :
  forall i j p q,
    clients m !! i = Some p -> clients m !! j = Some q ->
    in_dev p = true -> in_dev q = true -> i = j;
inv_armed :
  forall i t, clients m !! i = Some (DevComposed t) ->
    dev_cmd_done (adapter m) = false;
inv_signalled :
  forall i t, clients m !! i = Some (DevIssued t) ->
    dev_cmd_done (adapter m) = true ->
    Z.testbit (outstanding_reqs (adapter m)) t = false
}.

(** A step that leaves the device-management completion and
  [outstanding_reqs] alone. *)
Definition same_dev (h h' : ufs_hba) : Prop :=
dev_cmd_done h' = dev_cmd_done h
/\ outstanding_reqs h' = outstanding_reqs h.

(** *** Tags *)

(** Thread [i] holds tag [t]: it has claimed the slot's bit in
  [lrb_in_use] and not yet given it back. *)
Definition holder (m : machine) (i : nat) (t : Z) : Prop :=
exists p, clients m !! i = Some p /\ owner p = Some t.

Definition no_double_allocation (m : machine) : Prop :=
forall i j t, holder m i t -> holder m j t -> i = j.

(** A claimant of a tag that another thread holds is turned away by its
  test-and-set, which leaves the bitmap as it was: a data command is
  bounced with SCSI_MLQUEUE_HOST_BUSY, a device-management thread goes
  back to look for another tag. *)
Definition second_claimant_backs_off `{UfsHeaders} (m : machine) : Prop :=
forall j t,
  holder m j t ->
  (forall env c,
     request_tag c = t -> qc_trylock env = true ->
     ufshcd_queuecommand env c (adapter m)
     = (QcReturn SCSI_MLQUEUE_HOST_BUSY, adapter m))
  /\ (forall i,
        clients m !! i = Some (DevTry t) ->
        exists m',
          step (LClient i LDevTestAndSet) m = Some m'
          /\ clients m' = <[i := DevPick]> (clients m)
          /\ lrb_in_use (adapter m') = lrb_in_use (adapter m)).

(** The first critical section of [ufshcd_gate_work] lets the work go
  on only when it finds the adapter idle. *)
Definition gate_check_validates `{UfsHeaders} (m : machine) : Prop :=
worker m = WGateStart ->
fst (ufshcd_gate_work_check (adapter m)) = true ->
state (clk_gating (adapter m)) = REQ_CLKS_OFF
/\ active_reqs (clk_gating (adapter m)) = 0
/\ lrb_in_use (adapter m) = 0
/\ quiescent (adapter m).


(** While the state variable is away from [CLKS_ON] nothing is
  outstanding, and the link is used by nobody but the worker, for the
  hibern8 command of the gate or ungate work. *)
Definition quiet_unless_on (m : machine) : Prop :=
state (clk_gating (adapter m)) <> CLKS_ON ->
outstanding_reqs (adapter m) = 0
/\ outstanding_tasks (adapter m) = 0
/\ (worker_uic (worker m) = false ->
    active_uic_cmd (adapter m) = None
    /\ uic_async_done (adapter m) = false).



(** *** A run that gates the clocks *)

(** Two idle threads on the 4-slot adapter. *)
Definition machine_idle : machine :=
{| adapter := hba_idle; worker := WIdle; wq := [];
   clients := [CIdle; CIdle] |}.

(** What the worker meets in that run: the link command goes out, its
  completion arrives in time and the power mode change ends with
  PWR_LOCAL. *)
Definition oracle_ok : woracle :=
{| wo_clk_ret := 0;
   wo_env := {| pe_ready := true; pe_intr_enabled := true;
                pe_irq := None; pe_in_time := true; pe_hcs := 256 |};
   wo_completed := true;
   wo_hcs := 256 |}.

(** Thread 0 takes the clocks and gives them back; the gate work runs to
  its end; thread 1 then submits a command, which is bounced while the
  ungate work is queued. *)
Definition sched_gate : list label :=
[ LClient 0 (LHold false); LClient 0 LRelease;
  LWorker oracle_ok; LWorker oracle_ok; LWorker oracle_ok;
  LEnv (LIrqUic 1040 0 0);
  LWorker oracle_ok; LWorker oracle_ok; LWorker oracle_ok;
  LWorker oracle_ok ].

(** The same run up to the point where the gate work has been taken
  off the queue and is about to look at the adapter. *)
Definition sched_gate_start : list label :=
[ LClient 0 (LHold false); LClient 0 LRelease; LWorker oracle_ok ].

(** Thread 0 submits a read with tag 2, which stays in flight; thread 1
  takes the clocks. *)
Definition sched_submit : list label :=
[ LClient 0 (LQueuecommand qc_env_ok (read_cmd 2)); LClient 0 LQcHold;
  LClient 0 LQcBind; LClient 0 LQcCompose; LClient 0 LQcIssue;
  LClient 1 (LHold false) ].

(** *** A hold that arrives while the gate work runs *)

(** Thread 0 takes the clocks and gives them back; the gate work passes
  its check and drops the lock; thread 1 then asks for the clocks and
  goes to sleep until the ungate work has run; the gate work enters
  hibern8 and arrives at the point where it cuts the clocks. *)
Definition sched_cut : list label :=
[ LClient 0 (LHold false); LClient 0 LRelease;
  LWorker oracle_ok; LWorker oracle_ok;
  LClient 1 (LHold false);
  LWorker oracle_ok; LEnv (LIrqUic 1040 0 0);
  LWorker oracle_ok; LWorker oracle_ok ].

(** *** Two claimants for one tag *)

Definition machine_three : machine :=
{| adapter := hba_idle; worker := WIdle; wq := [];
   clients := [CIdle; CIdle; CIdle] |}.

(** Thread 0 looks for a tag for a device-management command and picks
  tag 3, the highest free one; before its test-and-set, thread 1
  claims tag 3 for a read. *)
Definition sched_race : list label :=
[ LClient 0 (LHold false); LClient 0 LDevStart; LClient 0 LDevRead;
  LClient 1 (LQueuecommand qc_env_ok (read_cmd 3)) ].

(** *** A device-management command whose clear fails *)

(** Thread 0 sends a device-management command on tag 3, the highest
  free one.  The wait times out, the controller does not answer the
  write to the clear register, [ufshcd_clear_cmd] gives up with the
  doorbell bit still set, and the thread clears the slot's bit in
  [outstanding_reqs], gives the tag back and leaves. *)
Definition sched_failed_clear : list label :=
[ LClient 0 (LHold false); LClient 0 LDevStart; LClient 0 LDevRead;
  LClient 0 LDevTestAndSet; LClient 0 (LDevCompose false 0);
  LClient 0 LDevIssue; LClient 0 (LDevWake false); LClient 0 LDevWait;
  LClient 0 LDevClear; LClient 0 (LDevClearPoll true);
  LClient 0 LDevReqRead; LClient 0 LDevReqWrite; LClient 0 LDevPut;
  LClient 0 LDevUnlock; LClient 0 LRelease ].

(** ... Thread 2 then has a read on tag 0 in flight.  Thread 1 is handed
  tag 3 by the block layer, claims it and binds its command.  The
  read on tag 0 completes; the handler finds bit 3 in the doorbell and
  not in [outstanding_reqs], takes slot 3 for completed as well, hands
  the command of thread 1 back and frees its tag.  Thread 0, looking
  for a tag for its next device-management command, takes tag 3. *)
Definition sched_tag_twice : list label :=
sched_failed_clear
++ [ LClient 2 (LQueuecommand qc_env_ok (read_cmd 0)); LClient 2 LQcHold;
     LClient 2 LQcBind; LClient 2 LQcCompose; LClient 2 LQcIssue;
     LClient 1 (LQueuecommand qc_env_ok (read_cmd 3)); LClient 1 LQcHold;
     LClient 1 LQcBind;
     LEnv (LHwComplete 1); LEnv LIrqTransfer;
     LClient 0 (LHold false); LClient 0 LDevStart; LClient 0 LDevRead;
     LClient 0 LDevTestAndSet ].

(** ... Or thread 2 has its read on tag 0 in flight and nothing else
  happens: when the read completes the handler puts bit 3 back into
  [outstanding_reqs], the last clock reference goes, and the gate work
  finds [lrb_in_use] empty and gates the clocks. *)
Definition sched_off_outstanding : list label :=
sched_failed_clear
++ [ LClient 2 (LQueuecommand qc_env_ok (read_cmd 0)); LClient 2 LQcHold;
     LClient 2 LQcBind; LClient 2 LQcCompose; LClient 2 LQcIssue;
     LEnv (LHwComplete 1); LEnv LIrqTransfer;
     LWorker oracle_ok; LWorker oracle_ok; LWorker oracle_ok;
     LEnv (LIrqUic 1040 0 0);
     LWorker oracle_ok; LWorker oracle_ok; LWorker oracle_ok;
     LWorker oracle_ok ].

End Gating.

(** ** Further functions of [ufshcd.c]

    The error-register history, the ICC level scan, register and doorbell
    polling, the task-management slot bitmap, the power-management level
    table, the scaling pre-check, the interrupt loop and the queue-depth
    limits. *)

(** Constants of [ufshcd.h], [ufs.h] and [errno.h] these functions use. *)
Class UfsDefs := {
  EOPNOTSUPP : Z;
  EPERM : Z;
  UFS_ERR_REG_HIST_LENGTH : Z;
  UFS_PM_LVL_MAX : Z;
  QUERY_REQ_RETRIES : Z;
  (* power descriptor *)
  ATTR_ICC_LVL_UNIT_OFFSET : Z;
  ATTR_ICC_LVL_UNIT_MASK : Z;
  ATTR_ICC_LVL_VALUE_MASK : Z;
  UFSHCD_NANO_AMP : Z;
  UFSHCD_MICRO_AMP : Z;
  UFSHCD_MILI_AMP : Z;
  UFSHCD_AMP : Z;
  POWER_DESC_MAX_ACTV_ICC_LVLS : Z;
  PWR_DESC_ACTIVE_LVLS_VCC_0 : Z;
  PWR_DESC_ACTIVE_LVLS_VCCQ_0 : Z;
  PWR_DESC_ACTIVE_LVLS_VCCQ2_0 : Z;
  (* device management responses *)
  UPIU_TRANSACTION_NOP_IN : Z;
  UPIU_TRANSACTION_QUERY_RSP : Z;
  UPIU_RSP_CODE_OFFSET : Z;
  UPIU_QUERY_OPCODE_READ_DESC : Z;
  MASK_QUERY_DATA_SEG_LEN : Z;
  (* interrupt status bits *)
  UFSHCD_UIC_MASK : Z;
  UTP_TASK_REQ_COMPL : Z;
  UTP_TRANSFER_REQ_COMPL : Z;
  UFSHCD_ERROR_MASK : Z;
  CONFIG_SCSI_UFSHCD_QTI : bool
}.

#[global] Instance linux_defs : UfsDefs := {|
  EOPNOTSUPP := 95;
  EPERM := 1;
  UFS_ERR_REG_HIST_LENGTH := 8;
  UFS_PM_LVL_MAX := 6;
  QUERY_REQ_RETRIES := 3;
  ATTR_ICC_LVL_UNIT_OFFSET := 14;
  ATTR_ICC_LVL_UNIT_MASK := 49152;
  ATTR_ICC_LVL_VALUE_MASK := 1023;
  UFSHCD_NANO_AMP := 0;
  UFSHCD_MICRO_AMP := 1;
  UFSHCD_MILI_AMP := 2;
  UFSHCD_AMP := 3;
  POWER_DESC_MAX_ACTV_ICC_LVLS := 16;
  PWR_DESC_ACTIVE_LVLS_VCC_0 := 2;
  PWR_DESC_ACTIVE_LVLS_VCCQ_0 := 34;
  PWR_DESC_ACTIVE_LVLS_VCCQ2_0 := 66;
  UPIU_TRANSACTION_NOP_IN := 32;
  UPIU_TRANSACTION_QUERY_RSP := 54;
  UPIU_RSP_CODE_OFFSET := 8;
  UPIU_QUERY_OPCODE_READ_DESC := 1;
  MASK_QUERY_DATA_SEG_LEN := 65535;
  UFSHCD_UIC_MASK := 1040;
  UTP_TASK_REQ_COMPL := 512;
  UTP_TRANSFER_REQ_COMPL := 1;
  UFSHCD_ERROR_MASK := 227332;
  CONFIG_SCSI_UFSHCD_QTI := true
|}.

Definition uint8 (z : Z) : Z := z mod 2 ^ 8.
Definition uint16 (z : Z) : Z := z mod 2 ^ 16.

(** [ktime_to_us] on [ktime_t], a signed 64-bit count of nanoseconds:
    [ktime_divns(kt, NSEC_PER_USEC)], a division that rounds towards
    zero. *)
Definition ktime_to_us (kt : Z) : Z := Z.quot kt 1000.

(** *** The error-register history: [ufshcd_update_reg_hist],
        [ufshcd_print_err_hist] *)

Module ErrHist.

(** [struct ufs_err_reg_hist]: a ring of the last
    [UFS_ERR_REG_HIST_LENGTH] register values with their time stamps. *)
Record ufs_err_reg_hist : Set := {
  pos : Z;
  reg : list Z;
  tstamp : list Z
}.

(** What [ufshcd_print_err_hist] writes to the log. *)
Inductive hist_msg : Set :=
  | HistLine (p : Z) (val : Z) (us : Z)  (* "%s[%d] = 0x%x at %lld us" *)
  | HistNoRecord.                        (* "No record of %s errors"   *)

Section WithDefs.
Context `{UfsDefs}.

(** [ufshcd_update_reg_hist]; [now] is what [ktime_get] returns.  The
    arrays have [UFS_ERR_REG_HIST_LENGTH] elements; the stores stay
    inside them as long as [pos] does. *)
Definition ufshcd_update_reg_hist (now : Z)
    (reg_hist : ufs_err_reg_hist) (val : Z) : ufs_err_reg_hist :=
  {| reg := <[Z.to_nat (pos reg_hist) := uint32 val]> (reg reg_hist);
     tstamp := <[Z.to_nat (pos reg_hist) := now]> (tstamp reg_hist);
     pos := Z.rem (sint32 (pos reg_hist + 1)) UFS_ERR_REG_HIST_LENGTH |}.

(** One round of the loop of [ufshcd_print_err_hist]: a slot whose
    time stamp is zero is passed over, any other is printed with its
    index, its register value and [ktime_to_us] of its time stamp. *)
Definition err_hist_line (err_hist : ufs_err_reg_hist) (i : Z)
  : option hist_msg :=
  let p := Z.rem (sint32 (i + pos err_hist)) UFS_ERR_REG_HIST_LENGTH in
  match tstamp err_hist !! Z.to_nat p, reg err_hist !! Z.to_nat p with
  | Some t, Some r =>
      if t =? 0 then None else Some (HistLine p r (ktime_to_us t))
  | _, _ => None
  end.

(** [ufshcd_print_err_hist]: the messages, in the order written. *)
Definition ufshcd_print_err_hist (err_hist : ufs_err_reg_hist)
  : list hist_msg :=
  match omap (err_hist_line err_hist)
             (seqZ 0 UFS_ERR_REG_HIST_LENGTH) with
  | [] => [HistNoRecord]
  | lines => lines
  end.

(** The history of a freshly allocated (zeroed) adapter. *)
Definition hist_zero : ufs_err_reg_hist :=
  {| pos := 0;
     reg := replicate (Z.to_nat UFS_ERR_REG_HIST_LENGTH) 0;
     tstamp := replicate (Z.to_nat UFS_ERR_REG_HIST_LENGTH) 0 |}.

(** The history after the updates [us], each a register value with
    the time it was recorded at. *)
Definition hist_after (us : list (Z * Z)) : ufs_err_reg_hist :=
  foldl (fun h u => ufshcd_update_reg_hist (snd u) h (fst u))
        hist_zero us.

(** Entry number [k] of the stream of updates [us] as the arrays
    store it; zero before the first update. *)
Definition entry (us : list (Z * Z)) (k : Z) : Z * Z :=
  if k <? 0 then (0, 0)
  else default (0, 0)
         (((fun u => (uint32 (fst u), snd u)) <$> us) !! Z.to_nat k).

(** What the ring holds after the updates [us]: update number [k]
    sits at index [k mod UFS_ERR_REG_HIST_LENGTH] until it is
    overwritten, and [pos] is the index of the next store. *)
Definition hist_inv (us : list (Z * Z)) (h : ufs_err_reg_hist)
  : Prop :=
  pos h = Z.of_nat (length us) mod UFS_ERR_REG_HIST_LENGTH
  /\ length (reg h) = Z.to_nat UFS_ERR_REG_HIST_LENGTH
  /\ length (tstamp h) = Z.to_nat UFS_ERR_REG_HIST_LENGTH
  /\ forall k,
       Z.of_nat (length us) - UFS_ERR_REG_HIST_LENGTH <= k
         < Z.of_nat (length us) ->
       reg h !! Z.to_nat (k mod UFS_ERR_REG_HIST_LENGTH)
         = Some (fst (entry us k))
       /\ tstamp h !! Z.to_nat (k mod UFS_ERR_REG_HIST_LENGTH)
          = Some (snd (entry us k)).

End WithDefs.

(** The register values and the times, in microseconds, of the printed
    lines. *)
Definition hist_values (msgs : list hist_msg) : list (Z * Z) :=
  omap (fun m => match m with
                 | HistLine _ r t => Some (r, t)
                 | HistNoRecord => None
                 end) msgs.

End ErrHist.

(** *** The active ICC level: [ufshcd_get_max_icc_level],
        [ufshcd_find_max_sup_active_icc_level] *)

Module IccLevel.

(** The part of [struct ufs_vreg_info] the scan reads: [max_uA] of each
    regulator, [None] for a NULL regulator pointer. *)
Record ufs_vreg_info : Set := {
  vcc : option Z;
  vccq : option Z;
  vccq2 : option Z
}.

Section WithDefs.
Context `{UfsDefs}.

(** [be16_to_cpup((__be16 * )&buff[off])] on a buffer of bytes;
    [None] when the two bytes lie outside the buffer. *)
Definition be16_to_cpup (buff : list Z) (off : Z) : option Z :=
  if off <? 0 then None
  else
    match buff !! Z.to_nat off, buff !! Z.to_nat (off + 1) with
    | Some b0, Some b1 => Some (Z.lor (Z.shiftl (uint8 b0) 8) (uint8 b1))
    | _, _ => None
    end.

(** The loop body up to the comparison: the current of one row of
    the table, in micro-ampere. *)
Definition icc_row_curr_uA (data : Z) : Z :=
  let unit := uint16 (Z.shiftr (Z.land data ATTR_ICC_LVL_UNIT_MASK)
                               ATTR_ICC_LVL_UNIT_OFFSET) in
  let curr_uA := sint32 (Z.land data ATTR_ICC_LVL_VALUE_MASK) in
  if unit =? UFSHCD_NANO_AMP then Z.quot curr_uA 1000
  else if unit =? UFSHCD_MILI_AMP then sint32 (curr_uA * 1000)
  else if unit =? UFSHCD_AMP
  then sint32 (sint32 (curr_uA * 1000) * 1000)
  else curr_uA.

(** [sup_curr_uA >= curr_uA] for row [i] of the table in [buff]. *)
Definition icc_supported (sup_curr_uA : Z) (buff : list Z) (i : Z)
  : bool :=
  match be16_to_cpup buff (2 * i) with
  | Some data => sup_curr_uA >=? icc_row_curr_uA data
  | None => false
  end.

(** The [for] loop with the rows [k - 1, ..., 0] still to visit: the
    value of [i] when the loop ends, [-1] when it runs out. *)
Fixpoint icc_scan (sup_curr_uA : Z) (buff : list Z) (k : nat)
  : option Z :=
  match k with
  | O => Some (-1)
  | S j =>
      match be16_to_cpup buff (2 * Z.of_nat j) with
      | None => None
      | Some data =>
          if sup_curr_uA >=? icc_row_curr_uA data then Some (Z.of_nat j)
          else icc_scan sup_curr_uA buff j
      end
  end.

(** [ufshcd_get_max_icc_level]; [None] when the scan reads outside
    [buff]. *)
Definition ufshcd_get_max_icc_level (sup_curr_uA : Z) (start_scan : Z)
    (buff : list Z) : option Z :=
  match icc_scan sup_curr_uA buff (Z.to_nat (sint32 start_scan + 1)) with
  | None => None
  | Some i => Some (uint32 (if i <? 0 then 0 else i))
  end.

(** [if (reg && reg->max_uA) icc_level = ufshcd_get_max_icc_level(
    reg->max_uA, icc_level, &desc_buf[off]);] *)
Definition icc_narrow (reg : option Z) (icc_level : Z) (off : Z)
    (desc_buf : list Z) : option Z :=
  match reg with
  | Some max_uA =>
      if max_uA =? 0 then Some icc_level
      else ufshcd_get_max_icc_level max_uA icc_level
             (drop (Z.to_nat off) desc_buf)
  | None => Some icc_level
  end.

(** [ufshcd_find_max_sup_active_icc_level] *)
Definition ufshcd_find_max_sup_active_icc_level
    (vreg_info : ufs_vreg_info) (wspecversion : Z) (desc_buf : list Z)
  : option Z :=
  if bool_decide (vcc vreg_info = None)
     || (bool_decide (vccq vreg_info = None) && (wspecversion >=? 768))
     || (bool_decide (vccq2 vreg_info = None) && (wspecversion <? 768))
  then Some 0
  else
    match
      match vcc vreg_info with
      | Some max_uA =>
          if max_uA =? 0 then Some 0
          else ufshcd_get_max_icc_level max_uA
                 (uint32 (POWER_DESC_MAX_ACTV_ICC_LVLS - 1))
                 (drop (Z.to_nat PWR_DESC_ACTIVE_LVLS_VCC_0) desc_buf)
      | None => Some 0
      end
    with
    | None => None
    | Some icc_level =>
        match icc_narrow (vccq vreg_info) icc_level
                PWR_DESC_ACTIVE_LVLS_VCCQ_0 desc_buf with
        | None => None
        | Some icc_level =>
            icc_narrow (vccq2 vreg_info) icc_level
              PWR_DESC_ACTIVE_LVLS_VCCQ2_0 desc_buf
        end
    end.

(** Regulator [reg] is scanned and cannot supply row [j] of the table
    at [off]. *)
Definition icc_rules_out (reg : option Z) (off : Z) (desc_buf : list Z)
    (j : Z) : Prop :=
  exists max_uA, reg = Some max_uA /\ max_uA <> 0
    /\ icc_supported max_uA (drop (Z.to_nat off) desc_buf) j = false.

End WithDefs.

(** A power descriptor: the header and sixteen rows per rail, VCC at
    10 uA times the row number, VCCQ and VCCQ2 at 10 mA times the
    row number. *)
Definition pwr_desc_example : list Z :=
  [98; 1]
  ++ flat_map (fun i => [64; Z.of_nat i * 10]) (seq 0 16)
  ++ flat_map (fun i => [128; Z.of_nat i * 10]) (seq 0 16)
  ++ flat_map (fun i => [128; Z.of_nat i * 10]) (seq 0 16).

End IccLevel.

(** *** Polling a register: [ufshcd_wait_for_register] *)

Module RegPoll.

(** The delay between two reads. *)
Inductive poll_event : Set :=
  | PollUsleepRange (min max : Z)
  | PollUdelay (usecs : Z).

Section WithHeaders.
Context `{UfsHeaders}.

(** [(ufshcd_readl(hba, reg) & mask) == val], for the value [r] the
    read returns. *)
Definition reg_matches (mask val r : Z) : bool :=
  Z.land (uint32 r) mask =? val.

(** The [while] loop.  [reads] are the values the successive
    [ufshcd_readl] calls return and [late] the answers of the
    successive [time_after(jiffies, timeout)] tests; the result is
    [err] with the delays made, and [None] when the loop is still
    running at the end of [reads] or [late]. *)
Fixpoint wait_for_register_loop (mask val : Z) (delay : poll_event)
    (reads : list Z) (late : list bool) {struct late}
  : option (Z * list poll_event) :=
  match reads with
  | [] => None
  | r :: reads' =>
      if reg_matches mask val r then Some (0, [])
      else
        match late with
        | [] => None
        | l :: late' =>
            if l then
              match reads' with
              | [] => None
              | r2 :: _ =>
                  Some (if reg_matches mask val r2 then 0
                        else - ETIMEDOUT,
                        [delay])
              end
            else
              match wait_for_register_loop mask val delay reads' late'
              with
              | Some (err, evs) => Some (err, delay :: evs)
              | None => None
              end
        end
  end.

(** [ufshcd_wait_for_register] *)
Definition ufshcd_wait_for_register (mask val interval_us : Z)
    (can_sleep : bool) (reads : list Z) (late : list bool)
  : option (Z * list poll_event) :=
  let mask := uint32 mask in
  let val := Z.land (uint32 val) mask in
  wait_for_register_loop mask val
    (if can_sleep
     then PollUsleepRange (ulong interval_us) (ulong (interval_us + 50))
     else PollUdelay (ulong interval_us))
    reads late.

End WithHeaders.

End RegPoll.

(** *** Task-management slots: [ufshcd_get_tm_free_slot],
        [ufshcd_put_tm_slot] *)

Module TmSlots.

(** [find_first_zero_bit(addr, size)]: the scan, [n] positions from
    [i] on ... *)
Fixpoint find_first_zero_from (n : nat) (i : Z) (addr : Z) (size : Z)
  : Z :=
  match n with
  | O => size
  | S k => if Z.testbit addr i
           then find_first_zero_from k (i + 1) addr size
           else i
  end.

(** ... and the function: the number of the first clear bit below
    [size], or [size] if there is none. *)
Definition find_first_zero_bit (addr : Z) (size : Z) : Z :=
  find_first_zero_from (Z.to_nat size) 0 addr size.

(** The fields of [struct ufs_hba] the two functions use. *)
Record tm_hba : Set := {
  tm_slots_in_use : Z;
  nutmrs : Z
}.

Definition set_tm_slots_in_use (v : Z) (hba : tm_hba) : tm_hba :=
  {| tm_slots_in_use := v; nutmrs := nutmrs hba |}.

(** The [do ... while (test_and_set_bit_lock(...))] loop, at most
    [rounds] times round; [None] when it has not ended by then. *)
Fixpoint get_tm_free_slot_loop (rounds : nat) (hba : tm_hba)
  : option (option Z * tm_hba) :=
  match rounds with
  | O => None
  | S k =>
      let tag := sint32 (find_first_zero_bit (tm_slots_in_use hba)
                                             (nutmrs hba)) in
      if tag >=? nutmrs hba then Some (None, hba)
      else
        let '(was_set, in_use) :=
          Bitops.test_and_set_bit_lock tag (tm_slots_in_use hba) in
        let hba := set_tm_slots_in_use in_use hba in
        if was_set then get_tm_free_slot_loop k hba
        else Some (Some tag, hba)
  end.

(** [ufshcd_get_tm_free_slot] when nothing else touches the bitmap in
    between: [Some tag] is the [true] return with [*free_slot = tag]. *)
Definition ufshcd_get_tm_free_slot (rounds : nat) (free_slot_null : bool)
    (hba : tm_hba) : option (option Z * tm_hba) :=
  if free_slot_null then Some (None, hba)
  else get_tm_free_slot_loop rounds hba.

Definition ufshcd_put_tm_slot (slot : Z) (hba : tm_hba) : tm_hba :=
  set_tm_slots_in_use (Bitops.clear_bit slot (tm_slots_in_use hba)) hba.

End TmSlots.

(** *** Power-management levels: [ufs_pm_lvl_states] and its lookups *)

Module PmLevels.

(** [enum ufs_dev_pwr_mode] *)
Inductive ufs_dev_pwr_mode : Set :=
  UFS_ACTIVE_PWR_MODE | UFS_SLEEP_PWR_MODE | UFS_POWERDOWN_PWR_MODE.

#[global] Instance ufs_dev_pwr_mode_eq_dec : EqDecision ufs_dev_pwr_mode.
Proof. solve_decision. Defined.

(** [struct ufs_pm_lvl_states] *)
Record pm_lvl_state : Set := {
  dev_state : ufs_dev_pwr_mode;
  link_state : uic_link_state
}.

Definition ufs_pm_lvl_states : list pm_lvl_state :=
  [ {| dev_state := UFS_ACTIVE_PWR_MODE;
       link_state := UIC_LINK_ACTIVE_STATE |};
    {| dev_state := UFS_ACTIVE_PWR_MODE;
       link_state := UIC_LINK_HIBERN8_STATE |};
    {| dev_state := UFS_SLEEP_PWR_MODE;
       link_state := UIC_LINK_ACTIVE_STATE |};
    {| dev_state := UFS_SLEEP_PWR_MODE;
       link_state := UIC_LINK_HIBERN8_STATE |};
    {| dev_state := UFS_POWERDOWN_PWR_MODE;
       link_state := UIC_LINK_HIBERN8_STATE |};
    {| dev_state := UFS_POWERDOWN_PWR_MODE;
       link_state := UIC_LINK_OFF_STATE |} ].

Definition UFS_PM_LVL_0 : Z := 0.

(** [ufs_pm_lvl_states[lvl]]; [None] for a read outside the array. *)
Definition pm_lvl_row (lvl : Z) : option pm_lvl_state :=
  if lvl <? 0 then None else ufs_pm_lvl_states !! Z.to_nat lvl.

Definition ufs_get_pm_lvl_to_dev_pwr_mode (lvl : Z)
  : option ufs_dev_pwr_mode :=
  dev_state <$> pm_lvl_row lvl.

Definition ufs_get_pm_lvl_to_link_pwr_state (lvl : Z)
  : option uic_link_state :=
  link_state <$> pm_lvl_row lvl.

Section WithDefs.
Context `{UfsDefs}.

(** The [for] loop of [ufs_get_desired_pm_lvl_for_dev_link_state]
    from [lvl] on, [n] rounds before [UFS_PM_LVL_MAX]. *)
Fixpoint desired_pm_lvl_from (n : nat) (lvl : Z)
    (dev : ufs_dev_pwr_mode) (link : uic_link_state) : option Z :=
  match n with
  | O => Some UFS_PM_LVL_0
  | S k =>
      match pm_lvl_row lvl with
      | None => None
      | Some row =>
          if bool_decide (dev_state row = dev)
             && bool_decide (link_state row = link)
          then Some lvl
          else desired_pm_lvl_from k (lvl + 1) dev link
      end
  end.

Definition ufs_get_desired_pm_lvl_for_dev_link_state
    (dev : ufs_dev_pwr_mode) (link : uic_link_state) : option Z :=
  desired_pm_lvl_from (Z.to_nat (UFS_PM_LVL_MAX - UFS_PM_LVL_0))
    UFS_PM_LVL_0 dev link.

End WithDefs.

End PmLevels.

(** *** The scaling pre-check: [ufshcd_is_devfreq_scaling_required] *)

Module ScalingCheck.
Import Scaling.

(** The [list_for_each_entry] loop over the clocks still to visit. *)
Fixpoint scaling_required_from (scale_up : bool)
    (todo : list ufs_clk_info) : bool :=
  match todo with
  | [] => false
  | clki :: rest =>
      if clk_valid clki then
        if scale_up && negb (max_freq clki =? 0) then
          if curr_freq clki =? max_freq clki
          then scaling_required_from scale_up rest
          else true
        else if negb scale_up && negb (min_freq clki =? 0) then
          if curr_freq clki =? min_freq clki
          then scaling_required_from scale_up rest
          else true
        else scaling_required_from scale_up rest
      else scaling_required_from scale_up rest
  end.

Definition ufshcd_is_devfreq_scaling_required (scale_up : bool)
    (h : sc_hba) : bool :=
  match clk_list h with
  | [] => false
  | _ => scaling_required_from scale_up (clk_list h)
  end.

End ScalingCheck.

(** *** Waiting for the doorbells: [ufshcd_wait_for_doorbell_clr] *)

Module DoorbellWait.

(** Calls into collaborators, in program order. *)
Inductive db_event : Set :=
  | DbHold                  (* ufshcd_hold(hba, false)      *)
  | DbRelease               (* ufshcd_release(hba)          *)
  | DbLock                  (* spin_lock_irqsave            *)
  | DbUnlock                (* spin_unlock_irqrestore       *)
  | DbSchedule.             (* schedule()                   *)

(** What one round of the loop observes: the run state and the two
    doorbell registers under the lock and, if the round gets that far,
    whether the time is up after [schedule()]. *)
Record db_sample : Set := {
  s_ufshcd_state : Z;
  s_tm_doorbell : Z;
  s_tr_doorbell : Z;
  s_late : bool
}.

Section WithHeaders.
Context `{UfsHeaders}.

(** The [do ... while (tm_doorbell || tr_doorbell)] loop up to the
    label [out], with the values of [timeout] and [do_last_check] at
    the start of the round: the return value and the events of the
    rounds; [None] when the loop is still running at the end of
    [samples]. *)
Fixpoint doorbell_clr_loop (timeout do_last_check : bool)
    (samples : list db_sample) : option (Z * list db_event) :=
  match samples with
  | [] => None
  | s :: rest =>
      if negb (s_ufshcd_state s =? UFSHCD_STATE_OPERATIONAL)
      then Some (- EBUSY, [])
      else
        let tm_doorbell := uint32 (s_tm_doorbell s) in
        let tr_doorbell := uint32 (s_tr_doorbell s) in
        if (tm_doorbell =? 0) && (tr_doorbell =? 0)
        then Some (0, [])
        else if do_last_check
        then Some (if timeout then - EBUSY else 0, [])
        else
          let late := s_late s in
          match doorbell_clr_loop (late || timeout)
                  (late || do_last_check) rest with
          | Some (ret, evs) =>
              Some (ret, [DbUnlock; DbSchedule; DbLock] ++ evs)
          | None => None
          end
  end.

(** [ufshcd_wait_for_doorbell_clr] *)
Definition ufshcd_wait_for_doorbell_clr (samples : list db_sample)
  : option (Z * list db_event) :=
  match doorbell_clr_loop false false samples with
  | Some (ret, evs) =>
      Some (ret, [DbHold; DbLock] ++ evs ++ [DbUnlock; DbRelease])
  | None => None
  end.

(** The doorbells read clear in sample [s]. *)
Definition doorbells_clear (s : db_sample) : bool :=
  (uint32 (s_tm_doorbell s) =? 0) && (uint32 (s_tr_doorbell s) =? 0).

Definition operational (s : db_sample) : bool :=
  s_ufshcd_state s =? UFSHCD_STATE_OPERATIONAL.

End WithHeaders.

(** Whether the host lock is held after the events [evs], starting
    from [held]; [None] if [schedule()] is called with the lock held,
    or the lock is taken or dropped twice in a row. *)
Fixpoint lock_discipline (held : bool) (evs : list db_event)
  : option bool :=
  match evs with
  | [] => Some held
  | DbLock :: evs' => if held then None else lock_discipline true evs'
  | DbUnlock :: evs' => if held then lock_discipline false evs' else None
  | DbSchedule :: evs' => if held then None else lock_discipline held evs'
  | (DbHold | DbRelease) :: evs' =>
      if held then None else lock_discipline held evs'
  end.

End DoorbellWait.

(** *** The interrupt service routine: [ufshcd_intr] *)

Module IntrLoop.

(** Register writes and calls, in program order. *)
Inductive intr_event : Set :=
  | IntrAck (status : Z)         (* ufshcd_writel(hba, intr_status,
                                    REG_INTERRUPT_STATUS)             *)
  | IntrSl (enabled_status : Z) (ret : irqreturn_t)
                                 (* ufshcd_sl_intr and its return     *)
  | IntrUnhandled (status : Z).  (* "Unhandled interrupt", register
                                    dump                              *)

(** What one round of the loop gets from outside: the interrupt-enable
    register, the return of [ufshcd_sl_intr] if it is called, and the
    interrupt status read at the end of the round. *)
Record intr_round : Set := {
  r_enable : Z;
  r_sl_ret : irqreturn_t;
  r_next_status : Z
}.

(** [retval |= x] on [irqreturn_t]. *)
Definition irq_or (a b : irqreturn_t) : irqreturn_t :=
  match a, b with
  | IRQ_NONE, IRQ_NONE => IRQ_NONE
  | _, _ => IRQ_HANDLED
  end.

Section WithDefs.
Context `{UfsDefs}.

(** The [while (intr_status && retries--)] loop: the final values of
    [intr_status], [enabled_intr_status] and [retval] with the events
    of the rounds; [None] when [rounds] ends before the loop does. *)
Fixpoint intr_loop (retries : nat)
    (intr_status enabled_intr_status : Z) (retval : irqreturn_t)
    (rounds : list intr_round)
  : option (Z * Z * irqreturn_t * list intr_event) :=
  if intr_status =? 0
  then Some (intr_status, enabled_intr_status, retval, [])
  else
    match retries with
    | O => Some (intr_status, enabled_intr_status, retval, [])
    | S retries' =>
        match rounds with
        | [] => None
        | r :: rest =>
            let enabled := Z.land intr_status (uint32 (r_enable r)) in
            let called := negb (enabled =? 0) in
            let retval := if called then irq_or retval (r_sl_ret r)
                          else retval in
            let retval := if CONFIG_SCSI_UFSHCD_QTI && called
                          then IRQ_HANDLED else retval in
            match intr_loop retries' (uint32 (r_next_status r)) enabled
                    retval rest with
            | Some (s, e, rv, evs) =>
                Some (s, e, rv,
                      IntrAck intr_status
                      :: (if called then [IntrSl enabled (r_sl_ret r)]
                          else [])
                      ++ evs)
            | None => None
            end
        end
    end.

(** [ufshcd_intr] on an adapter with [nutrs] slots, [status] being
    the first read of the interrupt status register; a negative
    [nutrs], with which [retries] would count down to the wrap, is
    left out. *)
Definition ufshcd_intr (nutrs : Z) (status : Z)
    (rounds : list intr_round) : option (irqreturn_t * list intr_event) :=
  if sint32 nutrs <? 0 then None
  else
    match intr_loop (Z.to_nat (sint32 nutrs)) (uint32 status) 0 IRQ_NONE
            rounds with
    | Some (s, e, rv, evs) =>
        Some (rv,
              evs ++ (if negb (e =? 0)
                      then match rv with
                           | IRQ_NONE => [IntrUnhandled s]
                           | IRQ_HANDLED => []
                           end
                      else []))
    | None => None
    end.

End WithDefs.

Definition is_ack (e : intr_event) : bool :=
  match e with IntrAck _ => true | _ => false end.

End IntrLoop.

(** *** Queue depth: [ufshcd_set_queue_depth],
        [ufshcd_change_queue_depth] *)

Module QueueDepth.

Section WithDefs.
Context `{UfsDefs}.

(** [ufshcd_set_queue_depth]: the depth it hands to
    [scsi_change_queue_depth].  [ret] is what
    [ufshcd_read_unit_desc_param] returns and [stored] the byte it
    stored in [lun_qdepth], if it stored one. *)
Definition ufshcd_set_queue_depth (nutrs : Z) (ret : Z)
    (stored : option Z) : Z :=
  let lun_qdepth := uint8 nutrs in
  let lun_qdepth := match stored with
                    | Some b => uint8 b
                    | None => lun_qdepth
                    end in
  if ret =? - EOPNOTSUPP then 1
  else if lun_qdepth =? 0 then uint8 nutrs
  else uint8 (Z.min (sint32 lun_qdepth) (sint32 nutrs)).

(** [ufshcd_change_queue_depth]: the depth it hands to
    [scsi_change_queue_depth]. *)
Definition ufshcd_change_queue_depth (nutrs : Z) (depth : Z) : Z :=
  if depth >? nutrs then nutrs else depth.

End WithDefs.

End QueueDepth.

(** *** Device management responses: [ufshcd_check_query_response],
        [ufshcd_copy_query_response], [ufshcd_dev_cmd_completion] *)

Module DevCmdCompletion.

(** [enum dev_cmd_type] *)
Inductive dev_cmd_type : Set := DEV_CMD_TYPE_NOP | DEV_CMD_TYPE_QUERY.

(** The parts of [hba->dev_cmd] and of the response UPIU of the slot
    that the completion of a device management command uses. *)
Record dev_cmd : Set := {
  dc_type : dev_cmd_type;              (* dev_cmd.type                  *)
  dc_descriptor : option (list Z);     (* dev_cmd.query.descriptor;
                                          None is NULL                  *)
  dc_req_length : Z;                   (* be16_to_cpu(request.upiu_req
                                          .length)                      *)
  dc_response : Z;                     (* query.response.response, a u8 *)
  dc_upiu_res : option Z               (* query.response.upiu_res, by
                                          the opcode copied into it     *)
}.

Record query_rsp : Set := {
  qr_opcode : Z;                       (* ucd_rsp_ptr->qr.opcode        *)
  qr_data : list Z                     (* the bytes after the response
                                          UPIU header                   *)
}.

Definition set_dc_response (v : Z) (d : dev_cmd) : dev_cmd :=
  {| dc_type := dc_type d; dc_descriptor := dc_descriptor d;
     dc_req_length := dc_req_length d; dc_response := v;
     dc_upiu_res := dc_upiu_res d |}.
Definition set_dc_upiu_res (v : option Z) (d : dev_cmd) : dev_cmd :=
  {| dc_type := dc_type d; dc_descriptor := dc_descriptor d;
     dc_req_length := dc_req_length d; dc_response := dc_response d;
     dc_upiu_res := v |}.
Definition set_dc_descriptor (v : option (list Z)) (d : dev_cmd)
  : dev_cmd :=
  {| dc_type := dc_type d; dc_descriptor := v;
     dc_req_length := dc_req_length d; dc_response := dc_response d;
     dc_upiu_res := dc_upiu_res d |}.

(** [memcpy(dst, src, n)] on byte buffers; [None] when [n] bytes do not
    fit in one of them. *)
Definition memcpy (dst src : list Z) (n : Z) : option (list Z) :=
  if (n <? 0) || (Z.of_nat (length src) <? n)
     || (Z.of_nat (length dst) <? n)
  then None
  else Some (take (Z.to_nat n) src ++ drop (Z.to_nat n) dst).

Section WithHeaders.
Context `{UfsHeaders} `{UfsDefs}.

Definition ufshcd_check_query_response (d : dev_cmd) (lrbp : ufshcd_lrb)
  : Z * dev_cmd :=
  let response := uint8 (Z.shiftr (ufshcd_get_rsp_upiu_result lrbp)
                                  UPIU_RSP_CODE_OFFSET) in
  (response, set_dc_response response d).

(** [ufshcd_copy_query_response]; [None] when the copy of the
    descriptor runs outside a buffer. *)
Definition ufshcd_copy_query_response (d : dev_cmd) (lrbp : ufshcd_lrb)
    (qr : query_rsp) : option (Z * dev_cmd) :=
  let d := set_dc_upiu_res (Some (qr_opcode qr)) d in
  match dc_descriptor d with
  | Some descriptor =>
      if qr_opcode qr =? UPIU_QUERY_OPCODE_READ_DESC then
        let resp_len := uint16 (Z.land (rsp_dword_2 lrbp)
                                       MASK_QUERY_DATA_SEG_LEN) in
        let buf_len := uint16 (dc_req_length d) in
        if buf_len >=? resp_len then
          match memcpy descriptor (qr_data qr) resp_len with
          | Some descriptor' =>
              Some (0, set_dc_descriptor (Some descriptor') d)
          | None => None
          end
        else Some (- EINVAL, d)
      else Some (0, d)
  | None => Some (0, d)
  end.

(** [ufshcd_dev_cmd_completion]; the reset of the statistics time
    stamp [last_hibern8_exit_tstamp] is left out. *)
Definition ufshcd_dev_cmd_completion (d : dev_cmd) (lrbp : ufshcd_lrb)
    (qr : query_rsp) : option (Z * dev_cmd) :=
  let resp := sint32 (ufshcd_get_req_rsp lrbp) in
  if resp =? UPIU_TRANSACTION_NOP_IN then
    match dc_type d with
    | DEV_CMD_TYPE_NOP => Some (0, d)
    | _ => Some (- EINVAL, d)
    end
  else if resp =? UPIU_TRANSACTION_QUERY_RSP then
    let '(err, d) := ufshcd_check_query_response d lrbp in
    if err =? 0 then ufshcd_copy_query_response d lrbp qr
    else Some (err, d)
  else if resp =? UPIU_TRANSACTION_REJECT_UPIU then Some (- EPERM, d)
  else Some (- EINVAL, d).

End WithHeaders.

End DevCmdCompletion.

(** *** Views of the trace *)

(** The calls of [ufshcd_disable_intr] and [ufshcd_enable_intr] in a
    trace, in order. *)
Definition intr_ctl (l : list event) : list event :=
  omap (fun e => match e with
                 | EvDisableIntr _ | EvEnableIntr _ => Some e
                 | _ => None
                 end) l.

(** *** Busy time for devfreq: [ufshcd_clk_scaling_start_busy],
        [ufshcd_clk_scaling_update_busy], [ufshcd_devfreq_get_dev_status],
        [__ufshcd_suspend_clkscaling] *)

Definition sint64 (z : Z) : Z := (z + 2 ^ 63) mod 2 ^ 64 - 2 ^ 63.

Module BusyTime.

(** [ktime_sub] on [ktime_t], a signed 64-bit count of nanoseconds;
    [ktime_us_delta(later, earlier)] is
    [ktime_to_us(ktime_sub(later, earlier))]. *)
Definition ktime_sub (lhs rhs : Z) : Z := sint64 (lhs - rhs).
Definition ktime_us_delta (later earlier : Z) : Z :=
  ktime_to_us (ktime_sub later earlier).

(** The fields of [struct ufs_clk_scaling] the accounting uses. *)
Record ufs_clk_scaling : Set := {
  cs_active_reqs : Z;
  is_allowed : bool;
  window_start_t : Z;
  tot_busy_t : Z;
  busy_start_t : Z;
  is_busy_started : bool
}.

(** The fields of [struct devfreq_dev_status] that are filled in. *)
Record devfreq_dev_status : Set := {
  total_time : Z;
  busy_time : Z;
  current_frequency : Z
}.

(** [ufshcd_clk_scaling_start_busy]; [curr_t] is what [ktime_get]
    returns.  The first component tells whether the resume work is
    queued. *)
Definition ufshcd_clk_scaling_start_busy (supported : bool)
    (pm_op_in_progress : bool) (curr_t : Z) (s : ufs_clk_scaling)
  : bool * ufs_clk_scaling :=
  if negb supported then (false, s)
  else
    let queue_resume_work := cs_active_reqs s =? 0 in
    let s := {| cs_active_reqs := sint32 (cs_active_reqs s + 1);
                is_allowed := is_allowed s;
                window_start_t := window_start_t s;
                tot_busy_t := tot_busy_t s;
                busy_start_t := busy_start_t s;
                is_busy_started := is_busy_started s |} in
    if negb (is_allowed s) || pm_op_in_progress then (false, s)
    else
      let s := if window_start_t s =? 0
               then {| cs_active_reqs := cs_active_reqs s;
                       is_allowed := is_allowed s;
                       window_start_t := curr_t;
                       tot_busy_t := 0;
                       busy_start_t := busy_start_t s;
                       is_busy_started := false |}
               else s in
      let s := if negb (is_busy_started s)
               then {| cs_active_reqs := cs_active_reqs s;
                       is_allowed := is_allowed s;
                       window_start_t := window_start_t s;
                       tot_busy_t := tot_busy_t s;
                       busy_start_t := curr_t;
                       is_busy_started := true |}
               else s in
      (queue_resume_work, s).

(** [ufshcd_clk_scaling_update_busy]; [now] is what [ktime_get]
    returns. *)
Definition ufshcd_clk_scaling_update_busy (supported : bool)
    (outstanding_reqs : Z) (now : Z) (s : ufs_clk_scaling)
  : ufs_clk_scaling :=
  if negb supported then s
  else if (outstanding_reqs =? 0) && is_busy_started s
  then {| cs_active_reqs := cs_active_reqs s;
          is_allowed := is_allowed s;
          window_start_t := window_start_t s;
          tot_busy_t := ulong (tot_busy_t s
                               + ktime_to_us
                                   (ktime_sub now (busy_start_t s)));
          busy_start_t := 0;
          is_busy_started := false |}
  else s.

(** [ufshcd_devfreq_get_dev_status]: the return value, [*stat] and the
    new accounting state; [curr_freq] is the rate of the first clock
    of the list. *)
Definition ufshcd_devfreq_get_dev_status `{UfsHeaders} (supported : bool)
    (outstanding_reqs : Z) (curr_freq : Z) (curr_t : Z)
    (s : ufs_clk_scaling)
  : Z * option devfreq_dev_status * ufs_clk_scaling :=
  if negb supported then (- EINVAL, None, s)
  else
    let stat := {| total_time := 0; busy_time := 0;
                   current_frequency := 0 |} in
    let '(stat, tot) :=
      if window_start_t s =? 0 then (stat, tot_busy_t s)
      else
        let tot := if is_busy_started s
                   then ulong (tot_busy_t s
                               + ktime_us_delta curr_t (busy_start_t s))
                   else tot_busy_t s in
        ({| total_time := ulong (ktime_us_delta curr_t (window_start_t s));
            busy_time := tot;
            current_frequency := ulong curr_freq |}, tot) in
    (0, Some stat,
     {| cs_active_reqs := cs_active_reqs s;
        is_allowed := is_allowed s;
        window_start_t := curr_t;
        tot_busy_t := 0;
        busy_start_t := if negb (outstanding_reqs =? 0) then curr_t else 0;
        is_busy_started := negb (outstanding_reqs =? 0) |}).

(** [__ufshcd_suspend_clkscaling], the write under the host lock. *)
Definition __ufshcd_suspend_clkscaling (s : ufs_clk_scaling)
  : ufs_clk_scaling :=
  {| cs_active_reqs := cs_active_reqs s; is_allowed := is_allowed s;
     window_start_t := 0; tot_busy_t := tot_busy_t s;
     busy_start_t := busy_start_t s;
     is_busy_started := is_busy_started s |}.

(** The calls that touch the accounting, with what each reads from the
    rest of the adapter. *)
Inductive bt_op : Set :=
  | OpStartBusy (pm_op_in_progress : bool)
  | OpUpdateBusy (outstanding_reqs : Z)
  | OpGetDevStatus (outstanding_reqs : Z) (curr_freq : Z)
  | OpSuspend.

(** A history of calls, each at the time [ktime_get] shows when it is
    made (all of them are made under the host lock), and the status
    reports it produces. *)
Fixpoint bt_run `{UfsHeaders} (supported : bool) (ops : list (Z * bt_op))
    (s : ufs_clk_scaling) : list devfreq_dev_status * ufs_clk_scaling :=
  match ops with
  | [] => ([], s)
  | (t, op) :: rest =>
      match op with
      | OpStartBusy pm =>
          bt_run supported rest
            (snd (ufshcd_clk_scaling_start_busy supported pm t s))
      | OpUpdateBusy o =>
          bt_run supported rest
            (ufshcd_clk_scaling_update_busy supported o t s)
      | OpGetDevStatus o f =>
          let '(_, stat, s) :=
            ufshcd_devfreq_get_dev_status supported o f t s in
          let '(stats, s) := bt_run supported rest s in
          (match stat with Some st => st :: stats | None => stats end, s)
      | OpSuspend => bt_run supported rest (__ufshcd_suspend_clkscaling s)
      end
  end.

(** The times of a history do not go back, and are valid time
    stamps. *)
Fixpoint times_ok (prev : Z) (ops : list (Z * bt_op)) : Prop :=
  match ops with
  | [] => True
  | (t, _) :: rest => prev <= t < 2 ^ 62 /\ times_ok t rest
  end.

(** What the accounting keeps at time [t] while a window is open: the
    busy time counted so far fits between the start of the window and
    the start of the running busy period, or the present. *)
Definition bt_inv (t : Z) (s : ufs_clk_scaling) : Prop :=
  window_start_t s <> 0 ->
  0 < window_start_t s <= t
  /\ 0 <= tot_busy_t s
  /\ if is_busy_started s
     then window_start_t s <= busy_start_t s <= t
          /\ 1000 * tot_busy_t s <= busy_start_t s - window_start_t s
     else 1000 * tot_busy_t s <= t - window_start_t s.

End BusyTime.

(** *** Waiting for a device management command: [ufshcd_clear_cmd],
        [ufshcd_wait_for_dev_cmd] *)

Module DevCmdWait.
Import RegPoll DevCmdCompletion.

Section WithHeaders.
Context `{UfsHeaders} `{UfsDefs}.

(** [ufshcd_clear_cmd]: the write to the list-clear register, then
    the wait for the controller to take the bit of [tag] out of the
    doorbell.  [reads] and [late] are the doorbell values and the
    deadline tests of [ufshcd_wait_for_register]; what the register
    shows during the wait is in [reads], the [doorbell] field is
    not brought up to date. *)
Definition ufshcd_clear_cmd (tag : Z) (reads : list Z)
    (late : list bool) (hba : ufs_hba)
  : option (Z * list poll_event * ufs_hba) :=
  let mask := uint32 (Z.shiftl 1 tag) in
  let hba := Gating.ufshcd_utrl_clear tag hba in
  match ufshcd_wait_for_register mask (uint32 (Z.lnot mask)) 1000 true
          reads late with
  | Some (err, evs) => Some (err, evs, hba)
  | None => None
  end.

(** [ufshcd_wait_for_dev_cmd]; [time_left] is what
    [wait_for_completion_timeout] returns, and [qr] the query part
    of the response UPIU of the slot. *)
Definition ufshcd_wait_for_dev_cmd (time_left : Z) (lrbp : ufshcd_lrb)
    (qr : query_rsp) (reads : list Z) (late : list bool) (d : dev_cmd)
    (hba : ufs_hba) : option (Z * dev_cmd * ufs_hba) :=
  let hba := emit EvWmb hba in
  let hba := set_dev_cmd_complete false hba in
  if negb (time_left =? 0) then
    let err := sint32 (ufshcd_get_tr_ocs lrbp) in
    if err =? 0 then
      match ufshcd_dev_cmd_completion d lrbp qr with
      | Some (err, d) => Some (err, d, hba)
      | None => None
      end
    else Some (err, d, hba)
  else
    match ufshcd_clear_cmd (task_tag lrbp) reads late hba with
    | Some (cerr, _, hba) =>
        let err := if cerr =? 0 then - EAGAIN else - ETIMEDOUT in
        Some (err, d,
              Gating.ufshcd_outstanding_req_clear (task_tag lrbp) hba)
    | None => None
    end.

End WithHeaders.

End DevCmdWait.

(** *** Switching the clocks: [__ufshcd_setup_clocks] *)

Module SetupClocks.

(** [struct ufs_clk_info] as this function uses it.  [ck_hw_count] is
    the number of [clk_prepare_enable] calls on the clock that no
    [clk_disable_unprepare] has undone yet. *)
Record clk_info : Set := {
  ck_valid : bool;                  (* !IS_ERR_OR_NULL(clki->clk)       *)
  ck_name_ref_clk : bool;           (* name is "ref_clk"                *)
  ck_name_core_clk_unipro : bool;   (* name is "core_clk_unipro"        *)
  ck_enabled : bool;                (* clki->enabled                    *)
  ck_hw_count : Z
}.

Definition clk_switch (on : bool) (delta : Z) (c : clk_info) : clk_info :=
  {| ck_valid := ck_valid c; ck_name_ref_clk := ck_name_ref_clk c;
     ck_name_core_clk_unipro := ck_name_core_clk_unipro c;
     ck_enabled := on; ck_hw_count := ck_hw_count c + delta |}.

(** [clk_disable_unprepare(clki->clk)] *)
Definition clk_disable_unprepare (c : clk_info) : clk_info :=
  clk_switch (ck_enabled c) (-1) c.

(** What the vendor hook and the clock framework answer:
    [ufshcd_vops_setup_clocks] before and after the change, and the
    [clk_prepare_enable] calls in order (an exhausted list answers 0,
    success). *)
Record clk_env : Set := {
  ce_vops_pre : Z;
  ce_vops_post : Z;
  ce_prepare_enable : list Z
}.

Section WithDefs.
Context `{UfsDefs}.

(** The clocks the loop leaves alone when [skip_ref_clk] is set. *)
Definition clk_skipped (skip_ref_clk : bool) (c : clk_info) : bool :=
  skip_ref_clk
  && (ck_name_ref_clk c
      || (CONFIG_SCSI_UFSHCD_QTI && ck_name_core_clk_unipro c)).

(** The first [list_for_each_entry] loop over the clocks still to
    visit: the value of [ret], the clocks as the loop leaves them
    and [clk_state_changed]. *)
Fixpoint setup_clocks_loop (on skip_ref_clk : bool)
    (todo : list clk_info) (rets : list Z) (clk_state_changed : bool)
  : Z * list clk_info * bool :=
  match todo with
  | [] => (0, [], clk_state_changed)
  | c :: rest =>
      if ck_valid c && negb (clk_skipped skip_ref_clk c) then
        let changed := xorb on (ck_enabled c) in
        if on && negb (ck_enabled c) then
          let '(ret, rets) := Scaling.next_answer rets in
          if negb (ret =? 0) then (ret, c :: rest, changed)
          else
            let '(r, l, ch) :=
              setup_clocks_loop on skip_ref_clk rest rets changed in
            (r, clk_switch on 1 c :: l, ch)
        else
          let c' := if negb on && ck_enabled c
                    then clk_switch on (-1) c
                    else clk_switch on 0 c in
          let '(r, l, ch) :=
            setup_clocks_loop on skip_ref_clk rest rets changed in
          (r, c' :: l, ch)
      else
        let '(r, l, ch) :=
          setup_clocks_loop on skip_ref_clk rest rets
            clk_state_changed in
        (r, c :: l, ch)
  end.

(** The loop at label [out] when [ret] is not zero. *)
Definition setup_clocks_undo (clks : list clk_info) : list clk_info :=
  (fun c => if ck_valid c && ck_enabled c
            then clk_disable_unprepare c else c) <$> clks.

(** [__ufshcd_setup_clocks]: the return value, the clock list, the
    gating state and [clk_state_changed]. *)
Definition __ufshcd_setup_clocks (on skip_ref_clk : bool)
    (env : clk_env) (clks : list clk_info) (st : clk_gating_state)
  : Z * list clk_info * clk_gating_state * bool :=
  match clks with
  | [] => (0, clks, if on then CLKS_ON else st, false)
  | _ =>
      if negb (ce_vops_pre env =? 0)
      then (ce_vops_pre env, clks, st, false)
      else
        let '(ret, clks, changed) :=
          setup_clocks_loop on skip_ref_clk clks (ce_prepare_enable env)
            false in
        if negb (ret =? 0)
        then (ret, setup_clocks_undo clks, st, changed)
        else if negb (ce_vops_post env =? 0)
        then (ce_vops_post env, clks, st, changed)
        else (0, clks, if on then CLKS_ON else st, changed)
  end.

End WithDefs.

(** Clock [c'] has the name and the handle of [c]. *)
Definition clk_same_id (c c' : clk_info) : Prop :=
  ck_valid c' = ck_valid c
  /\ ck_name_ref_clk c' = ck_name_ref_clk c
  /\ ck_name_core_clk_unipro c' = ck_name_core_clk_unipro c.

(** Clock [c'] is [c] switched to [on]: the flag says [on], and the
    framework has been called once if the flag had to change. *)
Definition clk_switched (on : bool) (c c' : clk_info) : Prop :=
  ck_enabled c' = on
  /\ ck_hw_count c'
     = ck_hw_count c + Z.b2z on - Z.b2z (ck_enabled c).

(** Clock [c'] is [c] with neither the flag nor the framework
    touched. *)
Definition clk_untouched (c c' : clk_info) : Prop :=
  ck_enabled c' = ck_enabled c /\ ck_hw_count c' = ck_hw_count c.

(** A clock the framework counts as running exactly when its
    [enabled] flag is set. *)
Definition clk_consistent (c : clk_info) : Prop :=
  ck_valid c = true ->
  ck_hw_count c = if ck_enabled c then 1 else 0.

End SetupClocks.

(** *** Query requests with retries: [ufshcd_query_flag_retry],
        [ufshcd_query_attr_retry], [ufshcd_query_descriptor_retry] *)

Module QueryRetry.

(** The three loops: at most [n] more calls, the call answering the
    head of [answers]; [stop] tells which answers end the loop.  The
    result is the value of [ret] ([None] while nothing has been
    assigned to it) and the number of calls made; [None] when
    [answers] ends before the loop does. *)
Fixpoint query_retry_loop (stop : Z -> bool) (n : nat) (answers : list Z)
    (ret : option Z) (calls : nat) : option (option Z * nat) :=
  match n with
  | O => Some (ret, calls)
  | S k =>
      match answers with
      | [] => None
      | a :: rest =>
          if stop a then Some (Some a, S calls)
          else query_retry_loop stop k rest (Some a) (S calls)
      end
  end.

Section WithHeaders.
Context `{UfsHeaders} `{UfsDefs}.

(** [ufshcd_query_flag_retry]; [answers] are the returns of the
    successive [ufshcd_query_flag] calls.  [ret] is returned as the
    loop leaves it. *)
Definition ufshcd_query_flag_retry (answers : list Z)
  : option (option Z * nat) :=
  query_retry_loop (fun r => r =? 0)
    (Z.to_nat (sint32 QUERY_REQ_RETRIES)) answers None 0.

(** [ufshcd_query_attr_retry], where [ret] starts as 0 *)
Definition ufshcd_query_attr_retry (answers : list Z)
  : option (option Z * nat) :=
  query_retry_loop (fun r => r =? 0)
    (Z.to_nat (uint32 QUERY_REQ_RETRIES)) answers (Some 0) 0.

(** [ufshcd_query_descriptor_retry] *)
Definition ufshcd_query_descriptor_retry (answers : list Z)
  : option (option Z * nat) :=
  query_retry_loop (fun r => (r =? 0) || (r =? - EINVAL))
    (Z.to_nat (sint32 QUERY_REQ_RETRIES)) answers None 0.

End WithHeaders.

End QueryRetry.

(** *** Scheduling the error handler: [ufshcd_schedule_eh_work] *)

Module ErrorScheduling.

Section WithHeaders.
Context `{UfsHeaders}.

(** [ufshcd_schedule_eh_work]: what it does to the run state;
    [saved_err_fatal] is what [ufshcd_is_saved_err_fatal] returns.
    (The call is the event [EvScheduleEhWork] in the trace of its
    callers.) *)
Definition ufshcd_schedule_eh_work (saved_err_fatal : bool)
    (hba : ufs_hba) : ufs_hba :=
  if negb (ufshcd_state hba =? UFSHCD_STATE_ERROR) then
    if force_reset hba || ufshcd_is_link_broken hba || saved_err_fatal
    then set_ufshcd_state UFSHCD_STATE_EH_SCHEDULED_FATAL hba
    else set_ufshcd_state UFSHCD_STATE_EH_SCHEDULED_NON_FATAL hba
  else hba.

(** [ufshcd_uic_pwr_ctrl] with the run state: where the function
    calls [ufshcd_schedule_eh_work], at label [out] with [ret] not
    zero, the effect of the call on [ufshcd_state] is added. *)
Definition ufshcd_uic_pwr_ctrl_eh (saved_err_fatal : bool)
    (env : pwr_env) (cmd : uic_command) (hba : ufs_hba)
  : Z * ufs_hba :=
  let '(ret, hba') := ufshcd_uic_pwr_ctrl env cmd hba in
  if negb (ufshcd_is_link_broken hba) && negb (ret =? 0)
  then (ret, ufshcd_schedule_eh_work saved_err_fatal hba')
  else (ret, hba').

End WithHeaders.

End ErrorScheduling.

(* PART-II *)

(** * Properties *)

(** ** Bit operations *)

Lemma sint32_inc_dec (x : Z) :
  - 2 ^ 31 <= x < 2 ^ 31 -> sint32 (sint32 (x + 1) - 1) = x.
Proof.
  intros Hx. unfold sint32.
  destruct (Z.eq_dec x (2 ^ 31 - 1)) as [-> | Hne]; [reflexivity |].
  rewrite (Z.mod_small (x + 1 + 2 ^ 31)) by lia.
  replace (x + 1 + 2 ^ 31 - 2 ^ 31 - 1 + 2 ^ 31) with (x + 2 ^ 31) by lia.
  rewrite Z.mod_small by lia. lia.
Qed.

(** ** Clock gating: the non-blocking hold *)

Section HoldProps.
Context `{UfsHeaders}.

Lemma ufshcd_hold_async_returns (hba : ufs_hba) :
  exists rc, fst (ufshcd_hold true hba) = HoldReturn rc.
Proof.
  unfold ufshcd_hold, ufshcd_hold_start, hold_case_clks_off,
    hold_case_req_clks_on, cancel_delayed_work_gate, queue_work_ungate.
  repeat (simpl; case_match); simpl; eauto.
Qed.


(** C10 (amended). A non-blocking [ufshcd_hold] that returns [-EAGAIN]
    leaves the active-request counter and the suspended flag as they
    were: the increment taken on entry is undone on both early-return
    paths.  The enumerated state is unchanged when it was [CLKS_ON] or
    [REQ_CLKS_ON]; from [CLKS_OFF] or [REQ_CLKS_OFF] the failed hold has
    moved it to [REQ_CLKS_ON] (and left the ungate work queued). *)
Theorem ufshcd_hold_async_eagain_restores_counter (hba hba' : ufs_hba) :
  EAGAIN <> 0 ->
  - 2 ^ 31 <= active_reqs (clk_gating hba) < 2 ^ 31 ->
  ufshcd_hold true hba = (HoldReturn (- EAGAIN), hba') ->
  active_reqs (clk_gating hba') = active_reqs (clk_gating hba)
  /\ is_suspended (clk_gating hba') = is_suspended (clk_gating hba)
  /\ state (clk_gating hba') =
       match state (clk_gating hba) with
       | CLKS_ON => CLKS_ON
       | _ => REQ_CLKS_ON
       end
  /\ (state (clk_gating hba) = CLKS_OFF
      \/ state (clk_gating hba) = REQ_CLKS_OFF ->
      ungate_work_pending (clk_gating hba') = true).
Proof.
  intros Hne Hrange.
  unfold ufshcd_hold, ufshcd_hold_start, hold_case_clks_off,
    hold_case_req_clks_on, cancel_delayed_work_gate, queue_work_ungate,
    cg_dec_active_reqs, cg_inc_active_reqs.
  repeat (simpl; case_match); simpl; intros Heq;
    inversion Heq; subst; simpl;
    try (exfalso; lia);
    rewrite ?sint32_inc_dec by assumption;
    repeat split; intros; try reflexivity; try assumption;
    try match goal with
        | Hs : _ \/ _ |- _ => destruct Hs; congruence
        end.
Qed.

End HoldProps.

Lemma ufshcd_hold_async_eagain_restores_counter_witness :
  let hba' := snd (@ufshcd_hold linux_headers true hba_gated) in
  active_reqs (clk_gating hba') = active_reqs (clk_gating hba_gated)
  /\ is_suspended (clk_gating hba') = is_suspended (clk_gating hba_gated)
  /\ state (clk_gating hba') = REQ_CLKS_ON
  /\ (state (clk_gating hba_gated) = CLKS_OFF
      \/ state (clk_gating hba_gated) = REQ_CLKS_OFF ->
      ungate_work_pending (clk_gating hba') = true).
Proof.
  intros hba'.
  apply (@ufshcd_hold_async_eagain_restores_counter linux_headers
           hba_gated hba').
  - simpl. lia.
  - simpl. lia.
  - reflexivity.
Defined.

(** With the clocks gated, a non-blocking hold fails with [-EAGAIN] and
    has moved the state from [CLKS_OFF] to [REQ_CLKS_ON]. *)
Lemma failed_async_hold_changes_state :
  ~ @failed_async_hold_leaves_gating_unchanged linux_headers hba_gated.
Proof.
  intros Hc.
  destruct (Hc (snd (@ufshcd_hold linux_headers true hba_gated)) eq_refl)
    as [_ Hst].
  discriminate Hst.
Qed.

(** ** Submission *)

Section SubmissionProps.
Context `{UfsHeaders}.

Lemma not_issuing_refl hba : not_issuing hba hba.
Proof. repeat split. Qed.

Lemma not_issuing_trans a b c :
  not_issuing a b -> not_issuing b c -> not_issuing a c.
Proof. unfold not_issuing. intuition congruence. Qed.

Lemma doorbell_writes_snoc l e :
  doorbell_writes (l ++ [e]) =
  doorbell_writes l ++ doorbell_writes [e].
Proof. apply omap_app. Qed.

Ltac frame :=
  unfold not_issuing; simpl;
  rewrite ?doorbell_writes_snoc; simpl; rewrite ?app_nil_r;
  repeat split; reflexivity.

Lemma ufshcd_hold_not_issuing async hba :
  not_issuing hba (snd (ufshcd_hold async hba)).
Proof.
  unfold ufshcd_hold, ufshcd_hold_start, hold_case_clks_off,
    hold_case_req_clks_on, cancel_delayed_work_gate, queue_work_ungate,
    cg_dec_active_reqs, cg_inc_active_reqs.
  repeat (simpl; case_match); frame.
Qed.

Lemma ufshcd_release_not_issuing hba :
  not_issuing hba (ufshcd_release hba).
Proof.
  unfold ufshcd_release, __ufshcd_release, queue_delayed_work_gate,
    cg_dec_active_reqs.
  repeat (simpl; case_match); frame.
Qed.


Lemma lrb_update_not_issuing tag f hba :
  not_issuing hba (lrb_update tag f hba).
Proof. frame. Qed.

Lemma set_lrb_in_use_not_issuing v hba :
  not_issuing hba (set_lrb_in_use v hba).
Proof. frame. Qed.

Lemma qc_undo_not_issuing tag hba : not_issuing hba (qc_undo tag hba).
Proof.
  unfold qc_undo.
  eapply not_issuing_trans; [apply ufshcd_release_not_issuing |].
  eapply not_issuing_trans; [apply lrb_update_not_issuing |].
  apply set_lrb_in_use_not_issuing.
Qed.

Lemma qc_out_compl_cmd_not_issuing err c tag hba :
  not_issuing hba (snd (qc_out_compl_cmd err c tag hba)).
Proof.
  unfold qc_out_compl_cmd. cbn [snd].
  set (h1 := set_lrb_in_use _ _).
  assert (not_issuing hba h1) as H1 by (subst h1; frame).
  assert (not_issuing h1 (ufshcd_release h1)) as H2
      by apply ufshcd_release_not_issuing.
  eapply not_issuing_trans; [exact H1 |].
  eapply not_issuing_trans; [exact H2 |].
  destruct (err =? 0); [frame | apply not_issuing_refl].
Qed.

Lemma ufshcd_queuecommand_prepare_not_issuing env c tag hba :
  not_issuing hba (snd (ufshcd_queuecommand_prepare env c tag hba)).
Proof.
  unfold ufshcd_queuecommand_prepare, ufshcd_comp_scsi_upiu, ufshcd_map_sg.
  repeat (cbn [snd fst]; case_match); simplify_eq; cbn [snd];
    try (eapply not_issuing_trans; [| apply qc_undo_not_issuing]);
    frame.
Qed.

(** Everything before the critical section leaves the hardware alone. *)
Lemma ufshcd_queuecommand_front_not_issuing env c hba :
  match ufshcd_queuecommand_front env c hba with
  | inl (_, hba') => not_issuing hba hba'
  | inr hba1 => not_issuing hba hba1
  end.
Proof.
  unfold ufshcd_queuecommand_front, Bitops.test_and_set_bit_lock.
  destruct (negb (ufshcd_valid_tag _ _)); [apply not_issuing_refl |].
  destruct (negb (qc_trylock env)); [apply not_issuing_refl |].
  destruct (Z.testbit _ _); [apply not_issuing_refl |].
  set (h1 := set_lrb_in_use _ hba).
  assert (not_issuing hba h1) as H1 by (subst h1; frame).
  pose proof (ufshcd_hold_not_issuing true h1) as H2.
  destruct (ufshcd_hold true h1) as [o h2]. cbn [snd] in H2.
  destruct (negb (hold_rc o =? 0)).
  - eapply not_issuing_trans; [exact H1 |].
    eapply not_issuing_trans; [exact H2 | frame].
  - pose proof (ufshcd_queuecommand_prepare_not_issuing
                  env c (request_tag c) h2) as H3.
    destruct (ufshcd_queuecommand_prepare env c (request_tag c) h2)
      as [[err |] h3]; cbn [snd] in H3;
      (eapply not_issuing_trans; [exact H1 |]);
      (eapply not_issuing_trans; [exact H2 | exact H3]).
Qed.


Lemma scsi_done_calls_snoc l e :
  scsi_done_calls (l ++ [e]) = scsi_done_calls l ++ scsi_done_calls [e].
Proof. apply omap_app. Qed.

Lemma ufshcd_release_scsi_done hba :
  scsi_done_calls (trace (ufshcd_release hba)) =
  scsi_done_calls (trace hba).
Proof.
  unfold ufshcd_release, __ufshcd_release, queue_delayed_work_gate,
    cg_dec_active_reqs.
  repeat (simpl; case_match); simpl;
    rewrite ?scsi_done_calls_snoc; simpl; rewrite ?app_nil_r; reflexivity.
Qed.

Lemma qc_out_compl_cmd_scsi_done err c tag hba :
  scsi_done_calls (trace (snd (qc_out_compl_cmd err c tag hba))) =
  scsi_done_calls (trace hba) ++ (if err =? 0 then [(tag, c)] else []).
Proof.
  unfold qc_out_compl_cmd. cbn [snd].
  destruct (err =? 0); unfold emit at 1; simpl;
    rewrite ?scsi_done_calls_snoc, ufshcd_release_scsi_done; simpl;
    rewrite ?scsi_done_calls_snoc; simpl; rewrite ?app_nil_r; reflexivity.
Qed.

Lemma ufshcd_queuecommand_issue_recovering c tag hba :
  recovering hba ->
  ufshcd_queuecommand_issue c tag hba =
  qc_out_compl_cmd SCSI_MLQUEUE_HOST_BUSY c tag hba.
Proof.
  unfold recovering, ufshcd_queuecommand_issue.
  intros [-> | [-> ->]]; reflexivity.
Qed.

Lemma ufshcd_queuecommand_issue_error c tag hba :
  ufshcd_state hba = UFSHCD_STATE_ERROR ->
  ufshcd_queuecommand_issue c tag hba =
  qc_out_compl_cmd 0 (with_host_byte DID_ERROR c) tag hba.
Proof.
  unfold ufshcd_queuecommand_issue. intros ->. reflexivity.
Qed.

(** C7 (amended). A command that reaches the run-state check of
    [ufshcd_queuecommand] (scaling lock taken, slot claimed, clocks
    held, descriptors built) is rejected with SCSI_MLQUEUE_HOST_BUSY and
    not completed while recovery is in progress (state RESET, or
    EH_SCHEDULED_FATAL outside a PM operation), and is completed through
    [scsi_done] with host byte DID_ERROR, the function returning 0, once
    the state is ERROR.  A command that fails an earlier step returns
    that step's code: busy, the preparation error, or, in a build with
    [CONFIG_UFSHPB], -EAGAIN for a requeued READ(10); the function
    stops in [BUG()] on an invalid tag and, in such a build, on a
    requeued command that is not a READ(10), so that in such a build
    no requeued command reaches the run-state check.  In those run
    states no path writes the doorbell or marks a request
    outstanding. *)
Theorem queuecommand_run_state_rejection (env : qc_env) (c : scsi_cmnd)
    (hba : ufs_hba) :
  SCSI_MLQUEUE_HOST_BUSY <> 0 ->
  (recovering hba \/ ufshcd_state hba = UFSHCD_STATE_ERROR ->
   not_issuing hba (snd (ufshcd_queuecommand env c hba)))
  /\ (forall hba1,
        ufshcd_queuecommand_front env c hba = inr hba1 ->
        (recovering hba ->
         fst (ufshcd_queuecommand env c hba) =
           QcReturn SCSI_MLQUEUE_HOST_BUSY
         /\ scsi_done_calls (trace (snd (ufshcd_queuecommand env c hba))) =
            scsi_done_calls (trace hba1))
        /\ (ufshcd_state hba = UFSHCD_STATE_ERROR ->
            fst (ufshcd_queuecommand env c hba) = QcReturn 0
            /\ scsi_done_calls
                 (trace (snd (ufshcd_queuecommand env c hba))) =
               scsi_done_calls (trace hba1)
               ++ [(request_tag c, with_host_byte DID_ERROR c)]))
  /\ (forall r hba',
        ufshcd_queuecommand_front env c hba = inl (r, hba') ->
        (r = QcBug
         /\ (ufshcd_valid_tag hba (request_tag c) = false
             \/ ufshpb_built = true /\ requeued_not_read c = true))
        \/ r = QcReturn SCSI_MLQUEUE_HOST_BUSY
        \/ r = QcReturn (qc_crypto_err env)
        \/ (r = QcReturn (- EAGAIN)
            /\ ufshpb_built = true /\ requeue_cnt c <> 0
            /\ cmnd0 c = 0x28)
        \/ r = QcReturn (qc_sg_segments env)
        \/ r = QcReturn (qc_sg_crypto_err env))
  /\ (forall hba1,
        ufshcd_queuecommand_front env c hba = inr hba1 ->
        ufshpb_built = true -> requeue_cnt c = 0).
Proof.
  intros Hbusy.
  pose proof (ufshcd_queuecommand_front_not_issuing env c hba) as Hfront.
  assert (forall hba1, not_issuing hba hba1 -> recovering hba ->
                       recovering hba1) as Hrec.
  { unfold recovering, not_issuing. intros ? (_ & _ & _ & -> & -> & _). auto. }
  split; [| split; [| split]].
  - intros Hst. unfold ufshcd_queuecommand.
    destruct (ufshcd_queuecommand_front env c hba) as [[r h'] | hba1];
      [exact Hfront |].
    eapply not_issuing_trans; [exact Hfront |].
    destruct Hst as [Hr | He].
    + rewrite ufshcd_queuecommand_issue_recovering by auto.
      apply qc_out_compl_cmd_not_issuing.
    + rewrite ufshcd_queuecommand_issue_error
        by (destruct Hfront as (_ & _ & _ & -> & _); exact He).
      apply qc_out_compl_cmd_not_issuing.
  - intros hba1 Heq. unfold ufshcd_queuecommand.
    rewrite Heq in Hfront |- *. split.
    + intros Hr.
      rewrite ufshcd_queuecommand_issue_recovering by auto.
      split; [reflexivity |].
      rewrite qc_out_compl_cmd_scsi_done.
      apply Z.eqb_neq in Hbusy. rewrite Hbusy. apply app_nil_r.
    + intros He.
      rewrite ufshcd_queuecommand_issue_error
        by (destruct Hfront as (_ & _ & _ & -> & _); exact He).
      split; [reflexivity |].
      rewrite qc_out_compl_cmd_scsi_done. reflexivity.
  - unfold ufshcd_queuecommand_front, ufshcd_queuecommand_prepare,
      ufshcd_map_sg, Bitops.test_and_set_bit_lock.
    intros r hba'.
    destruct (negb (ufshcd_valid_tag hba (request_tag c))) eqn:Hv;
      [apply negb_true_iff in Hv; intros [= <- <-]; auto |].
    destruct ufshpb_built eqn:Hb, (requeued_not_read c) eqn:Hq;
      cbn [andb];
      repeat (case_match; simplify_eq); intros; simplify_eq; auto 10.
    all: do 3 right; left; split; [reflexivity |]; split; [reflexivity |].
    all: unfold requeued_not_read in Hq.
    all: match goal with
         | Hr : negb (requeue_cnt _ =? 0) = true |- _ =>
             rewrite Hr, andb_true_r in Hq;
             apply negb_true_iff, Z.eqb_neq in Hr;
             apply negb_false_iff, Z.eqb_eq in Hq; auto
         end.
  - unfold ufshcd_queuecommand_front, ufshcd_queuecommand_prepare,
      ufshcd_map_sg, Bitops.test_and_set_bit_lock, requeued_not_read.
    intros hba1 Hfr Hb. rewrite Hb in Hfr. cbn [andb] in Hfr.
    destruct (requeue_cnt c =? 0) eqn:Hq; [by apply Z.eqb_eq |].
    exfalso. cbn [negb andb] in Hfr. rewrite ?andb_true_r in Hfr.
    repeat (case_match; simplify_eq).
Qed.


Lemma ufshcd_send_command_trace tag hba :
  trace (ufshcd_send_command tag hba) =
  trace hba ++ [ EvSetOutstanding tag;
                 EvWritel (uint32 (Z.shiftl 1 tag))
                   REG_UTP_TRANSFER_REQ_DOOR_BELL;
                 EvWmb ].
Proof.
  unfold ufshcd_send_command, ufshcd_clk_scaling_start_busy.
  destruct (negb _); simpl; rewrite <- !app_assoc; reflexivity.
Qed.

Lemma ufshcd_hold_async_ok_trace hba :
  EAGAIN <> 0 ->
  hold_rc (fst (ufshcd_hold true hba)) = 0 ->
  exists pre,
    (pre = [] \/ pre = [EvCancelWork GATE_WORK])
    /\ trace (snd (ufshcd_hold true hba)) = trace hba ++ pre.
Proof.
  intros Hne.
  unfold ufshcd_hold, ufshcd_hold_start, hold_case_clks_off,
    hold_case_req_clks_on, cancel_delayed_work_gate, queue_work_ungate,
    cg_dec_active_reqs, cg_inc_active_reqs.
  repeat (simpl; case_match; simplify_eq); simpl; intros Hrc;
    try (exfalso; lia);
    try (exists []; split; [by left | by rewrite app_nil_r]);
    try (exists [EvCancelWork GATE_WORK]; split; [by right | reflexivity]).
Qed.

Lemma ufshcd_queuecommand_prepare_trace env c tag hba hba1 :
  ufshcd_queuecommand_prepare env c tag hba = (None, hba1) ->
  trace hba1 =
  trace hba
  ++ [ EvPrepareReqDescHdr tag (sc_data_direction c);
       EvPrepareCmdUpiu tag;
       EvMapSg tag (qc_sg_segments env);
       EvWmb ].
Proof.
  unfold ufshcd_queuecommand_prepare, ufshcd_comp_scsi_upiu, ufshcd_map_sg.
  repeat (case_match; simplify_eq); intros; simplify_eq; simpl;
    try (exfalso;
         match goal with
         | Hb : negb (_ =? 0) = false |- _ =>
             apply negb_false_iff, Z.eqb_eq in Hb
         end; lia);
    rewrite <- !app_assoc; reflexivity.
Qed.

Lemma ufshcd_queuecommand_front_trace env c hba hba1 :
  EAGAIN <> 0 ->
  ufshcd_queuecommand_front env c hba = inr hba1 ->
  exists pre,
    (pre = [] \/ pre = [EvCancelWork GATE_WORK])
    /\ trace hba1 =
       trace hba ++ pre
       ++ [ EvPrepareReqDescHdr (request_tag c) (sc_data_direction c);
            EvPrepareCmdUpiu (request_tag c);
            EvMapSg (request_tag c) (qc_sg_segments env);
            EvWmb ].
Proof.
  intros Hne.
  unfold ufshcd_queuecommand_front, Bitops.test_and_set_bit_lock.
  destruct (negb (ufshcd_valid_tag _ _)); [discriminate |].
  destruct (negb (qc_trylock env)); [discriminate |].
  destruct (Z.testbit _ _); [discriminate |].
  set (h1 := set_lrb_in_use _ hba).
  pose proof (ufshcd_hold_async_ok_trace h1 Hne) as Hh.
  destruct (ufshcd_hold true h1) as [o h2]. cbn [fst snd] in Hh.
  destruct (hold_rc o =? 0) eqn:Hrc; [| discriminate]. cbn [negb].
  apply Z.eqb_eq in Hrc. destruct (Hh Hrc) as (pre & Hpre & Htr).
  destruct (ufshcd_queuecommand_prepare env c (request_tag c) h2)
    as [[err |] h3] eqn:Hp; [discriminate |].
  intros [= <-]. exists pre. split; [exact Hpre |].
  rewrite (ufshcd_queuecommand_prepare_trace _ _ _ _ _ Hp), Htr.
  subst h1. simpl. rewrite <- app_assoc. reflexivity.
Qed.

(** C8 (amended). Whenever [ufshcd_queuecommand] rings the doorbell,
    the events it has added are, in this order: the descriptor header,
    the command UPIU, the scatter-gather table, a write barrier, the
    outstanding bit of the tag, the doorbell write, a second write
    barrier.  The first barrier therefore precedes the marking of the
    outstanding bit, and nothing lies between that marking and the
    doorbell write; the only events that can come before the header are
    those of the clock hold (cancelling a pending gate work). *)
Theorem submission_step_order (env : qc_env) (c : scsi_cmnd)
    (hba : ufs_hba) :
  EAGAIN <> 0 ->
  not_issuing hba (snd (ufshcd_queuecommand env c hba))
  \/ exists pre,
       (pre = [] \/ pre = [EvCancelWork GATE_WORK])
       /\ trace (snd (ufshcd_queuecommand env c hba)) =
          trace hba ++ pre ++ submit_steps env c.
Proof.
  intros Hne.
  pose proof (ufshcd_queuecommand_front_not_issuing env c hba) as Hfront.
  unfold ufshcd_queuecommand.
  destruct (ufshcd_queuecommand_front env c hba) as [[r h'] | hba1] eqn:Hf;
    [left; exact Hfront |].
  apply ufshcd_queuecommand_front_trace in Hf as (pre & Hpre & Htr);
    [| exact Hne].
  unfold ufshcd_queuecommand_issue.
  destruct ((ufshcd_state hba1 =? UFSHCD_STATE_OPERATIONAL)
            || (ufshcd_state hba1 =? UFSHCD_STATE_EH_SCHEDULED_NON_FATAL)).
  - right. exists pre. split; [exact Hpre |]. cbn [snd].
    rewrite ufshcd_send_command_trace, Htr. unfold submit_steps.
    rewrite <- !app_assoc. reflexivity.
  - left. eapply not_issuing_trans; [exact Hfront |].
    repeat case_match;
      (eapply not_issuing_trans; [| apply qc_out_compl_cmd_not_issuing]);
      frame.
Qed.

End SubmissionProps.

(** The idle adapter put in the terminal ERROR state. *)
Lemma queuecommand_run_state_rejection_witness :
  let hba := set_ufshcd_state UFSHCD_STATE_ERROR hba_idle in
  let r := @ufshcd_queuecommand linux_headers qc_env_ok (read_cmd 0) hba in
  fst r = QcReturn 0
  /\ scsi_done_calls (trace (snd r)) =
     [(0, @with_host_byte linux_headers (@DID_ERROR linux_headers)
            (read_cmd 0))]
  /\ doorbell_writes (trace (snd r)) = [].
Proof.
  intros hba r.
  destruct (@queuecommand_run_state_rejection linux_headers qc_env_ok
              (read_cmd 0) hba) as (Hni & Hst & _).
  - simpl. lia.
  - destruct (Hst (match @ufshcd_queuecommand_front linux_headers qc_env_ok
                           (read_cmd 0) hba with
                   | inr h => h | inl (_, h) => h end) eq_refl)
      as [_ Herr].
    destruct (Herr eq_refl) as [Hr Hd].
    split; [exact Hr |]. split; [exact Hd |].
    destruct (Hni (or_intror eq_refl)) as (_ & _ & Hw & _). exact Hw.
Defined.

(** In the ERROR state with the clocks gated the non-blocking hold fails,
    and the command is bounced as busy instead of being completed with
    DID_ERROR. *)
Lemma busy_in_error_state_when_gated :
  ~ @rejected_by_run_state linux_headers qc_env_ok (read_cmd 0)
      (set_ufshcd_state UFSHCD_STATE_ERROR hba_gated).
Proof.
  intros (_ & He & _). destruct (He eq_refl) as [Hr _]. discriminate Hr.
Qed.

Lemma submission_step_order_witness :
  exists pre,
    (pre = [] \/ pre = [EvCancelWork GATE_WORK])
    /\ trace (snd (@ufshcd_queuecommand linux_headers qc_env_ok (read_cmd 0)
                     hba_idle))
       = trace hba_idle ++ pre
         ++ submit_steps qc_env_ok (read_cmd 0).
Proof.
  destruct (@submission_step_order linux_headers qc_env_ok (read_cmd 0)
              hba_idle) as [Hni | Hex].
  - simpl. lia.
  - destruct Hni as (Hdb & _). discriminate Hdb.
  - exact Hex.
Defined.

(** A read on tag 0 of the idle adapter is issued with exactly the seven
    steps of [submit_steps]. *)
Example submit_on_idle_adapter :
  trace (snd (@ufshcd_queuecommand linux_headers qc_env_ok (read_cmd 0)
                hba_idle))
  = submit_steps qc_env_ok (read_cmd 0)
  /\ outstanding_reqs
       (snd (@ufshcd_queuecommand linux_headers qc_env_ok (read_cmd 0)
               hba_idle)) = 1
  /\ doorbell
       (snd (@ufshcd_queuecommand linux_headers qc_env_ok (read_cmd 0)
               hba_idle)) = 1.
Proof. repeat split. Qed.

(** In that run no barrier lies between the marking of the outstanding
    bit and the doorbell write. *)
Lemma no_barrier_between_mark_and_doorbell :
  spec_submit_order qc_env_ok (read_cmd 0)
    (trace (snd (@ufshcd_queuecommand linux_headers qc_env_ok (read_cmd 0)
                   hba_idle)))
  = false.
Proof. reflexivity. Qed.

(** ** Tag allocation *)

Lemma find_last_from_spec (n : nat) (addr dflt : Z) :
  let r := Bitops.find_last_from n addr dflt in
  (r = dflt /\ forall i, 0 <= i < Z.of_nat n -> Z.testbit addr i = false)
  \/ (0 <= r < Z.of_nat n /\ Z.testbit addr r = true
      /\ forall i, r < i < Z.of_nat n -> Z.testbit addr i = false).
Proof.
  induction n as [| k IH]; cbn [Bitops.find_last_from]; cbv zeta.
  - left. split; [reflexivity | intros; lia].
  - cbv zeta in IH.
    destruct (Z.testbit addr (Z.of_nat k)) eqn:Hb.
    + right. split; [lia |]. split; [exact Hb |]. intros; lia.
    + destruct IH as [[Hr Hall] | (Hr & Hset & Hall)].
      * left. split; [exact Hr |]. intros i Hi.
        destruct (Z.eq_dec i (Z.of_nat k)) as [-> | Hne]; [exact Hb |].
        apply Hall. lia.
      * right. split; [lia |]. split; [exact Hset |]. intros i Hi.
        destruct (Z.eq_dec i (Z.of_nat k)) as [-> | Hne]; [exact Hb |].
        apply Hall. lia.
Qed.

Lemma setbit_already_set (a n : Z) :
  0 <= n -> Z.testbit a n = true -> Z.setbit a n = a.
Proof.
  intros Hn Hb. apply Z.bits_inj'. intros m _.
  rewrite Z.setbit_eqb by assumption.
  destruct (Z.eqb_spec n m) as [-> | _]; [by rewrite Hb | reflexivity].
Qed.

Lemma ulong_lnot_testbit (x i : Z) :
  0 <= i < BITS_PER_LONG ->
  Z.testbit (ulong (Z.lnot x)) i = negb (Z.testbit x i).
Proof.
  intros Hi. unfold ulong.
  rewrite Z.mod_pow2_bits_low by lia.
  apply Z.lnot_spec. lia.
Qed.

Lemma dev_cmd_tag_candidate_nonneg `{UfsHeaders} (n w t : Z) :
  dev_cmd_tag_candidate n w = Some t -> 0 <= t /\ Z.testbit w t = false.
Proof.
  unfold dev_cmd_tag_candidate, Bitops.find_last_bit.
  pose proof (find_last_from_spec (Z.to_nat n) (ulong (Z.lnot w)) n)
    as Hspec. cbv zeta in Hspec.
  destruct (_ >=? n) eqn:Hge; [discriminate |].
  intros [= <-].
  destruct Hspec as [[Hr _] | (Hr & Hset & _)].
  - rewrite Hr in Hge. rewrite (proj2 (Z.geb_le n n)) in Hge by lia.
    discriminate.
  - split; [lia |].
    set (r := Bitops.find_last_from _ _ _) in *.
    unfold ulong in Hset.
    destruct (Z.ltb_spec r BITS_PER_LONG) as [Hlt | Hle].
    + rewrite Z.mod_pow2_bits_low in Hset by lia.
      rewrite Z.lnot_spec in Hset by lia.
      by apply negb_true_iff in Hset.
    + rewrite Z.mod_pow2_bits_high in Hset by (unfold BITS_PER_LONG in *; lia).
      discriminate.
Qed.

Section TagProps.
Context `{UfsHeaders}.

Lemma dev_cmd_tag_candidate_spec (n in_use : Z) :
  0 <= n <= BITS_PER_LONG ->
  match dev_cmd_tag_candidate n in_use with
  | Some t =>
      0 <= t < n /\ Z.testbit in_use t = false
      /\ forall t', t < t' < n -> Z.testbit in_use t' = true
  | None => forall t, 0 <= t < n -> Z.testbit in_use t = true
  end.
Proof.
  intros Hn. unfold dev_cmd_tag_candidate, Bitops.find_last_bit.
  pose proof (find_last_from_spec (Z.to_nat n) (ulong (Z.lnot in_use)) n)
    as Hspec. cbv zeta in Hspec.
  rewrite Z2Nat.id in Hspec by lia.
  destruct Hspec as [[Hr Hall] | (Hr & Hset & Hall)].
  - rewrite Hr. rewrite (proj2 (Z.geb_le n n)) by lia.
    intros t Ht. specialize (Hall t Ht).
    rewrite ulong_lnot_testbit in Hall by lia.
    by apply negb_false_iff in Hall.
  - destruct (_ >=? n) eqn:Hge; [apply Z.geb_le in Hge; lia |].
    rewrite ulong_lnot_testbit in Hset by lia.
    apply negb_true_iff in Hset.
    repeat split; try lia; [exact Hset |].
    intros t' Ht'. specialize (Hall t' Ht').
    rewrite ulong_lnot_testbit in Hall by lia.
    by apply negb_false_iff in Hall.
Qed.

Lemma ufshcd_hold_lrb_in_use async hba :
  lrb_in_use (snd (ufshcd_hold async hba)) = lrb_in_use hba.
Proof.
  unfold ufshcd_hold, ufshcd_hold_start, hold_case_clks_off,
    hold_case_req_clks_on, cancel_delayed_work_gate, queue_work_ungate,
    cg_dec_active_reqs, cg_inc_active_reqs.
  repeat (simpl; case_match); reflexivity.
Qed.

Lemma ufshcd_queuecommand_prepare_lrb_in_use env c tag hba hba1 :
  ufshcd_queuecommand_prepare env c tag hba = (None, hba1) ->
  lrb_in_use hba1 = lrb_in_use hba.
Proof.
  unfold ufshcd_queuecommand_prepare, ufshcd_comp_scsi_upiu, ufshcd_map_sg.
  repeat (case_match; simplify_eq); intros; simplify_eq; reflexivity.
Qed.

(** C9 (amended). [ufshcd_get_dev_cmd_tag] takes the highest tag below
    [nutrs] that is free in [lrb_in_use], and fails only when none is
    free.  [ufshcd_queuecommand] does not search the bitmap: it claims
    the tag the block layer put in the request, wherever that tag lies,
    gets it only if its bit was clear, and requeues with
    SCSI_MLQUEUE_HOST_BUSY when the bit is already set. *)
Theorem tag_allocation_order (env : qc_env) (c : scsi_cmnd)
    (hba : ufs_hba) :
  0 <= nutrs hba <= BITS_PER_LONG ->
  match ufshcd_get_dev_cmd_tag hba with
  | (Some t, hba') =>
      0 <= t < nutrs hba
      /\ Z.testbit (lrb_in_use hba) t = false
      /\ (forall t', t < t' < nutrs hba ->
                     Z.testbit (lrb_in_use hba) t' = true)
      /\ lrb_in_use hba' = Z.setbit (lrb_in_use hba) t
  | (None, hba') =>
      hba' = hba
      /\ forall t, 0 <= t < nutrs hba ->
                   Z.testbit (lrb_in_use hba) t = true
  end
  /\ (forall hba1,
        ufshcd_queuecommand_front env c hba = inr hba1 ->
        0 <= request_tag c < nutrs hba
        /\ Z.testbit (lrb_in_use hba) (request_tag c) = false
        /\ lrb_in_use hba1 = Z.setbit (lrb_in_use hba) (request_tag c))
  /\ (ufshcd_valid_tag hba (request_tag c) = true ->
      Z.testbit (lrb_in_use hba) (request_tag c) = true ->
      ufshcd_queuecommand env c hba =
        (QcReturn SCSI_MLQUEUE_HOST_BUSY, hba)).
Proof.
  intros Hn. split; [| split].
  - unfold ufshcd_get_dev_cmd_tag, Bitops.test_and_set_bit_lock.
    pose proof (dev_cmd_tag_candidate_spec (nutrs hba) (lrb_in_use hba) Hn)
      as Hc.
    destruct (dev_cmd_tag_candidate (nutrs hba) (lrb_in_use hba)) as [t |].
    + destruct Hc as (Ht & Hfree & Hhigh). repeat split; auto; lia.
    + split; [reflexivity | exact Hc].
  - intros hba1. unfold ufshcd_queuecommand_front,
      Bitops.test_and_set_bit_lock, ufshcd_valid_tag.
    destruct (_ && _) eqn:Hv; [| discriminate]. cbn [negb].
    apply andb_true_iff in Hv as [Hv1 Hv2].
    apply Z.leb_le in Hv1. apply Z.ltb_lt in Hv2.
    destruct (negb (qc_trylock env)); [discriminate |].
    destruct (Z.testbit _ _) eqn:Hb; [discriminate |].
    set (h1 := set_lrb_in_use _ hba).
    pose proof (ufshcd_hold_lrb_in_use true h1) as Hh.
    destruct (ufshcd_hold true h1) as [o h2]. cbn [snd] in Hh.
    destruct (negb (hold_rc o =? 0)); [discriminate |].
    destruct (ufshcd_queuecommand_prepare env c (request_tag c) h2)
      as [[err |] h3] eqn:Hp; [discriminate |].
    intros [= <-].
    apply ufshcd_queuecommand_prepare_lrb_in_use in Hp.
    rewrite Hp, Hh. repeat split; auto.
  - intros Hv Hb. unfold ufshcd_queuecommand, ufshcd_queuecommand_front,
      Bitops.test_and_set_bit_lock.
    rewrite Hv, Hb. cbn [negb].
    destruct (negb (qc_trylock env)); reflexivity.
Qed.

End TagProps.

Lemma tag_allocation_order_witness :
  let hba1 :=
    match @ufshcd_queuecommand_front linux_headers qc_env_ok (read_cmd 2)
            hba_idle with
    | inr h => h
    | inl (_, h) => h
    end in
  0 <= request_tag (read_cmd 2) < nutrs hba_idle
  /\ Z.testbit (lrb_in_use hba_idle) (request_tag (read_cmd 2)) = false
  /\ lrb_in_use hba1 =
     Z.setbit (lrb_in_use hba_idle) (request_tag (read_cmd 2)).
Proof.
  intros hba1.
  assert (0 <= nutrs hba_idle <= BITS_PER_LONG) as Hn
      by (unfold BITS_PER_LONG; simpl; lia).
  exact (proj1 (proj2 (@tag_allocation_order linux_headers qc_env_ok
                         (read_cmd 2) hba_idle Hn)) hba1 eq_refl).
Defined.

(** The device-management path on the idle 4-slot adapter takes tag 3. *)
Example dev_cmd_tag_on_idle_adapter :
  ufshcd_get_dev_cmd_tag hba_idle = (Some 3, set_lrb_in_use 8 hba_idle).
Proof. reflexivity. Qed.

(** A request carrying tag 2 on the idle adapter gets slot 2 although
    tags 0 and 1 are free. *)
Lemma data_path_takes_request_tag :
  ~ @data_path_takes_lowest_free linux_headers qc_env_ok (read_cmd 2)
      hba_idle.
Proof.
  intros Hc.
  specialize (Hc _ eq_refl 0 ltac:(simpl; lia)).
  discriminate Hc.
Qed.

(** ** Completion reconciliation *)

Section CompletionProps.
Context `{UfsHeaders}.

Lemma compl_frame_refl h : compl_frame h h.
Proof. repeat split. Qed.

Lemma compl_frame_trans a b c :
  compl_frame a b -> compl_frame b c -> compl_frame a c.
Proof. unfold compl_frame. intuition congruence. Qed.

Lemma __ufshcd_release_frame h :
  compl_frame h (__ufshcd_release h)
  /\ lrb (__ufshcd_release h) = lrb h
  /\ lrb_in_use (__ufshcd_release h) = lrb_in_use h
  /\ scsi_done_calls (trace (__ufshcd_release h)) =
     scsi_done_calls (trace h)
  /\ dev_cmd_completions (trace (__ufshcd_release h)) =
     dev_cmd_completions (trace h).
Proof.
  unfold compl_frame, __ufshcd_release, queue_delayed_work_gate,
    cg_dec_active_reqs, scsi_done_calls, dev_cmd_completions.
  repeat (simpl; case_match); simpl; rewrite ?omap_app; simpl;
    rewrite ?app_nil_r; repeat split; reflexivity.
Qed.

Lemma ufshcd_transfer_rsp_status_frame h h' lrbp :
  quirks h' = quirks h ->
  pm_op_in_progress h' = pm_op_in_progress h ->
  ufshcd_transfer_rsp_status h' lrbp = ufshcd_transfer_rsp_status h lrbp.
Proof.
  intros Hq Hp. unfold ufshcd_transfer_rsp_status. rewrite Hq, Hp.
  reflexivity.
Qed.

Lemma lrb_set_cmd_None_id l : cmd l = None -> lrb_set_cmd None l = l.
Proof. destruct l; simpl; intros ->; reflexivity. Qed.

Lemma lrb_at_lrb_update (f : ufshcd_lrb -> ufshcd_lrb) i j h :
  0 <= i -> 0 <= j ->
  lrb_at (lrb_update i f h) j =
  if bool_decide (j = i) then f <$> lrb_at h i else lrb_at h j.
Proof.
  intros Hi Hj. unfold lrb_at, lrb_update. simpl.
  rewrite list_lookup_alter.
  destruct (decide (Z.to_nat i = Z.to_nat j)) as [Heq | Hne].
  - apply Z2Nat.inj in Heq; [| lia | lia]. subst j.
    by rewrite bool_decide_eq_true_2.
  - rewrite bool_decide_eq_false_2; [reflexivity |]. intros ->. auto.
Qed.


Lemma clk_scaling_dec_active_reqs_frame h :
  compl_frame h (clk_scaling_dec_active_reqs h)
  /\ lrb (clk_scaling_dec_active_reqs h) = lrb h
  /\ lrb_in_use (clk_scaling_dec_active_reqs h) = lrb_in_use h
  /\ trace (clk_scaling_dec_active_reqs h) = trace h.
Proof.
  unfold clk_scaling_dec_active_reqs.
  destruct (ufshcd_is_clkscaling_supported h); repeat split.
Qed.

Lemma ufshcd_transfer_rsp_status_events h lrbp :
  scsi_done_calls (snd (ufshcd_transfer_rsp_status h lrbp)) = []
  /\ dev_cmd_completions (snd (ufshcd_transfer_rsp_status h lrbp)) = [].
Proof.
  unfold ufshcd_transfer_rsp_status, ufshcd_scsi_cmd_status.
  repeat case_match; simplify_eq; split; reflexivity.
Qed.

Lemma transfer_req_compl_cmd_spec i h :
  0 <= i ->
  let h' := transfer_req_compl_cmd i h in
  compl_frame h h'
  /\ (forall j, 0 <= j ->
        lrb_at h' j =
        if bool_decide (j = i) then lrb_set_cmd None <$> lrb_at h i
        else lrb_at h j)
  /\ (forall j,
        Z.testbit (lrb_in_use h') j =
        if bool_decide (j = i) && holds_scsi_cmd h i then false
        else Z.testbit (lrb_in_use h) j)
  /\ scsi_done_calls (trace h') =
     scsi_done_calls (trace h) ++ option_list (scsi_done_of h i)
  /\ dev_cmd_completions (trace h') =
     dev_cmd_completions (trace h)
     ++ option_list (dev_cmd_completion_of h i).
Proof.
  intros Hi h'. subst h'.
  unfold transfer_req_compl_cmd, scsi_done_of, dev_cmd_completion_of,
    holds_scsi_cmd.
  destruct (lrb_at h i) as [lrbp |] eqn:Hl; cbn [mbind option_bind].
  2: { (* no such slot *)
    rewrite !app_nil_r.
    split; [apply compl_frame_refl |].
    split; [intros j Hj; case_bool_decide; subst; by rewrite ?Hl |].
    split; [intros j; by rewrite andb_false_r |]. done. }
  destruct (cmd lrbp) as [c |] eqn:Hc; cbn [mbind option_bind].
  - (* a SCSI command *)
    pose proof (ufshcd_transfer_rsp_status_events h lrbp) as [Hev1 Hev2].
    destruct (ufshcd_transfer_rsp_status h lrbp) as [res evs].
    cbn [fst snd] in *.
    set (h1 := emit _ (set_lrb_in_use _ _)).
    destruct (__ufshcd_release_frame h1) as (Hf & Hlrb & Hiu & Hsd & Hdc).
    assert (compl_frame h h1) as Hf1 by (subst h1; repeat split).
    change (bool_decide (Some c <> None)) with true.
    split; [eapply compl_frame_trans; eassumption |].
    split; [| split; [| split]].
    + intros j Hj. unfold lrb_at at 1. rewrite Hlrb. subst h1.
      change (lrb_at (lrb_update i (lrb_set_cmd None) h) j = 
              if bool_decide (j = i) then lrb_set_cmd None <$> Some lrbp
              else lrb_at h j).
      rewrite lrb_at_lrb_update by lia. by rewrite Hl.
    + intros j. rewrite Hiu. subst h1. simpl.
      unfold Bitops.clear_bit. rewrite Z.clearbit_eqb, andb_true_r.
      case_bool_decide as Hji.
      * subst j. rewrite Z.eqb_refl. apply andb_false_r.
      * rewrite (proj2 (Z.eqb_neq i j)) by congruence. apply andb_true_r.
    + rewrite Hsd. subst h1. simpl. unfold scsi_done_calls in *.
      rewrite !omap_app, Hev1. simpl. by rewrite !app_nil_r.
    + rewrite Hdc. subst h1. simpl. unfold dev_cmd_completions in *.
      rewrite !omap_app, Hev2. simpl. by rewrite !app_nil_r.
  - (* no SCSI command in the slot *)
    change (bool_decide (@None scsi_cmnd <> None)) with false.
    assert (forall j, (if bool_decide (j = i)
                       then lrb_set_cmd None <$> Some lrbp
                       else lrb_at h j) = lrb_at h j) as Hid.
    { intros j. case_bool_decide; [| done]. subst j. simpl.
      by rewrite lrb_set_cmd_None_id, Hl. }
    assert (forall j, (if bool_decide (j = i) && false then false
                       else Z.testbit (lrb_in_use h) j)
                      = Z.testbit (lrb_in_use h) j) as Hid2
        by (intros; by rewrite andb_false_r).
    destruct (bool_decide _ || bool_decide _); simpl;
      [destruct (dev_cmd_complete h) eqn:Hd |]; simpl;
      unfold scsi_done_calls, dev_cmd_completions; rewrite ?omap_app;
      simpl; rewrite ?app_nil_r;
      (split; [repeat split |]);
      (split; [intros; by rewrite Hid |]);
      (split; [intros; by rewrite Hid2 |]); done.
Qed.

(** One iteration of the loop, slot by slot. *)
Lemma transfer_req_compl_slot_spec i h :
  0 <= i ->
  let h' := transfer_req_compl_slot i h in
  compl_frame h h'
  /\ (forall j, 0 <= j ->
        lrb_at h' j =
        if bool_decide (j = i) then lrb_set_cmd None <$> lrb_at h i
        else lrb_at h j)
  /\ (forall j,
        Z.testbit (lrb_in_use h') j =
        if bool_decide (j = i) && holds_scsi_cmd h i then false
        else Z.testbit (lrb_in_use h) j)
  /\ scsi_done_calls (trace h') =
     scsi_done_calls (trace h) ++ option_list (scsi_done_of h i)
  /\ dev_cmd_completions (trace h') =
     dev_cmd_completions (trace h)
     ++ option_list (dev_cmd_completion_of h i).
Proof.
  intros Hi. cbv zeta. unfold transfer_req_compl_slot.
  destruct (transfer_req_compl_cmd_spec i h Hi)
    as (Hf & Hlrb & Hiu & Hsd & Hdc).
  destruct (clk_scaling_dec_active_reqs_frame (transfer_req_compl_cmd i h))
    as (Hf' & Hlrb' & Hiu' & Htr').
  split; [eapply compl_frame_trans; eassumption |].
  unfold lrb_at at 1. rewrite Hlrb', Hiu', Htr'.
  repeat split; assumption.
Qed.

Lemma set_bits_below_S k addr :
  Bitops.set_bits_below (S k) addr =
  Bitops.set_bits_below k addr
  ++ (if Z.testbit addr (Z.of_nat k) then [Z.of_nat k] else []).
Proof. reflexivity. Qed.

Lemma elem_of_set_bits_below n addr i :
  i ∈ Bitops.set_bits_below n addr <->
  0 <= i < Z.of_nat n /\ Z.testbit addr i = true.
Proof.
  induction n as [| k IH].
  - simpl. split; [by intros ?%elem_of_nil | lia].
  - rewrite set_bits_below_S, elem_of_app, IH.
    destruct (Z.testbit addr (Z.of_nat k)) eqn:Hb.
    + rewrite list_elem_of_singleton. split.
      * intros [[? ?] | ->]; [split; [lia | done] | split; [lia | done]].
      * intros [Hi Ht].
        destruct (Z.eq_dec i (Z.of_nat k)); [by right | left; split; [lia | done]].
    + split.
      * intros [[? ?] | ?%elem_of_nil]; [split; [lia | done] | done].
      * intros [Hi Ht]. left. split; [| done].
        destruct (Z.eq_dec i (Z.of_nat k)); [congruence | lia].
Qed.

Lemma set_bits_below_0 n : Bitops.set_bits_below n 0 = [].
Proof.
  induction n as [| k IH]; [reflexivity |].
  rewrite set_bits_below_S, IH, Z.bits_0. reflexivity.
Qed.

(** The loop of [__ufshcd_transfer_req_compl] over the set bits below
    [n]: what it has done to each slot and which callers it has
    notified, in terms of the state [hba] it started from. *)
Lemma transfer_req_compl_loop_spec (completed : Z) (hba : ufs_hba) n :
  let h' := foldl (fun h index => transfer_req_compl_slot index h) hba
              (Bitops.set_bits_below n completed) in
  compl_frame hba h'
  /\ (forall j, 0 <= j ->
        lrb_at h' j =
        if (j <? Z.of_nat n) && Z.testbit completed j
        then lrb_set_cmd None <$> lrb_at hba j
        else lrb_at hba j)
  /\ (forall j, 0 <= j ->
        Z.testbit (lrb_in_use h') j =
        if (j <? Z.of_nat n) && Z.testbit completed j
           && holds_scsi_cmd hba j
        then false
        else Z.testbit (lrb_in_use hba) j)
  /\ scsi_done_calls (trace h') =
     scsi_done_calls (trace hba)
     ++ omap (scsi_done_of hba) (Bitops.set_bits_below n completed)
  /\ dev_cmd_completions (trace h') =
     dev_cmd_completions (trace hba)
     ++ omap (dev_cmd_completion_of hba)
          (Bitops.set_bits_below n completed).
Proof.
  induction n as [| k IH]; cbv zeta.
  - cbn [Bitops.set_bits_below foldl].
    split; [apply compl_frame_refl |].
    split; [| split; [| split]].
    1, 2: intros j Hj; rewrite (proj2 (Z.ltb_ge j (Z.of_nat 0))) by lia;
      reflexivity.
    all: simpl; by rewrite app_nil_r.
  - cbv zeta in IH. rewrite set_bits_below_S, foldl_app.
    set (hk := foldl _ hba (Bitops.set_bits_below k completed)) in *.
    destruct IH as (Hf & Hlrb & Hiu & Hsd & Hdc).
    destruct (Z.testbit completed (Z.of_nat k)) eqn:Hb; cbn [foldl].
    2: { (* bit k clear: nothing happens *)
      rewrite !omap_app; simpl; rewrite !app_nil_r.
      split; [exact Hf |].
      split; [| split; [| split; [exact Hsd | exact Hdc]]].
      - intros j Hj. rewrite Hlrb by lia.
        destruct (Z.eq_dec j (Z.of_nat k)) as [-> | Hne].
        + rewrite Hb, !andb_false_r. reflexivity.
        + replace (j <? Z.of_nat (S k)) with (j <? Z.of_nat k);
            [reflexivity |].
          destruct (Z.ltb_spec j (Z.of_nat k)), (Z.ltb_spec j (Z.of_nat (S k)));
            try reflexivity; lia.
      - intros j Hj. rewrite Hiu by lia.
        destruct (Z.eq_dec j (Z.of_nat k)) as [-> | Hne].
        + rewrite Hb, !andb_false_r. reflexivity.
        + replace (j <? Z.of_nat (S k)) with (j <? Z.of_nat k);
            [reflexivity |].
          destruct (Z.ltb_spec j (Z.of_nat k)), (Z.ltb_spec j (Z.of_nat (S k)));
            try reflexivity; lia. }
    (* bit k set: the slot is processed *)
    pose proof (transfer_req_compl_slot_spec (Z.of_nat k) hk
                  ltac:(lia)) as Hs.
    cbv zeta in Hs.
    destruct Hs as (Hf' & Hlrb' & Hiu' & Hsd' & Hdc').
    assert (lrb_at hk (Z.of_nat k) = lrb_at hba (Z.of_nat k)) as Hk.
    { rewrite Hlrb by lia. rewrite Z.ltb_irrefl. reflexivity. }
    assert (scsi_done_of hk (Z.of_nat k) = scsi_done_of hba (Z.of_nat k))
      as Hsdk.
    { unfold scsi_done_of. rewrite Hk.
      destruct (lrb_at hba (Z.of_nat k)) as [l |]; [| reflexivity].
      cbn [mbind option_bind].
      rewrite (ufshcd_transfer_rsp_status_frame hba hk); [reflexivity | |];
        apply Hf. }
    assert (dev_cmd_completion_of hk (Z.of_nat k) =
            dev_cmd_completion_of hba (Z.of_nat k)) as Hdck.
    { unfold dev_cmd_completion_of. rewrite Hk.
      destruct Hf as (_ & _ & _ & _ & _ & -> & _). reflexivity. }
    assert (holds_scsi_cmd hk (Z.of_nat k) = holds_scsi_cmd hba (Z.of_nat k))
      as Hhk by (unfold holds_scsi_cmd; by rewrite Hk).
    split; [eapply compl_frame_trans; eassumption |].
    split; [| split; [| split]].
    + intros j Hj. rewrite Hlrb' by lia.
      case_bool_decide as Hjk.
      * subst j. rewrite Hk, Hb.
        rewrite (proj2 (Z.ltb_lt _ _)) by lia. reflexivity.
      * rewrite Hlrb by lia.
        replace (j <? Z.of_nat (S k)) with (j <? Z.of_nat k);
          [reflexivity |].
        destruct (Z.ltb_spec j (Z.of_nat k)), (Z.ltb_spec j (Z.of_nat (S k)));
          try reflexivity; lia.
    + intros j Hj. rewrite Hiu'.
      case_bool_decide as Hjk.
      * subst j. rewrite Hhk, Hb.
        rewrite (proj2 (Z.ltb_lt _ _)) by lia. cbn [andb].
        destruct (holds_scsi_cmd hba (Z.of_nat k)); [reflexivity |].
        rewrite Hiu by lia. rewrite Z.ltb_irrefl. reflexivity.
      * cbn [andb]. rewrite Hiu by lia.
        replace (j <? Z.of_nat (S k)) with (j <? Z.of_nat k);
          [reflexivity |].
        destruct (Z.ltb_spec j (Z.of_nat k)), (Z.ltb_spec j (Z.of_nat (S k)));
          try reflexivity; lia.
    + rewrite Hsd', Hsd, Hsdk, omap_app, <- app_assoc. simpl.
      destruct (scsi_done_of hba (Z.of_nat k)); reflexivity.
    + rewrite Hdc', Hdc, Hdck, omap_app, <- app_assoc. simpl.
      destruct (dev_cmd_completion_of hba (Z.of_nat k)); reflexivity.
Qed.


Lemma omap_pointwise {A B} (f g : A -> option B) (l : list A) :
  (forall x, f x = g x) -> omap f l = omap g l.
Proof.
  intros Hfg. induction l as [| x l IH]; [reflexivity |].
  cbn [omap list_omap]. rewrite Hfg.
  change (list_omap A B f l) with (omap f l).
  change (list_omap A B g l) with (omap g l).
  rewrite IH. reflexivity.
Qed.

Lemma ufshcd_reset_intr_aggr_frame h :
  compl_frame h (ufshcd_reset_intr_aggr h)
  /\ lrb (ufshcd_reset_intr_aggr h) = lrb h
  /\ lrb_in_use (ufshcd_reset_intr_aggr h) = lrb_in_use h
  /\ clk_gating (ufshcd_reset_intr_aggr h) = clk_gating h
  /\ scsi_done_calls (trace (ufshcd_reset_intr_aggr h)) =
     scsi_done_calls (trace h)
  /\ dev_cmd_completions (trace (ufshcd_reset_intr_aggr h)) =
     dev_cmd_completions (trace h).
Proof.
  unfold ufshcd_reset_intr_aggr, ufshcd_writel, scsi_done_calls,
    dev_cmd_completions. simpl. rewrite !omap_app. simpl.
  rewrite !app_nil_r. repeat split.
Qed.

(** What [scsi_done_of], [dev_cmd_completion_of] and [holds_scsi_cmd]
    read of the state. *)
Lemma slot_views_frame h h' :
  compl_frame h h' -> lrb h' = lrb h ->
  (forall i, scsi_done_of h' i = scsi_done_of h i)
  /\ (forall i, dev_cmd_completion_of h' i = dev_cmd_completion_of h i)
  /\ (forall i, holds_scsi_cmd h' i = holds_scsi_cmd h i)
  /\ (forall i, lrb_at h' i = lrb_at h i).
Proof.
  intros (_ & _ & Hq & Hp & _ & Hd & _) Hl.
  unfold scsi_done_of, dev_cmd_completion_of, holds_scsi_cmd, lrb_at.
  rewrite Hl, Hd. repeat split; try reflexivity.
  intros i. destruct (lrb h !! Z.to_nat i) as [l |]; [| reflexivity].
  cbn [mbind option_bind].
  by rewrite (ufshcd_transfer_rsp_status_frame h h').
Qed.

(** After one pass the outstanding mask is the doorbell snapshot, and
    the pass has not touched the doorbell. *)
Lemma transfer_req_compl_snapshot (hba : ufs_hba) :
  doorbell (snd (ufshcd_transfer_req_compl hba)) = doorbell hba
  /\ outstanding_reqs (snd (ufshcd_transfer_req_compl hba)) =
     ufshcd_readl_doorbell hba.
Proof.
  unfold ufshcd_transfer_req_compl.
  set (h0 := if _ && _ then ufshcd_reset_intr_aggr hba else hba).
  assert (compl_frame hba h0) as Hf0.
  { subst h0. destruct (_ && _);
      [apply ufshcd_reset_intr_aggr_frame | apply compl_frame_refl]. }
  assert (completed_reqs_of h0 = completed_reqs_of hba) as Hc0.
  { unfold completed_reqs_of, ufshcd_readl_doorbell.
    destruct Hf0 as (-> & -> & _). reflexivity. }
  rewrite Hc0. destruct Hf0 as (Ho0 & Hdb0 & _).
  destruct (completed_reqs_of hba =? 0) eqn:Hz; cbn [negb snd].
  - apply Z.eqb_eq in Hz. unfold completed_reqs_of in Hz.
    apply Z.lxor_eq in Hz. split; congruence.
  - unfold __ufshcd_transfer_req_compl, Bitops.for_each_set_bit.
    destruct (transfer_req_compl_loop_spec (completed_reqs_of hba) h0
                (Z.to_nat (nutrs h0))) as ((Ho & Hdb & _) & _).
    simpl. rewrite Ho, Ho0, Hdb, Hdb0. split; [reflexivity |].
    unfold completed_reqs_of.
    rewrite Z.lxor_comm, Z.lxor_assoc, Z.lxor_nilpotent.
    apply Z.lxor_0_r.
Qed.

(** C1 (amended). One pass of [ufshcd_transfer_req_compl] computes the
    completed set as doorbell XOR outstanding and walks its set bits
    below [nutrs] in ascending order.  For every such slot that holds a
    SCSI command it maps the descriptor status to the result
    ([ufshcd_transfer_rsp_status]), clears the slot's command and its
    [lrb_in_use] bit, and calls [scsi_done]: exactly one call per such
    slot, none dropped.  For a slot without a SCSI command it only wakes
    the device-management waiter (when the slot's type is a
    device-management one and a waiter is registered) and leaves the
    slot and its tag to their owner.  Finally outstanding becomes
    outstanding XOR completed, that is the doorbell snapshot. *)
Theorem transfer_req_compl_reconciles (hba : ufs_hba) :
  let completed := completed_reqs_of hba in
  let bits := Bitops.for_each_set_bit completed (nutrs hba) in
  let hba' := snd (ufshcd_transfer_req_compl hba) in
  outstanding_reqs hba' = Z.lxor (outstanding_reqs hba) completed
  /\ outstanding_reqs hba' = ufshcd_readl_doorbell hba
  /\ scsi_done_calls (trace hba') =
     scsi_done_calls (trace hba) ++ omap (scsi_done_of hba) bits
  /\ dev_cmd_completions (trace hba') =
     dev_cmd_completions (trace hba)
     ++ omap (dev_cmd_completion_of hba) bits
  /\ (forall index lrbp c,
        0 <= index < nutrs hba ->
        Z.testbit completed index = true ->
        lrb_at hba index = Some lrbp -> cmd lrbp = Some c ->
        (index,
         cmd_set_result (fst (ufshcd_transfer_rsp_status hba lrbp)) c)
        ∈ omap (scsi_done_of hba) bits
        /\ lrb_at hba' index = Some (lrb_set_cmd None lrbp)
        /\ Z.testbit (lrb_in_use hba') index = false)
  /\ (forall index,
        0 <= index -> holds_scsi_cmd hba index = false ->
        lrb_at hba' index = lrb_at hba index
        /\ Z.testbit (lrb_in_use hba') index =
           Z.testbit (lrb_in_use hba) index).
Proof.
  cbv zeta.
  assert (Z.lxor (outstanding_reqs hba) (completed_reqs_of hba) =
          ufshcd_readl_doorbell hba) as Hx.
  { unfold completed_reqs_of.
    rewrite Z.lxor_comm, Z.lxor_assoc, Z.lxor_nilpotent. apply Z.lxor_0_r. }
  unfold ufshcd_transfer_req_compl.
  set (h0 := if _ && _ then ufshcd_reset_intr_aggr hba else hba).
  assert (compl_frame hba h0 /\ lrb h0 = lrb hba
          /\ lrb_in_use h0 = lrb_in_use hba
          /\ scsi_done_calls (trace h0) = scsi_done_calls (trace hba)
          /\ dev_cmd_completions (trace h0) =
             dev_cmd_completions (trace hba))
    as (Hf0 & Hl0 & Hi0 & Hs0 & Hd0).
  { subst h0. destruct (_ && _).
    - destruct (ufshcd_reset_intr_aggr_frame hba)
        as (? & ? & ? & _ & ? & ?). auto.
    - split; [apply compl_frame_refl | auto]. }
  destruct (slot_views_frame hba h0 Hf0 Hl0) as (Vs & Vd & Vh & Vl).
  assert (completed_reqs_of h0 = completed_reqs_of hba) as Hc0.
  { unfold completed_reqs_of, ufshcd_readl_doorbell.
    destruct Hf0 as (-> & -> & _). reflexivity. }
  assert (nutrs h0 = nutrs hba) as Hn0 by apply Hf0.
  rewrite Hc0.
  destruct (completed_reqs_of hba =? 0) eqn:Hz; cbn [negb snd].
  - (* nothing completed *)
    apply Z.eqb_eq in Hz. rewrite Hz in *.
    unfold Bitops.for_each_set_bit. rewrite set_bits_below_0. simpl.
    rewrite !app_nil_r.
    destruct Hf0 as (Ho & _). rewrite Ho, Hs0, Hd0.
    rewrite Z.lxor_0_r in *.
    repeat split; auto;
      try (rewrite Z.bits_0 in *; discriminate);
      try apply Vl; try (by rewrite Hi0).
  - unfold __ufshcd_transfer_req_compl, Bitops.for_each_set_bit.
    rewrite Hn0.
    destruct (transfer_req_compl_loop_spec (completed_reqs_of hba) h0
                (Z.to_nat (nutrs hba)))
      as (Hf & Hlrb & Hiu & Hsd & Hdc).
    set (h1 := foldl _ h0 _) in *.
    assert (forall j, 0 <= j ->
              (j <? Z.of_nat (Z.to_nat (nutrs hba))) = (j <? nutrs hba))
      as Hlt.
    { intros j Hj.
      destruct (Z.ltb_spec j (Z.of_nat (Z.to_nat (nutrs hba)))),
        (Z.ltb_spec j (nutrs hba)); try reflexivity; lia. }
    unfold emit. cbn [outstanding_reqs trace set_trace
                        set_outstanding_reqs lrb_in_use].
    destruct Hf as (Ho & _). destruct Hf0 as (Ho0 & _).
    rewrite Ho, Ho0, Hx.
    unfold scsi_done_calls, dev_cmd_completions in *.
    rewrite !omap_app. cbn [omap list_omap]. rewrite !app_nil_r.
    rewrite Hsd, Hdc, Hs0, Hd0.
    split; [reflexivity |]. split; [reflexivity |].
    split; [f_equal; apply omap_pointwise, Vs |].
    split; [f_equal; apply omap_pointwise, Vd |].
    split.
    + intros index lrbp c Hi Hb Hl Hc.
      split; [| split].
      * apply list_elem_of_omap. exists index. split.
        -- apply elem_of_set_bits_below. split; [lia | exact Hb].
        -- unfold scsi_done_of. rewrite Hl. cbn [mbind option_bind].
           rewrite Hc. reflexivity.
      * unfold lrb_at at 1. cbn [lrb set_outstanding_reqs set_trace].
        change (lrb h1 !! Z.to_nat index) with (lrb_at h1 index).
        rewrite Hlrb by lia. rewrite Hlt by lia.
        rewrite (proj2 (Z.ltb_lt _ _)) by lia. rewrite Hb, Vl, Hl.
        reflexivity.
      * rewrite Hiu by lia. rewrite Hlt by lia.
        rewrite (proj2 (Z.ltb_lt _ _)) by lia. rewrite Hb, Vh.
        unfold holds_scsi_cmd. rewrite Hl, Hc. reflexivity.
    + intros index Hi Hh. split.
      * unfold lrb_at at 1. cbn [lrb set_outstanding_reqs set_trace].
        change (lrb h1 !! Z.to_nat index) with (lrb_at h1 index).
        rewrite Hlrb by lia. rewrite Vl.
        destruct ((index <? _) && Z.testbit _ index); [| reflexivity].
        unfold holds_scsi_cmd in Hh.
        destruct (lrb_at hba index) as [l |]; [| reflexivity].
        simpl. rewrite lrb_set_cmd_None_id; [reflexivity |].
        destruct (cmd l); [| reflexivity].
        exfalso. apply bool_decide_eq_false in Hh. by apply Hh.
      * rewrite Hiu by lia. rewrite Vh, Hh, andb_false_r. by rewrite Hi0.
Qed.

(** C4. Reconciliation is idempotent: after one pass the outstanding
    mask equals the doorbell snapshot, so a second pass with the
    doorbell unchanged finds an empty completed set, reports IRQ_NONE,
    calls no [scsi_done] and wakes no waiter again, releases no tag and
    leaves the outstanding mask, the slots and the clock-gating state
    as they were. *)
Theorem transfer_req_compl_idempotent (hba : ufs_hba) :
  let h1 := snd (ufshcd_transfer_req_compl hba) in
  let r2 := ufshcd_transfer_req_compl h1 in
  doorbell h1 = doorbell hba
  /\ completed_reqs_of h1 = 0
  /\ fst r2 = IRQ_NONE
  /\ outstanding_reqs (snd r2) = outstanding_reqs h1
  /\ lrb_in_use (snd r2) = lrb_in_use h1
  /\ lrb (snd r2) = lrb h1
  /\ clk_gating (snd r2) = clk_gating h1
  /\ scsi_done_calls (trace (snd r2)) = scsi_done_calls (trace h1)
  /\ dev_cmd_completions (trace (snd r2)) =
     dev_cmd_completions (trace h1).
Proof.
  cbv zeta.
  destruct (transfer_req_compl_snapshot hba) as (Hdb & Ho).
  set (h1 := snd (ufshcd_transfer_req_compl hba)) in *.
  assert (completed_reqs_of h1 = 0) as Hz.
  { unfold completed_reqs_of, ufshcd_readl_doorbell in *.
    rewrite Ho, Hdb. apply Z.lxor_nilpotent. }
  split; [exact Hdb |]. split; [exact Hz |].
  unfold ufshcd_transfer_req_compl.
  set (h2 := if _ && _ then ufshcd_reset_intr_aggr h1 else h1).
  assert (compl_frame h1 h2 /\ lrb h2 = lrb h1
          /\ lrb_in_use h2 = lrb_in_use h1
          /\ clk_gating h2 = clk_gating h1
          /\ scsi_done_calls (trace h2) = scsi_done_calls (trace h1)
          /\ dev_cmd_completions (trace h2) =
             dev_cmd_completions (trace h1))
    as (Hf & Hl & Hi & Hg & Hs & Hd).
  { subst h2. destruct (_ && _).
    - apply ufshcd_reset_intr_aggr_frame.
    - split; [apply compl_frame_refl | auto 10]. }
  assert (completed_reqs_of h2 = 0) as ->.
  { unfold completed_reqs_of, ufshcd_readl_doorbell in *.
    destruct Hf as (-> & -> & _). exact Hz. }
  cbn [Z.eqb negb fst snd].
  destruct Hf as (Ho2 & _). auto 10.
Qed.

End CompletionProps.

(** Two reads in flight, the device has finished tag 0: one pass hands
    tag 0 back with result 0 (DID_OK, GOOD) and leaves tag 1 in flight. *)
Example reconcile_two_reads :
  let r := @ufshcd_transfer_req_compl linux_headers hba_two_reads in
  fst r = IRQ_HANDLED
  /\ scsi_done_calls (trace (snd r)) = [(0, read_cmd 0)]
  /\ outstanding_reqs (snd r) = 2
  /\ lrb_in_use (snd r) = 2
  /\ active_reqs (clk_gating (snd r)) = 1.
Proof. vm_compute. repeat split. Qed.

(** A completed device-management command on tag 3: the pass wakes the
    waiter and clears the outstanding bit, but the tag stays claimed (its
    owner gives it back in [ufshcd_put_dev_cmd_tag]). *)
Lemma dev_cmd_tag_not_released_by_reconciliation :
  ~ @reconciles_every_completed_bit linux_headers hba_dev_cmd_done.
Proof.
  intros Hc.
  destruct (Hc 3) as (_ & Hrel & _).
  - simpl. lia.
  - reflexivity.
  - vm_compute in Hrel. discriminate Hrel.
Qed.

Example reconcile_dev_cmd :
  let r := @ufshcd_transfer_req_compl linux_headers hba_dev_cmd_done in
  dev_cmd_completions (trace (snd r)) = [3]
  /\ scsi_done_calls (trace (snd r)) = []
  /\ outstanding_reqs (snd r) = 0
  /\ lrb_in_use (snd r) = 8.
Proof. vm_compute. repeat split. Qed.

(** ** Link control channel *)

Section LinkControlProps.
Context `{UfsHeaders}.

Lemma ufshcd_get_upmcrs_range hcs : 0 <= ufshcd_get_upmcrs hcs <= 7.
Proof.
  unfold ufshcd_get_upmcrs.
  replace (Z.land (Z.shiftr hcs 8) 7) with (Z.shiftr hcs 8 mod 8).
  - pose proof (Z.mod_pos_bound (Z.shiftr hcs 8) 8). lia.
  - change 7 with (Z.ones 3). rewrite Z.land_ones by lia. reflexivity.
Qed.

Lemma ufshcd_uic_pwr_ctrl_wait_not_timeout completed hcs cmd :
  1 < ETIMEDOUT ->
  completed = true \/ cmd_active cmd = 0 ->
  - 1 <= ufshcd_uic_pwr_ctrl_wait completed hcs cmd <= 7.
Proof.
  intros Ht Hc. unfold ufshcd_uic_pwr_ctrl_wait.
  pose proof (ufshcd_get_upmcrs_range hcs).
  assert (negb completed && negb (cmd_active cmd =? 0) = false) as ->.
  { destruct Hc as [-> | ->]; [reflexivity | apply andb_false_r]. }
  repeat case_match; lia.
Qed.

Lemma ufshcd_wait_for_uic_cmd_inactive hba cmd :
  cmd_active cmd = 0 ->
  fst (ufshcd_wait_for_uic_cmd false cmd hba) =
  Z.land (argument2 cmd) MASK_UIC_COMMAND_RESULT.
Proof.
  intros Ha. unfold ufshcd_wait_for_uic_cmd. cbn [fst]. rewrite Ha.
  reflexivity.
Qed.

Lemma ufshcd_wait_for_uic_cmd_completed hba cmd :
  fst (ufshcd_wait_for_uic_cmd true cmd hba) =
  Z.land (argument2 cmd) MASK_UIC_COMMAND_RESULT.
Proof. reflexivity. Qed.

Lemma ufshcd_wait_for_uic_cmd_active hba cmd :
  cmd_active cmd <> 0 ->
  fst (ufshcd_wait_for_uic_cmd false cmd hba) = - ETIMEDOUT.
Proof.
  intros Ha%Z.eqb_neq. unfold ufshcd_wait_for_uic_cmd. cbn [fst].
  rewrite Ha. reflexivity.
Qed.

(** The handler, for a simple command. *)
Lemma ufshcd_uic_cmd_compl_simple st a2 a3 hba cmd :
  active_uic_cmd hba = Some cmd ->
  Z.land st UIC_COMMAND_COMPL <> 0 -> uic_async_done hba = false ->
  ufshcd_uic_cmd_compl st a2 a3 hba =
  (IRQ_HANDLED,
   emit EvCompleteUic
     (set_active_uic_cmd
        (Some (uic_set_cmd_active 0
                 (uic_set_result
                    (Z.lor (argument2 cmd)
                       (Z.land a2 MASK_UIC_COMMAND_RESULT)) a3 cmd)))
        hba)).
Proof.
  intros Hact Hc%Z.eqb_neq Hd. unfold ufshcd_uic_cmd_compl.
  rewrite Hact, Hc, Hd. cbn [negb].
  change (uic_async_done (emit _ (set_active_uic_cmd _ hba)))
    with (uic_async_done hba).
  rewrite Hd, andb_false_r. reflexivity.
Qed.

(** The handler, for a power-mode command whose status bit arrives. *)
Lemma ufshcd_uic_cmd_compl_pwr st a2 a3 hba cmd :
  active_uic_cmd hba = Some cmd ->
  Z.land st UFSHCD_UIC_PWR_MASK <> 0 -> uic_async_done hba = true ->
  exists cmd',
    active_uic_cmd (snd (ufshcd_uic_cmd_compl st a2 a3 hba)) = Some cmd'
    /\ cmd_active cmd' = 0
    /\ (Z.land st UIC_COMMAND_COMPL <> 0 ->
        argument2 cmd' =
          Z.lor (argument2 cmd) (Z.land a2 MASK_UIC_COMMAND_RESULT)
        /\ argument3 cmd' = a3).
Proof.
  intros Hact Hp%Z.eqb_neq Hd. unfold ufshcd_uic_cmd_compl.
  rewrite Hact, Hd.
  destruct (Z.land st UIC_COMMAND_COMPL =? 0) eqn:Hc; cbn [negb].
  - rewrite Hp, Hd, Hact. cbn [negb andb snd].
    eexists. split; [reflexivity |]. split; [reflexivity |].
    intros Hne. apply Z.eqb_eq in Hc. contradiction.
  - change (uic_async_done (emit _ (set_active_uic_cmd _ hba)))
      with (uic_async_done hba).
    rewrite Hp, Hd. cbn [negb andb snd].
    eexists. split; [reflexivity |]. split; [reflexivity |].
    intros _. split; reflexivity.
Qed.

(** The handler run by [ufshcd_uic_pwr_ctrl] for a power-mode status
    bit clears [cmd_active] of the command just dispatched. *)
Lemma run_irq_pwr_clears_active env st a2 a3 cmd h :
  pe_irq env = Some (st, a2, a3) ->
  Z.land st UFSHCD_UIC_PWR_MASK <> 0 ->
  pe_ready env = true ->
  cmd_active
    (issuer_view cmd
       (run_irq env (snd (ufshcd_uic_pwr_ctrl_issue env cmd h)))) = 0.
Proof.
  intros Hirq Hp Hready.
  unfold ufshcd_uic_pwr_ctrl_issue, __ufshcd_send_uic_cmd, run_irq.
  rewrite Hready, Hirq. cbn [negb snd].
  set (h1 := ufshcd_dispatch_uic_cmd _ _).
  assert (active_uic_cmd h1 = Some (uic_set_cmd_active 1 cmd)) as Hact
      by (subst h1; destruct (pe_intr_enabled env); reflexivity).
  assert (uic_async_done h1 = true) as Hd
      by (subst h1; destruct (pe_intr_enabled env); reflexivity).
  destruct (ufshcd_uic_cmd_compl_pwr st a2 a3 h1 _ Hact Hp Hd)
    as (cmd' & Hc' & Ha' & _).
  unfold issuer_view. rewrite Hc'. exact Ha'.
Qed.

(** C5. When the wait for a link-control command times out, the waiter
    looks at the command's [cmd_active] flag again.  If the completion
    handler has cleared it in the meantime (a late interrupt), a simple
    command returns the result the handler stored in [argument2], and a
    power-mode command goes on to read the power-mode-change status
    and returns what that status gives (0 for PWR_LOCAL, -1 for
    PWR_OK, the status itself otherwise), exactly as after a timely
    completion; neither reports -ETIMEDOUT.  A command that is still
    active at that point fails with -ETIMEDOUT.  The handler clears
    the flag when it delivers the result of a simple command, and when
    a power-mode status bit arrives for a power-mode command.  The
    same holds of the two callers as a whole: [ufshcd_send_uic_cmd]
    and [ufshcd_uic_pwr_ctrl] return the salvaged result when the
    interrupt arrives after the timeout, and -ETIMEDOUT when it has
    not arrived by the time they look again. *)
Theorem uic_timeout_salvages_late_completion (hba : ufs_hba)
    (cmd : uic_command) (hcs : Z) :
  0 <= MASK_UIC_COMMAND_RESULT -> 1 < ETIMEDOUT ->
  (* the waiter *)
  (cmd_active cmd = 0 ->
   fst (ufshcd_wait_for_uic_cmd false cmd hba) =
     Z.land (argument2 cmd) MASK_UIC_COMMAND_RESULT
   /\ fst (ufshcd_wait_for_uic_cmd false cmd hba) =
      fst (ufshcd_wait_for_uic_cmd true cmd hba)
   /\ fst (ufshcd_wait_for_uic_cmd false cmd hba) <> - ETIMEDOUT
   /\ ufshcd_uic_pwr_ctrl_wait false hcs cmd =
      (if ufshcd_get_upmcrs hcs =? PWR_LOCAL then 0
       else if ufshcd_get_upmcrs hcs =? PWR_OK then -1
            else ufshcd_get_upmcrs hcs)
   /\ ufshcd_uic_pwr_ctrl_wait false hcs cmd =
      ufshcd_uic_pwr_ctrl_wait true hcs cmd
   /\ ufshcd_uic_pwr_ctrl_wait false hcs cmd <> - ETIMEDOUT)
  /\ (cmd_active cmd <> 0 ->
      fst (ufshcd_wait_for_uic_cmd false cmd hba) = - ETIMEDOUT
      /\ ufshcd_uic_pwr_ctrl_wait false hcs cmd = - ETIMEDOUT)
  (* the completion handler *)
  /\ (forall st a2 a3,
        active_uic_cmd hba = Some cmd ->
        (Z.land st UIC_COMMAND_COMPL <> 0 /\ uic_async_done hba = false
         \/ Z.land st UFSHCD_UIC_PWR_MASK <> 0 /\ uic_async_done hba = true) ->
        exists cmd',
          active_uic_cmd (snd (ufshcd_uic_cmd_compl st a2 a3 hba)) =
            Some cmd'
          /\ cmd_active cmd' = 0
          /\ (Z.land st UIC_COMMAND_COMPL <> 0 ->
              argument2 cmd' =
                Z.lor (argument2 cmd)
                  (Z.land a2 MASK_UIC_COMMAND_RESULT)
              /\ argument3 cmd' = a3))
  (* a simple command whose interrupt arrives after the timeout *)
  /\ (forall env st a2 a3,
        pe_ready env = true -> pe_irq env = Some (st, a2, a3) ->
        pe_in_time env = false ->
        Z.land st UIC_COMMAND_COMPL <> 0 -> uic_async_done hba = false ->
        fst (ufshcd_send_uic_cmd env cmd hba) =
          Z.land (Z.lor (argument2 cmd)
                    (Z.land a2 MASK_UIC_COMMAND_RESULT))
            MASK_UIC_COMMAND_RESULT)
  (* ... and one whose interrupt has not arrived *)
  /\ (forall env,
        pe_ready env = true -> pe_irq env = None ->
        fst (ufshcd_send_uic_cmd env cmd hba) = - ETIMEDOUT)
  (* a power-mode command whose interrupt arrives after the timeout *)
  /\ (forall env st a2 a3,
        ufshcd_is_link_broken hba = false ->
        pe_ready env = true -> pe_irq env = Some (st, a2, a3) ->
        pe_in_time env = false ->
        Z.land st UFSHCD_UIC_PWR_MASK <> 0 ->
        fst (ufshcd_uic_pwr_ctrl env cmd hba) =
          (if ufshcd_get_upmcrs (pe_hcs env) =? PWR_LOCAL then 0
           else if ufshcd_get_upmcrs (pe_hcs env) =? PWR_OK then -1
                else ufshcd_get_upmcrs (pe_hcs env))
        /\ fst (ufshcd_uic_pwr_ctrl env cmd hba) <> - ETIMEDOUT)
  (* ... and one whose interrupt has not arrived *)
  /\ (forall env,
        ufshcd_is_link_broken hba = false ->
        pe_ready env = true -> pe_irq env = None ->
        fst (ufshcd_uic_pwr_ctrl env cmd hba) = - ETIMEDOUT).
Proof.
  intros Hmask Ht.
  assert (forall x, Z.land x MASK_UIC_COMMAND_RESULT <> - ETIMEDOUT) as Hnn.
  { intros x Hx.
    assert (0 <= Z.land x MASK_UIC_COMMAND_RESULT)
      by (apply Z.land_nonneg; auto).
    lia. }
  assert (forall c h, cmd_active c = 0 ->
            ufshcd_uic_pwr_ctrl_wait false h c =
            (if ufshcd_get_upmcrs h =? PWR_LOCAL then 0
             else if ufshcd_get_upmcrs h =? PWR_OK then -1
                  else ufshcd_get_upmcrs h)) as Hsalv.
  { intros c h Ha. unfold ufshcd_uic_pwr_ctrl_wait. rewrite Ha.
    cbn [Z.eqb negb andb].
    destruct (ufshcd_get_upmcrs h =? PWR_LOCAL); cbn [negb];
      [reflexivity |].
    destruct (ufshcd_get_upmcrs h =? PWR_OK); reflexivity. }
  split_and!.
  - intros Ha.
    rewrite (ufshcd_wait_for_uic_cmd_inactive hba cmd Ha),
      ufshcd_wait_for_uic_cmd_completed.
    split_and!; auto.
    + unfold ufshcd_uic_pwr_ctrl_wait. rewrite Ha. reflexivity.
    + pose proof (ufshcd_uic_pwr_ctrl_wait_not_timeout false hcs cmd Ht
                    (or_intror Ha)). lia.
  - intros Ha. split; [by apply ufshcd_wait_for_uic_cmd_active |].
    apply Z.eqb_neq in Ha. unfold ufshcd_uic_pwr_ctrl_wait.
    rewrite Ha. reflexivity.
  - intros st a2 a3 Hact [[Hc Hd] | [Hp Hd]].
    + rewrite (ufshcd_uic_cmd_compl_simple st a2 a3 hba cmd Hact Hc Hd).
      eexists. split; [reflexivity |]. split; [reflexivity |].
      intros _. split; reflexivity.
    + by apply ufshcd_uic_cmd_compl_pwr.
  - intros env st a2 a3 Hready Hirq Hlate Hc Hd.
    unfold ufshcd_send_uic_cmd, __ufshcd_send_uic_cmd, run_irq.
    rewrite Hready, Hirq, Hlate. cbn [negb Z.eqb andb].
    set (h1 := ufshcd_dispatch_uic_cmd _ hba).
    assert (active_uic_cmd h1 = Some (uic_set_cmd_active 1 cmd)) as Hact
        by reflexivity.
    assert (uic_async_done h1 = false) as Hd1 by exact Hd.
    rewrite (ufshcd_uic_cmd_compl_simple st a2 a3 h1 _ Hact Hc Hd1).
    cbn [snd]. unfold issuer_view.
    change (active_uic_cmd (emit EvCompleteUic (set_active_uic_cmd ?c h1)))
      with c.
    cbn [default]. apply ufshcd_wait_for_uic_cmd_inactive. reflexivity.
  - intros env Hready Hirq.
    unfold ufshcd_send_uic_cmd, __ufshcd_send_uic_cmd, run_irq.
    rewrite Hready, Hirq. cbn [negb Z.eqb].
    apply ufshcd_wait_for_uic_cmd_active. discriminate.
  - intros env st a2 a3 Hb Hready Hirq Hlate Hp.
    assert (fst (ufshcd_uic_pwr_ctrl env cmd hba) =
            ufshcd_uic_pwr_ctrl_wait false (pe_hcs env)
              (issuer_view cmd
                 (run_irq env
                    (snd (ufshcd_uic_pwr_ctrl_issue env cmd hba)))))
      as ->.
    { unfold ufshcd_uic_pwr_ctrl. rewrite Hb.
      unfold ufshcd_uic_pwr_ctrl_issue, __ufshcd_send_uic_cmd.
      rewrite Hready, Hirq, Hlate. reflexivity. }
    assert (cmd_active
              (issuer_view cmd
                 (run_irq env
                    (snd (ufshcd_uic_pwr_ctrl_issue env cmd hba)))) = 0)
      as Ha.
    { by apply (run_irq_pwr_clears_active env st a2 a3 cmd hba). }
    split; [by apply Hsalv |].
    pose proof (ufshcd_uic_pwr_ctrl_wait_not_timeout false (pe_hcs env)
                  _ Ht (or_intror Ha)). lia.
  - intros env Hb Hready Hirq.
    unfold ufshcd_uic_pwr_ctrl. rewrite Hb.
    unfold ufshcd_uic_pwr_ctrl_issue, __ufshcd_send_uic_cmd, run_irq.
    rewrite Hready, Hirq. cbn [negb Z.eqb fst].
    unfold ufshcd_uic_pwr_ctrl_wait, issuer_view.
    destruct (pe_intr_enabled env); reflexivity.
Qed.

End LinkControlProps.

Lemma uic_timeout_salvages_late_completion_witness :
  fst (@ufshcd_send_uic_cmd linux_headers late_irq_env dme_set_cmd hba_idle)
  = 0
  /\ fst (@ufshcd_send_uic_cmd linux_headers no_irq_env dme_set_cmd hba_idle)
     = - 110
  /\ fst (@ufshcd_uic_pwr_ctrl linux_headers late_pwr_irq_env
            hibern8_enter_cmd hba_idle) = 0
  /\ fst (@ufshcd_uic_pwr_ctrl linux_headers no_irq_env hibern8_enter_cmd
            hba_idle) = - 110.
Proof.
  destruct (@uic_timeout_salvages_late_completion linux_headers hba_idle
              dme_set_cmd 0x10f) as (_ & _ & _ & Hlate & Hnone & _).
  { simpl. lia. }
  { simpl. lia. }
  destruct (@uic_timeout_salvages_late_completion linux_headers hba_idle
              hibern8_enter_cmd 0x10f) as (_ & _ & _ & _ & _ & Hpl & Hpn).
  { simpl. lia. }
  { simpl. lia. }
  split_and!.
  - rewrite (Hlate late_irq_env 0x400 0 0);
      [reflexivity | reflexivity | reflexivity | reflexivity
      | vm_compute; discriminate | reflexivity].
  - apply (Hnone no_irq_env); reflexivity.
  - apply (proj1 (Hpl late_pwr_irq_env 0x410 0 0 eq_refl eq_refl eq_refl
                    eq_refl ltac:(vm_compute; discriminate))).
  - apply (Hpn no_irq_env); reflexivity.
Defined.

(** ** Clock and gear scaling *)

Module ScalingProps.
Import Scaling.

Section WithHeaders.
Context `{UfsHeaders}.

Lemma scale_steps_snoc l e :
  scale_steps (l ++ [e]) = scale_steps l ++ scale_steps [e].
Proof. apply omap_app. Qed.

Lemma vops_clk_scale_notify_spec up st h :
  let r := ufshcd_vops_clk_scale_notify up st h in
  scale_steps (sc_trace (snd r)) = scale_steps (sc_trace h)
  /\ pwr_info (snd r) = pwr_info h
  /\ saved_pwr_info (snd r) = saved_pwr_info h
  /\ clk_list (snd r) = clk_list h
  /\ ans_doorbell_clr (snd r) = ans_doorbell_clr h.
Proof.
  unfold ufshcd_vops_clk_scale_notify, take_notify.
  destruct (next_answer (ans_notify h)) as [a l]. simpl.
  rewrite scale_steps_snoc. simpl. rewrite app_nil_r. auto.
Qed.

Lemma set_clk_freq_from_spec up todo :
  forall done h,
    clk_list h = done ++ todo ->
    let r := set_clk_freq_from up (length done) todo h in
    scale_steps (sc_trace (snd r)) = scale_steps (sc_trace h)
    /\ pwr_info (snd r) = pwr_info h
    /\ saved_pwr_info (snd r) = saved_pwr_info h
    /\ ans_doorbell_clr (snd r) = ans_doorbell_clr h
    /\ (fst r = 0 ->
        clk_list (snd r) = done ++ (retarget up <$> todo)).
Proof.
  induction todo as [| c rest IH]; intros done h Hl; cbv zeta.
  - simpl. rewrite app_nil_r in *. auto.
  - cbn [set_clk_freq_from]. unfold retarget at 1. cbn [fmap list_fmap].
    assert (forall h0,
               clk_list h0 = done ++ c :: rest ->
               clk_list h0 = (done ++ [c]) ++ rest) as Hre
        by (intros; by rewrite <- app_assoc).
    assert (S (length done) = length (done ++ [c])) as Hlen
        by (rewrite length_app; simpl; lia).
    destruct (clk_valid c && negb (_ =? 0)) eqn:Hv; cbn [andb].
    2: { rewrite Hlen.
         destruct (IH (done ++ [c]) h (Hre h Hl))
           as (? & ? & ? & ? & Hc).
         repeat split; auto. intros Hr. rewrite (Hc Hr).
         by rewrite <- app_assoc. }
    destruct ((curr_freq c =? _) || clk_is_ice_hw_ctl c) eqn:Hs;
      cbn [negb].
    { rewrite Hlen.
      destruct (IH (done ++ [c]) h (Hre h Hl)) as (? & ? & ? & ? & Hc).
      repeat split; auto. intros Hr. rewrite (Hc Hr).
      by rewrite <- app_assoc. }
    unfold take_clk_set_rate.
    destruct (next_answer (ans_clk_set_rate h)) as [a l].
    destruct (a =? 0) eqn:Ha; cbn [negb].
    + set (h1 := set_clk_list _ _).
      assert (clk_list h1 =
              (done ++ [clk_set_curr (if up then max_freq c
                                      else min_freq c) c]) ++ rest)
        as Hl1.
      { subst h1. simpl. rewrite Hl.
        rewrite insert_app_r_alt by lia.
        rewrite Nat.sub_diag. simpl. by rewrite <- app_assoc. }
      assert (S (length done) =
              length (done ++ [clk_set_curr (if up then max_freq c
                                             else min_freq c) c]))
        as Hlen1 by (rewrite length_app; simpl; lia).
      rewrite Hlen1.
      destruct (IH _ h1 Hl1) as (Hst & Hp & Hsv & Hd & Hc).
      subst h1. simpl in Hst, Hp, Hsv, Hd.
      rewrite scale_steps_snoc in Hst. simpl in Hst.
      rewrite app_nil_r in Hst.
      repeat split; auto. intros Hr. rewrite (Hc Hr).
      by rewrite <- app_assoc.
    + simpl. rewrite scale_steps_snoc. simpl. rewrite app_nil_r.
      repeat split; auto. intros ->. discriminate Ha.
Qed.

Lemma ufshcd_set_clk_freq_spec up h :
  let r := ufshcd_set_clk_freq up h in
  scale_steps (sc_trace (snd r)) = scale_steps (sc_trace h)
  /\ pwr_info (snd r) = pwr_info h
  /\ saved_pwr_info (snd r) = saved_pwr_info h
  /\ ans_doorbell_clr (snd r) = ans_doorbell_clr h
  /\ (fst r = 0 -> clk_list (snd r) = retarget up <$> clk_list h).
Proof. apply (set_clk_freq_from_spec up (clk_list h) [] h eq_refl). Qed.

Lemma scale_clks_body_spec up h :
  let r := scale_clks_body up h in
  scale_steps (sc_trace (snd r)) = scale_steps (sc_trace h)
  /\ pwr_info (snd r) = pwr_info h
  /\ saved_pwr_info (snd r) = saved_pwr_info h
  /\ ans_doorbell_clr (snd r) = ans_doorbell_clr h
  /\ (fst r = 0 -> clk_list (snd r) = retarget up <$> clk_list h).
Proof.
  cbv zeta. unfold scale_clks_body.
  destruct (vops_clk_scale_notify_spec up PRE_CHANGE h)
    as (Ht1 & Hp1 & Hs1 & Hc1 & Hd1).
  destruct (ufshcd_vops_clk_scale_notify up PRE_CHANGE h) as [r1 h1].
  cbn [fst snd] in *.
  destruct (r1 =? 0) eqn:Hr1; cbn [negb fst snd].
  2: { repeat split; auto. intros ->. discriminate Hr1. }
  destruct (ufshcd_set_clk_freq_spec up h1)
    as (Ht2 & Hp2 & Hs2 & Hd2 & Hc2).
  destruct (ufshcd_set_clk_freq up h1) as [r2 h2]. cbn [fst snd] in *.
  destruct (r2 =? 0) eqn:Hr2; cbn [negb fst snd].
  2: { repeat split; try congruence. intros ->. discriminate Hr2. }
  apply Z.eqb_eq in Hr2.
  destruct (vops_clk_scale_notify_spec up POST_CHANGE h2)
    as (Ht3 & Hp3 & Hs3 & Hc3 & Hd3).
  destruct (ufshcd_vops_clk_scale_notify up POST_CHANGE h2) as [r3 h3].
  cbn [fst snd] in *.
  destruct (r3 =? 0) eqn:Hr3; cbn [negb fst snd].
  - repeat split; try congruence. intros _.
    rewrite Hc3, (Hc2 Hr2), Hc1. reflexivity.
  - destruct (ufshcd_set_clk_freq_spec (negb up) h3)
      as (Ht4 & Hp4 & Hs4 & Hd4 & _).
    repeat split; try congruence. intros ->. discriminate Hr3.
Qed.

Lemma ufshcd_scale_clks_spec up h :
  let r := ufshcd_scale_clks up h in
  scale_steps (sc_trace (snd r)) =
    scale_steps (sc_trace h) ++ [ScScaleClksRet up (fst r)]
  /\ pwr_info (snd r) = pwr_info h
  /\ saved_pwr_info (snd r) = saved_pwr_info h
  /\ ans_doorbell_clr (snd r) = ans_doorbell_clr h
  /\ (fst r = 0 -> clk_list (snd r) = retarget up <$> clk_list h).
Proof.
  cbv zeta. unfold ufshcd_scale_clks.
  destruct (scale_clks_body_spec up h) as (Ht & Hp & Hs & Hd & Hc).
  destruct (scale_clks_body up h) as [r h']. cbn [fst snd] in *.
  simpl. rewrite scale_steps_snoc, Ht. auto.
Qed.

Lemma ufshcd_config_pwr_mode_spec mode h :
  let r := ufshcd_config_pwr_mode mode h in
  scale_steps (sc_trace (snd r)) = scale_steps (sc_trace h)
  /\ clk_list (snd r) = clk_list h
  /\ saved_pwr_info (snd r) = saved_pwr_info h
  /\ ans_doorbell_clr (snd r) = ans_doorbell_clr h
  /\ (fst r <> 0 -> pwr_info (snd r) = pwr_info h)
  /\ (fst r = 0 -> pwr_info (snd r) = mode).
Proof.
  cbv zeta. unfold ufshcd_config_pwr_mode, take_pwr_mode.
  case_bool_decide as Hm.
  - cbn [fst snd]. repeat split; auto; done.
  - destruct (next_answer (ans_pwr_mode h)) as [a l].
    destruct (a =? 0) eqn:Ha; cbn [negb fst snd]; simpl;
      rewrite scale_steps_snoc; simpl; rewrite app_nil_r;
      repeat split; auto.
    + intros Hne. apply Z.eqb_eq in Ha. contradiction.
    + intros ->. discriminate Ha.
Qed.

Lemma ufshcd_scale_gear_spec up h :
  let r := ufshcd_scale_gear up h in
  scale_steps (sc_trace (snd r)) =
    scale_steps (sc_trace h) ++ [ScScaleGearRet up (fst r)]
  /\ clk_list (snd r) = clk_list h
  /\ ans_doorbell_clr (snd r) = ans_doorbell_clr h
  /\ (fst r <> 0 -> pwr_info (snd r) = pwr_info h)
  /\ (up = true ->
      saved_pwr_info (snd r) = saved_pwr_info h
      /\ (fst r = 0 -> pwr_info (snd r) = saved_pwr_info h))
  /\ (up = false ->
      (gear_tx (pwr_info h) > UFS_MIN_GEAR_TO_SCALE_DOWN
       \/ gear_rx (pwr_info h) > UFS_MIN_GEAR_TO_SCALE_DOWN ->
       saved_pwr_info (snd r) = pwr_info h)
      /\ (gear_tx (pwr_info h) <= UFS_MIN_GEAR_TO_SCALE_DOWN ->
          gear_rx (pwr_info h) <= UFS_MIN_GEAR_TO_SCALE_DOWN ->
          saved_pwr_info (snd r) = saved_pwr_info h)
      /\ (fst r = 0 ->
          gear_tx (pwr_info (snd r)) <= UFS_MIN_GEAR_TO_SCALE_DOWN
          /\ gear_rx (pwr_info (snd r)) <= UFS_MIN_GEAR_TO_SCALE_DOWN)).
Proof.
  cbv zeta. unfold ufshcd_scale_gear, scale_gear_body.
  destruct up.
  - destruct (ufshcd_config_pwr_mode_spec (saved_pwr_info h) h)
      as (Ht & Hc & Hs & Hd & Hne & Heq).
    destruct (ufshcd_config_pwr_mode (saved_pwr_info h) h) as [r h'].
    cbn [fst snd] in *. simpl. rewrite scale_steps_snoc, Ht.
    split_and!; auto; discriminate.
  - destruct ((gear_tx (pwr_info h) >? _) || (gear_rx (pwr_info h) >? _))
      eqn:Hg.
    + set (h1 := set_saved_pwr_info _ h).
      set (m := {| gear_rx := _ |}).
      destruct (ufshcd_config_pwr_mode_spec m h1)
        as (Ht & Hc & Hs & Hd & Hne & Heq).
      destruct (ufshcd_config_pwr_mode m h1) as [r h'].
      cbn [fst snd] in *. simpl. rewrite scale_steps_snoc, Ht.
      apply orb_true_iff in Hg.
      split_and!; auto; try discriminate. intros _.
      split_and!; auto.
      * intros Ht1 Hr1. destruct Hg as [Hg | Hg]; apply Z.gtb_gt in Hg; lia.
      * intros Hr. rewrite (Heq Hr). subst m. simpl. lia.
    + apply orb_false_iff in Hg as [Hg1 Hg2].
      assert (gear_tx (pwr_info h) <= UFS_MIN_GEAR_TO_SCALE_DOWN) as Ht1
          by (destruct (Z.gtb_spec (gear_tx (pwr_info h))
                          UFS_MIN_GEAR_TO_SCALE_DOWN); [discriminate | lia]).
      assert (gear_rx (pwr_info h) <= UFS_MIN_GEAR_TO_SCALE_DOWN) as Hr1
          by (destruct (Z.gtb_spec (gear_rx (pwr_info h))
                          UFS_MIN_GEAR_TO_SCALE_DOWN); [discriminate | lia]).
      destruct (ufshcd_config_pwr_mode_spec (pwr_info h) h)
        as (Ht & Hc & Hs & Hd & Hne & Heq).
      destruct (ufshcd_config_pwr_mode (pwr_info h) h) as [r h'].
      cbn [fst snd] in *. simpl. rewrite scale_steps_snoc, Ht.
      split_and!; auto; try discriminate. intros _.
      split_and!; auto.
      * intros Hgt. lia.
      * intros Hr. rewrite (Heq Hr). auto.
Qed.

Lemma ufshcd_clock_scaling_prepare_spec h :
  let r := ufshcd_clock_scaling_prepare h in
  pwr_info (snd r) = pwr_info h
  /\ saved_pwr_info (snd r) = saved_pwr_info h
  /\ clk_list (snd r) = clk_list h
  /\ (ans_doorbell_clr h = 0 ->
      fst r = 0
      /\ scale_steps (sc_trace (snd r)) = scale_steps (sc_trace h))
  /\ (ans_doorbell_clr h <> 0 ->
      fst r = - EBUSY
      /\ scale_steps (sc_trace (snd r)) =
           scale_steps (sc_trace h) ++ [ScUpWrite]).
Proof.
  cbv zeta. unfold ufshcd_clock_scaling_prepare.
  destruct OPLUS_FEATURE_UFS_DRIVER; simpl;
    destruct (ans_doorbell_clr h =? 0) eqn:Hd; simpl;
    rewrite ?scale_steps_snoc; simpl; rewrite ?app_nil_r;
    split_and!; auto; intros Hz;
    try (apply Z.eqb_eq in Hd); try (apply Z.eqb_neq in Hd);
    try contradiction; auto.
Qed.

Lemma ufshcd_clock_scaling_unprepare_spec h :
  let h' := sc_emit ScRelease (ufshcd_clock_scaling_unprepare h) in
  pwr_info h' = pwr_info h
  /\ saved_pwr_info h' = saved_pwr_info h
  /\ clk_list h' = clk_list h
  /\ scale_steps (sc_trace h') = scale_steps (sc_trace h) ++ [ScUpWrite].
Proof.
  cbv zeta. unfold ufshcd_clock_scaling_unprepare. simpl.
  rewrite !scale_steps_snoc. simpl. rewrite !app_nil_r. auto.
Qed.

Lemma scale_steps_hold h :
  scale_steps (sc_trace (sc_emit ScHold h)) = scale_steps (sc_trace h).
Proof. simpl. rewrite scale_steps_snoc. simpl. apply app_nil_r. Qed.

Lemma wb_ctrl_window_spec up h :
  let h' := sc_emit ScDownWrite
              (sc_emit (ScWbCtrl up) (sc_emit ScUpWrite h)) in
  pwr_info h' = pwr_info h
  /\ saved_pwr_info h' = saved_pwr_info h
  /\ clk_list h' = clk_list h
  /\ scale_steps (sc_trace h') = scale_steps (sc_trace h) ++ [ScUpWrite].
Proof.
  cbv zeta. simpl. rewrite !scale_steps_snoc. simpl.
  rewrite !app_nil_r. auto.
Qed.

(** C6 (as the code has it).  Once the scaling barrier is held with
    the doorbell drained, [ufshcd_devfreq_scale] runs its steps in a
    fixed order and releases the barrier ([ScUpWrite]) only after
    the last of them.  Scaling down lowers the gear first and the
    clocks second; scaling up raises the clocks first and the gear
    second.  When the second step fails, the first one is undone by
    a further step before the barrier is released, and the result of
    that roll-back step is discarded: the earlier gear or the low
    clock rates are back in place when the roll-back step itself
    succeeded.  The return value is that of the failing step. *)
Theorem devfreq_scale_order_and_rollback (scale_up : bool) (h : sc_hba) :
  ans_doorbell_clr h = 0 ->
  let ret := fst (ufshcd_devfreq_scale scale_up h) in
  let h' := snd (ufshcd_devfreq_scale scale_up h) in
  let steps l :=
    scale_steps (sc_trace h') = scale_steps (sc_trace h) ++ l in
  if scale_up then
    (ret <> 0
     /\ steps [ScScaleClksRet true ret; ScUpWrite]
     /\ pwr_info h' = pwr_info h)
    \/ (ret <> 0
        /\ (exists rr,
              steps [ScScaleClksRet true 0; ScScaleGearRet true ret;
                     ScScaleClksRet false rr; ScUpWrite]
              /\ (rr = 0 ->
                  clk_list h' =
                    retarget false <$> (retarget true <$> clk_list h)))
        /\ pwr_info h' = pwr_info h)
    \/ (ret = 0
        /\ steps [ScScaleClksRet true 0; ScScaleGearRet true 0;
                  ScUpWrite; ScUpWrite]
        /\ pwr_info h' = saved_pwr_info h
        /\ clk_list h' = retarget true <$> clk_list h)
  else
    (ret <> 0
     /\ steps [ScScaleGearRet false ret; ScUpWrite]
     /\ pwr_info h' = pwr_info h
     /\ clk_list h' = clk_list h)
    \/ (ret <> 0
        /\ exists rr,
             steps [ScScaleGearRet false 0; ScScaleClksRet false ret;
                    ScScaleGearRet true rr; ScUpWrite]
             /\ (rr = 0 ->
                 pwr_info h' = saved_pwr_info h'
                 /\ (gear_tx (pwr_info h) > UFS_MIN_GEAR_TO_SCALE_DOWN
                     \/ gear_rx (pwr_info h) > UFS_MIN_GEAR_TO_SCALE_DOWN ->
                     pwr_info h' = pwr_info h)))
    \/ (ret = 0
        /\ steps [ScScaleGearRet false 0; ScScaleClksRet false 0;
                  ScUpWrite; ScUpWrite]
        /\ gear_tx (pwr_info h') <= UFS_MIN_GEAR_TO_SCALE_DOWN
        /\ gear_rx (pwr_info h') <= UFS_MIN_GEAR_TO_SCALE_DOWN
        /\ clk_list h' = retarget false <$> clk_list h).
Proof.
  intros Hdb. cbv zeta. unfold ufshcd_devfreq_scale.
  pose proof (scale_steps_hold h) as Hh0.
  set (h0 := sc_emit ScHold h) in *.
  destruct (ufshcd_clock_scaling_prepare_spec h0)
    as (Hp0 & Hs0 & Hc0 & Hok & _).
  destruct (Hok Hdb) as [Hr0 Ht0]. clear Hok.
  destruct (ufshcd_clock_scaling_prepare h0) as [r0 hp].
  cbn [fst snd] in Hp0, Hs0, Hc0, Hr0, Ht0. subst r0.
  change (negb (0 =? 0)) with false. cbv iota.
  assert (pwr_info hp = pwr_info h) as Hp by (rewrite Hp0; reflexivity).
  assert (saved_pwr_info hp = saved_pwr_info h) as Hs
      by (rewrite Hs0; reflexivity).
  assert (clk_list hp = clk_list h) as Hc by (rewrite Hc0; reflexivity).
  assert (scale_steps (sc_trace hp) = scale_steps (sc_trace h)) as Ht
      by congruence.
  clear Hp0 Hs0 Hc0 Ht0 Hh0. clearbody h0.
  destruct scale_up.
  - (* scaling up: clocks, then gear *)
    change (negb (0 =? 0)) with false. cbv iota.
    destruct (ufshcd_scale_clks_spec true hp)
      as (Ht1 & Hp1 & Hs1 & _ & Hc1).
    destruct (ufshcd_scale_clks true hp) as [rc h1].
    cbn [fst snd] in Ht1, Hp1, Hs1, Hc1.
    destruct (rc =? 0) eqn:Hrc; cbn [negb].
    + apply Z.eqb_eq in Hrc. subst rc. specialize (Hc1 eq_refl).
      destruct (ufshcd_scale_gear_spec true h1)
        as (Ht2 & Hc2 & _ & Hne2 & Hup2 & _).
      destruct (Hup2 eq_refl) as [Hs2 Heq2]. clear Hup2.
      destruct (ufshcd_scale_gear true h1) as [rg h2].
      cbn [fst snd] in Ht2, Hc2, Hne2, Hs2, Heq2.
      destruct (rg =? 0) eqn:Hrg; cbn [negb].
      * apply Z.eqb_eq in Hrg. subst rg. specialize (Heq2 eq_refl).
        right; right. cbn [fst snd].
        destruct (wb_ctrl_window_spec true h2) as (Hp3 & Hs3 & Hc3 & Ht3).
        destruct (ufshcd_clock_scaling_unprepare_spec
                    (sc_emit ScDownWrite
                       (sc_emit (ScWbCtrl true) (sc_emit ScUpWrite h2))))
          as (Hp4 & Hs4 & Hc4 & Ht4).
        split_and!; [reflexivity | | congruence | congruence].
        rewrite Ht4, Ht3, Ht2, Ht1, Ht, <- !app_assoc. reflexivity.
      * apply Z.eqb_neq in Hrg. specialize (Hne2 Hrg).
        right; left. cbn [fst snd].
        destruct (ufshcd_scale_clks_spec false h2)
          as (Ht3 & Hp3 & Hs3 & _ & Hc3).
        destruct (ufshcd_scale_clks false h2) as [rr h3].
        cbn [fst snd] in Ht3, Hp3, Hs3, Hc3 |- *.
        destruct (ufshcd_clock_scaling_unprepare_spec h3)
          as (Hp4 & Hs4 & Hc4 & Ht4).
        split_and!; [assumption | | congruence].
        exists rr. split.
        -- rewrite Ht4, Ht3, Ht2, Ht1, Ht, <- !app_assoc. reflexivity.
        -- intros Hrr. rewrite Hc4, (Hc3 Hrr), Hc2, Hc1, Hc. reflexivity.
    + apply Z.eqb_neq in Hrc. left. cbn [fst snd].
      destruct (ufshcd_clock_scaling_unprepare_spec h1)
        as (Hp4 & Hs4 & Hc4 & Ht4).
      split_and!; [assumption | | congruence].
      rewrite Ht4, Ht1, Ht, <- !app_assoc. reflexivity.
  - (* scaling down: gear, then clocks *)
    destruct (ufshcd_scale_gear_spec false hp)
      as (Ht1 & Hc1 & _ & Hne1 & _ & Hdn1).
    destruct (Hdn1 eq_refl) as (Hsv1 & _ & Hlow1). clear Hdn1.
    destruct (ufshcd_scale_gear false hp) as [rg h1].
    cbn [fst snd] in Ht1, Hc1, Hne1, Hsv1, Hlow1.
    destruct (rg =? 0) eqn:Hrg; cbn [negb].
    + apply Z.eqb_eq in Hrg. subst rg. specialize (Hlow1 eq_refl).
      destruct (ufshcd_scale_clks_spec false h1)
        as (Ht2 & Hp2 & Hs2 & _ & Hc2).
      destruct (ufshcd_scale_clks false h1) as [rc h2].
      cbn [fst snd] in Ht2, Hp2, Hs2, Hc2.
      destruct (rc =? 0) eqn:Hrc; cbn [negb].
      * apply Z.eqb_eq in Hrc. subst rc. specialize (Hc2 eq_refl).
        right; right.
        change (negb (0 =? 0)) with false. cbv iota. cbn [fst snd].
        destruct (wb_ctrl_window_spec false h2) as (Hp3 & Hs3 & Hc3 & Ht3).
        destruct (ufshcd_clock_scaling_unprepare_spec
                    (sc_emit ScDownWrite
                       (sc_emit (ScWbCtrl false) (sc_emit ScUpWrite h2))))
          as (Hp4 & Hs4 & Hc4 & Ht4).
        split_and!; [reflexivity | | | | congruence].
        -- rewrite Ht4, Ht3, Ht2, Ht1, Ht, <- !app_assoc. reflexivity.
        -- rewrite Hp4, Hp3, Hp2. tauto.
        -- rewrite Hp4, Hp3, Hp2. tauto.
      * apply Z.eqb_neq in Hrc. right; left. cbn [fst snd].
        destruct (ufshcd_scale_gear_spec true h2)
          as (Ht3 & Hc3 & _ & Hne3 & Hup3 & _).
        destruct (Hup3 eq_refl) as [Hs3 Heq3]. clear Hup3.
        destruct (ufshcd_scale_gear true h2) as [rr h3].
        cbn [fst snd] in Ht3, Hc3, Hne3, Hs3, Heq3 |- *.
        destruct (ufshcd_clock_scaling_unprepare_spec h3)
          as (Hp4 & Hs4 & Hc4 & Ht4).
        split; [assumption |]. exists rr. split.
        -- rewrite Ht4, Ht3, Ht2, Ht1, Ht, <- !app_assoc. reflexivity.
        -- intros Hrr. specialize (Heq3 Hrr). split.
           ++ congruence.
           ++ intros Hg. rewrite Hp in Hsv1. specialize (Hsv1 Hg).
              congruence.
    + apply Z.eqb_neq in Hrg. specialize (Hne1 Hrg). left. cbn [fst snd].
      destruct (ufshcd_clock_scaling_unprepare_spec h1)
        as (Hp4 & Hs4 & Hc4 & Ht4).
      split_and!; [assumption | | congruence | congruence].
      rewrite Ht4, Ht1, Ht, <- !app_assoc. reflexivity.
Qed.

End WithHeaders.

Lemma devfreq_scale_order_and_rollback_witness :
  ans_doorbell_clr h_gear_fails = 0
  /\ exists rr,
       scale_steps
         (sc_trace (snd (@ufshcd_devfreq_scale linux_headers true
                           h_gear_fails))) =
         [ScScaleClksRet true 0; ScScaleGearRet true (-5);
          ScScaleClksRet false rr; ScUpWrite].
Proof.
  split; [reflexivity |].
  destruct (@devfreq_scale_order_and_rollback linux_headers true
              h_gear_fails eq_refl)
    as [(_ & Hs & _) | [(_ & (rr & Hs & _) & _) | (Hr & _)]].
  - vm_compute in Hs. discriminate Hs.
  - exists rr. exact Hs.
  - vm_compute in Hr. discriminate Hr.
Defined.

(** Scaling up with the clocks raised, the gear change refused and
    the vendor hook refusing the roll-back as well: the call returns
    the gear error and the clock is left at its high rate. *)
Lemma failed_scale_leaves_clock_raised :
  ~ @failed_scale_restores linux_headers true h_rollback_fails.
Proof.
  intros Hc. destruct Hc as [_ Hcl].
  - vm_compute. discriminate.
  - vm_compute in Hcl. discriminate Hcl.
Qed.

(** When only the gear change is refused the roll-back goes through
    and the clock is back at its low rate. *)
Example failed_scale_rolled_back :
  @failed_scale_restores linux_headers true h_gear_fails.
Proof. intros _. vm_compute. split; reflexivity. Qed.

End ScalingProps.

(** ** The clock-gating machine *)

Module GatingProps.
Import Gating.

(** *** Counting *)

Lemma sint32_id (z : Z) : - 2 ^ 31 <= z < 2 ^ 31 -> sint32 z = z.
Proof.
  intros Hz. unfold sint32.
  rewrite Z.mod_small by lia. lia.
Qed.

Lemma count_le_length (f : cpc -> bool) (l : list cpc) :
  (count f l <= length l)%nat.
Proof. induction l as [| p l IH]; simpl; [lia |]. destruct (f p); lia. Qed.

Lemma count_insert (f : cpc -> bool) (l : list cpc) (i : nat) (p p' : cpc) :
  l !! i = Some p ->
  (count f (<[i := p']> l) + (if f p then 1 else 0)
   = count f l + (if f p' then 1 else 0))%nat.
Proof.
  revert i. induction l as [| q l IH]; intros [| i] Hi; try discriminate.
  - injection Hi as ->. simpl. destruct (f p), (f p'); lia.
  - simpl in Hi. simpl. specialize (IH i Hi). destruct (f q); lia.
Qed.

Lemma count_zero (f : cpc -> bool) (l : list cpc) (i : nat) (p : cpc) :
  count f l = O -> l !! i = Some p -> f p = false.
Proof.
  revert i. induction l as [| q l IH]; intros [| i] Hc Hi; try discriminate.
  - injection Hi as ->. simpl in Hc. destruct (f p); [lia | reflexivity].
  - simpl in Hc, Hi. apply (IH i); [destruct (f q); lia | exact Hi].
Qed.

Lemma count_pos (f : cpc -> bool) (l : list cpc) (i : nat) (p : cpc) :
  l !! i = Some p -> f p = true -> (0 < count f l)%nat.
Proof.
  intros Hi Hp. destruct (count f l) eqn:Hc; [| lia].
  rewrite (count_zero f l i p Hc Hi) in Hp. discriminate.
Qed.

Lemma count_below_ext (f g : Z -> bool) (n : nat) :
  (forall t, 0 <= t < Z.of_nat n -> f t = g t) ->
  count_below f n = count_below g n.
Proof.
  induction n as [| k IH]; intros Hfg; simpl; [reflexivity |].
  rewrite IH by (intros; apply Hfg; lia).
  rewrite (Hfg (Z.of_nat k)) by lia. reflexivity.
Qed.

Lemma count_below_le (f : Z -> bool) (n : nat) : (count_below f n <= n)%nat.
Proof. induction n as [| k IH]; simpl; [lia |]. destruct (f _); lia. Qed.

(** Changing [f] at one point below [n]. *)
Lemma count_below_update (f g : Z -> bool) (n : nat) (t : Z) :
  0 <= t < Z.of_nat n ->
  (forall t', t' <> t -> 0 <= t' < Z.of_nat n -> g t' = f t') ->
  (count_below g n + (if f t then 1 else 0)
   = count_below f n + (if g t then 1 else 0))%nat.
Proof.
  induction n as [| k IH]; intros Ht Hfg; [lia |]. simpl.
  destruct (Z.eq_dec t (Z.of_nat k)) as [-> | Hne].
  - rewrite (count_below_ext g f k) by (intros; apply Hfg; lia).
    destruct (f (Z.of_nat k)), (g (Z.of_nat k)); lia.
  - rewrite (Hfg (Z.of_nat k)) by lia.
    specialize (IH ltac:(lia) ltac:(intros; apply Hfg; lia)).
    destruct (f (Z.of_nat k)); lia.
Qed.

Lemma count_below_zero (f : Z -> bool) (n : nat) (t : Z) :
  count_below f n = O -> 0 <= t < Z.of_nat n -> f t = false.
Proof.
  induction n as [| k IH]; intros Hc Ht; [lia |]. simpl in Hc.
  destruct (Z.eq_dec t (Z.of_nat k)) as [-> | Hne].
  - destruct (f (Z.of_nat k)); [lia | reflexivity].
  - apply IH; [destruct (f (Z.of_nat k)); lia | lia].
Qed.

Lemma count_below_all_false (f : Z -> bool) (n : nat) :
  (forall t, 0 <= t < Z.of_nat n -> f t = false) -> count_below f n = O.
Proof.
  induction n as [| k IH]; intros Hf; simpl; [reflexivity |].
  rewrite IH by (intros; apply Hf; lia). rewrite Hf by lia. reflexivity.
Qed.

(** *** What the modelled functions do to the adapter *)

(** Projections of field updates. *)
Ltac hred :=
  cbn [adapter worker wq clients
       cap_clk_gating cap_hibern8_with_clk_gating cap_clk_scaling
       cap_intr_aggr quirks nutrs lrb lrb_in_use outstanding_reqs
       outstanding_tasks ufshcd_state pm_op_in_progress force_reset
       uic_link_state_of active_uic_cmd uic_async_done dev_cmd_complete
       dev_cmd_done clk_gating clk_scaling_active_reqs doorbell trace
       state active_reqs is_suspended gate_work_pending
       ungate_work_pending
       set_lrb set_lrb_in_use set_outstanding_reqs set_outstanding_tasks
       set_ufshcd_state set_force_reset set_uic_link_state_of
       set_active_uic_cmd set_uic_async_done set_dev_cmd_complete
       set_dev_cmd_done set_clk_gating set_clk_scaling_active_reqs set_doorbell set_trace
       set_cg_state set_cg_active_reqs set_cg_is_suspended
       set_cg_gate_work_pending set_cg_ungate_work_pending emit
       fst snd].

Ltac hred_in H :=
  cbn [adapter worker wq clients
       cap_clk_gating cap_hibern8_with_clk_gating cap_clk_scaling
       cap_intr_aggr quirks nutrs lrb lrb_in_use outstanding_reqs
       outstanding_tasks ufshcd_state pm_op_in_progress force_reset
       uic_link_state_of active_uic_cmd uic_async_done dev_cmd_complete
       dev_cmd_done clk_gating clk_scaling_active_reqs doorbell trace
       state active_reqs is_suspended gate_work_pending
       ungate_work_pending
       set_lrb set_lrb_in_use set_outstanding_reqs set_outstanding_tasks
       set_ufshcd_state set_force_reset set_uic_link_state_of
       set_active_uic_cmd set_uic_async_done set_dev_cmd_complete
       set_dev_cmd_done set_clk_gating set_clk_scaling_active_reqs set_doorbell set_trace
       set_cg_state set_cg_active_reqs set_cg_is_suspended
       set_cg_gate_work_pending set_cg_ungate_work_pending emit
       fst snd] in H.

Section Effects.
Context `{UfsHeaders}.

Lemma same_slots_refl h : same_slots h h.
Proof. repeat split. Qed.
Lemma same_chan_refl h : same_chan h h.
Proof. repeat split. Qed.

Lemma ufshcd_hold_start_effect (async : bool) (h : ufs_hba) :
  let o := fst (ufshcd_hold_start async h) in
  let g := clk_gating h in
  let g' := clk_gating (snd (ufshcd_hold_start async h)) in
  let wait_or_fail (from_on : bool) :=
    if async
    then o = HoldReturn (- EAGAIN)
         /\ active_reqs g' = sint32 (active_reqs g - 1)
    else o = HoldFlushUngate from_on /\ active_reqs g' = active_reqs g in
  same_slots h (snd (ufshcd_hold_start async h))
  /\ same_chan h (snd (ufshcd_hold_start async h))
  /\ is_suspended g' = is_suspended g
  /\ match state g with
     | CLKS_ON =>
         state g' = CLKS_ON
         /\ gate_work_pending g' = gate_work_pending g
         /\ ungate_work_pending g' = ungate_work_pending g
         /\ (o = HoldReturn 0 /\ active_reqs g' = active_reqs g
             \/ wait_or_fail true)
     | REQ_CLKS_OFF =>
         gate_work_pending g' = false
         /\ if gate_work_pending g
            then state g' = CLKS_ON
                 /\ ungate_work_pending g' = ungate_work_pending g
                 /\ o = HoldReturn 0 /\ active_reqs g' = active_reqs g
            else state g' = REQ_CLKS_ON
                 /\ ungate_work_pending g' = true
                 /\ wait_or_fail false
     | CLKS_OFF =>
         state g' = REQ_CLKS_ON
         /\ gate_work_pending g' = gate_work_pending g
         /\ ungate_work_pending g' = true
         /\ wait_or_fail false
     | REQ_CLKS_ON =>
         state g' = REQ_CLKS_ON
         /\ gate_work_pending g' = gate_work_pending g
         /\ ungate_work_pending g' = ungate_work_pending g
         /\ wait_or_fail false
     end.
Proof.
  cbv zeta.
  unfold ufshcd_hold_start, hold_case_clks_off, hold_case_req_clks_on,
    cancel_delayed_work_gate, queue_work_ungate, cg_dec_active_reqs,
    same_slots, same_chan.
  destruct (state (clk_gating h)) eqn:Hst;
    destruct async;
    repeat match goal with
           | |- context [if ?b then _ else _] => destruct b eqn:?
           end;
    cbn; rewrite ?Hst; auto 20.
Qed.

Lemma ufshcd_hold_gtrans (async : bool) (h : ufs_hba) :
  cap_clk_gating h = true ->
  0 <= active_reqs (clk_gating h) < 2 ^ 31 - 1 ->
  EAGAIN <> 0 ->
  let o := fst (ufshcd_hold async h) in
  let h' := snd (ufshcd_hold async h) in
  same_slots h h' /\ same_chan h h'
  /\ ((o = HoldReturn 0 /\ state (clk_gating h') = CLKS_ON
       /\ gtrans (clk_gating h) (clk_gating h') 1)
      \/ (o = HoldReturn (- EAGAIN) /\ async = true
          /\ gtrans (clk_gating h) (clk_gating h') 0)
      \/ (o = HoldFlushUngate true /\ async = false
          /\ state (clk_gating h') = CLKS_ON
          /\ gtrans (clk_gating h) (clk_gating h') 1)
      \/ (o = HoldFlushUngate false /\ async = false
          /\ state (clk_gating h') = REQ_CLKS_ON
          /\ gtrans (clk_gating h) (clk_gating h') 1)).
Proof.
  intros Hcap Ha Hne. cbv zeta.
  unfold ufshcd_hold, ufshcd_is_clkgating_allowed. rewrite Hcap.
  cbn [negb].
  pose proof (ufshcd_hold_start_effect async (cg_inc_active_reqs h))
    as Heff. cbv zeta in Heff.
  destruct (ufshcd_hold_start async (cg_inc_active_reqs h)) as [o h'].
  unfold cg_inc_active_reqs, same_slots, same_chan in *.
  hred_in Heff. hred.
  rewrite (sint32_id (active_reqs (clk_gating h) + 1)) in Heff by lia.
  replace (active_reqs (clk_gating h) + 1 - 1)
    with (active_reqs (clk_gating h)) in Heff by lia.
  rewrite (sint32_id (active_reqs (clk_gating h))) in Heff by lia.
  destruct Heff as (Hs & Hc & Hsu & Hg).
  split; [exact Hs |]. split; [exact Hc |].
  destruct (state (clk_gating h)) eqn:Hst.
  - (* CLKS_OFF *)
    destruct Hg as (Es & Eg & Eu & Hw).
    destruct async; destruct Hw as [-> Ea].
    + right; left. split_and!; auto.
      replace 0 with (0 + 0) at 3 by lia.
      apply (gt_request _ _ 0); [auto | auto |].
      repeat split; auto; lia.
    + right; right; right. split_and!; auto.
      apply (gt_request _ _ 1); [auto | auto |].
      repeat split; auto.
  - (* CLKS_ON *)
    destruct Hg as (Es & Eg & Eu & [[-> Ea] | Hw]).
    + left. split_and!; auto.
      apply gt_take; [auto |]. rewrite Hst. repeat split; auto.
    + destruct async; destruct Hw as [-> Ea].
      * right; left. split_and!; auto.
        apply gt_same. rewrite Hst. repeat split; auto.
      * right; right; left. split_and!; auto.
        apply gt_take; [auto |]. rewrite Hst. repeat split; auto.
  - (* REQ_CLKS_OFF *)
    destruct Hg as (Eg & Hg).
    destruct (gate_work_pending (clk_gating h)) eqn:Hgp.
    + destruct Hg as (Es & Eu & -> & Ea).
      left. split_and!; auto.
      apply gt_cancel; auto. repeat split; auto.
    + destruct Hg as (Es & Eu & Hw).
      destruct async; destruct Hw as [-> Ea].
      * right; left. split_and!; auto.
        replace 0 with (0 + 0) at 4 by lia.
        apply (gt_request _ _ 0); [auto | auto |].
        rewrite Hgp. repeat split; auto; lia.
      * right; right; right. split_and!; auto.
        apply (gt_request _ _ 1); [auto | auto |].
        rewrite Hgp. repeat split; auto.
  - (* REQ_CLKS_ON *)
    destruct Hg as (Es & Eg & Eu & Hw).
    destruct async; destruct Hw as [-> Ea].
    + right; left. split_and!; auto.
      apply gt_same. rewrite Hst. repeat split; auto.
    + right; right; right. split_and!; auto.
      apply gt_take; [auto |]. rewrite Hst. repeat split; auto.
Qed.

Lemma gtrans_refl (g : ufs_clk_gating) : gtrans g g 0.
Proof. apply gt_same. repeat split. Qed.

Lemma gtrans_same (h h' : ufs_hba) :
  clk_gating h' = clk_gating h -> gtrans (clk_gating h) (clk_gating h') 0.
Proof. intros ->. apply gtrans_refl. Qed.

Lemma ufshcd_hold_resume_effect (from_on flush_result : bool)
    (h : ufs_hba) :
  state (clk_gating h) = CLKS_ON
  \/ (state (clk_gating h) = REQ_CLKS_ON /\ from_on = false) ->
  let o := fst (ufshcd_hold_resume from_on flush_result false h) in
  let h' := snd (ufshcd_hold_resume from_on flush_result false h) in
  same_slots h h' /\ same_chan h h'
  /\ gtrans (clk_gating h) (clk_gating h') 0
  /\ ((o = HoldReturn 0 /\ state (clk_gating h') = CLKS_ON)
      \/ (o = HoldFlushUngate true /\ state (clk_gating h') = CLKS_ON)
      \/ (o = HoldFlushUngate false
          /\ state (clk_gating h') = REQ_CLKS_ON)).
Proof.
  intros Hst. cbv zeta. unfold ufshcd_hold_resume.
  destruct (from_on && is_suspended (clk_gating h) && negb flush_result)
    eqn:Hearly.
  - cbn [fst snd]. split; [apply same_slots_refl |].
    split; [apply same_chan_refl |]. split; [apply gtrans_refl |].
    left. split; [reflexivity |].
    destruct Hst as [? | [_ ->]]; [assumption | discriminate].
  - pose proof (ufshcd_hold_start_effect false h) as Heff.
    cbv zeta in Heff.
    destruct (ufshcd_hold_start false h) as [o h']. cbn [fst snd] in *.
    destruct Heff as (Hs & Hc & Hsu & Hg).
    split; [exact Hs |]. split; [exact Hc |].
    destruct Hst as [Hst | [Hst _]]; rewrite Hst in Hg.
    + destruct Hg as (Es & Eg & Eu & [[-> Ea] | [-> Ea]]).
      * split; [| auto]. apply gt_same. rewrite Hst. repeat split; auto.
      * split; [| auto]. apply gt_same. rewrite Hst. repeat split; auto.
    + destruct Hg as (Es & Eg & Eu & [-> Ea]).
      split; [| auto]. apply gt_same. rewrite Hst. repeat split; auto.
Qed.

Lemma ufshcd_release_gtrans (h : ufs_hba) :
  cap_clk_gating h = true ->
  state (clk_gating h) = CLKS_ON ->
  1 <= active_reqs (clk_gating h) < 2 ^ 31 ->
  same_slots h (ufshcd_release h) /\ same_chan h (ufshcd_release h)
  /\ gtrans (clk_gating h) (clk_gating (ufshcd_release h)) (- 1).
Proof.
  intros Hcap Hst Ha.
  unfold ufshcd_release, __ufshcd_release, ufshcd_is_clkgating_allowed,
    cg_dec_active_reqs, queue_delayed_work_gate, same_slots, same_chan.
  rewrite Hcap. cbn [negb]. hred.
  rewrite (sint32_id (active_reqs (clk_gating h) - 1)) by lia.
  match goal with
  | |- context [if ?b then _ else _] => destruct b eqn:Hcond
  end; hred.
  - split_and!; auto.
    apply (gt_drop _ _ 1); [lia | assumption |].
    rewrite Hst. repeat split; auto.
  - split_and!; auto.
    apply orb_false_iff in Hcond as [Hcond _].
    apply orb_false_iff in Hcond as [Hcond _].
    apply orb_false_iff in Hcond as [Hcond _].
    apply orb_false_iff in Hcond as [Hcond _].
    apply orb_false_iff in Hcond as [Hcond _].
    apply orb_false_iff in Hcond as [Hcond _].
    apply negb_false_iff, Z.eqb_eq in Hcond.
    apply (gt_idle _ _ 1); [lia | assumption | lia |].
    repeat split; auto.
Qed.

End Effects.

(** *** Clock references and the work queue *)

Lemma wq_sync_cases (h h' : ufs_hba) (q : list gating_work) :
  wq_sync h h' q =
    let g0 := gate_work_pending (clk_gating h) in
    let g1 := gate_work_pending (clk_gating h') in
    let u0 := ungate_work_pending (clk_gating h) in
    let u1 := ungate_work_pending (clk_gating h') in
    let q := if g0 && negb g1 then wq_remove GATE_WORK q else q in
    let q := if u0 && negb u1 then wq_remove UNGATE_WORK q else q in
    let q := if negb u0 && u1 then q ++ [UNGATE_WORK] else q in
    if negb g0 && g1 then q ++ [GATE_WORK] else q.
Proof. reflexivity. Qed.

Lemma gating_step (m m' : machine) (d : Z) :
  inv_gating m ->
  worker m' = worker m ->
  wq m' = wq_sync (adapter m) (adapter m') (wq m) ->
  gtrans (clk_gating (adapter m)) (clk_gating (adapter m')) d ->
  Z.of_nat (count counted (clients m'))
  + Z.of_nat (inflight (adapter m'))
  = Z.of_nat (count counted (clients m))
    + Z.of_nat (inflight (adapter m)) + d ->
  (state (clk_gating (adapter m')) <> CLKS_ON ->
   inflight (adapter m) = O ->
   (forall i p, clients m !! i = Some p -> counted p = true ->
                p = CWait false) ->
   inflight (adapter m') = O
   /\ forall i p, clients m' !! i = Some p -> counted p = true ->
                  p = CWait false) ->
  inv_gating m'.
Proof.
  intros [Hrefs Hon Hoff Hwq Hcom Hup Hrun Hfirst Hog] Hw Hq Ht Hacc Hkeep.
  rewrite wq_sync_cases in Hq. cbv zeta in Hq.
  destruct m as [h w q cl], m' as [h' w' q' cl'].
  cbn [adapter worker wq clients] in *. subst w'.
  inversion Ht as [Hc | Hs Hc | Hs Hg Hc | d' Hd Hs Hc | k Hk Hs Hc
                   | k Hk Hs Ha Hc];
    destruct Hc as (Es & Ea & Esu & Egp & Eup);
    try subst d; try subst d'.
  all: rewrite Egp, Eup in Hq; rewrite Es in Hkeep.
  all: split; cbn [adapter worker wq clients]; rewrite ?Es, ?Ea, ?Egp, ?Eup.
  all: clear Ht Es Ea Esu Egp Eup.
  all: remember (state (clk_gating h)) as s eqn:Hs_.
  all: remember (active_reqs (clk_gating h)) as a eqn:Ha_.
  all: remember (gate_work_pending (clk_gating h)) as gp eqn:Hgp_.
  all: remember (ungate_work_pending (clk_gating h)) as up eqn:Hup_.
  all: clear Hs_ Ha_ Hgp_ Hup_.
  all: rewrite ?andb_negb_r, ?andb_negb_l, ?andb_false_r, ?andb_true_r in Hq;
    cbn [andb negb] in Hq.
  all: try lia.
  all: try (subst q'; assumption).
  all: try (intros; discriminate).
  all: try (intros [? | ?]; discriminate).
  all: try (intros Hne; congruence).
  (* nothing *)
  - intros Hne. destruct (Hon Hne) as [? Hall]. apply Hkeep; auto.
  (* a reference taken *)
  - intros Hne. destruct (Hon Hne) as [? Hall]. apply Hkeep; auto.
  - intros [-> | ->]; destruct Hs; discriminate.
  (* the gate work cancelled *)
  - subst gp q'. destruct Hwq as [-> | (-> & _ & ->)];
      [destruct up |]; cbn; auto.
  - intros Hgw Hu. destruct (Hrun Hgw Hu) as [? _]. congruence.
  - subst gp q'. destruct Hwq as [-> | (-> & _ & ->)];
      [destruct up |]; cbn; discriminate.
  (* the clocks requested *)
  - intros Hne. assert (a = 0) as -> by (apply Hoff; tauto).
    apply Hkeep; [discriminate | lia |].
    intros i p Hi Hp. exfalso.
    pose proof (count_pos counted cl i p Hi Hp). lia.
  - destruct up; cbn [negb] in Hq; subst q'.
    + destruct Hwq as [-> | (-> & -> & _)]; auto.
    + rewrite app_nil_r in Hwq. destruct Hwq as [-> | (_ & _ & ?)];
        [| discriminate]. destruct gp; cbn; auto.
  - intros Hgw _. split; [reflexivity |].
    destruct gp; [| reflexivity]. exfalso.
    destruct Hs as [-> | [_ ?]]; [| discriminate].
    rewrite (Hog eq_refl eq_refl) in Hgw. discriminate.
  - intros Hq'. split; [reflexivity |].
    destruct up; cbn [negb] in Hq; subst q'.
    + destruct (Hfirst Hq') as [_ ?]. assumption.
    + rewrite app_nil_r in Hwq. destruct Hwq as [-> | (_ & _ & ?)];
        [| discriminate].
      destruct gp; cbn in Hq'; [| discriminate].
      destruct Hs as [-> | [_ ?]]; [auto | discriminate].
  (* references given back *)
  - intros Hgw Hu. destruct (Hrun Hgw Hu) as [? _]. congruence.
  - intros Hq'. subst q'. destruct (Hfirst Hq') as [? _]. congruence.
  (* the last references given back *)
  - intros _.
    assert (count counted cl' = O /\ inflight h' = O) as [Hc0 Hi0] by lia.
    split; [assumption |]. intros i p Hi Hp.
    rewrite (count_zero counted cl' i p Hc0 Hi) in Hp. discriminate.
  - destruct gp; cbn [negb] in Hq; subst q'.
    + destruct Hwq as [-> | (-> & _ & ->)]; auto.
    + cbn in Hwq. destruct Hwq as [-> | (_ & ? & _)]; [| discriminate].
      destruct up; cbn; auto.
  - intros Hgw Hu. destruct (Hrun Hgw Hu) as [? _]. congruence.
  - intros Hq'. destruct gp; cbn [negb] in Hq; subst q'.
    + destruct (Hfirst Hq') as [? _]. congruence.
    + cbn in Hwq. destruct Hwq as [-> | (_ & ? & _)]; [| discriminate].
      destruct up; cbn in Hq'; discriminate.
Qed.

(** *** Slots *)

Lemma slot_has_cmd_same (h h' : ufs_hba) (t : Z) :
  lrb h' = lrb h -> slot_has_cmd h' t = slot_has_cmd h t.
Proof. unfold slot_has_cmd, lrb_at. intros ->. reflexivity. Qed.

Lemma inflight_same (h h' : ufs_hba) :
  nutrs h' = nutrs h -> lrb h' = lrb h ->
  outstanding_reqs h' = outstanding_reqs h ->
  inflight h' = inflight h.
Proof.
  intros Hn Hl Ho. unfold inflight. rewrite Hn.
  apply count_below_ext. intros t _. unfold slot_busy.
  rewrite Ho, (slot_has_cmd_same h h' t Hl). reflexivity.
Qed.

Lemma inflight_same_slots (h h' : ufs_hba) :
  same_slots h h' -> inflight h' = inflight h.
Proof. intros (_ & ? & ? & _ & ? & _). by apply inflight_same. Qed.

Lemma slots_frame (m m' : machine) :
  inv_slots m -> same_slots (adapter m) (adapter m') ->
  clients m' = clients m -> inv_slots m'.
Proof.
  intros [Hout Hdoor Hown Huniq Hfree Hb Hu Htry]
         (_ & Hn & Hl & Hiu & Ho & Hd) Hcl.
  split; rewrite ?Hcl, ?Hn, ?Hiu, ?Ho, ?Hd; auto.
  - intros t Ht. rewrite (slot_has_cmd_same _ _ t Hl). auto.
  - intros i p t Hi Hp. rewrite (slot_has_cmd_same _ _ t Hl). eauto.
  - intros i p t Hi Hp. rewrite (slot_has_cmd_same _ _ t Hl). eauto.
Qed.

(** A step of client [i] that leaves the slot words alone and does not
    change what the client has to do with its slot. *)
Lemma slots_neutral (m m' : machine) (i : nat) (p p' : cpc) :
  inv_slots m -> same_slots (adapter m) (adapter m') ->
  clients m !! i = Some p ->
  clients m' = <[i := p']> (clients m) ->
  owner p' = owner p ->
  binds p' = None \/ binds p' = binds p ->
  unbinds p' = None \/ unbinds p' = unbinds p ->
  issued p' = issued p ->
  (forall t, trying p' = Some t -> 0 <= t < nutrs (adapter m)) ->
  inv_slots m'.
Proof.
  intros [Hout Hdoor Hown Huniq Hfree Hb Hu Htry]
         (_ & Hn & Hl & Hiu & Ho & Hd) Hi Hcl Eo Eb Eu Ei Et.
  assert (forall j q, clients m' !! j = Some q ->
            (j = i /\ q = p') \/ (j <> i /\ clients m !! j = Some q))
    as Hlook.
  { intros j q. rewrite Hcl.
    intros [(-> & -> & _) | [? ?]]%list_lookup_insert_Some; auto. }
  assert (i < length (clients m))%nat as Hlen by (by eapply lookup_lt_Some).
  split; rewrite ?Hn, ?Hiu, ?Ho, ?Hd; auto.
  - intros t Ht. rewrite (slot_has_cmd_same _ _ t Hl).
    destruct (Hout t Ht) as (? & ? & [? | (j & q & Hj & Hq)]);
      (split; [assumption | split; [assumption |]]); [by left | right].
    destruct (decide (j = i)) as [-> | Hne].
    + exists i, p'. rewrite Hcl, list_lookup_insert_eq by assumption.
      split; [reflexivity |]. congruence.
    + exists j, q. rewrite Hcl, list_lookup_insert_ne by auto. auto.
  - intros j q t [[-> ->] | [_ Hj]]%Hlook Hq; [rewrite Eo in Hq |]; eauto.
  - intros j k q r t Hj Hk Hq Hr. apply Hlook in Hj, Hk.
    destruct Hj as [[-> ->] | [Hnj Hj]], Hk as [[-> ->] | [Hnk Hk]];
      rewrite ?Eo in *.
    + reflexivity.
    + exfalso. apply Hnk. symmetry. by apply (Huniq i k p r t).
    + exfalso. apply Hnj. by apply (Huniq j i q p t).
    + by apply (Huniq j k q r t).
  - intros j q t [[-> ->] | [_ Hj]]%Hlook Hq Hq'; [| eauto].
    rewrite Eo in Hq. rewrite Ei in Hq'. eauto.
  - intros j q t [[-> ->] | [_ Hj]]%Hlook Hq;
      rewrite (slot_has_cmd_same _ _ t Hl); [| eauto].
    destruct Eb as [Eb | Eb]; rewrite Eb in Hq; [discriminate | eauto].
  - intros j q t [[-> ->] | [_ Hj]]%Hlook Hq;
      rewrite (slot_has_cmd_same _ _ t Hl); [| eauto].
    destruct Eu as [Eu | Eu]; rewrite Eu in Hq; [discriminate | eauto].
  - intros j q t [[-> ->] | [_ Hj]]%Hlook Hq; eauto.
Qed.

(** The slot invariants after a step of client [i], from what the
    step does to the words and to the slots of the others. *)
Lemma slots_update (m m' : machine) (i : nat) (p p' : cpc) :
  inv_slots m ->
  clients m !! i = Some p ->
  clients m' = <[i := p']> (clients m) ->
  nutrs (adapter m') = nutrs (adapter m) ->
  (forall t, Z.testbit (outstanding_reqs (adapter m')) t = true ->
     0 <= t < nutrs (adapter m)
     /\ Z.testbit (lrb_in_use (adapter m')) t = true
     /\ (slot_has_cmd (adapter m') t = true
         \/ issued p' = Some t
         \/ exists j q, j <> i /\ clients m !! j = Some q
                        /\ issued q = Some t)) ->
  (forall t, Z.testbit (doorbell (adapter m')) t = true ->
     Z.testbit (outstanding_reqs (adapter m')) t = true) ->
  (forall t, owner p' = Some t ->
     0 <= t < nutrs (adapter m)
     /\ Z.testbit (lrb_in_use (adapter m')) t = true
     /\ (issued p' = None ->
         Z.testbit (outstanding_reqs (adapter m')) t = false)
     /\ forall j q, j <> i -> clients m !! j = Some q ->
                    owner q <> Some t) ->
  (forall j q t, j <> i -> clients m !! j = Some q -> owner q = Some t ->
     Z.testbit (lrb_in_use (adapter m')) t = true
     /\ (issued q = None ->
         Z.testbit (outstanding_reqs (adapter m')) t = false)
     /\ slot_has_cmd (adapter m') t = slot_has_cmd (adapter m) t) ->
  (forall t, binds p' = Some t -> slot_has_cmd (adapter m') t = true) ->
  (forall t, unbinds p' = Some t -> slot_has_cmd (adapter m') t = false) ->
  (forall t, trying p' = Some t -> 0 <= t < nutrs (adapter m)) ->
  inv_slots m'.
Proof.
  intros [Hout Hdoor Hown Huniq Hfree Hb Hu Htry]
         Hi Hcl Hn P1 P2 P3 P4 P5 P6 P7.
  assert (forall j q, clients m' !! j = Some q ->
            (j = i /\ q = p') \/ (j <> i /\ clients m !! j = Some q))
    as Hlook.
  { intros j q. rewrite Hcl.
    intros [(-> & -> & _) | [? ?]]%list_lookup_insert_Some; auto. }
  assert (i < length (clients m))%nat as Hlen by (by eapply lookup_lt_Some).
  assert (forall t, binds p' = Some t -> owner p' = Some t) as Hbo
      by (intros t; destruct p'; cbn; repeat case_match; congruence).
  assert (forall q t, binds q = Some t -> owner q = Some t) as Hbo'
      by (intros q t; destruct q; cbn; repeat case_match; congruence).
  assert (forall q t, unbinds q = Some t -> owner q = Some t) as Huo'
      by (intros q t; destruct q; cbn; repeat case_match; congruence).
  split; rewrite ?Hn.
  - intros t Ht. destruct (P1 t Ht) as (? & ? & [? | [? | (j & q & ? & ? & ?)]]);
      (split; [assumption | split; [assumption |]]);
      [by left | right | right].
    + exists i, p'. rewrite Hcl, list_lookup_insert_eq by assumption. auto.
    + exists j, q. rewrite Hcl, list_lookup_insert_ne by auto. auto.
  - exact P2.
  - intros j q t [[-> ->] | [Hne Hj]]%Hlook Hq.
    + destruct (P3 t Hq) as (? & ? & _). auto.
    + destruct (P4 j q t Hne Hj Hq) as (? & _).
      destruct (Hown j q t Hj Hq) as (? & _). auto.
  - intros j k q r t Hj Hk Hq Hr. apply Hlook in Hj, Hk.
    destruct Hj as [[-> ->] | [Hnj Hj]], Hk as [[-> ->] | [Hnk Hk]].
    + reflexivity.
    + exfalso. destruct (P3 t Hq) as (_ & _ & _ & Hx). by apply (Hx k r).
    + exfalso. destruct (P3 t Hr) as (_ & _ & _ & Hx). by apply (Hx j q).
    + by apply (Huniq j k q r t).
  - intros j q t [[-> ->] | [Hne Hj]]%Hlook Hq Hq'.
    + destruct (P3 t Hq) as (_ & _ & ? & _). auto.
    + destruct (P4 j q t Hne Hj Hq) as (_ & ? & _). auto.
  - intros j q t [[-> ->] | [Hne Hj]]%Hlook Hq; [auto |].
    destruct (P4 j q t Hne Hj (Hbo' q t Hq)) as (_ & _ & ->). eauto.
  - intros j q t [[-> ->] | [Hne Hj]]%Hlook Hq; [auto |].
    destruct (P4 j q t Hne Hj (Huo' q t Hq)) as (_ & _ & ->). eauto.
  - intros j q t [[-> ->] | [Hne Hj]]%Hlook Hq; eauto.
Qed.

(** *** Task management and the link control channel *)

Lemma chan_update (m m' : machine) (i : nat) (p p' : cpc) :
  inv_chan m ->
  clients m !! i = Some p ->
  clients m' = <[i := p']> (clients m) ->
  worker m' = worker m ->
  (forall s, Z.testbit (outstanding_tasks (adapter m')) s = true ->
     tasked p' = Some s
     \/ (Z.testbit (outstanding_tasks (adapter m)) s = true
         /\ tasked p <> Some s)) ->
  (active_uic_cmd (adapter m') <> None ->
   uic_owner p' = true
   \/ (active_uic_cmd (adapter m) <> None /\ uic_owner p = false)) ->
  (uic_async_done (adapter m') = true ->
   pwr_owner p' = true
   \/ (uic_async_done (adapter m) = true /\ pwr_owner p = false)) ->
  inv_chan m'.
Proof.
  intros [Ht Hu Ha] Hi Hcl Hw P1 P2 P3.
  assert (i < length (clients m))%nat as Hlen by (by eapply lookup_lt_Some).
  assert (forall (f : cpc -> Prop),
            f p' -> exists j q, clients m' !! j = Some q /\ f q) as Hme.
  { intros f Hf. exists i, p'.
    rewrite Hcl, list_lookup_insert_eq by assumption. auto. }
  assert (forall (f : cpc -> Prop) j q,
            clients m !! j = Some q -> f q -> ~ f p ->
            exists j q, clients m' !! j = Some q /\ f q) as Hother.
  { intros f j q Hj Hq Hp. exists j, q.
    rewrite Hcl, list_lookup_insert_ne; [auto |].
    intros <-. rewrite Hi in Hj. injection Hj as <-. contradiction. }
  split; rewrite ?Hw.
  - intros s Hs. destruct (P1 s Hs) as [? | [Hs' Hne]].
    + by apply (Hme (fun q => tasked q = Some s)).
    + destruct (Ht s Hs') as (j & q & Hj & Hq).
      by apply (Hother (fun q => tasked q = Some s) j q).
  - intros Hc. destruct (P2 Hc) as [? | [Hc' Hne]].
    + left. by apply (Hme (fun q => uic_owner q = true)).
    + destruct (Hu Hc') as [(j & q & Hj & Hq) | ?]; [left | by right].
      apply (Hother (fun q => uic_owner q = true) j q); auto.
      rewrite Hne. discriminate.
  - intros Hc. destruct (P3 Hc) as [? | [Hc' Hne]].
    + left. by apply (Hme (fun q => pwr_owner q = true)).
    + destruct (Ha Hc') as [(j & q & Hj & Hq) | ?]; [left | by right].
      apply (Hother (fun q => pwr_owner q = true) j q); auto.
      rewrite Hne. discriminate.
Qed.

Lemma chan_worker (m m' : machine) :
  inv_chan m ->
  clients m' = clients m ->
  outstanding_tasks (adapter m') = outstanding_tasks (adapter m) ->
  (active_uic_cmd (adapter m') <> None ->
   worker_uic (worker m') = true
   \/ (active_uic_cmd (adapter m) <> None
       /\ (worker_uic (worker m) = true ->
           worker_uic (worker m') = true))) ->
  (uic_async_done (adapter m') = true ->
   worker_uic (worker m') = true
   \/ (uic_async_done (adapter m) = true
       /\ (worker_uic (worker m) = true ->
           worker_uic (worker m') = true))) ->
  inv_chan m'.
Proof.
  intros [Ht Hu Ha] Hcl Hts P2 P3.
  split; rewrite ?Hcl, ?Hts; auto.
  - intros Hc. destruct (P2 Hc) as [? | [Hc' Hw]]; [by right |].
    destruct (Hu Hc') as [? | ?]; auto.
  - intros Hc. destruct (P3 Hc) as [? | [Hc' Hw]]; [by right |].
    destruct (Ha Hc') as [? | ?]; auto.
Qed.

Lemma chan_neutral (m m' : machine) (i : nat) (p p' : cpc) :
  inv_chan m -> same_chan (adapter m) (adapter m') ->
  clients m !! i = Some p ->
  clients m' = <[i := p']> (clients m) ->
  worker m' = worker m ->
  tasked p' = tasked p -> uic_owner p' = uic_owner p ->
  pwr_owner p' = pwr_owner p ->
  inv_chan m'.
Proof.
  intros Hinv (Et & Eu & Ea) Hi Hcl Hw Rt Ru Rp.
  apply (chan_update m m' i p p'); auto; rewrite ?Et, ?Eu, ?Ea.
  - intros s Hs. destruct (decide (tasked p = Some s)) as [Hp | Hp];
      [left; congruence | right; auto].
  - intros Hc. rewrite Ru. destruct (uic_owner p); auto.
  - intros Hc. rewrite Rp. destruct (pwr_owner p); auto.
Qed.

(** *** One step of a client *)

Lemma waits_ungate_spec (p : cpc) :
  waits_ungate p = true -> p = CWait false.
Proof.
  destruct p; cbn; try discriminate.
  destruct from_clks_on; [discriminate | reflexivity].
Qed.

Lemma client_inv (m : machine) (i : nat) (p p' : cpc) (h' : ufs_hba)
    (d : Z) :
  let m' := {| adapter := h'; worker := worker m;
               wq := wq_sync (adapter m) h' (wq m);
               clients := <[i := p']> (clients m) |} in
  inv m ->
  clients m !! i = Some p ->
  cap_clk_gating h' = cap_clk_gating (adapter m) ->
  nutrs h' = nutrs (adapter m) ->
  length (lrb h') = length (lrb (adapter m)) ->
  gtrans (clk_gating (adapter m)) (clk_gating h') d ->
  Z.of_nat (if counted p' then 1 else 0) + Z.of_nat (inflight h')
  = Z.of_nat (if counted p then 1 else 0)
    + Z.of_nat (inflight (adapter m)) + d ->
  (counted p' = true -> waits_ungate p' = false ->
   state (clk_gating h') = CLKS_ON) ->
  (inflight h' <= inflight (adapter m))%nat
  \/ state (clk_gating h') = CLKS_ON ->
  inv_slots m' -> inv_chan m' ->
  inv m'.
Proof.
  intros m' [[Hcap Hnu Hlrb Hbd] Hg Hs Hc] Hi Ecap En El Ht Hacc L1 L2
         Hs' Hc'.
  split; [| | exact Hs' | exact Hc'].
  - split; unfold m'; cbn [adapter clients];
      rewrite ?length_insert, ?Ecap, ?En, ?El; assumption.
  - apply (gating_step m m' d); auto; unfold m'; cbn [adapter clients].
    + pose proof (count_insert counted (clients m) i p p' Hi).
      destruct (counted p), (counted p'); lia.
    + intros Hne Hz Hall. split; [destruct L2; [lia | contradiction] |].
      intros j q [(-> & -> & _) | [? ?]]%list_lookup_insert_Some Hq;
        [| eauto].
      destruct (waits_ungate q) eqn:Hwq; [by apply waits_ungate_spec |].
      exfalso. apply Hne. auto.
Qed.

Lemma inflight_le (h : ufs_hba) :
  0 <= nutrs h -> Z.of_nat (inflight h) <= nutrs h.
Proof.
  intros Hn. unfold inflight.
  pose proof (count_below_le (slot_busy h) (Z.to_nat (nutrs h))). lia.
Qed.

Lemma active_bound (m : machine) :
  inv m ->
  0 <= active_reqs (clk_gating (adapter m))
  <= Z.of_nat (length (clients m)) + 32.
Proof.
  intros [[_ Hnu _ _] [Hrefs _ _ _ _ _ _ _ _] _ _].
  pose proof (count_le_length counted (clients m)).
  pose proof (inflight_le (adapter m) ltac:(lia)). lia.
Qed.

Lemma active_range (m : machine) :
  inv m -> 0 <= active_reqs (clk_gating (adapter m)) < 2 ^ 31 - 1.
Proof.
  intros Hinv. pose proof (active_bound m Hinv).
  destruct Hinv as [[_ _ _ Hbd] _ _ _]. lia.
Qed.

Lemma holder_on (m : machine) (i : nat) (p : cpc) :
  inv m -> clients m !! i = Some p ->
  counted p = true -> waits_ungate p = false ->
  state (clk_gating (adapter m)) = CLKS_ON.
Proof.
  intros [_ [_ Hon _ _ _ _ _ _ _] _ _] Hi Hc Hw.
  destruct (decide (state (clk_gating (adapter m)) = CLKS_ON)) as [? | Hne];
    [assumption |].
  destruct (Hon Hne) as [_ Hall]. rewrite (Hall i p Hi Hc) in Hw.
  discriminate.
Qed.

Lemma counted_active (m : machine) (i : nat) (p : cpc) :
  inv m -> clients m !! i = Some p -> counted p = true ->
  1 <= active_reqs (clk_gating (adapter m)).
Proof.
  intros [_ [Hrefs _ _ _ _ _ _ _ _] _ _] Hi Hc.
  pose proof (count_pos counted (clients m) i p Hi Hc). lia.
Qed.

Lemma waiter_state (m : machine) (i : nat) (p : cpc) :
  inv m -> clients m !! i = Some p -> counted p = true ->
  state (clk_gating (adapter m)) = CLKS_ON
  \/ (state (clk_gating (adapter m)) = REQ_CLKS_ON /\ p = CWait false).
Proof.
  intros Hinv Hi Hc.
  pose proof (counted_active m i p Hinv Hi Hc) as Ha.
  destruct Hinv as [_ [_ Hon Hoff _ _ _ _ _ _] _ _].
  destruct (state (clk_gating (adapter m))) eqn:Hst; auto.
  - rewrite Hoff in Ha by auto. lia.
  - rewrite Hoff in Ha by auto. lia.
  - right. split; [reflexivity |].
    destruct (Hon ltac:(discriminate)) as [_ Hall]. eauto.
Qed.

Lemma client_neutral (m : machine) (i : nat) (p p' : cpc) (h' : ufs_hba)
    (d : Z) :
  inv m ->
  clients m !! i = Some p ->
  same_slots (adapter m) h' -> same_chan (adapter m) h' ->
  gtrans (clk_gating (adapter m)) (clk_gating h') d ->
  Z.of_nat (if counted p' then 1 else 0)
  = Z.of_nat (if counted p then 1 else 0) + d ->
  (counted p' = true -> waits_ungate p' = false ->
   state (clk_gating h') = CLKS_ON) ->
  owner p' = owner p -> binds p' = binds p -> unbinds p' = unbinds p ->
  issued p' = issued p ->
  (forall t, trying p' = Some t -> 0 <= t < nutrs (adapter m)) ->
  tasked p' = tasked p -> uic_owner p' = uic_owner p ->
  pwr_owner p' = pwr_owner p ->
  inv {| adapter := h'; worker := worker m;
         wq := wq_sync (adapter m) h' (wq m);
         clients := <[i := p']> (clients m) |}.
Proof.
  intros Hinv Hi Hs Hc Ht Hacc L1 Ro Rb Ru Ri Rt Rk Rc Rp.
  pose proof (inflight_same_slots _ _ Hs) as Hfl.
  pose proof Hs as (Ecap & En & El & _).
  apply (client_inv m i p p' h' d); auto.
  - by rewrite El.
  - lia.
  - left. lia.
  - apply (slots_neutral m _ i p p'); auto. by destruct Hinv.
  - apply (chan_neutral m _ i p p'); auto. by destruct Hinv.
Qed.

(** *** Single bits *)

Lemma testbit_one (k : Z) : Z.testbit 1 k = bool_decide (k = 0).
Proof.
  destruct (Z.lt_trichotomy k 0) as [? | [-> | ?]].
  - rewrite Z.testbit_neg_r by lia. by rewrite bool_decide_eq_false_2 by lia.
  - reflexivity.
  - change 1 with (2 ^ 0). rewrite Z.pow2_bits_false by lia.
    by rewrite bool_decide_eq_false_2 by lia.
Qed.

Lemma testbit_shiftl_one (n m : Z) :
  Z.testbit (Z.shiftl 1 n) m = bool_decide (m = n) && (0 <=? m).
Proof.
  destruct (Z.leb_spec 0 m).
  - rewrite Z.shiftl_spec, testbit_one, andb_true_r by lia.
    apply bool_decide_ext. lia.
  - rewrite Z.testbit_neg_r, andb_false_r by lia. reflexivity.
Qed.

Lemma testbit_set_bit (a n m : Z) :
  Z.testbit (Z.setbit a n) m
  = (bool_decide (m = n) && (0 <=? m)) || Z.testbit a m.
Proof.
  unfold Z.setbit. rewrite Z.lor_spec.
  rewrite testbit_shiftl_one. apply orb_comm.
Qed.

Lemma testbit_clear_bit (a n m : Z) :
  Z.testbit (Z.clearbit a n) m
  = Z.testbit a m && negb (bool_decide (m = n)).
Proof.
  rewrite Z.clearbit_eqb. f_equal. f_equal.
  destruct (Z.eqb_spec n m).
  - by rewrite bool_decide_eq_true_2.
  - by rewrite bool_decide_eq_false_2.
Qed.

Lemma testbit_uint32 (a m : Z) :
  Z.testbit (uint32 a) m = Z.testbit a m && (m <? 32).
Proof.
  unfold uint32. destruct (Z.ltb_spec m 32).
  - destruct (Z.leb_spec 0 m).
    + rewrite Z.mod_pow2_bits_low by lia. by rewrite andb_true_r.
    + by rewrite !Z.testbit_neg_r by lia.
  - rewrite Z.mod_pow2_bits_high by lia. by rewrite andb_false_r.
Qed.

(** A step of a client that holds the clocks and leaves the slots and
    the gating record alone. *)
Lemma client_chan (m : machine) (i : nat) (p p' : cpc) (h' : ufs_hba) :
  inv m ->
  clients m !! i = Some p ->
  same_slots (adapter m) h' ->
  clk_gating h' = clk_gating (adapter m) ->
  counted p = true -> waits_ungate p = false -> counted p' = true ->
  owner p' = owner p -> binds p' = binds p -> unbinds p' = unbinds p ->
  issued p' = issued p ->
  (forall t, trying p' = Some t -> 0 <= t < nutrs (adapter m)) ->
  (forall s, Z.testbit (outstanding_tasks h') s = true ->
     tasked p' = Some s
     \/ (Z.testbit (outstanding_tasks (adapter m)) s = true
         /\ tasked p <> Some s)) ->
  (active_uic_cmd h' <> None ->
   uic_owner p' = true
   \/ (active_uic_cmd (adapter m) <> None /\ uic_owner p = false)) ->
  (uic_async_done h' = true ->
   pwr_owner p' = true
   \/ (uic_async_done (adapter m) = true /\ pwr_owner p = false)) ->
  inv {| adapter := h'; worker := worker m;
         wq := wq_sync (adapter m) h' (wq m);
         clients := <[i := p']> (clients m) |}.
Proof.
  intros Hinv Hi Hs Hg Hc Hw Hc' Ro Rb Ru Ri Rt C1 C2 C3.
  pose proof (inflight_same_slots _ _ Hs) as Hfl.
  pose proof Hs as (Ecap & En & El & _).
  apply (client_inv m i p p' h' 0); auto.
  - by rewrite El.
  - by apply gtrans_same.
  - rewrite Hc, Hc'. lia.
  - intros _ _. rewrite Hg. by apply (holder_on m i p).
  - left. lia.
  - apply (slots_neutral m _ i p p'); auto. by destruct Hinv.
  - apply (chan_update m _ i p p'); auto. by destruct Hinv.
Qed.

(** A step of client [i] that works on slot [tag] alone, a slot no
    other thread owns. *)
Lemma client_local (m : machine) (i : nat) (p p' : cpc) (h' : ufs_hba)
    (d tag : Z) :
  inv m ->
  clients m !! i = Some p ->
  same_chan (adapter m) h' ->
  tasked p' = tasked p -> uic_owner p' = uic_owner p ->
  pwr_owner p' = pwr_owner p ->
  cap_clk_gating h' = cap_clk_gating (adapter m) ->
  nutrs h' = nutrs (adapter m) ->
  length (lrb h') = length (lrb (adapter m)) ->
  gtrans (clk_gating (adapter m)) (clk_gating h') d ->
  0 <= tag < nutrs (adapter m) ->
  (forall j q, j <> i -> clients m !! j = Some q -> owner q <> Some tag) ->
  (forall t, t <> tag ->
     Z.testbit (lrb_in_use h') t = Z.testbit (lrb_in_use (adapter m)) t
     /\ Z.testbit (outstanding_reqs h') t
        = Z.testbit (outstanding_reqs (adapter m)) t
     /\ Z.testbit (doorbell h') t = Z.testbit (doorbell (adapter m)) t) ->
  (forall t, t <> tag -> 0 <= t < nutrs (adapter m) ->
     slot_has_cmd h' t = slot_has_cmd (adapter m) t) ->
  (forall t, owner p = Some t -> t = tag) ->
  (forall t, owner p' = Some t -> t = tag) ->
  (forall t, trying p' = Some t -> 0 <= t < nutrs (adapter m)) ->
  Z.of_nat (if counted p' then 1 else 0)
  + Z.of_nat (if slot_busy h' tag then 1 else 0)
  = Z.of_nat (if counted p then 1 else 0)
    + Z.of_nat (if slot_busy (adapter m) tag then 1 else 0) + d ->
  (counted p' = true -> waits_ungate p' = false ->
   state (clk_gating h') = CLKS_ON) ->
  (slot_busy h' tag = true ->
   slot_busy (adapter m) tag = true \/ state (clk_gating h') = CLKS_ON) ->
  (Z.testbit (outstanding_reqs h') tag = true ->
   Z.testbit (lrb_in_use h') tag = true
   /\ (slot_has_cmd h' tag = true \/ issued p' = Some tag)) ->
  (Z.testbit (doorbell h') tag = true ->
   Z.testbit (outstanding_reqs h') tag = true) ->
  (owner p' = Some tag ->
   Z.testbit (lrb_in_use h') tag = true
   /\ (issued p' = None ->
       Z.testbit (outstanding_reqs h') tag = false)) ->
  (binds p' = Some tag -> slot_has_cmd h' tag = true) ->
  (unbinds p' = Some tag -> slot_has_cmd h' tag = false) ->
  inv {| adapter := h'; worker := worker m;
         wq := wq_sync (adapter m) h' (wq m);
         clients := <[i := p']> (clients m) |}.
Proof.
  intros Hinv Hi Hch Rk Rc Rp Ecap En El Ht Htag Hno Fw Fc Op Op' Tr
         Hacc L1 L2 T1 T2 T3 T4 T5.
  assert (forall q t, issued q = Some t -> owner q = Some t) as Hio
      by (intros q t; destruct q; cbn; repeat case_match; congruence).
  assert (forall q t, binds q = Some t -> owner q = Some t) as Hbo
      by (intros q t; destruct q; cbn; repeat case_match; congruence).
  assert (forall q t, unbinds q = Some t -> owner q = Some t) as Huo
      by (intros q t; destruct q; cbn; repeat case_match; congruence).
  assert (forall t, t <> tag -> 0 <= t < nutrs (adapter m) ->
            slot_busy h' t = slot_busy (adapter m) t) as Fb.
  { intros t Hne Hr. unfold slot_busy.
    destruct (Fw t Hne) as (_ & -> & _). by rewrite Fc. }
  assert (inflight h' + (if slot_busy (adapter m) tag then 1 else 0)
          = inflight (adapter m) + (if slot_busy h' tag then 1 else 0))%nat
    as Hfl.
  { unfold inflight. rewrite En. apply count_below_update.
    - lia.
    - intros t Hne Hr. apply Fb; [assumption | lia]. }
  pose proof Hinv as [_ _ Hsl _].
  pose proof Hsl as [Hout Hdoor Hown Huniq Hfree Hb Hu Htry].
  apply (client_inv m i p p' h' d); auto.
  - destruct (slot_busy (adapter m) tag), (slot_busy h' tag),
      (counted p), (counted p'); lia.
  - destruct (slot_busy h' tag) eqn:Hb'.
    + destruct (L2 eq_refl) as [Hb0 | ?]; [left | by right].
      rewrite Hb0 in Hfl. lia.
    + left. destruct (slot_busy (adapter m) tag); lia.
  - apply (slots_update m _ i p p'); auto; cbn [adapter].
    + intros t Hbit. destruct (decide (t = tag)) as [-> | Hne].
      * destruct (T1 Hbit) as (? & [? | ?]); auto.
      * destruct (Fw t Hne) as (Eu & Eo & _). rewrite Eo in Hbit.
        destruct (Hout t Hbit) as (Hr & ? & Hor).
        rewrite Eu, (Fc t Hne Hr).
        split; [assumption | split; [assumption |]].
        destruct Hor as [? | (j & q & Hj & Hq)]; [by left |].
        right. right. destruct (decide (j = i)) as [-> | Hji].
        -- exfalso. apply Hne. apply Op, Hio. congruence.
        -- by exists j, q.
    + intros t Hbit. destruct (decide (t = tag)) as [-> | Hne]; [auto |].
      destruct (Fw t Hne) as (_ & Eo & Ed). rewrite Eo.
      rewrite Ed in Hbit. auto.
    + intros t Ho. pose proof (Op' t Ho) as ->.
      destruct (T3 Ho) as (? & ?). auto.
    + intros j q t Hji Hj Hq.
      assert (t <> tag) as Hne by (intros ->; by apply (Hno j q)).
      destruct (Fw t Hne) as (Eu & Eo & _).
      destruct (Hown j q t Hj Hq) as (Hr & ?).
      rewrite Eu, Eo. split; [assumption | split; [eauto |]].
      by apply Fc.
    + intros t Hq. pose proof (Op' t (Hbo _ _ Hq)) as ->. auto.
    + intros t Hq. pose proof (Op' t (Huo _ _ Hq)) as ->. auto.
  - apply (chan_neutral m _ i p p'); auto. by destruct Hinv.
Qed.

(** ... with the gating record untouched. *)
Lemma client_slot (m : machine) (i : nat) (p p' : cpc) (h' : ufs_hba)
    (tag : Z) :
  inv m ->
  clients m !! i = Some p ->
  same_chan (adapter m) h' ->
  tasked p' = tasked p -> uic_owner p' = uic_owner p ->
  pwr_owner p' = pwr_owner p ->
  cap_clk_gating h' = cap_clk_gating (adapter m) ->
  nutrs h' = nutrs (adapter m) ->
  length (lrb h') = length (lrb (adapter m)) ->
  clk_gating h' = clk_gating (adapter m) ->
  0 <= tag < nutrs (adapter m) ->
  (forall j q, j <> i -> clients m !! j = Some q -> owner q <> Some tag) ->
  (forall t, t <> tag ->
     Z.testbit (lrb_in_use h') t = Z.testbit (lrb_in_use (adapter m)) t
     /\ Z.testbit (outstanding_reqs h') t
        = Z.testbit (outstanding_reqs (adapter m)) t
     /\ Z.testbit (doorbell h') t = Z.testbit (doorbell (adapter m)) t) ->
  (forall t, t <> tag -> 0 <= t < nutrs (adapter m) ->
     slot_has_cmd h' t = slot_has_cmd (adapter m) t) ->
  (forall t, owner p = Some t -> t = tag) ->
  (forall t, owner p' = Some t -> t = tag) ->
  (forall t, trying p' = Some t -> 0 <= t < nutrs (adapter m)) ->
  Z.of_nat (if counted p' then 1 else 0)
  + Z.of_nat (if slot_busy h' tag then 1 else 0)
  = Z.of_nat (if counted p then 1 else 0)
    + Z.of_nat (if slot_busy (adapter m) tag then 1 else 0) ->
  (counted p' = true \/ slot_busy h' tag = true ->
   counted p = true /\ waits_ungate p = false) ->
  (Z.testbit (outstanding_reqs h') tag = true ->
   Z.testbit (lrb_in_use h') tag = true
   /\ (slot_has_cmd h' tag = true \/ issued p' = Some tag)) ->
  (Z.testbit (doorbell h') tag = true ->
   Z.testbit (outstanding_reqs h') tag = true) ->
  (owner p' = Some tag ->
   Z.testbit (lrb_in_use h') tag = true
   /\ (issued p' = None ->
       Z.testbit (outstanding_reqs h') tag = false)) ->
  (binds p' = Some tag -> slot_has_cmd h' tag = true) ->
  (unbinds p' = Some tag -> slot_has_cmd h' tag = false) ->
  inv {| adapter := h'; worker := worker m;
         wq := wq_sync (adapter m) h' (wq m);
         clients := <[i := p']> (clients m) |}.
Proof.
  intros Hinv Hi Hch Rk Rc Rp Ecap En El Eg Htag Hno Fw Fc Op Op' Tr
         Hacc L T1 T2 T3 T4 T5.
  apply (client_local m i p p' h' 0 tag); auto.
  - by apply gtrans_same.
  - lia.
  - intros Hc _. rewrite Eg. destruct L as [? ?]; [by left |].
    by apply (holder_on m i p).
  - intros Hb. right. rewrite Eg. destruct L as [? ?]; [by right |].
    by apply (holder_on m i p).
Qed.

(** *** The slot table *)

Lemma slot_has_cmd_alter_ne (h h' : ufs_hba) (f : ufshcd_lrb -> ufshcd_lrb)
    (tag t : Z) :
  lrb h' = alter f (Z.to_nat tag) (lrb h) ->
  0 <= tag -> 0 <= t -> t <> tag ->
  slot_has_cmd h' t = slot_has_cmd h t.
Proof.
  intros E ? ? ?. unfold slot_has_cmd, lrb_at. rewrite E.
  rewrite list_lookup_alter_ne by lia. reflexivity.
Qed.

Lemma slot_has_cmd_alter_eq (h h' : ufs_hba) (f : ufshcd_lrb -> ufshcd_lrb)
    (tag : Z) (c : option scsi_cmnd) :
  lrb h' = alter f (Z.to_nat tag) (lrb h) ->
  0 <= tag < Z.of_nat (length (lrb h)) ->
  (forall l, cmd (f l) = c) ->
  slot_has_cmd h' tag = bool_decide (c <> None).
Proof.
  intros E Hr Hf. unfold slot_has_cmd, lrb_at. rewrite E.
  rewrite list_lookup_alter_eq.
  destruct (lookup_lt_is_Some_2 (lrb h) (Z.to_nat tag)) as [l ->]; [lia |].
  simpl. by rewrite Hf.
Qed.

Lemma slot_has_cmd_alter_keep (h h' : ufs_hba)
    (f : ufshcd_lrb -> ufshcd_lrb) (tag t : Z) :
  lrb h' = alter f (Z.to_nat tag) (lrb h) ->
  (forall l, cmd (f l) = cmd l) ->
  slot_has_cmd h' t = slot_has_cmd h t.
Proof.
  intros E Hf. unfold slot_has_cmd, lrb_at. rewrite E.
  destruct (decide (Z.to_nat t = Z.to_nat tag)) as [-> | Hne].
  - rewrite list_lookup_alter_eq. destruct (lrb h !! Z.to_nat tag); simpl;
      [by rewrite Hf | reflexivity].
  - by rewrite list_lookup_alter_ne.
Qed.

Lemma own_slot (m : machine) (i : nat) (p : cpc) (tag : Z) :
  inv m -> clients m !! i = Some p -> owner p = Some tag ->
  0 <= tag < nutrs (adapter m)
  /\ 0 <= tag < Z.of_nat (length (lrb (adapter m)))
  /\ Z.testbit (lrb_in_use (adapter m)) tag = true
  /\ (issued p = None ->
      Z.testbit (outstanding_reqs (adapter m)) tag = false
      /\ Z.testbit (doorbell (adapter m)) tag = false
      /\ slot_busy (adapter m) tag = false)
  /\ forall j q, j <> i -> clients m !! j = Some q -> owner q <> Some tag.
Proof.
  intros [[_ _ Hl _] _ [Hout Hdoor Hown Huniq Hfree _ _ _] _] Hi Ho.
  destruct (Hown i p tag Hi Ho) as (Hr & Hu).
  split; [assumption | split; [lia | split; [assumption | split]]].
  - intros Hiss. pose proof (Hfree i p tag Hi Ho Hiss) as Hf.
    split; [assumption | split].
    + destruct (Z.testbit (doorbell (adapter m)) tag) eqn:Hd;
        [| reflexivity]. apply Hdoor in Hd. congruence.
    + unfold slot_busy. by rewrite Hf.
  - intros j q Hne Hj Hq. apply Hne. by apply (Huniq j i q p tag).
Qed.

Lemma testbit_set_bit_ne (a n m : Z) :
  m <> n -> Z.testbit (Z.setbit a n) m = Z.testbit a m.
Proof.
  intros. by rewrite testbit_set_bit, bool_decide_eq_false_2.
Qed.

Lemma testbit_set_bit_eq (a n : Z) :
  0 <= n -> Z.testbit (Z.setbit a n) n = true.
Proof.
  intros. rewrite testbit_set_bit, bool_decide_eq_true_2 by done.
  by destruct (Z.leb_spec 0 n); [| lia].
Qed.

Lemma testbit_clear_bit_ne (a n m : Z) :
  m <> n -> Z.testbit (Z.clearbit a n) m = Z.testbit a m.
Proof.
  intros. rewrite testbit_clear_bit, bool_decide_eq_false_2 by done.
  apply andb_true_r.
Qed.

Lemma testbit_clear_bit_eq (a n : Z) :
  Z.testbit (Z.clearbit a n) n = false.
Proof.
  rewrite testbit_clear_bit, bool_decide_eq_true_2 by done.
  apply andb_false_r.
Qed.

Lemma slot_not_in_use (m : machine) (tag : Z) :
  inv m -> Z.testbit (lrb_in_use (adapter m)) tag = false ->
  Z.testbit (outstanding_reqs (adapter m)) tag = false
  /\ Z.testbit (doorbell (adapter m)) tag = false
  /\ slot_busy (adapter m) tag = false
  /\ forall j q, clients m !! j = Some q -> owner q <> Some tag.
Proof.
  intros [_ _ [Hout Hdoor Hown _ _ _ _ _] _] Hfree.
  assert (Z.testbit (outstanding_reqs (adapter m)) tag = false) as Ho.
  { destruct (Z.testbit (outstanding_reqs (adapter m)) tag) eqn:Hb;
      [| reflexivity]. destruct (Hout tag Hb) as (_ & ? & _). congruence. }
  split; [assumption | split; [| split]].
  - destruct (Z.testbit (doorbell (adapter m)) tag) eqn:Hd;
      [| reflexivity]. apply Hdoor in Hd. congruence.
  - unfold slot_busy. by rewrite Ho.
  - intros j q Hj Hq. destruct (Hown j q tag Hj Hq) as (_ & ?). congruence.
Qed.

Ltac slot_auto :=
  try done;
  unfold slot_busy, lrb_update, Bitops.set_bit, Bitops.clear_bit,
    ufshcd_put_dev_cmd_tag;
  hred;
  try done;
  try (by rewrite length_alter);
  try (by (intros ?; cbn [owner]; congruence));
  try (by (intros; eapply slot_has_cmd_alter_ne;
           [reflexivity | lia | lia | assumption]));
  try (by (intros ? ?; rewrite ?testbit_set_bit_ne, ?testbit_clear_bit_ne
             by assumption)).

Lemma binds_slot (m : machine) (i : nat) (p : cpc) (t : Z) :
  inv m -> clients m !! i = Some p -> binds p = Some t ->
  slot_has_cmd (adapter m) t = true.
Proof. intros [_ _ [_ _ _ _ _ Hb _ _] _]. apply Hb. Qed.

Lemma unbinds_slot (m : machine) (i : nat) (p : cpc) (t : Z) :
  inv m -> clients m !! i = Some p -> unbinds p = Some t ->
  slot_has_cmd (adapter m) t = false.
Proof. intros [_ _ [_ _ _ _ _ _ Hu _] _]. apply Hu. Qed.

Section ClientSteps.
Context `{UfsHeaders}.
Hypothesis EAGAIN_nonzero : EAGAIN <> 0.

Lemma of_hold_outcome_fail :
  of_hold_outcome (HoldReturn (- EAGAIN)) = CIdle.
Proof.
  unfold of_hold_outcome.
  destruct (Z.eqb_spec (- EAGAIN) 0) as [? | _]; [lia | reflexivity].
Qed.

Lemma step_hold (m : machine) (i : nat) (async : bool) :
  inv m -> clients m !! i = Some CIdle ->
  inv {| adapter := snd (ufshcd_hold async (adapter m));
         worker := worker m;
         wq := wq_sync (adapter m) (snd (ufshcd_hold async (adapter m)))
                 (wq m);
         clients :=
           <[i := of_hold_outcome
                    (fst (ufshcd_hold async (adapter m)))]>
             (clients m) |}.
Proof.
  intros Hinv Hi.
  destruct (ufshcd_hold_gtrans async (adapter m))
    as (Hs & Hc & Hout); auto.
  { by destruct Hinv as [[? _ _ _] _ _ _]. }
  { apply active_range, Hinv. }
  destruct Hout as [(-> & Hst & Ht) | [(-> & _ & Ht)
                   | [(-> & _ & Hst & Ht) | (-> & _ & Hst & Ht)]]];
    rewrite ?of_hold_outcome_fail.
  - by apply (client_neutral m i CIdle CHold _ 1).
  - by apply (client_neutral m i CIdle CIdle _ 0).
  - by apply (client_neutral m i CIdle (CWait true) _ 1).
  - by apply (client_neutral m i CIdle (CWait false) _ 1).
Qed.

Lemma step_resume (m : machine) (i : nat) (from_on fr : bool) :
  inv m -> clients m !! i = Some (CWait from_on) ->
  let r := ufshcd_hold_resume from_on fr false (adapter m) in
  inv {| adapter := snd r; worker := worker m;
         wq := wq_sync (adapter m) (snd r) (wq m);
         clients := <[i := of_hold_outcome (fst r)]> (clients m) |}.
Proof.
  intros Hinv Hi r. subst r.
  destruct (ufshcd_hold_resume_effect from_on fr (adapter m))
    as (Hs & Hc & Ht & Hout).
  { destruct (waiter_state m i _ Hinv Hi eq_refl) as [? | [? ?]];
      [by left | right; split; [assumption | congruence]]. }
  destruct Hout as [(-> & Hst) | [(-> & Hst) | (-> & Hst)]].
  - by apply (client_neutral m i (CWait from_on) CHold _ 0).
  - by apply (client_neutral m i (CWait from_on) (CWait true) _ 0).
  - by apply (client_neutral m i (CWait from_on) (CWait false) _ 0).
Qed.

Lemma release_effect (m : machine) (i : nat) (p : cpc) :
  inv m -> clients m !! i = Some p ->
  counted p = true -> waits_ungate p = false ->
  same_slots (adapter m) (ufshcd_release (adapter m))
  /\ same_chan (adapter m) (ufshcd_release (adapter m))
  /\ gtrans (clk_gating (adapter m))
       (clk_gating (ufshcd_release (adapter m))) (- 1).
Proof.
  intros Hinv Hi Hc Hw.
  apply ufshcd_release_gtrans.
  - by destruct Hinv as [[? _ _ _] _ _ _].
  - by apply (holder_on m i p).
  - pose proof (counted_active m i p Hinv Hi Hc).
    pose proof (active_range m Hinv). lia.
Qed.

Lemma step_release (m : machine) (i : nat) :
  inv m -> clients m !! i = Some CHold ->
  inv {| adapter := ufshcd_release (adapter m); worker := worker m;
         wq := wq_sync (adapter m) (ufshcd_release (adapter m)) (wq m);
         clients := <[i := CIdle]> (clients m) |}.
Proof.
  intros Hinv Hi.
  destruct (release_effect m i _ Hinv Hi eq_refl eq_refl)
    as (Hs & Hc & Ht).
  by apply (client_neutral m i CHold CIdle _ (- 1)).
Qed.

Lemma step_qc_release (m : machine) (i : nat) (tag : Z) :
  inv m -> clients m !! i = Some (QRelease tag) ->
  inv {| adapter := ufshcd_release (adapter m); worker := worker m;
         wq := wq_sync (adapter m) (ufshcd_release (adapter m)) (wq m);
         clients := <[i := QUnbind tag]> (clients m) |}.
Proof.
  intros Hinv Hi.
  destruct (release_effect m i _ Hinv Hi eq_refl eq_refl)
    as (Hs & Hc & Ht).
  by apply (client_neutral m i (QRelease tag) (QUnbind tag) _ (- 1)).
Qed.

Lemma step_qc_out (m : machine) (i : nat) (err : Z) (c : scsi_cmnd) :
  inv m -> clients m !! i = Some (QOut err c) ->
  inv {| adapter := qc_out_unlocked err c (adapter m);
         worker := worker m;
         wq := wq_sync (adapter m) (qc_out_unlocked err c (adapter m))
                 (wq m);
         clients := <[i := CIdle]> (clients m) |}.
Proof.
  intros Hinv Hi.
  destruct (release_effect m i _ Hinv Hi eq_refl eq_refl)
    as (Hs & Hc & Ht).
  apply (client_neutral m i (QOut err c) CIdle _ (- 1)); try done;
    unfold qc_out_unlocked; destruct (err =? 0); assumption.
Qed.

Lemma step_qc_hold (m : machine) (i : nat) (env : qc_env)
    (c : scsi_cmnd) :
  inv m -> clients m !! i = Some (QClaimed env c) ->
  let r := ufshcd_hold true (adapter m) in
  inv {| adapter := snd r; worker := worker m;
         wq := wq_sync (adapter m) (snd r) (wq m);
         clients :=
           <[i := if negb (hold_rc (fst r) =? 0)
                  then QUnclaim (request_tag c) else QHeld env c]>
             (clients m) |}.
Proof.
  intros Hinv Hi r. subst r.
  destruct (ufshcd_hold_gtrans true (adapter m))
    as (Hs & Hc & Hout); auto.
  { by destruct Hinv as [[? _ _ _] _ _ _]. }
  { apply active_range, Hinv. }
  destruct Hout as [(-> & Hst & Ht) | [(-> & _ & Ht)
                   | [(_ & ? & _) | (_ & ? & _)]]];
    try discriminate; cbn [hold_rc].
  - by apply (client_neutral m i (QClaimed env c) (QHeld env c) _ 1).
  - destruct (Z.eqb_spec (- EAGAIN) 0) as [? | _]; [lia |].
    by apply (client_neutral m i (QClaimed env c)
                (QUnclaim (request_tag c)) _ 0).
Qed.

Lemma step_dev_start (m : machine) (i : nat) :
  inv m -> clients m !! i = Some CHold ->
  inv {| adapter := adapter m; worker := worker m;
         wq := wq_sync (adapter m) (adapter m) (wq m);
         clients := <[i := DevPick]> (clients m) |}.
Proof.
  intros Hinv Hi.
  apply (client_neutral m i CHold DevPick _ 0); try done.
  - apply gtrans_refl.
  - intros _ _. by apply (holder_on m i CHold).
Qed.

Lemma step_dev_read (m : machine) (i : nat) :
  inv m -> clients m !! i = Some DevPick ->
  inv {| adapter := adapter m; worker := worker m;
         wq := wq_sync (adapter m) (adapter m) (wq m);
         clients :=
           <[i := match dev_cmd_tag_candidate (nutrs (adapter m))
                          (lrb_in_use (adapter m)) with
                  | Some tag => DevTry tag
                  | None => DevPick
                  end]> (clients m) |}.
Proof.
  intros Hinv Hi.
  destruct (dev_cmd_tag_candidate _ _) as [tag |] eqn:Hc.
  - apply (client_neutral m i DevPick (DevTry tag) _ 0); try done.
    + apply gtrans_refl.
    + intros _ _. by apply (holder_on m i DevPick).
    + intros t [= <-]. split.
      * by destruct
          (dev_cmd_tag_candidate_nonneg _ _ _ Hc).
      * unfold dev_cmd_tag_candidate in Hc.
        destruct (_ >=? nutrs (adapter m)) eqn:Hge; [discriminate |].
        injection Hc as <-. rewrite Z.geb_leb in Hge.
        by apply Z.leb_gt in Hge.
  - apply (client_neutral m i DevPick DevPick _ 0); try done.
    + apply gtrans_refl.
    + intros _ _. by apply (holder_on m i DevPick).
Qed.

Lemma step_tm_issue (m : machine) (i : nat) (free_slot : Z) :
  inv m -> clients m !! i = Some CHold ->
  inv {| adapter := tm_cmd_send free_slot (adapter m);
         worker := worker m;
         wq := wq_sync (adapter m) (tm_cmd_send free_slot (adapter m))
                 (wq m);
         clients := <[i := CTask free_slot]> (clients m) |}.
Proof.
  intros Hinv Hi.
  apply (client_chan m i CHold (CTask free_slot)); try done.
  - unfold tm_cmd_send, ufshcd_writel, Bitops.set_bit. hred. intros s.
    rewrite testbit_set_bit.
    intros [[->%bool_decide_eq_true _]%andb_true_iff | ?]%orb_true_iff;
      [by left | by right].
  - unfold tm_cmd_send, ufshcd_writel. hred. by right.
  - unfold tm_cmd_send, ufshcd_writel. hred. by right.
Qed.

Lemma step_tm_done (m : machine) (i : nat) (free_slot : Z) :
  inv m -> clients m !! i = Some (CTask free_slot) ->
  inv {| adapter := tm_cmd_clear free_slot (adapter m);
         worker := worker m;
         wq := wq_sync (adapter m) (tm_cmd_clear free_slot (adapter m))
                 (wq m);
         clients := <[i := CHold]> (clients m) |}.
Proof.
  intros Hinv Hi.
  apply (client_chan m i (CTask free_slot) CHold); try done.
  - unfold tm_cmd_clear, Bitops.clear_bit. hred. intros s.
    rewrite testbit_clear_bit.
    intros [? Hne%negb_true_iff%bool_decide_eq_false]%andb_true_iff.
    right. split; [assumption |]. cbn. congruence.
  - unfold tm_cmd_clear. hred. by right.
  - unfold tm_cmd_clear. hred. by right.
Qed.

Lemma send_uic_cmd_frame (ready : bool) (cmd : uic_command)
    (h : ufs_hba) :
  let h' := snd (__ufshcd_send_uic_cmd ready cmd h) in
  same_slots h h' /\ clk_gating h' = clk_gating h
  /\ outstanding_tasks h' = outstanding_tasks h
  /\ uic_async_done h' = uic_async_done h
  /\ (fst (__ufshcd_send_uic_cmd ready cmd h) <> 0 ->
      active_uic_cmd h' = active_uic_cmd h).
Proof.
  unfold __ufshcd_send_uic_cmd, ufshcd_dispatch_uic_cmd, ufshcd_writel,
    same_slots.
  destruct ready; hred; split_and!; try done.
Qed.

Lemma step_uic_issue (m : machine) (i : nat) (ready : bool)
    (cmd : uic_command) :
  inv m -> clients m !! i = Some CHold ->
  let r := __ufshcd_send_uic_cmd ready cmd (adapter m) in
  inv {| adapter := snd r; worker := worker m;
         wq := wq_sync (adapter m) (snd r) (wq m);
         clients := <[i := if fst r =? 0 then CUic cmd else CHold]>
                      (clients m) |}.
Proof.
  intros Hinv Hi r. subst r.
  destruct (send_uic_cmd_frame ready cmd (adapter m))
    as (Hs & Hg & Ht & Ha & Hu).
  destruct (Z.eqb_spec (fst (__ufshcd_send_uic_cmd ready cmd (adapter m)))
              0) as [Hz | Hnz].
  - apply (client_chan m i CHold (CUic cmd)); try done.
    + rewrite Ht. by right.
    + by left.
    + rewrite Ha. by right.
  - apply (client_chan m i CHold CHold); try done.
    + rewrite Ht. by right.
    + rewrite (Hu Hnz). by right.
    + rewrite Ha. by right.
Qed.

Lemma step_uic_done (m : machine) (i : nat) (completed : bool)
    (cmd : uic_command) :
  inv m -> clients m !! i = Some (CUic cmd) ->
  let h' := snd (ufshcd_wait_for_uic_cmd completed
                   (issuer_view cmd (adapter m)) (adapter m)) in
  inv {| adapter := h'; worker := worker m;
         wq := wq_sync (adapter m) h' (wq m);
         clients := <[i := CHold]> (clients m) |}.
Proof.
  intros Hinv Hi h'. subst h'.
  apply (client_chan m i (CUic cmd) CHold); try done;
    unfold ufshcd_wait_for_uic_cmd; hred; try done.
  - by right.
  - by right.
Qed.

Lemma step_pwr_issue (m : machine) (i : nat) (env : pwr_env)
    (cmd : uic_command) :
  inv m -> clients m !! i = Some CHold ->
  let r := ufshcd_uic_pwr_ctrl_issue env cmd (adapter m) in
  inv {| adapter := snd r; worker := worker m;
         wq := wq_sync (adapter m) (snd r) (wq m);
         clients := <[i := CPwr (snd (fst r)) (fst (fst r)) cmd]>
                      (clients m) |}.
Proof.
  intros Hinv Hi r. subst r. unfold ufshcd_uic_pwr_ctrl_issue.
  match goal with
  | |- context [__ufshcd_send_uic_cmd ?r ?c ?h] =>
      destruct (send_uic_cmd_frame r c h) as (Hs & Hg & Ht & Ha & Hu);
      destruct (__ufshcd_send_uic_cmd r c h) as [ret h1]
  end.
  hred. hred_in Hs. hred_in Hg. hred_in Ht.
  apply (client_chan m i CHold (CPwr (pe_intr_enabled env) ret cmd));
    try done.
  - destruct Hs as (S1 & S2 & S3 & S4 & S5 & S6).
    destruct (pe_intr_enabled env); hred_in S1; hred_in S2; hred_in S3;
      hred_in S4; hred_in S5; hred_in S6; by repeat split.
  - rewrite Hg. by destruct (pe_intr_enabled env).
  - rewrite Ht. intros s ?. right.
    by destruct (pe_intr_enabled env).
  - by left.
  - by left.
Qed.

Lemma step_pwr_done (m : machine) (i : nat) (ret : Z)
    (reenable_intr : bool) (r : Z) (cmd : uic_command) :
  inv m -> clients m !! i = Some (CPwr reenable_intr r cmd) ->
  let h' := ufshcd_uic_pwr_ctrl_finish ret reenable_intr (adapter m) in
  inv {| adapter := h'; worker := worker m;
         wq := wq_sync (adapter m) h' (wq m);
         clients := <[i := CHold]> (clients m) |}.
Proof.
  intros Hinv Hi h'. subst h'.
  apply (client_chan m i (CPwr reenable_intr r cmd) CHold); try done;
    unfold ufshcd_uic_pwr_ctrl_finish;
    destruct reenable_intr, (negb (ret =? 0)); hred; try done;
    by right.
Qed.

Lemma step_qc_claim (m : machine) (i : nat) (env : qc_env)
    (c : scsi_cmnd) :
  inv m -> clients m !! i = Some CIdle ->
  let r := qc_claim env c (adapter m) in
  inv {| adapter := snd r; worker := worker m;
         wq := wq_sync (adapter m) (snd r) (wq m);
         clients := <[i := fst r]> (clients m) |}.
Proof.
  intros Hinv Hi r. subst r. unfold qc_claim.
  assert (forall p', p' = CBug \/ p' = CIdle ->
            inv {| adapter := adapter m; worker := worker m;
                   wq := wq_sync (adapter m) (adapter m) (wq m);
                   clients := <[i := p']> (clients m) |}) as Hsame.
  { intros p' Hp'.
    apply (client_neutral m i CIdle p' _ 0); try done;
      try (destruct Hp' as [-> | ->]; done).
    apply gtrans_refl. }
  destruct (ufshcd_valid_tag (adapter m) (request_tag c)) eqn:Hv;
    cbn [negb fst snd]; [| apply Hsame; by left].
  destruct (qc_trylock env); cbn [negb fst snd];
    [| apply Hsame; by right].
  unfold Bitops.test_and_set_bit_lock.
  destruct (Z.testbit (lrb_in_use (adapter m)) (request_tag c)) eqn:Hb;
    cbn [fst snd]; [apply Hsame; by right |].
  apply andb_true_iff in Hv as [Hv0%Z.leb_le Hv1%Z.ltb_lt].
  destruct (slot_not_in_use m _ Hinv Hb) as (Ho & Hd & Hbusy & Hno).
  apply (client_slot m i CIdle (QClaimed env c) _ (request_tag c));
    try done; hred.
  - eauto.
  - intros t Hne. by rewrite testbit_set_bit_ne.
  - cbn. congruence.
  - unfold slot_busy. hred. rewrite Ho. intros [? | ?]; done.
  - congruence.
  - congruence.
  - intros _. by rewrite testbit_set_bit_eq.
Qed.

Lemma step_qc_bind (m : machine) (i : nat) (env : qc_env)
    (c : scsi_cmnd) :
  inv m -> clients m !! i = Some (QHeld env c) ->
  let r := qc_bind env c (adapter m) in
  inv {| adapter := snd r; worker := worker m;
         wq := wq_sync (adapter m) (snd r) (wq m);
         clients := <[i := fst r]> (clients m) |}.
Proof.
  intros Hinv Hi r. subst r. unfold qc_bind.
  destruct (own_slot m i _ (request_tag c) Hinv Hi eq_refl)
    as (Hr & Hrl & Hu & Hfree & Hno).
  destruct (Hfree eq_refl) as (Ho & Hd & Hbusy).
  destruct (negb (qc_crypto_err env =? 0)); cbn [fst snd].
  - apply (client_slot m i (QHeld env c) (QRelease (request_tag c)) _
             (request_tag c)); slot_auto; rewrite ?Ho, ?Hd; slot_auto.
  - apply (client_slot m i (QHeld env c) (QBound env c) _
             (request_tag c)); slot_auto; rewrite ?Ho, ?Hd; slot_auto.
    intros _.
    erewrite slot_has_cmd_alter_eq with (c := Some c);
      [| reflexivity | exact Hrl | intros; reflexivity].
    done.
Qed.

Lemma step_qc_compose (m : machine) (i : nat) (env : qc_env)
    (c : scsi_cmnd) :
  inv m -> clients m !! i = Some (QBound env c) ->
  let r := qc_compose env c (adapter m) in
  inv {| adapter := snd r; worker := worker m;
         wq := wq_sync (adapter m) (snd r) (wq m);
         clients := <[i := fst r]> (clients m) |}.
Proof.
  intros Hinv Hi r. subst r.
  unfold qc_compose, ufshcd_comp_scsi_upiu, ufshcd_map_sg.
  destruct (own_slot m i _ (request_tag c) Hinv Hi eq_refl)
    as (Hr & Hrl & Hu & Hfree & Hno).
  destruct (Hfree eq_refl) as (Ho & Hd & Hbusy).
  pose proof (binds_slot m i _ _ Hinv Hi eq_refl) as Hb.
  assert (forall p' h',
            p' = QRelease (request_tag c) \/ p' = QReady c
            \/ p' = QBug c ->
            same_chan (adapter m) h' ->
            cap_clk_gating h' = cap_clk_gating (adapter m) ->
            nutrs h' = nutrs (adapter m) ->
            lrb h' = alter (lrb_compose
                              (if qc_legacy_version env
                               then UTP_CMD_TYPE_SCSI
                               else UTP_CMD_TYPE_UFS_STORAGE)
                              OCS_INVALID_COMMAND_STATUS)
                       (Z.to_nat (request_tag c)) (lrb (adapter m)) ->
            clk_gating h' = clk_gating (adapter m) ->
            lrb_in_use h' = lrb_in_use (adapter m) ->
            outstanding_reqs h' = outstanding_reqs (adapter m) ->
            doorbell h' = doorbell (adapter m) ->
            inv {| adapter := h'; worker := worker m;
                   wq := wq_sync (adapter m) h' (wq m);
                   clients := <[i := p']> (clients m) |}) as Hkeep.
  { intros p' h' Hp' Hch Ecap En El Eg Eu Eo Ed.
    assert (slot_has_cmd h' (request_tag c) = true) as Hb'.
    { erewrite slot_has_cmd_alter_keep; [exact Hb | exact El |].
      intros; reflexivity. }
    apply (client_slot m i (QBound env c) p' _ (request_tag c));
      try done;
      try (by destruct Hp' as [-> | [-> | ->]]);
      rewrite ?Eu, ?Eo, ?Ed, ?Hu, ?Ho, ?Hd; try done.
    - by rewrite El, length_alter.
    - intros t _ _.
      by erewrite slot_has_cmd_alter_keep; [| exact El |].
    - cbn. congruence.
    - destruct Hp' as [-> | [-> | ->]]; cbn; congruence.
    - unfold slot_busy. rewrite Eo, Ho.
      by destruct Hp' as [-> | [-> | ->]]. }
  destruct (ufshpb_built && requeued_not_read c); cbn [fst snd];
    [apply Hkeep; [auto | by repeat split | done..] |].
  destruct (ufshpb_built && negb (requeue_cnt c =? 0)); cbn [fst snd];
    [apply Hkeep; [auto | by repeat split | done..] |].
  destruct (qc_sg_segments env <? 0);
    match goal with
    | |- context [negb (?e =? 0)] => destruct (negb (e =? 0))
    end; cbn [fst snd];
    (apply Hkeep; [auto | by repeat split | done..]).
Qed.

Lemma step_qc_unbind (m : machine) (i : nat) (tag : Z) :
  inv m -> clients m !! i = Some (QUnbind tag) ->
  let h' := lrb_update tag (lrb_set_cmd None) (adapter m) in
  inv {| adapter := h'; worker := worker m;
         wq := wq_sync (adapter m) h' (wq m);
         clients := <[i := QUnclaim tag]> (clients m) |}.
Proof.
  intros Hinv Hi h'. subst h'.
  destruct (own_slot m i _ tag Hinv Hi eq_refl)
    as (Hr & Hrl & Hu & Hfree & Hno).
  destruct (Hfree eq_refl) as (Ho & Hd & Hbusy).
  apply (client_slot m i (QUnbind tag) (QUnclaim tag) _ tag);
    slot_auto; rewrite ?Ho, ?Hd; slot_auto.
  intros [? | ?]; done.
Qed.

Lemma step_qc_unclaim (m : machine) (i : nat) (tag : Z) :
  inv m -> clients m !! i = Some (QUnclaim tag) ->
  let h' := set_lrb_in_use
              (Bitops.clear_bit tag (lrb_in_use (adapter m)))
              (adapter m) in
  inv {| adapter := h'; worker := worker m;
         wq := wq_sync (adapter m) h' (wq m);
         clients := <[i := CIdle]> (clients m) |}.
Proof.
  intros Hinv Hi h'. subst h'.
  destruct (own_slot m i _ tag Hinv Hi eq_refl)
    as (Hr & Hrl & Hu & Hfree & Hno).
  destruct (Hfree eq_refl) as (Ho & Hd & Hbusy).
  apply (client_slot m i (QUnclaim tag) CIdle _ tag);
    slot_auto; rewrite ?Ho, ?Hd; slot_auto.
  intros [? | ?]; done.
Qed.

Lemma step_dev_put (m : machine) (i : nat) (tag : Z) :
  inv m -> clients m !! i = Some (DevDone tag) ->
  let h' := ufshcd_put_dev_cmd_tag tag (adapter m) in
  inv {| adapter := h'; worker := worker m;
         wq := wq_sync (adapter m) h' (wq m);
         clients := <[i := DevUnlock]> (clients m) |}.
Proof.
  intros Hinv Hi h'. subst h'.
  destruct (own_slot m i _ tag Hinv Hi eq_refl)
    as (Hr & Hrl & Hu & Hfree & Hno).
  destruct (Hfree eq_refl) as (Ho & Hd & Hbusy).
  apply (client_slot m i (DevDone tag) DevUnlock _ tag);
    slot_auto; rewrite ?Ho, ?Hd; slot_auto.
Qed.

Lemma step_dev_test_and_set (m : machine) (i : nat) (tag : Z) :
  inv m -> clients m !! i = Some (DevTry tag) ->
  let r := Bitops.test_and_set_bit_lock tag (lrb_in_use (adapter m)) in
  let h' := set_lrb_in_use (snd r) (adapter m) in
  inv {| adapter := h'; worker := worker m;
         wq := wq_sync (adapter m) h' (wq m);
         clients := <[i := if fst r then DevPick else DevTagged tag]>
                      (clients m) |}.
Proof.
  intros Hinv Hi r h'. subst r h'.
  unfold Bitops.test_and_set_bit_lock. cbn [fst snd].
  assert (0 <= tag < nutrs (adapter m)) as Hr.
  { destruct Hinv as [_ _ [_ _ _ _ _ _ _ Htry] _].
    by apply (Htry i (DevTry tag)). }
  destruct (Z.testbit (lrb_in_use (adapter m)) tag) eqn:Hb.
  - rewrite setbit_already_set by (lia || assumption).
    apply (client_neutral m i (DevTry tag) DevPick _ 0); try done.
    + apply gtrans_refl.
    + intros _ _. by apply (holder_on m i (DevTry tag)).
  - destruct (slot_not_in_use m _ Hinv Hb) as (Ho & Hd & Hbusy & Hno).
    apply (client_slot m i (DevTry tag) (DevTagged tag) _ tag);
      slot_auto.
    + eauto.
    + intros _. by rewrite testbit_set_bit_eq by lia.
Qed.

Lemma step_dev_compose (m : machine) (i : nat) (legacy : bool)
    (err tag : Z) :
  inv m -> clients m !! i = Some (DevTagged tag) ->
  let r := dev_compose legacy err tag (adapter m) in
  inv {| adapter := snd r; worker := worker m;
         wq := wq_sync (adapter m) (snd r) (wq m);
         clients := <[i := fst r]> (clients m) |}.
Proof.
  intros Hinv Hi r. subst r. unfold dev_compose.
  destruct (own_slot m i _ tag Hinv Hi eq_refl)
    as (Hr & Hrl & Hu & Hfree & Hno).
  destruct (Hfree eq_refl) as (Ho & Hd & Hbusy).
  destruct (negb (err =? 0)); cbn [fst snd].
  - apply (client_slot m i (DevTagged tag) (DevDone tag) _ tag);
      slot_auto; rewrite ?Ho, ?Hd; slot_auto.
  - apply (client_slot m i (DevTagged tag) (DevComposed tag) _ tag);
      slot_auto; rewrite ?Ho, ?Hd; slot_auto.
    intros _.
    erewrite slot_has_cmd_alter_eq with (c := None);
      [| reflexivity | exact Hrl | intros; reflexivity].
    apply bool_decide_eq_false_2. by intros ?.
Qed.

Lemma send_command_effect (tag : Z) (h : ufs_hba) :
  0 <= tag < 32 ->
  let h' := ufshcd_send_command tag h in
  same_chan h h'
  /\ cap_clk_gating h' = cap_clk_gating h
  /\ nutrs h' = nutrs h
  /\ lrb h' = lrb h
  /\ clk_gating h' = clk_gating h
  /\ lrb_in_use h' = lrb_in_use h
  /\ outstanding_reqs h' = Z.setbit (outstanding_reqs h) tag
  /\ forall t, Z.testbit (doorbell h') t
               = bool_decide (t = tag) || Z.testbit (doorbell h) t.
Proof.
  intros Hr. unfold ufshcd_send_command, ufshcd_clk_scaling_start_busy,
    ufshcd_writel, same_chan, Bitops.set_bit.
  destruct (negb (ufshcd_is_clkscaling_supported h)); hred;
    (split_and!; try done); intros t;
    rewrite Z.lor_spec, testbit_uint32, testbit_shiftl_one, orb_comm;
    f_equal; case_bool_decide; subst; cbn [andb];
    try reflexivity.
  all: destruct (Z.leb_spec 0 tag), (Z.ltb_spec tag 32); try lia;
    reflexivity.
Qed.

Lemma step_dev_issue (m : machine) (i : nat) (tag : Z) :
  inv m -> clients m !! i = Some (DevComposed tag) ->
  let h' := ufshcd_send_command tag (adapter m) in
  inv {| adapter := h'; worker := worker m;
         wq := wq_sync (adapter m) h' (wq m);
         clients := <[i := DevIssued tag]> (clients m) |}.
Proof.
  intros Hinv Hi h'. subst h'.
  destruct (own_slot m i _ tag Hinv Hi eq_refl)
    as (Hr & Hrl & Hu & Hfree & Hno).
  destruct (Hfree eq_refl) as (Ho & Hd & Hbusy).
  pose proof (unbinds_slot m i _ _ Hinv Hi eq_refl) as Hub.
  assert (nutrs (adapter m) <= 32) as Hn
      by (destruct Hinv as [[_ ? _ _] _ _ _]; lia).
  destruct (send_command_effect tag (adapter m))
    as (Hch & Ecap & En & El & Eg & Eu & Eo & Ed); [lia |].
  pose proof (slot_has_cmd_same _ _ tag El) as Ehc.
  apply (client_slot m i (DevComposed tag) (DevIssued tag) _ tag);
    slot_auto; rewrite ?Eu, ?Eo, ?Ed, ?El, ?Ehc, ?Hub.
  - done.
  - intros t Hne.
    by rewrite Ed, testbit_set_bit_ne, bool_decide_eq_false_2.
  - intros t _ _. by apply slot_has_cmd_same.
  - by rewrite !andb_false_r.
  - intros _. split; [done | by right].
  - intros _. by rewrite testbit_set_bit_eq by lia.
  - intros _. split; [done | discriminate].
Qed.

Lemma step_qc_issue (m : machine) (i : nat) (c : scsi_cmnd) :
  inv m -> clients m !! i = Some (QReady c) ->
  let r := qc_issue c (adapter m) in
  inv {| adapter := snd r; worker := worker m;
         wq := wq_sync (adapter m) (snd r) (wq m);
         clients := <[i := fst r]> (clients m) |}.
Proof.
  intros Hinv Hi r. subst r.
  destruct (own_slot m i _ (request_tag c) Hinv Hi eq_refl)
    as (Hr & Hrl & Hu & Hfree & Hno).
  destruct (Hfree eq_refl) as (Ho & Hd & Hbusy).
  pose proof (binds_slot m i _ _ Hinv Hi eq_refl) as Hb.
  assert (nutrs (adapter m) <= 32) as Hn
      by (destruct Hinv as [[_ ? _ _] _ _ _]; lia).
  assert (forall err c' h0,
            cap_clk_gating h0 = cap_clk_gating (adapter m) ->
            nutrs h0 = nutrs (adapter m) ->
            lrb h0 = lrb (adapter m) ->
            lrb_in_use h0 = lrb_in_use (adapter m) ->
            outstanding_reqs h0 = outstanding_reqs (adapter m) ->
            doorbell h0 = doorbell (adapter m) ->
            clk_gating h0 = clk_gating (adapter m) ->
            same_chan (adapter m) h0 ->
            let h' := qc_out_locked (request_tag c) h0 in
            inv {| adapter := h'; worker := worker m;
                   wq := wq_sync (adapter m) h' (wq m);
                   clients := <[i := QOut err c']> (clients m) |})
    as Hout.
  { intros err c' h0 Ecap En El Eu Eo Ed Eg (Et & Ea & Ey) h'. subst h'.
    apply (client_slot m i (QReady c) (QOut err c') _ (request_tag c));
      unfold qc_out_locked; slot_auto;
      rewrite ?Ecap, ?En, ?El, ?Eu, ?Eo, ?Ed, ?Eg, ?Ho, ?Hd; slot_auto. }
  unfold qc_issue.
  repeat match goal with
         | |- context [if ?b then _ else _] => destruct b
         end; cbn [fst snd]; try (by apply Hout).
  destruct (send_command_effect (request_tag c) (adapter m))
    as (Hch & Ecap & En & El & Eg & Eu & Eo & Ed); [lia |].
  pose proof (slot_has_cmd_same _ _ (request_tag c) El) as Ehc.
  apply (client_slot m i (QReady c) CIdle _ (request_tag c));
    slot_auto; rewrite ?Eu, ?Eo, ?Ed, ?El, ?Ehc, ?Hb.
  - done.
  - intros t Hne.
    by rewrite Ed, testbit_set_bit_ne, bool_decide_eq_false_2.
  - intros t _ _. by apply slot_has_cmd_same.
  - by rewrite testbit_set_bit_eq, Ho by lia.
  - intros _. split; [done | by left].
  - intros _. by rewrite testbit_set_bit_eq by lia.
Qed.

(** The waiter is woken: its slot is out of [outstanding_reqs]. *)
Lemma step_dev_wake (m : machine) (i : nat) (tag : Z) :
  inv m -> clients m !! i = Some (DevIssued tag) ->
  Z.testbit (outstanding_reqs (adapter m)) tag = false ->
  inv {| adapter := adapter m; worker := worker m;
         wq := wq_sync (adapter m) (adapter m) (wq m);
         clients := <[i := DevWoken tag true]> (clients m) |}.
Proof.
  intros Hinv Hi Hclear.
  destruct (own_slot m i _ tag Hinv Hi eq_refl)
    as (Hr & Hrl & Hu & _ & Hno).
  pose proof (unbinds_slot m i _ _ Hinv Hi eq_refl) as Hub.
  assert (Z.testbit (doorbell (adapter m)) tag = false) as Hd.
  { destruct (Z.testbit (doorbell (adapter m)) tag) eqn:Hd;
      [| reflexivity].
    destruct Hinv as [_ _ [_ Hdoor _ _ _ _ _ _] _].
    apply Hdoor in Hd. congruence. }
  apply (client_slot m i (DevIssued tag) (DevWoken tag true) _ tag);
    slot_auto; rewrite ?Hclear, ?Hd, ?Hub; slot_auto.
Qed.

Lemma step_dev_wait_locked (m : machine) (i : nat) (tag : Z) :
  inv m -> clients m !! i = Some (DevWoken tag true) ->
  let h' := dev_wait_locked (adapter m) in
  inv {| adapter := h'; worker := worker m;
         wq := wq_sync (adapter m) h' (wq m);
         clients := <[i := DevDone tag]> (clients m) |}.
Proof.
  intros Hinv Hi h'. subst h'. unfold dev_wait_locked.
  destruct (own_slot m i _ tag Hinv Hi eq_refl)
    as (Hr & Hrl & Hu & Hfree & Hno).
  destruct (Hfree eq_refl) as (Ho & Hd & Hbusy).
  apply (client_slot m i (DevWoken tag true) (DevDone tag) _ tag);
    slot_auto; rewrite ?Ho, ?Hd; slot_auto.
Qed.

Lemma step_dev_unlock (m : machine) (i : nat) :
  inv m -> clients m !! i = Some DevUnlock ->
  inv {| adapter := adapter m; worker := worker m;
         wq := wq_sync (adapter m) (adapter m) (wq m);
         clients := <[i := CHold]> (clients m) |}.
Proof.
  intros Hinv Hi.
  apply (client_neutral m i DevUnlock CHold _ 0); try done.
  - apply gtrans_refl.
  - intros _ _. by apply (holder_on m i DevUnlock).
Qed.

Lemma step_stay (m : machine) (i : nat) (p : cpc) :
  inv m -> clients m !! i = Some p ->
  inv {| adapter := adapter m; worker := worker m;
         wq := wq_sync (adapter m) (adapter m) (wq m);
         clients := <[i := p]> (clients m) |}.
Proof.
  intros Hinv Hi.
  apply (client_neutral m i p p _ 0); try done.
  - apply gtrans_refl.
  - lia.
  - intros ? ?. by apply (holder_on m i p).
  - destruct Hinv as [_ _ [_ _ _ _ _ _ _ Htry] _]. intros t.
    by apply (Htry i p).
Qed.

Ltac close_step Hstep X :=
  cbv zeta in X;
  repeat match type of Hstep with
         | context [match ?e with pair _ _ => _ end] =>
             destruct e as [? ?]
         end;
  first [ injection Hstep as <- <-
        | injection Hstep as Hstep; rewrite Hstep in X ];
  exact X.

(** Every step of a client keeps the invariant, as long as no
    wait for a device-management command has timed out. *)
Lemma client_step_inv (m : machine) (i : nat) (l : clabel)
    (p p' : cpc) (h' : ufs_hba) :
  inv m -> inv_dev m -> clients m !! i = Some p ->
  l <> LDevWake false ->
  client_step l p (adapter m) = Some (p', h') ->
  inv {| adapter := h'; worker := worker m;
         wq := wq_sync (adapter m) h' (wq m);
         clients := <[i := p']> (clients m) |}.
Proof.
  intros Hinv Hdev Hi Hl Hstep.
  pose proof (inv_no_timeout m Hdev i p Hi) as Hnt.
  destruct l as [async | flush_result | | free_slot | | ready ucmd
                | completed | env ucmd | completed hcs | env c
                | | | | | | | | | | | | legacy_version err | | time_left
                | | | deadline | | | | ];
    destruct p as [ | | from_on | | slot | pcmd | re pret pcmd
                  | penv pc | penv pc | penv pc | pc | pc | perr pc
                  | tag | tag | tag | | tag | tag | tag | tag
                  | tag woke | tag | tag | tag cerr | tag val | tag | ];
    cbn [client_step] in Hstep; try discriminate Hstep;
    try discriminate Hnt.
  - pose proof (step_hold m i async Hinv Hi) as X.
    close_step Hstep X.
  - pose proof (step_resume m i _ flush_result Hinv Hi) as X.
    close_step Hstep X.
  - pose proof (step_release m i Hinv Hi) as X. close_step Hstep X.
  - pose proof (step_tm_issue m i free_slot Hinv Hi) as X.
    close_step Hstep X.
  - pose proof (step_tm_done m i _ Hinv Hi) as X. close_step Hstep X.
  - pose proof (step_uic_issue m i ready ucmd Hinv Hi) as X.
    close_step Hstep X.
  - pose proof (step_uic_done m i completed _ Hinv Hi) as X.
    close_step Hstep X.
  - destruct (ufshcd_is_link_broken (adapter m)).
    + pose proof (step_stay m i _ Hinv Hi) as X. close_step Hstep X.
    + pose proof (step_pwr_issue m i env ucmd Hinv Hi) as X.
      close_step Hstep X.
  - pose proof (step_pwr_done m i
                  (pwr_ctrl_ret pret completed hcs pcmd (adapter m))
                  _ _ _ Hinv Hi) as X.
    close_step Hstep X.
  - pose proof (step_qc_claim m i env c Hinv Hi) as X.
    close_step Hstep X.
  - pose proof (step_qc_hold m i _ _ Hinv Hi) as X. close_step Hstep X.
  - pose proof (step_qc_bind m i _ _ Hinv Hi) as X. close_step Hstep X.
  - pose proof (step_qc_compose m i _ _ Hinv Hi) as X.
    close_step Hstep X.
  - pose proof (step_qc_issue m i _ Hinv Hi) as X. close_step Hstep X.
  - pose proof (step_qc_out m i _ _ Hinv Hi) as X. close_step Hstep X.
  - pose proof (step_qc_release m i _ Hinv Hi) as X.
    close_step Hstep X.
  - pose proof (step_qc_unbind m i _ Hinv Hi) as X. close_step Hstep X.
  - pose proof (step_qc_unclaim m i _ Hinv Hi) as X.
    close_step Hstep X.
  - pose proof (step_dev_start m i Hinv Hi) as X. close_step Hstep X.
  - pose proof (step_dev_read m i Hinv Hi) as X.
    destruct (dev_cmd_tag_candidate _ _); close_step Hstep X.
  - pose proof (step_dev_test_and_set m i _ Hinv Hi) as X.
    close_step Hstep X.
  - pose proof (step_dev_compose m i legacy_version err _ Hinv Hi) as X.
    close_step Hstep X.
  - pose proof (step_dev_issue m i _ Hinv Hi) as X. close_step Hstep X.
  - destruct time_left; [| done].
    case_bool_decide as Hdone; [| discriminate Hstep].
    pose proof (step_dev_wake m i _ Hinv Hi
                  (inv_signalled m Hdev i _ Hi (eq_sym Hdone))) as X.
    close_step Hstep X.
  - destruct woke; [| discriminate Hnt].
    pose proof (step_dev_wait_locked m i _ Hinv Hi) as X.
    close_step Hstep X.
  - pose proof (step_dev_put m i _ Hinv Hi) as X. close_step Hstep X.
  - pose proof (step_dev_unlock m i Hinv Hi) as X. close_step Hstep X.
Qed.

End ClientSteps.

(** *** The interrupt handler *)

Lemma gtrans_active (g g' : ufs_clk_gating) (d : Z) :
  gtrans g g' d -> active_reqs g' = active_reqs g + d.
Proof.
  intros [(_ & ? & _) | _ (_ & ? & _) | _ _ (_ & ? & _)
         | d' _ _ (_ & ? & _) | k _ _ (_ & ? & _)
         | k _ _ ? (_ & ? & _)]; lia.
Qed.

Lemma gtrans_drop_after (g g1 g2 : ufs_clk_gating) (k : Z) :
  0 <= k -> gtrans g g1 (- k) -> gtrans g1 g2 (- 1) ->
  gtrans g g2 (- (k + 1)).
Proof.
  intros Hk H1 H2.
  assert (state g1 = CLKS_ON
          /\ is_suspended g2 = is_suspended g1
          /\ ungate_work_pending g2 = ungate_work_pending g1
          /\ ((state g2 = CLKS_ON /\ active_reqs g2 = active_reqs g1 - 1
               /\ gate_work_pending g2 = gate_work_pending g1)
              \/ (active_reqs g1 = 1 /\ state g2 = REQ_CLKS_OFF
                  /\ active_reqs g2 = 0 /\ gate_work_pending g2 = true)))
    as (Hs1 & Es & Eu & Hcase).
  { remember (- 1) as d eqn:Ed.
    destruct H2 as [? | ? ? | ? ? ? | d' [? | ?] ? ?
                   | k2 ? ? (? & ? & ? & ? & ?)
                   | k2 ? ? ? (? & ? & ? & ? & ?)]; try lia.
    - assert (k2 = 1) as -> by lia. split_and!; auto.
    - assert (k2 = 1) as -> by lia. split_and!; auto. }
  remember (- k) as d eqn:Ed.
  destruct H1 as [(? & ? & ? & ? & ?) | ? ? | ? ? ?
                 | d' [? | ?] ? (? & ? & ? & ? & ?)
                 | k1 ? ? (? & ? & ? & ? & ?)
                 | k1 ? ? ? (? & ? & ? & ? & ?)]; try lia;
    try congruence.
  - assert (k = 0) as -> by lia. change (- (0 + 1)) with (- (1)).
    destruct Hcase as [(? & ? & ?) | (? & ? & ? & ?)].
    + apply (gt_drop _ _ 1); [lia | congruence |].
      repeat split; congruence.
    + apply (gt_idle _ _ 1); [lia | congruence | congruence |].
      repeat split; congruence.
  - assert (k1 = k) as -> by lia.
    destruct Hcase as [(? & ? & ?) | (? & ? & ? & ?)].
    + apply (gt_drop _ _ (k + 1)); [lia | congruence |].
      repeat split; try congruence. lia.
    + apply (gt_idle _ _ (k + 1)); [lia | congruence | lia |].
      repeat split; congruence.
Qed.

Lemma gtrans_neg_state (g g' : ufs_clk_gating) (k : Z) :
  0 <= k -> gtrans g g' (- k) ->
  state g = CLKS_ON -> active_reqs g <> k -> state g' = CLKS_ON.
Proof.
  intros Hk H1 Hs Ha.
  remember (- k) as d eqn:Ed.
  destruct H1 as [(? & ? & ? & ? & ?) | ? ? | ? ? ?
                 | d' [? | ?] [? | [? ?]] (? & ? & ? & ? & ?)
                 | k1 ? ? (? & ? & ? & ? & ?)
                 | k1 ? ? ? (? & ? & ? & ? & ?)]; try lia;
    try congruence.
Qed.


Section EnvSteps.
Context `{UfsHeaders}.

Lemma clk_scaling_dec_fields (x : ufs_hba) :
  let y := clk_scaling_dec_active_reqs x in
  cap_clk_gating y = cap_clk_gating x
  /\ nutrs y = nutrs x
  /\ lrb y = lrb x
  /\ lrb_in_use y = lrb_in_use x
  /\ outstanding_reqs y = outstanding_reqs x
  /\ doorbell y = doorbell x
  /\ same_chan x y
  /\ clk_gating y = clk_gating x.
Proof.
  unfold clk_scaling_dec_active_reqs, same_chan.
  destruct (ufshcd_is_clkscaling_supported x); hred; by split_and!.
Qed.

Lemma release_locked_eq (x : ufs_hba) :
  __ufshcd_release x = ufshcd_release x.
Proof. reflexivity. Qed.

Lemma compl_slot (t : Z) (h : ufs_hba) :
  0 <= t < nutrs h ->
  Z.of_nat (length (lrb h)) = nutrs h ->
  cap_clk_gating h = true ->
  (slot_has_cmd h t = true ->
   Z.testbit (outstanding_reqs h) t = true
   /\ state (clk_gating h) = CLKS_ON
   /\ 1 <= active_reqs (clk_gating h) < 2 ^ 31) ->
  let h1 := transfer_req_compl_slot t h in
  (cap_clk_gating h1 = cap_clk_gating h
   /\ nutrs h1 = nutrs h
   /\ length (lrb h1) = length (lrb h)
   /\ outstanding_reqs h1 = outstanding_reqs h
   /\ doorbell h1 = doorbell h
   /\ same_chan h h1)
  /\ (forall t', 0 <= t' ->
        slot_has_cmd h1 t'
        = slot_has_cmd h t' && negb (bool_decide (t' = t)))
  /\ (forall t',
        Z.testbit (lrb_in_use h1) t'
        = Z.testbit (lrb_in_use h) t'
          && negb (bool_decide (t' = t) && slot_has_cmd h t))
  /\ (if slot_has_cmd h t
      then (inflight h1 + 1 = inflight h)%nat
           /\ gtrans (clk_gating h) (clk_gating h1) (- 1)
      else inflight h1 = inflight h /\ clk_gating h1 = clk_gating h).
Proof.
  intros Hr Hlen Hcap Hpre h1. subst h1.
  unfold transfer_req_compl_slot, transfer_req_compl_cmd.
  pose proof (eq_refl (slot_has_cmd h t)) as Hhc.
  unfold slot_has_cmd at 2 in Hhc.
  destruct (lrb_at h t) as [l |] eqn:Hl.
  2: { unfold lrb_at in Hl. apply lookup_ge_None in Hl. lia. }
  destruct (cmd l) as [c |] eqn:Hc.
  - rewrite bool_decide_eq_true_2 in Hhc by done. rewrite Hhc.
    destruct (Hpre Hhc) as (Hout & Hst & Ha).
    destruct (ufshcd_transfer_rsp_status h l) as [res evs].
    set (h0 := emit _ (set_lrb_in_use _ _)).
    rewrite (release_locked_eq h0).
    destruct (ufshcd_release_gtrans h0) as (Hs & Hch & Hg); try done.
    destruct Hs as (Ecap & En & El & Eu & Eo & Ed).
    destruct (clk_scaling_dec_fields (ufshcd_release h0))
      as (Fcap & Fn & Fl & Fu & Fo & Fd & Fch & Fg).
    revert Fcap Fn Fl Fu Fo Fd Fch Fg.
    generalize (clk_scaling_dec_active_reqs (ufshcd_release h0)).
    intros h2 Fcap Fn Fl Fu Fo Fd (Ft & Fa & Fy) Fg.
    destruct Hch as (Et & Ea & Ey).
    assert (lrb h2 = alter (lrb_set_cmd None) (Z.to_nat t) (lrb h)) as Hl2
        by (by rewrite Fl, El).
    assert (forall t', 0 <= t' ->
              slot_has_cmd h2 t'
              = slot_has_cmd h t' && negb (bool_decide (t' = t))) as Hh2.
    { intros t' Ht'. case_bool_decide as Hd; cbn [negb].
      - subst t'. rewrite Hhc. cbn [andb].
        erewrite slot_has_cmd_alter_eq with (c := None);
          [| exact Hl2 | lia | intros; reflexivity].
        apply bool_decide_eq_false_2. by intros ?.
      - rewrite andb_true_r.
        apply (slot_has_cmd_alter_ne h h2 _ t t' Hl2); lia. }
    split; [| split; [exact Hh2 | split; [| split]]].
    + rewrite Fcap, Ecap, Fn, En, Hl2, length_alter, Fo, Eo, Fd, Ed.
      unfold same_chan. rewrite Ft, Et, Fa, Ea, Fy, Ey. by split_and!.
    + intros t'. rewrite Fu, Eu. subst h0. unfold Bitops.clear_bit. hred.
      by rewrite testbit_clear_bit, andb_true_r.
    + unfold inflight. rewrite Fn, En.
      change (nutrs h0) with (nutrs h).
      pose proof (count_below_update (slot_busy h) (slot_busy h2)
                    (Z.to_nat (nutrs h)) t) as Hcu.
      assert (slot_busy h t = true) as Hb1
          by (unfold slot_busy; by rewrite Hout, Hhc).
      assert (slot_busy h2 t = false) as Hb2.
      { unfold slot_busy. rewrite Hh2, Hhc by lia.
        rewrite bool_decide_eq_true_2 by done. apply andb_false_r. }
      rewrite Hb1, Hb2, Nat.add_0_r in Hcu. apply Hcu; [lia |].
      intros t' Hne Hr'. unfold slot_busy. rewrite Fo, Eo, Hh2 by lia.
      rewrite bool_decide_eq_false_2 by done. by rewrite andb_true_r.
    + by rewrite Fg.
  - rewrite bool_decide_eq_false_2 in Hhc by (by intros ?). rewrite Hhc.
    match goal with
    | |- context [clk_scaling_dec_active_reqs ?x] =>
        assert (cap_clk_gating x = cap_clk_gating h /\ nutrs x = nutrs h
                /\ lrb x = lrb h /\ lrb_in_use x = lrb_in_use h
                /\ outstanding_reqs x = outstanding_reqs h
                /\ doorbell x = doorbell h /\ same_chan h x
                /\ clk_gating x = clk_gating h)
          as (Ecap & En & El & Eu & Eo & Ed & Ech & Eg)
          by (unfold same_chan;
              destruct (bool_decide _ || bool_decide _);
              [destruct (dev_cmd_complete h) |]; hred; by split_and!);
        destruct (clk_scaling_dec_fields x)
          as (Fcap & Fn & Fl & Fu & Fo & Fd & Fch & Fg);
        revert Ecap En El Eu Eo Ed Ech Eg Fcap Fn Fl Fu Fo Fd Fch Fg;
        generalize (clk_scaling_dec_active_reqs x); generalize x
    end.
    intros h0 h2 Ecap En El Eu Eo Ed (Et & Ea & Ey) Eg
           Fcap Fn Fl Fu Fo Fd (Ft & Fa & Fy) Fg.
    assert (lrb h2 = lrb h) as Hl2 by (by rewrite Fl, El).
    split; [| split; [| split; [| split]]].
    + rewrite Fcap, Ecap, Fn, En, Hl2, Fo, Eo, Fd, Ed.
      unfold same_chan. rewrite Ft, Et, Fa, Ea, Fy, Ey. by split_and!.
    + intros t' Ht'. rewrite (slot_has_cmd_same h h2 t' Hl2).
      case_bool_decide; [subst; by rewrite Hhc | by rewrite andb_true_r].
    + intros t'. by rewrite Fu, Eu, andb_false_r, andb_true_r.
    + apply inflight_same; congruence.
    + by rewrite Fg.
Qed.

Lemma busy_inflight (h : ufs_hba) (t : Z) :
  0 <= t < nutrs h -> slot_busy h t = true -> inflight h <> O.
Proof.
  intros Hr Hb Hz. unfold inflight in Hz.
  rewrite (count_below_zero _ _ t Hz) in Hb by lia. discriminate.
Qed.

Lemma compl_loop (completed : Z) (h : ufs_hba) (n : nat) :
  cap_clk_gating h = true ->
  Z.of_nat n <= nutrs h ->
  Z.of_nat (length (lrb h)) = nutrs h ->
  (forall t, 0 <= t < Z.of_nat n -> Z.testbit completed t = true ->
             Z.testbit (outstanding_reqs h) t = true) ->
  Z.of_nat (inflight h) <= active_reqs (clk_gating h) < 2 ^ 31 ->
  (inflight h <> O -> state (clk_gating h) = CLKS_ON) ->
  let h' := foldl (fun x index => transfer_req_compl_slot index x) h
              (Bitops.set_bits_below n completed) in
  (cap_clk_gating h' = cap_clk_gating h
   /\ nutrs h' = nutrs h
   /\ length (lrb h') = length (lrb h)
   /\ outstanding_reqs h' = outstanding_reqs h
   /\ doorbell h' = doorbell h
   /\ same_chan h h')
  /\ (forall t, 0 <= t ->
        slot_has_cmd h' t
        = slot_has_cmd h t
          && negb ((t <? Z.of_nat n) && Z.testbit completed t))
  /\ (forall t,
        Z.testbit (lrb_in_use h') t
        = Z.testbit (lrb_in_use h) t
          && negb ((0 <=? t) && (t <? Z.of_nat n)
                   && Z.testbit completed t && slot_has_cmd h t))
  /\ exists k : nat,
       (inflight h' + k = inflight h)%nat
       /\ gtrans (clk_gating h) (clk_gating h') (- Z.of_nat k).
Proof.
  intros Hcap Hn Hlen Hout Hact Hon.
  induction n as [| n IH]; intros h'; subst h'.
  - cbn [Bitops.set_bits_below foldl]. split_and!; try done.
    + intros t Ht. destruct (Z.ltb_spec t (Z.of_nat 0)); [lia |].
      apply eq_sym, andb_true_r.
    + intros t.
      destruct (Z.leb_spec 0 t), (Z.ltb_spec t (Z.of_nat 0)); try lia;
        apply eq_sym, andb_true_r.
    + exists O. split; [lia | apply gtrans_refl].
  - cbn [Bitops.set_bits_below]. rewrite foldl_app.
    destruct IH as ((Ecap & En & El & Eo & Ed & Et & Ea & Ey)
                    & Hhc & Hiu & k & Hk & Hg);
      [lia | intros; apply Hout; [lia | assumption] |].
    revert Ecap En El Eo Ed Et Ea Ey Hhc Hiu Hk Hg.
    generalize (foldl (fun x index => transfer_req_compl_slot index x) h
                  (Bitops.set_bits_below n completed)).
    intros h1 Ecap En El Eo Ed Et Ea Ey Hhc Hiu Hk Hg.
    destruct (Z.testbit completed (Z.of_nat n)) eqn:Hc; cbn [foldl].
    + assert (slot_has_cmd h1 (Z.of_nat n) = slot_has_cmd h (Z.of_nat n))
        as Hsame.
      { rewrite Hhc by lia. rewrite Z.ltb_irrefl. apply andb_true_r. }
      destruct (compl_slot (Z.of_nat n) h1)
        as ((Fcap & Fn & Fl & Fo & Fd & Ft & Fa & Fy) & Fhc & Fiu & Fk);
        [lia | lia | congruence | |].
      { intros Hb.
        assert (slot_busy h1 (Z.of_nat n) = true) as Hbusy.
        { unfold slot_busy. rewrite Hb, Eo, Hout by (lia || done).
          reflexivity. }
        apply busy_inflight in Hbusy; [| lia].
        pose proof (gtrans_active _ _ _ Hg) as Hga.
        rewrite Eo. split; [apply Hout; [lia | done] |].
        split; [| lia].
        apply (gtrans_neg_state (clk_gating h) _ (Z.of_nat k));
          [lia | done | |].
        - apply Hon. lia.
        - lia. }
      revert Fcap Fn Fl Fo Fd Ft Fa Fy Fhc Fiu Fk.
      generalize (transfer_req_compl_slot (Z.of_nat n) h1).
      intros h2 Fcap Fn Fl Fo Fd Ft Fa Fy Fhc Fiu Fk.
      split; [| split; [| split]].
      * unfold same_chan. split_and!; congruence.
      * intros t Ht. rewrite Fhc, Hhc by lia.
        destruct (slot_has_cmd h t); cbn [andb]; [| reflexivity].
        case_bool_decide as Htn.
        -- subst t. rewrite Hc, andb_false_r.
           destruct (Z.ltb_spec (Z.of_nat n) (Z.of_nat (S n))); [| lia].
           reflexivity.
        -- rewrite andb_true_r.
           destruct (Z.ltb_spec t (Z.of_nat n)),
             (Z.ltb_spec t (Z.of_nat (S n))); try lia; reflexivity.
      * intros t. rewrite Fiu, Hiu, Hsame.
        destruct (Z.testbit (lrb_in_use h) t); cbn [andb];
          [| reflexivity].
        case_bool_decide as Htn.
        -- subst t. rewrite Hc, Z.ltb_irrefl.
           destruct (Z.leb_spec 0 (Z.of_nat n)),
             (Z.ltb_spec (Z.of_nat n) (Z.of_nat (S n))); try lia.
           reflexivity.
        -- rewrite andb_true_r.
           destruct (Z.ltb_spec t (Z.of_nat n)),
             (Z.ltb_spec t (Z.of_nat (S n))); try lia; reflexivity.
      * destruct (slot_has_cmd h1 (Z.of_nat n)).
        -- destruct Fk as [Fk Fg]. exists (S k). split; [lia |].
           replace (- Z.of_nat (S k)) with (- (Z.of_nat k + 1)) by lia.
           apply (gtrans_drop_after _ (clk_gating h1)); [lia | done..].
        -- destruct Fk as [Fk Fg]. exists k. split; [lia |].
           by rewrite Fg.
    + split; [| split; [| split]].
      * by split_and!.
      * intros t Ht. rewrite Hhc by lia.
        destruct (slot_has_cmd h t); cbn [andb]; [| reflexivity].
        destruct (Z.ltb_spec t (Z.of_nat n)),
          (Z.ltb_spec t (Z.of_nat (S n))); try lia; cbn [andb];
          try reflexivity.
        assert (t = Z.of_nat n) as -> by lia. by rewrite Hc.
      * intros t. rewrite Hiu.
        destruct (Z.testbit (lrb_in_use h) t); cbn [andb];
          [| reflexivity].
        destruct (Z.ltb_spec t (Z.of_nat n)),
          (Z.ltb_spec t (Z.of_nat (S n))); try lia; try reflexivity.
        assert (t = Z.of_nat n) as -> by lia.
        by rewrite Hc, !andb_false_r.
      * by exists k.
Qed.

(** A step of the interrupt handler or of the hardware, from what it
    does to the adapter. *)
Lemma env_inv (m : machine) (h' : ufs_hba) (d : Z) :
  inv m ->
  cap_clk_gating h' = cap_clk_gating (adapter m) ->
  nutrs h' = nutrs (adapter m) ->
  length (lrb h') = length (lrb (adapter m)) ->
  gtrans (clk_gating (adapter m)) (clk_gating h') d ->
  d <= 0 ->
  Z.of_nat (inflight h') = Z.of_nat (inflight (adapter m)) + d ->
  inv_slots {| adapter := h'; worker := worker m;
               wq := wq_sync (adapter m) h' (wq m);
               clients := clients m |} ->
  inv_chan {| adapter := h'; worker := worker m;
              wq := wq_sync (adapter m) h' (wq m);
              clients := clients m |} ->
  inv {| adapter := h'; worker := worker m;
         wq := wq_sync (adapter m) h' (wq m);
         clients := clients m |}.
Proof.
  intros [[Hcap Hnu Hlrb Hbd] Hg Hs Hc] Ecap En El Ht Hd Hfl Hs' Hc'.
  split; [| | exact Hs' | exact Hc'].
  - split; cbn [adapter clients]; rewrite ?Ecap, ?En, ?El; assumption.
  - apply (gating_step m _ d); auto; cbn [adapter clients].
    + lia.
    + intros _ Hz Hall. split; [lia | exact Hall].
Qed.

Lemma chan_frame (m : machine) (h' : ufs_hba) (q : list gating_work) :
  inv_chan m -> same_chan (adapter m) h' ->
  inv_chan {| adapter := h'; worker := worker m; wq := q;
              clients := clients m |}.
Proof.
  intros Hc (Et & Ea & Ey).
  apply (chan_worker m); cbn [adapter clients worker]; auto.
  - rewrite Ea. intros ?. right. auto.
  - rewrite Ey. intros ?. right. auto.
Qed.

(** A step that changes nothing the invariant looks at. *)
Lemma env_frame (m : machine) (h' : ufs_hba) :
  inv m -> same_slots (adapter m) h' -> same_chan (adapter m) h' ->
  clk_gating h' = clk_gating (adapter m) ->
  inv {| adapter := h'; worker := worker m;
         wq := wq_sync (adapter m) h' (wq m);
         clients := clients m |}.
Proof.
  intros Hinv Hs Hch Hg.
  pose proof Hs as (Ecap & En & El & _).
  apply (env_inv m h' 0); auto.
  - by rewrite El.
  - by apply gtrans_same.
  - lia.
  - rewrite (inflight_same_slots _ _ Hs). lia.
  - apply (slots_frame m); [by destruct Hinv | done | done].
  - apply chan_frame; [by destruct Hinv | done].
Qed.

Lemma step_run_state (m : machine) (v : Z) :
  inv m ->
  let h' := set_ufshcd_state v (adapter m) in
  inv {| adapter := h'; worker := worker m;
         wq := wq_sync (adapter m) h' (wq m);
         clients := clients m |}.
Proof. intros Hinv h'. by apply env_frame. Qed.

Lemma step_hw_complete (m : machine) (mask : Z) :
  inv m ->
  let h' := set_doorbell (Z.ldiff (doorbell (adapter m)) mask)
              (adapter m) in
  inv {| adapter := h'; worker := worker m;
         wq := wq_sync (adapter m) h' (wq m);
         clients := clients m |}.
Proof.
  intros Hinv h'. subst h'.
  apply (env_inv m _ 0); try done.
  - apply gtrans_refl.
  - rewrite Z.add_0_r. reflexivity.
  - destruct Hinv as [_ _ [Hout Hdoor Hown Huniq Hfree Hb Hu Htry] _].
    split; hred; try done.
    intros t. rewrite Z.ldiff_spec.
    intros [? _]%andb_true_iff. auto.
  - apply chan_frame; [by destruct Hinv | done].
Qed.

Lemma uic_cmd_compl_frame (st a2 a3 : Z) (h : ufs_hba) :
  let h' := snd (ufshcd_uic_cmd_compl st a2 a3 h) in
  same_slots h h' /\ clk_gating h' = clk_gating h
  /\ outstanding_tasks h' = outstanding_tasks h
  /\ uic_async_done h' = uic_async_done h
  /\ (active_uic_cmd h' <> None -> active_uic_cmd h <> None).
Proof.
  unfold ufshcd_uic_cmd_compl, same_slots.
  destruct (active_uic_cmd h) as [c |] eqn:Ha;
    [destruct (negb (Z.land st UIC_COMMAND_COMPL =? 0)) |];
    destruct (negb (Z.land st UFSHCD_UIC_PWR_MASK =? 0));
    destruct (uic_async_done h) eqn:Hy; hred; rewrite ?Ha, ?Hy; hred;
    split_and!; try done; rewrite ?Ha; hred; done.
Qed.

Lemma step_irq_uic (m : machine) (st a2 a3 : Z) :
  inv m ->
  let h' := snd (ufshcd_uic_cmd_compl st a2 a3 (adapter m)) in
  inv {| adapter := h'; worker := worker m;
         wq := wq_sync (adapter m) h' (wq m);
         clients := clients m |}.
Proof.
  intros Hinv h'. subst h'.
  destruct (uic_cmd_compl_frame st a2 a3 (adapter m))
    as (Hs & Hg & Ht & Hy & Ha).
  pose proof Hs as (Ecap & En & El & _).
  apply (env_inv m _ 0); auto.
  - by rewrite El.
  - by apply gtrans_same.
  - lia.
  - rewrite (inflight_same_slots _ _ Hs). lia.
  - apply (slots_frame m); [by destruct Hinv | done | done].
  - apply (chan_worker m); cbn [adapter clients worker]; auto;
      try (by destruct Hinv).
    rewrite Hy. intros ?. right. auto.
Qed.

Lemma issued_roles (p : cpc) (t : Z) :
  issued p = Some t -> owner p = Some t /\ unbinds p = Some t.
Proof. destruct p; cbn; repeat case_match; intros [= ->]; auto. Qed.

Lemma binds_roles (p : cpc) (t : Z) :
  binds p = Some t -> owner p = Some t /\ issued p = None.
Proof. destruct p; cbn; repeat case_match; intros [= ->]; auto. Qed.

Lemma unbinds_owner (p : cpc) (t : Z) :
  unbinds p = Some t -> owner p = Some t.
Proof. destruct p; cbn; repeat case_match; intros [= ->]; auto. Qed.

(** [__ufshcd_transfer_req_compl] on the set [ufshcd_transfer_req_compl]
    computes, from an adapter that agrees with the machine's on
    everything but the log. *)
Lemma compl_inv (m : machine) (h0 : ufs_hba) :
  inv m ->
  same_slots (adapter m) h0 -> same_chan (adapter m) h0 ->
  clk_gating h0 = clk_gating (adapter m) ->
  let h' := __ufshcd_transfer_req_compl (completed_reqs_of h0) h0 in
  inv {| adapter := h'; worker := worker m;
         wq := wq_sync (adapter m) h' (wq m);
         clients := clients m |}.
Proof.
  intros Hinv (Ecap & En & El & Eu & Eo & Ed) (Et & Ea & Ey) Eg h'.
  pose proof Hinv as [[Hcap Hnu Hlrb Hbd] Hgt Hsl Hch].
  pose proof Hsl as [Hout Hdoor Hown Huniq Hfree Hb Hub Htry].
  pose proof (active_range m Hinv) as Hrange.
  pose proof (inv_refs m Hgt) as Hrefs.
  set (c := completed_reqs_of h0) in *.
  assert (forall t, Z.testbit c t
                    = Z.testbit (outstanding_reqs (adapter m)) t
                      && negb (Z.testbit (doorbell (adapter m)) t))
    as Hc.
  { intros t. subst c. unfold completed_reqs_of, ufshcd_readl_doorbell.
    rewrite Z.lxor_spec, testbit_uint32, Eo, Ed.
    destruct (Z.testbit (doorbell (adapter m)) t) eqn:Hd.
    - rewrite (Hdoor t Hd). destruct (Hout t (Hdoor t Hd)) as (? & _).
      destruct (Z.ltb_spec t 32); [reflexivity | lia].
    - by destruct (Z.testbit (outstanding_reqs (adapter m)) t). }
  destruct (compl_loop c h0 (Z.to_nat (nutrs h0)))
    as ((Fcap & Fn & Fl & Fo & Fd & Ft & Fa & Fy) & Fhc & Fiu & k & Fk & Fg).
  { congruence. }
  { lia. }
  { rewrite El, En. exact Hlrb. }
  { intros t _ Ht. rewrite Hc in Ht. rewrite Eo.
    by apply andb_true_iff in Ht as [? _]. }
  { rewrite (inflight_same_slots (adapter m) h0), Eg by (by repeat split).
    lia. }
  { rewrite (inflight_same_slots (adapter m) h0), Eg by (by repeat split).
    intros Hnz.
    destruct (decide (state (clk_gating (adapter m)) = CLKS_ON))
      as [? | Hne]; [done |].
    destruct (inv_on m Hgt Hne) as [? _]. done. }
  subst h'. unfold __ufshcd_transfer_req_compl, Bitops.for_each_set_bit.
  revert Fcap Fn Fl Fo Fd Ft Fa Fy Fhc Fiu Fk Fg.
  generalize (foldl (fun h index => transfer_req_compl_slot index h) h0
                (Bitops.set_bits_below (Z.to_nat (nutrs h0)) c)).
  intros hL Fcap Fn Fl Fo Fd Ft Fa Fy Fhc Fiu Fk Fg.
  rewrite Z2Nat.id in Fhc, Fiu by lia. rewrite En in Fhc, Fiu.
  assert (forall t, 0 <= t ->
            slot_has_cmd hL t
            = slot_has_cmd (adapter m) t
              && negb ((t <? nutrs (adapter m)) && Z.testbit c t))
    as Fhc'.
  { intros t Ht. by rewrite Fhc, (slot_has_cmd_same _ _ t El). }
  assert (forall t, Z.testbit (Z.lxor (outstanding_reqs hL) c) t
                    = Z.testbit (doorbell (adapter m)) t) as Ho'.
  { intros t. rewrite Z.lxor_spec, Fo, Eo, Hc.
    destruct (Z.testbit (doorbell (adapter m)) t) eqn:Hd.
    - by rewrite (Hdoor t Hd).
    - by destruct (Z.testbit (outstanding_reqs (adapter m)) t). }
  assert (forall t, 0 <= t < nutrs (adapter m) ->
            slot_busy (emit EvWakeUpTagWq
                         (set_outstanding_reqs
                            (Z.lxor (outstanding_reqs hL) c) hL)) t
            = slot_busy hL t) as Hbusy.
  { intros t Ht. unfold slot_busy. hred. rewrite Ho', Fo, Eo.
    change (slot_has_cmd (emit _ (set_outstanding_reqs _ hL)) t)
      with (slot_has_cmd hL t).
    rewrite Fhc' by lia. rewrite Hc.
    destruct (Z.testbit (doorbell (adapter m)) t) eqn:Hd.
    - by rewrite (Hdoor t Hd).
    - destruct (Z.testbit (outstanding_reqs (adapter m)) t); [| done].
      destruct (Z.ltb_spec t (nutrs (adapter m))); [| lia].
      cbn. by rewrite andb_false_r. }
  apply (env_inv m _ (- Z.of_nat k)); hred.
  - done.
  - congruence.
  - congruence.
  - congruence.
  - by rewrite <- Eg.
  - lia.
  - assert (inflight (emit EvWakeUpTagWq
                        (set_outstanding_reqs
                           (Z.lxor (outstanding_reqs hL) c) hL))
            = inflight hL) as ->.
    { unfold inflight. hred. apply count_below_ext. intros t Ht.
      apply Hbusy. rewrite Fn, En in Ht. lia. }
    rewrite <- (inflight_same_slots (adapter m) h0) by (by repeat split).
    lia.
  - split; hred; rewrite ?Fn, ?En.
    + intros t Ht. rewrite Ho' in Ht.
      destruct (Hout t (Hdoor t Ht)) as (Hr & Hiu & Hor).
      assert (Z.testbit c t = false) as Hct
          by (by rewrite Hc, Ht, andb_false_r).
      split; [done | split].
      * by rewrite Fiu, Eu, Hiu, Hct, andb_false_r.
      * change (slot_has_cmd (emit _ (set_outstanding_reqs _ hL)) t)
          with (slot_has_cmd hL t).
        rewrite Fhc', Hct, andb_false_r, andb_true_r by lia. done.
    + intros t. rewrite Fd, Ed, Ho'. done.
    + intros i p t Hi Hp. destruct (Hown i p t Hi Hp) as (Hr & Hiu).
      split; [done |]. rewrite Fiu, Eu, Hiu.
      rewrite (slot_has_cmd_same _ _ t El).
      destruct (issued p) as [u |] eqn:Hiss.
      * destruct (issued_roles p u Hiss) as [Ho Hu].
        assert (u = t) as -> by congruence.
        by rewrite (Hub i p t Hi Hu), andb_false_r.
      * by rewrite Hc, (Hfree i p t Hi Hp Hiss), !andb_false_r.
    + exact Huniq.
    + intros i p t Hi Hp Hiss. rewrite Ho'.
      destruct (Z.testbit (doorbell (adapter m)) t) eqn:Hd; [| done].
      rewrite <- (Hfree i p t Hi Hp Hiss). symmetry. by apply Hdoor.
    + intros i p t Hi Hp.
      destruct (binds_roles p t Hp) as [Ho Hiss].
      destruct (Hown i p t Hi Ho) as (Hr & _).
      change (slot_has_cmd (emit _ (set_outstanding_reqs _ hL)) t)
        with (slot_has_cmd hL t).
      rewrite Fhc', Hc, (Hfree i p t Hi Ho Hiss) by lia.
      rewrite andb_false_r, andb_true_r. by apply (Hb i p).
    + intros i p t Hi Hp.
      destruct (Hown i p t Hi (unbinds_owner p t Hp)) as (Hr & _).
      change (slot_has_cmd (emit _ (set_outstanding_reqs _ hL)) t)
        with (slot_has_cmd hL t).
      rewrite Fhc' by lia. by rewrite (Hub i p t Hi Hp).
    + exact Htry.
  - apply chan_frame; [done |]. unfold same_chan. hred.
    split_and!; congruence.
Qed.

Lemma step_irq_transfer (m : machine) :
  inv m ->
  let h' := snd (ufshcd_transfer_req_compl (adapter m)) in
  inv {| adapter := h'; worker := worker m;
         wq := wq_sync (adapter m) h' (wq m);
         clients := clients m |}.
Proof.
  intros Hinv h'. subst h'. unfold ufshcd_transfer_req_compl.
  match goal with
  | |- context [completed_reqs_of ?x] =>
      assert (same_slots (adapter m) x /\ same_chan (adapter m) x
              /\ clk_gating x = clk_gating (adapter m))
        as (Hs & Hc & Hg)
        by (unfold ufshcd_reset_intr_aggr, ufshcd_writel, same_slots,
              same_chan;
            destruct (ufshcd_is_intr_aggr_allowed _ && _); hred;
            by split_and!);
      pose proof (compl_inv m x Hinv Hs Hc Hg) as X;
      revert Hs Hc Hg X; generalize x
  end.
  intros h0 Hs Hc Hg X.
  destruct (negb (completed_reqs_of h0 =? 0)); cbn [snd].
  - exact X.
  - by apply env_frame.
Qed.

(** Every step of the hardware and of the interrupt handler keeps the
    invariant. *)
Lemma env_step_inv (m : machine) (l : elabel) :
  inv m ->
  inv {| adapter := env_step l (adapter m); worker := worker m;
         wq := wq_sync (adapter m) (env_step l (adapter m)) (wq m);
         clients := clients m |}.
Proof.
  intros Hinv. destruct l; cbn [env_step].
  - by apply step_hw_complete.
  - by apply step_irq_transfer.
  - by apply step_irq_uic.
  - by apply step_run_state.
Qed.

End EnvSteps.


(** *** The worker *)

Section WorkerSteps.
Context `{UfsHeaders}.

(** A step of the worker, from what it does to the gating record and
    to the channel. *)
Lemma worker_inv (m : machine) (h' : ufs_hba) (w' : wpc)
    (q' : list gating_work) :
  inv m ->
  same_slots (adapter m) h' ->
  inv_gating {| adapter := h'; worker := w'; wq := q';
                clients := clients m |} ->
  outstanding_tasks h' = outstanding_tasks (adapter m) ->
  (active_uic_cmd h' <> None ->
   worker_uic w' = true
   \/ (active_uic_cmd (adapter m) <> None
       /\ (worker_uic (worker m) = true -> worker_uic w' = true))) ->
  (uic_async_done h' = true ->
   worker_uic w' = true
   \/ (uic_async_done (adapter m) = true
       /\ (worker_uic (worker m) = true -> worker_uic w' = true))) ->
  inv {| adapter := h'; worker := w'; wq := q'; clients := clients m |}.
Proof.
  intros [[Hcap Hnu Hlrb Hbd] Hg Hs Hc] Hss Hg' Et Ca Cy.
  pose proof Hss as (Ecap & En & El & _).
  split; [| exact Hg' | |].
  - split; cbn [adapter clients]; rewrite ?Ecap, ?En, ?El; assumption.
  - by apply (slots_frame m).
  - by apply (chan_worker m).
Qed.

(** A step of a busy worker that leaves the queue, the two pending
    flags and the reference count alone, and the state either as it
    is or at [CLKS_ON]. *)
Lemma gating_keep (m : machine) (h' : ufs_hba) (w' : wpc) :
  inv_gating m ->
  worker m <> WIdle ->
  same_slots (adapter m) h' ->
  active_reqs (clk_gating h') = active_reqs (clk_gating (adapter m)) ->
  gate_work_pending (clk_gating h')
  = gate_work_pending (clk_gating (adapter m)) ->
  ungate_work_pending (clk_gating h')
  = ungate_work_pending (clk_gating (adapter m)) ->
  state (clk_gating h') = state (clk_gating (adapter m))
  \/ state (clk_gating h') = CLKS_ON ->
  (worker_committed w' = true -> state (clk_gating h') <> CLKS_OFF) ->
  (worker_gate w' = true ->
   worker_gate (worker m) = true
   /\ state (clk_gating h') = state (clk_gating (adapter m))) ->
  (state (clk_gating h') = CLKS_OFF -> w' = WIdle) ->
  inv_gating {| adapter := h'; worker := w'; wq := wq m;
                clients := clients m |}.
Proof.
  intros [Hrefs Hon Hoff Hwq Hcom Hup Hgr Hgf Hog] Hw Hs Ea Eg Eu Est
         Pc Pg Po.
  pose proof (inflight_same_slots _ _ Hs) as Hfl.
  split; cbn [adapter worker wq clients]; rewrite ?Ea, ?Eg, ?Eu, ?Hfl.
  - exact Hrefs.
  - intros Hne. apply Hon. destruct Est as [<- | ?]; done.
  - intros Hst. apply Hoff. destruct Est as [<- | E]; [done |].
    rewrite E in Hst. by destruct Hst.
  - exact Hwq.
  - exact Pc.
  - intros Hu E. destruct Est as [E' | E']; [| congruence].
    rewrite E' in E. by apply Hup.
  - intros Hg' Hu. destruct (Pg Hg') as [Hg0 ->]. by apply Hgr.
  - intros E. by destruct (Hgf E) as [_ ?].
  - intros E _. by apply Po.
Qed.

Lemma step_dequeue_gate (m : machine) (q : list gating_work) :
  inv m -> worker m = WIdle -> wq m = GATE_WORK :: q ->
  inv {| adapter := set_cg_gate_work_pending false (adapter m);
         worker := WGateStart; wq := q; clients := clients m |}.
Proof.
  intros Hinv Hw Hq.
  pose proof Hinv as [_ [Hrefs Hon Hoff Hwq Hcom Hup Hgr Hgf Hog] _ _].
  rewrite Hq in Hwq, Hgf.
  assert (gate_work_pending (clk_gating (adapter m)) = true
          /\ q = if ungate_work_pending (clk_gating (adapter m))
                 then [UNGATE_WORK] else []) as [Eg Eq].
  { destruct Hwq as [Hwq | [Hwq _]]; [| discriminate].
    destruct (gate_work_pending (clk_gating (adapter m))),
      (ungate_work_pending (clk_gating (adapter m)));
      cbn in Hwq; try discriminate; injection Hwq as ->; done. }
  apply worker_inv; try done; hred.
  - split; hred; try done.
    + left. by rewrite Eq.
    + intros _ Hu. split; [| done]. rewrite Hu in Eq. subst q.
      by destruct (Hgf eq_refl).
    + intros E. rewrite Eq in E. by destruct (ungate_work_pending _).
  - intros ?. right. split; [done |]. by rewrite Hw.
  - intros ?. right. split; [done |]. by rewrite Hw.
Qed.

Lemma step_dequeue_ungate (m : machine) (q : list gating_work) :
  inv m -> worker m = WIdle -> wq m = UNGATE_WORK :: q ->
  inv {| adapter := set_cg_ungate_work_pending false (adapter m);
         worker := WUngateStart; wq := q; clients := clients m |}.
Proof.
  intros Hinv Hw Hq.
  pose proof Hinv as [_ [Hrefs Hon Hoff Hwq Hcom Hup Hgr Hgf Hog] _ _].
  rewrite Hq in Hwq.
  assert (ungate_work_pending (clk_gating (adapter m)) = true
          /\ q = if gate_work_pending (clk_gating (adapter m))
                 then [GATE_WORK] else []) as [Eu Eq].
  { destruct Hwq as [Hwq | (Hwq & -> & ->)];
      [| by injection Hwq as ->].
    destruct (gate_work_pending (clk_gating (adapter m))),
      (ungate_work_pending (clk_gating (adapter m)));
      cbn in Hwq; try discriminate; injection Hwq as ->; done. }
  apply worker_inv; try done; hred.
  - split; hred; try done.
    + left. rewrite Eq. by rewrite app_nil_r.
    + intros _. by apply Hup.
    + intros E. rewrite Eq in E. by destruct (gate_work_pending _).
    + intros E. by destruct (Hup Eu).
  - intros ?. right. split; [done |]. by rewrite Hw.
  - intros ?. right. split; [done |]. by rewrite Hw.
Qed.

Ltac worker_keep Hinv Hw :=
  apply worker_inv;
  [ exact Hinv
  | hred; by repeat split
  | apply gating_keep;
    [ by destruct Hinv
    | rewrite Hw; discriminate
    | hred; by repeat split
    | hred; reflexivity
    | hred; reflexivity
    | hred; reflexivity
    | hred; rewrite ?Hw
    | hred; rewrite ?Hw; cbn [worker_committed]
    | hred; rewrite ?Hw; cbn [worker_gate]
    | hred; rewrite ?Hw ]
  | hred; try reflexivity
  | hred; rewrite ?Hw; cbn [worker_uic]
  | hred; rewrite ?Hw; cbn [worker_uic] ];
  try done; try (by left); try (by right);
  try (intros ?; right; by split).

Lemma committed_on (m : machine) :
  inv m -> worker_committed (worker m) = true ->
  state (clk_gating (adapter m)) <> CLKS_OFF.
Proof. intros [_ [_ _ _ _ Hcom _ _ _ _] _ _]. exact Hcom. Qed.

Lemma step_gate_start (m : machine) :
  inv m -> worker m = WGateStart ->
  let r := ufshcd_gate_work_check (adapter m) in
  inv {| adapter := snd r;
         worker := if fst r
                   then if ufshcd_can_hibern8_during_gating (snd r)
                        then WGateH8 else WGateClocks
                   else WIdle;
         wq := wq m; clients := clients m |}.
Proof.
  intros Hinv Hw r. subst r. unfold ufshcd_gate_work_check.
  destruct (OPLUS_FEATURE_UFS_DRIVER && _); cbn [fst snd].
  { worker_keep Hinv Hw. }
  destruct (is_suspended _ || bool_decide _) eqn:Hc; cbn [fst snd].
  { worker_keep Hinv Hw. }
  destruct (gating_blocked (adapter m)); cbn [fst snd].
  { worker_keep Hinv Hw. }
  apply orb_false_iff in Hc as [_ Hst].
  apply bool_decide_eq_false in Hst.
  assert (state (clk_gating (adapter m)) = REQ_CLKS_OFF) as Est
      by (destruct (decide (state (clk_gating (adapter m))
                            = REQ_CLKS_OFF));
          [done | exfalso; by apply Hst]).
  destruct (ufshcd_can_hibern8_during_gating (adapter m));
    worker_keep Hinv Hw; rewrite Est; done.
Qed.

Lemma h8_issue_frame (opcode : Z) (env : pwr_env)
    (wait : bool -> Z -> wpc) (ret : Z -> wpc) (h : ufs_hba) :
  let r := worker_h8_issue opcode env wait ret h in
  same_slots h (snd r) /\ clk_gating (snd r) = clk_gating h
  /\ outstanding_tasks (snd r) = outstanding_tasks h
  /\ ((exists re x, fst r = wait re x)
      \/ ((exists x, fst r = ret x)
          /\ active_uic_cmd (snd r) = active_uic_cmd h
          /\ uic_async_done (snd r) = uic_async_done h)).
Proof.
  unfold worker_h8_issue, ufshcd_uic_pwr_ctrl_issue,
    __ufshcd_send_uic_cmd, ufshcd_dispatch_uic_cmd, ufshcd_writel,
    same_slots.
  destruct (ufshcd_is_link_broken h); cbn [fst snd].
  - split_and!; try done. right. eauto.
  - destruct (pe_intr_enabled env), (negb (pe_ready env)); hred;
      (split_and!; try done); left; eauto.
Qed.

Lemma h8_finish_frame (opcode : Z) (o : woracle) (re : bool) (x : Z)
    (ret : Z -> wpc) (h : ufs_hba) :
  let r := worker_h8_finish opcode o re x ret h in
  same_slots h (snd r) /\ clk_gating (snd r) = clk_gating h
  /\ outstanding_tasks (snd r) = outstanding_tasks h
  /\ (exists y, fst r = ret y)
  /\ active_uic_cmd (snd r) = None
  /\ uic_async_done (snd r) = false.
Proof.
  unfold worker_h8_finish, ufshcd_uic_pwr_ctrl_finish, same_slots.
  cbn [fst snd].
  destruct re, (negb (_ =? 0)); hred; split_and!; eauto.
Qed.

(** The worker in [ufshcd_uic_pwr_ctrl], on the gate and on the
    ungate side. *)
Lemma step_h8 (m : machine) (w' : wpc) (h' : ufs_hba) :
  inv m ->
  worker_committed (worker m) = true ->
  worker_committed w' = true ->
  worker_gate w' = worker_gate (worker m) ->
  same_slots (adapter m) h' ->
  clk_gating h' = clk_gating (adapter m) ->
  outstanding_tasks h' = outstanding_tasks (adapter m) ->
  worker_uic w' = true
  \/ (worker_uic w' = false
      /\ ((active_uic_cmd h' = None /\ uic_async_done h' = false)
          \/ (worker_uic (worker m) = false
              /\ active_uic_cmd h' = active_uic_cmd (adapter m)
              /\ uic_async_done h' = uic_async_done (adapter m)))) ->
  inv {| adapter := h'; worker := w'; wq := wq m;
         clients := clients m |}.
Proof.
  intros Hinv Hc Hc' Hg Hs Eg Et Hu.
  pose proof (committed_on m Hinv Hc) as Hon.
  apply worker_inv; try done.
  - apply gating_keep; rewrite ?Eg; try done.
    + by destruct Hinv.
    + intros E. by rewrite E in Hc.
    + by left.
    + intros E. by rewrite <- Hg.
  - intros Ha. destruct Hu as [? | (_ & [[E _] | (Hw & E & _)])];
      [by left | done |]. right. rewrite <- E. split; [done |].
    by rewrite Hw.
  - intros Ha. destruct Hu as [? | (_ & [[_ E] | (Hw & _ & E)])];
      [by left | congruence |]. right. rewrite <- E. split; [done |].
    by rewrite Hw.
Qed.

(** Every step of the worker keeps the invariant. *)
Lemma worker_step_inv (m : machine) (o : woracle) (w' : wpc)
    (q' : list gating_work) (h' : ufs_hba) :
  inv m ->
  worker_step o (worker m) (wq m) (adapter m) = Some (w', q', h') ->
  inv {| adapter := h'; worker := w'; wq := q'; clients := clients m |}.
Proof.
  intros Hinv Hstep.
  destruct (worker m) as [ | | | re ret | ret | | | | | | | | | re ret
                         | ret | ] eqn:Hw;
    cbn [worker_step] in Hstep.
  - (* idle: take the oldest work *)
    destruct (wq m) as [| [|] q] eqn:Hq; [discriminate | |];
      injection Hstep as <- <- <-.
    + by apply step_dequeue_gate.
    + by apply step_dequeue_ungate.
  - pose proof (step_gate_start m Hinv Hw) as X. cbv zeta in X.
    destruct (ufshcd_gate_work_check (adapter m)) as [go h1].
    injection Hstep as <- <- <-. exact X.
  - (* hibern8 enter, first critical section *)
    match type of Hstep with
    | context [worker_h8_issue ?a ?b ?c ?d ?e] =>
        destruct (h8_issue_frame a b c d e) as (Hs & Eg & Et & Hr);
        destruct (worker_h8_issue a b c d e) as [w1 h1]
    end.
    injection Hstep as <- <- <-. cbn [fst snd] in *.
    apply step_h8; rewrite ?Hw; try done.
    + by destruct Hr as [(? & ? & ->) | [[? ->] _]].
    + by destruct Hr as [(? & ? & ->) | [[? ->] _]].
    + destruct Hr as [(? & ? & ->) | [[? ->] [? ?]]];
        [by left | right]. split; [done |]. by right.
  - (* hibern8 enter, second critical section *)
    match type of Hstep with
    | context [worker_h8_finish ?a ?b ?c ?d ?e ?f] =>
        destruct (h8_finish_frame a b c d e f)
          as (Hs & Eg & Et & [y Hr] & Ea & Ey);
        destruct (worker_h8_finish a b c d e f) as [w1 h1]
    end.
    injection Hstep as <- <- <-. cbn [fst snd] in *. subst w1.
    apply step_h8; rewrite ?Hw; try done.
    right. split; [done |]. by left.
  - (* hibern8 enter returned *)
    unfold ufshcd_gate_work_clocks in Hstep.
    pose proof (committed_on m Hinv) as Hon. rewrite Hw in Hon.
    destruct (ufshcd_can_hibern8_during_gating (adapter m));
      [destruct (negb (ret =? 0)) |];
      injection Hstep as <- <- <-; worker_keep Hinv Hw;
      try (intros E; by destruct (Hon eq_refl));
      try (by auto).
  - injection Hstep as <- <- <-.
    pose proof (committed_on m Hinv) as Hon. rewrite Hw in Hon.
    worker_keep Hinv Hw; try (intros E; by destruct (Hon eq_refl));
      try (by auto).
  - (* gate work, second critical section *)
    injection Hstep as <- <- <-. unfold ufshcd_gate_work_finish.
    case_bool_decide as Est; [| worker_keep Hinv Hw].
    pose proof Hinv as [_ [Hrefs Hon Hoff Hwq Hcom Hup Hgr Hgf Hog] _ _].
    rewrite Hw in Hgr, Hgf.
    apply worker_inv; try done; hred.
    + split; hred; try done.
      * intros _. apply Hon. by rewrite Est.
      * intros _. apply Hoff. by right.
      * intros Hu _. destruct (Hgr eq_refl Hu) as [E _]. congruence.
      * intros E. by destruct (Hgf E).
    + intros ?. right. split; [done |]. by rewrite Hw.
    + intros ?. right. split; [done |]. by rewrite Hw.
  - (* ungate work: cancel the gate work *)
    injection Hstep as <- <- <-.
    pose proof Hinv as [_ [Hrefs Hon Hoff Hwq Hcom Hup Hgr Hgf Hog] _ _].
    rewrite Hw in Hcom.
    apply worker_inv; try done; hred.
    + split; hred; try done.
      * left. destruct Hwq as [-> | (-> & _ & ->)]; [| reflexivity].
        destruct (gate_work_pending _), (ungate_work_pending _);
          reflexivity.
      * intros E. exfalso.
        assert (GATE_WORK ∈ wq_remove GATE_WORK (wq m)) as Hin
            by (rewrite E; left).
        unfold wq_remove in Hin.
        apply list_elem_of_filter in Hin as [? _]. done.
    + intros ?. right. split; [done |]. by rewrite Hw.
    + intros ?. right. split; [done |]. by rewrite Hw.
  - (* ungate work: the state check *)
    injection Hstep as <- <- <-. unfold ufshcd_ungate_work_check.
    pose proof (committed_on m Hinv) as Hon. rewrite Hw in Hon.
    case_bool_decide as Est; worker_keep Hinv Hw;
      try (intros E; by destruct (Hon eq_refl));
      try (by auto).
  - (* ungate work: clocks on *)
    injection Hstep as <- <- <-. unfold ufshcd_setup_clocks_on.
    pose proof (committed_on m Hinv) as Hon. rewrite Hw in Hon.
    destruct (wo_clk_ret o =? 0);
      match goal with
      | |- context [if ?b then WUngateSuspend else WIdle] => destruct b
      end; worker_keep Hinv Hw; try (intros E; by destruct (Hon eq_refl)).
  - injection Hstep as <- <- <-.
    pose proof (committed_on m Hinv) as Hon. rewrite Hw in Hon.
    worker_keep Hinv Hw; try (intros E; by destruct (Hon eq_refl));
      try (by auto).
  - injection Hstep as <- <- <-.
    pose proof (committed_on m Hinv) as Hon. rewrite Hw in Hon.
    destruct (ufshcd_is_link_hibern8 (adapter m));
      worker_keep Hinv Hw; try (intros E; by destruct (Hon eq_refl));
      try (by auto).
  - (* hibern8 exit, first critical section *)
    match type of Hstep with
    | context [worker_h8_issue ?a ?b ?c ?d ?e] =>
        destruct (h8_issue_frame a b c d e) as (Hs & Eg & Et & Hr);
        destruct (worker_h8_issue a b c d e) as [w1 h1]
    end.
    injection Hstep as <- <- <-. cbn [fst snd] in *.
    apply step_h8; rewrite ?Hw; try done.
    + by destruct Hr as [(? & ? & ->) | [[? ->] _]].
    + by destruct Hr as [(? & ? & ->) | [[? ->] _]].
    + destruct Hr as [(? & ? & ->) | [[? ->] [? ?]]];
        [by left | right]. split; [done |]. by right.
  - (* hibern8 exit, second critical section *)
    match type of Hstep with
    | context [worker_h8_finish ?a ?b ?c ?d ?e ?f] =>
        destruct (h8_finish_frame a b c d e f)
          as (Hs & Eg & Et & [y Hr] & Ea & Ey);
        destruct (worker_h8_finish a b c d e f) as [w1 h1]
    end.
    injection Hstep as <- <- <-. cbn [fst snd] in *. subst w1.
    apply step_h8; rewrite ?Hw; try done.
    right. split; [done |]. by left.
  - injection Hstep as <- <- <-.
    pose proof (committed_on m Hinv) as Hon. rewrite Hw in Hon.
    destruct (ret =? 0);
      worker_keep Hinv Hw; try (intros E; by destruct (Hon eq_refl));
      try (by auto).
  - injection Hstep as <- <- <-.
    pose proof (committed_on m Hinv) as Hon. rewrite Hw in Hon.
    worker_keep Hinv Hw; try (intros E; by destruct (Hon eq_refl)).
Qed.

End WorkerSteps.

End GatingProps.


(** ** Device management, tags and the safety of gating *)

Module GatingSafety.
Import Gating GatingProps.

(** *** Steps and the device-management completion *)

Ltac unfold_paths :=
  unfold qc_claim, qc_bind, qc_compose, qc_issue, qc_out_unlocked,
    qc_out_locked, dev_compose, dev_wait_locked, dev_clear_poll,
    ufshcd_utrl_clear, ufshcd_put_dev_cmd_tag, ufshcd_send_command,
    ufshcd_clk_scaling_start_busy, ufshcd_comp_scsi_upiu, ufshcd_map_sg,
    tm_cmd_send, tm_cmd_clear, __ufshcd_send_uic_cmd,
    ufshcd_dispatch_uic_cmd, ufshcd_wait_for_uic_cmd,
    ufshcd_uic_pwr_ctrl_issue, ufshcd_uic_pwr_ctrl_finish, ufshcd_hold,
    ufshcd_hold_resume, ufshcd_hold_start, hold_case_clks_off,
    hold_case_req_clks_on, cg_inc_active_reqs, cg_dec_active_reqs,
    ufshcd_release, __ufshcd_release, queue_work_ungate,
    queue_delayed_work_gate, cancel_delayed_work_gate, lrb_update,
    ufshcd_writel, Bitops.test_and_set_bit_lock, of_hold_outcome,
    ufshcd_uic_cmd_compl, ufshcd_gate_work_check, ufshcd_gate_work_clocks,
    ufshcd_gate_work_finish, worker_h8_issue, worker_h8_finish,
    ufshcd_setup_clocks_on.

Ltac step_cases :=
  unfold_paths; unfold_paths; unfold_paths; repeat case_match;
  simplify_eq.

Section DevSteps.
Context `{UfsHeaders}.

Lemma same_dev_refl (h : ufs_hba) : same_dev h h.
Proof. by split. Qed.

(** What a step of a client does to its position and to the
    completion: no thread enters the time-out path unless a wait
    times out; [ufshcd_exec_dev_cmd] is entered at its start; a
    thread outside it leaves the completion alone and sets no bit of
    [outstanding_reqs] but that of the slot it owns; the completion
    is reset when the command is composed and untouched when it is
    issued. *)
Lemma client_step_dev_all (l : clabel) (p : cpc) (h : ufs_hba) :
  match client_step l p h with
  | Some (p', h') =>
      (l <> LDevWake false -> timeout_pc p = false ->
       timeout_pc p' = false)
      /\ (in_dev p' = true -> in_dev p = true \/ l = LDevStart)
      /\ (in_dev p = false ->
          dev_cmd_done h' = dev_cmd_done h
          /\ forall t, owner p <> Some t ->
               Z.testbit (outstanding_reqs h') t
               = Z.testbit (outstanding_reqs h) t)
      /\ (forall t, p' = DevComposed t -> dev_cmd_done h' = false)
      /\ (forall t, p' = DevIssued t ->
            p = DevComposed t /\ dev_cmd_done h' = dev_cmd_done h)
  | None => True
  end.
Proof.
  destruct l, p; cbn [client_step]; try exact I;
    step_cases; hred; cbn [timeout_pc in_dev owner]; try exact I;
    (split_and!; [try done | try done; auto | | by intros ? [= <-]
                  | by intros ? [= <-]]).
  all: try (by destruct time_left).
  all: try done.
  all: intros _; (split; [done |]); try done.
  all: intros t Ht; unfold Bitops.set_bit;
    rewrite testbit_set_bit_ne; congruence.
Qed.

Lemma client_step_dev (l : clabel) (p p' : cpc) (h h' : ufs_hba) :
  client_step l p h = Some (p', h') ->
  (l <> LDevWake false -> timeout_pc p = false -> timeout_pc p' = false)
  /\ (in_dev p' = true -> in_dev p = true \/ l = LDevStart)
  /\ (in_dev p = false ->
      dev_cmd_done h' = dev_cmd_done h
      /\ forall t, owner p <> Some t ->
           Z.testbit (outstanding_reqs h') t
           = Z.testbit (outstanding_reqs h) t)
  /\ (forall t, p' = DevComposed t -> dev_cmd_done h' = false)
  /\ (forall t, p' = DevIssued t ->
        p = DevComposed t /\ dev_cmd_done h' = dev_cmd_done h).
Proof.
  intros Hs. pose proof (client_step_dev_all l p h) as X.
  by rewrite Hs in X.
Qed.

Lemma env_step_dev (l : elabel) (h : ufs_hba) :
  l <> LIrqTransfer -> same_dev h (env_step l h).
Proof.
  intros Hl. destruct l; [| done | |]; cbn [env_step]; unfold same_dev;
    step_cases; by hred.
Qed.

Lemma worker_step_dev_all (o : woracle) (w : wpc)
    (q : list gating_work) (h : ufs_hba) :
  match worker_step o w q h with
  | Some (_, _, h') => same_dev h h'
  | None => True
  end.
Proof.
  unfold same_dev.
  destruct w; cbn [worker_step]; step_cases; by hred.
Qed.

Lemma worker_step_dev (o : woracle) (w w' : wpc)
    (q q' : list gating_work) (h h' : ufs_hba) :
  worker_step o w q h = Some (w', q', h') -> same_dev h h'.
Proof.
  intros Hs. pose proof (worker_step_dev_all o w q h) as X.
  by rewrite Hs in X.
Qed.

(** The completion handler signals the completion only for a
    completed slot that carries no SCSI command. *)
Lemma compl_slot_done (t : Z) (h : ufs_hba) :
  dev_cmd_done (transfer_req_compl_slot t h) = true ->
  dev_cmd_done h = true \/ slot_has_cmd h t = false.
Proof.
  unfold transfer_req_compl_slot, clk_scaling_dec_active_reqs,
    transfer_req_compl_cmd, slot_has_cmd.
  destruct (lrb_at h t) as [l |]; [| step_cases; hred; auto].
  destruct (cmd l); [| by right].
  step_cases; hred; auto.
Qed.

Lemma compl_loop_done (completed : Z) (h : ufs_hba) (n : nat) :
  cap_clk_gating h = true ->
  Z.of_nat n <= nutrs h ->
  Z.of_nat (length (lrb h)) = nutrs h ->
  (forall t, 0 <= t < Z.of_nat n -> Z.testbit completed t = true ->
             Z.testbit (outstanding_reqs h) t = true) ->
  Z.of_nat (inflight h) <= active_reqs (clk_gating h) < 2 ^ 31 ->
  (inflight h <> O -> state (clk_gating h) = CLKS_ON) ->
  dev_cmd_done
    (foldl (fun x index => transfer_req_compl_slot index x) h
       (Bitops.set_bits_below n completed)) = true ->
  dev_cmd_done h = true
  \/ exists t, 0 <= t < Z.of_nat n /\ Z.testbit completed t = true
               /\ slot_has_cmd h t = false.
Proof.
  intros Hcap Hn Hlen Hout Hact Hon.
  induction n as [| n IH]; [by left |].
  cbn [Bitops.set_bits_below]. rewrite foldl_app.
  assert (dev_cmd_done
            (foldl (fun x index => transfer_req_compl_slot index x) h
               (Bitops.set_bits_below n completed)) = true ->
          dev_cmd_done h = true
          \/ exists t, 0 <= t < Z.of_nat (S n)
                       /\ Z.testbit completed t = true
                       /\ slot_has_cmd h t = false) as IH'.
  { intros Hd. destruct IH as [? | (t & ? & ? & ?)];
      [lia | intros; apply Hout; [lia | done] | done | by left |].
    right. exists t. split_and!; [lia | lia | done | done]. }
  destruct (Z.testbit completed (Z.of_nat n)) eqn:Hc;
    cbn [foldl]; [| exact IH'].
  intros Hd. apply compl_slot_done in Hd as [Hd | Hd]; [by apply IH' |].
  destruct (compl_loop completed h n) as (_ & Fhc & _);
    [done | lia | done | intros; apply Hout; [lia | done] | done
     | done |].
  rewrite Fhc in Hd by lia.
  destruct (Z.ltb_spec (Z.of_nat n) (Z.of_nat n)); [lia |].
  cbn in Hd. rewrite andb_true_r in Hd.
  right. exists (Z.of_nat n). split_and!; [lia | lia | done | done].
Qed.

(** After the handler, [outstanding_reqs] is what the doorbell
    shows; and the completion is signalled only if it was already,
    or for a slot without SCSI command that was outstanding with
    its doorbell bit clear. *)
Lemma compl_dev (m : machine) (h0 : ufs_hba) :
  inv m ->
  same_slots (adapter m) h0 ->
  clk_gating h0 = clk_gating (adapter m) ->
  dev_cmd_done h0 = dev_cmd_done (adapter m) ->
  let h' := __ufshcd_transfer_req_compl (completed_reqs_of h0) h0 in
  (forall t, Z.testbit (outstanding_reqs h') t
             = Z.testbit (doorbell (adapter m)) t)
  /\ (dev_cmd_done h' = true ->
      dev_cmd_done (adapter m) = true
      \/ exists s,
           Z.testbit (outstanding_reqs (adapter m)) s = true
           /\ Z.testbit (doorbell (adapter m)) s = false
           /\ slot_has_cmd (adapter m) s = false).
Proof.
  intros Hinv (Ecap & En & El & Eu & Eo & Ed) Eg Edone h'.
  pose proof Hinv as [[Hcap Hnu Hlrb Hbd] Hgt Hsl Hch].
  pose proof Hsl as [Hout Hdoor Hown Huniq Hfree Hb Hub Htry].
  pose proof (active_range m Hinv) as Hrange.
  pose proof (inv_refs m Hgt) as Hrefs.
  set (c := completed_reqs_of h0) in *.
  assert (forall t, Z.testbit c t
                    = Z.testbit (outstanding_reqs (adapter m)) t
                      && negb (Z.testbit (doorbell (adapter m)) t))
    as Hc.
  { intros t. subst c. unfold completed_reqs_of, ufshcd_readl_doorbell.
    rewrite Z.lxor_spec, testbit_uint32, Eo, Ed.
    destruct (Z.testbit (doorbell (adapter m)) t) eqn:Hd.
    - rewrite (Hdoor t Hd). destruct (Hout t (Hdoor t Hd)) as (? & _).
      destruct (Z.ltb_spec t 32); [reflexivity | lia].
    - by destruct (Z.testbit (outstanding_reqs (adapter m)) t). }
  assert (cap_clk_gating h0 = true) as P1 by congruence.
  assert (Z.of_nat (Z.to_nat (nutrs h0)) <= nutrs h0) as P2 by lia.
  assert (Z.of_nat (length (lrb h0)) = nutrs h0) as P3
      by (by rewrite El, En).
  assert (forall t, 0 <= t < Z.of_nat (Z.to_nat (nutrs h0)) ->
            Z.testbit c t = true ->
            Z.testbit (outstanding_reqs h0) t = true) as P4.
  { intros t _ Ht. rewrite Hc in Ht. rewrite Eo.
    by apply andb_true_iff in Ht as [? _]. }
  assert (Z.of_nat (inflight h0) <= active_reqs (clk_gating h0) < 2 ^ 31)
    as P5.
  { rewrite (inflight_same_slots (adapter m) h0), Eg by (by repeat split).
    lia. }
  assert (inflight h0 <> O -> state (clk_gating h0) = CLKS_ON) as P6.
  { rewrite (inflight_same_slots (adapter m) h0), Eg by (by repeat split).
    intros Hnz.
    destruct (decide (state (clk_gating (adapter m)) = CLKS_ON))
      as [? | Hne]; [done |].
    destruct (inv_on m Hgt Hne) as [? _]. done. }
  destruct (compl_loop c h0 (Z.to_nat (nutrs h0)) P1 P2 P3 P4 P5 P6)
    as ((_ & _ & _ & Fo & _) & _).
  pose proof (compl_loop_done c h0 (Z.to_nat (nutrs h0)) P1 P2 P3 P4 P5
                P6) as Fdone.
  subst h'. unfold __ufshcd_transfer_req_compl, Bitops.for_each_set_bit.
  revert Fo Fdone.
  generalize (foldl (fun h index => transfer_req_compl_slot index h) h0
                (Bitops.set_bits_below (Z.to_nat (nutrs h0)) c)).
  intros hL Fo Fdone. hred. split.
  - intros t. rewrite Z.lxor_spec, Fo, Eo, Hc.
    destruct (Z.testbit (doorbell (adapter m)) t) eqn:Hd.
    + by rewrite (Hdoor t Hd).
    + by destruct (Z.testbit (outstanding_reqs (adapter m)) t).
  - intros Hd. destruct (Fdone Hd) as [Hd0 | (s & Hs & Hcs & Hno)].
    + left. congruence.
    + right. exists s. rewrite Hc in Hcs.
      apply andb_true_iff in Hcs as [Ho Hdb].
      apply negb_true_iff in Hdb.
      by rewrite <- (slot_has_cmd_same _ _ s El).
Qed.

(** *** The device-management invariant is kept *)

Lemma issued_in_time (p : cpc) (t : Z) :
  issued p = Some t -> timeout_pc p = false -> p = DevIssued t.
Proof. destruct p; cbn; repeat case_match; by intros [= ->]. Qed.

Lemma inv_dev_frame (m m' : machine) :
  clients m' = clients m -> same_dev (adapter m) (adapter m') ->
  inv_dev m -> inv_dev m'.
Proof.
  intros Hcl [Hd Ho] [Hto Hmx Har Hsg].
  split; rewrite ?Hcl, ?Hd, ?Ho; done.
Qed.

(** The thread whose device-management command the handler may
    complete. *)
Lemma dev_waiter (m : machine) (s : Z) :
  inv m -> inv_dev m ->
  Z.testbit (outstanding_reqs (adapter m)) s = true ->
  slot_has_cmd (adapter m) s = false ->
  exists j, clients m !! j = Some (DevIssued s).
Proof.
  intros [_ _ [Hout _ _ _ _ _ _ _] _] [Hto _ _ _] Ho Hno.
  destruct (Hout s Ho) as (_ & _ & [Hc | (j & q & Hj & Hq)]);
    [congruence |].
  exists j. by rewrite <- (issued_in_time q s Hq (Hto j q Hj)).
Qed.

Lemma step_irq_transfer_dev (m : machine) :
  inv m -> inv_dev m ->
  let h' := snd (ufshcd_transfer_req_compl (adapter m)) in
  inv_dev {| adapter := h'; worker := worker m;
             wq := wq_sync (adapter m) h' (wq m);
             clients := clients m |}.
Proof.
  intros Hinv Hdev h'. subst h'. unfold ufshcd_transfer_req_compl.
  match goal with
  | |- context [completed_reqs_of ?x] =>
      assert (same_slots (adapter m) x
              /\ clk_gating x = clk_gating (adapter m)
              /\ dev_cmd_done x = dev_cmd_done (adapter m))
        as (Hs & Hg & Hd)
        by (unfold ufshcd_reset_intr_aggr, ufshcd_writel, same_slots;
            destruct (ufshcd_is_intr_aggr_allowed _ && _); hred;
            by split_and!);
      pose proof (compl_dev m x Hinv Hs Hg Hd) as X;
      revert Hs Hg Hd X; generalize x
  end.
  intros h0 Hs Hg Hd [Xo Xd].
  destruct (negb (completed_reqs_of h0 =? 0)); cbn [snd];
    [| apply (inv_dev_frame m); [done | | done];
       destruct Hs as (_ & _ & _ & _ & ? & _); by split].
  pose proof Hdev as [Hto Hmx Har Hsg].
  pose proof Hinv as [_ _ [_ Hdoor _ _ _ _ _ _] _].
  split; hred; [done | done | |].
  - intros i t Hi.
    apply not_true_iff_false. intros Hdone.
    destruct (Xd Hdone) as [Hd0 | (s & Ho & _ & Hno)].
    + by rewrite (Har i t Hi) in Hd0.
    + destruct (dev_waiter m s Hinv Hdev Ho Hno) as (j & Hj).
      assert (i = j) as -> by (by apply (Hmx i j _ _ Hi Hj)).
      congruence.
  - intros i t Hi Hdone. rewrite Xo.
    destruct (Z.testbit (doorbell (adapter m)) t) eqn:Hdb; [| done].
    destruct (Xd Hdone) as [Hd0 | (s & Ho & Hds & Hno)].
    + rewrite <- (Hsg i t Hi Hd0). symmetry. by apply Hdoor.
    + destruct (dev_waiter m s Hinv Hdev Ho Hno) as (j & Hj).
      assert (i = j) as -> by (by apply (Hmx i j _ _ Hi Hj)).
      assert (s = t) as -> by congruence. congruence.
Qed.

Lemma env_step_dev_inv (m : machine) (l : elabel) :
  inv m -> inv_dev m ->
  inv_dev {| adapter := env_step l (adapter m); worker := worker m;
             wq := wq_sync (adapter m) (env_step l (adapter m)) (wq m);
             clients := clients m |}.
Proof.
  intros Hinv Hdev.
  destruct l; [| by apply step_irq_transfer_dev | |];
    (apply (inv_dev_frame m); [done | | done]); by apply env_step_dev.
Qed.

Lemma worker_step_dev_inv (m : machine) (o : woracle) (w' : wpc)
    (q' : list gating_work) (h' : ufs_hba) :
  inv_dev m ->
  worker_step o (worker m) (wq m) (adapter m) = Some (w', q', h') ->
  inv_dev {| adapter := h'; worker := w'; wq := q';
             clients := clients m |}.
Proof.
  intros Hdev Hs. apply (inv_dev_frame m); [done | | done].
  by apply (worker_step_dev o (worker m) w' (wq m) q').
Qed.

Lemma lock_free (cl : list cpc) (j : nat) (q : cpc) :
  dev_cmd_lock_held cl = false -> cl !! j = Some q -> in_dev q = false.
Proof.
  unfold dev_cmd_lock_held. intros Hl Hj.
  destruct (in_dev q) eqn:Hq; [| done].
  assert (existsb in_dev cl = true) as Hex; [| congruence].
  apply existsb_exists. exists q. split; [| done].
  apply list_elem_of_In. by eapply list_elem_of_lookup_2.
Qed.

Lemma client_step_dev_inv (m : machine) (i : nat) (l : clabel)
    (p p' : cpc) (h' : ufs_hba) :
  inv m -> inv_dev m -> clients m !! i = Some p ->
  l <> LDevWake false -> blocked l (clients m) = false ->
  client_step l p (adapter m) = Some (p', h') ->
  inv_dev {| adapter := h'; worker := worker m;
             wq := wq_sync (adapter m) h' (wq m);
             clients := <[i := p']> (clients m) |}.
Proof.
  intros Hinv [Hto Hmx Har Hsg] Hi Hl Hbl Hs.
  pose proof Hinv as [_ _ [_ _ _ Huniq _ _ _ _] _].
  destruct (client_step_dev l p p' (adapter m) h' Hs)
    as (Sto & Sin & Sout & Scomp & Siss).
  assert (forall j q, <[i := p']> (clients m) !! j = Some q ->
            (j = i /\ q = p') \/ (j <> i /\ clients m !! j = Some q))
    as Hlook.
  { intros j q.
    intros [(-> & -> & _) | [? ?]]%list_lookup_insert_Some; auto. }
  assert (forall j q, j <> i -> clients m !! j = Some q ->
            in_dev q = true -> in_dev p = false) as Hother.
  { intros j q Hne Hj Hq. destruct (in_dev p) eqn:Hp; [| done].
    exfalso. apply Hne. by apply (Hmx j i q p). }
  assert (forall j q, j <> i -> clients m !! j = Some q ->
            in_dev q = true -> in_dev p' = false) as Hother'.
  { intros j q Hne Hj Hq. destruct (in_dev p') eqn:Hp'; [| done].
    destruct (Sin eq_refl) as [Hp | ->].
    - by rewrite (Hother j q Hne Hj Hq) in Hp.
    - cbn [blocked] in Hbl. by rewrite (lock_free _ j q Hbl Hj) in Hq. }
  split; hred.
  - intros j q [[-> ->] | [_ Hj]]%Hlook; [| by eauto].
    apply Sto; [done |]. by apply (Hto i).
  - intros j k q r Hj Hk Hq Hr. apply Hlook in Hj, Hk.
    destruct Hj as [[-> ->] | [Hnj Hj]], Hk as [[-> ->] | [Hnk Hk]].
    + reflexivity.
    + by rewrite (Hother' k r Hnk Hk Hr) in Hq.
    + by rewrite (Hother' j q Hnj Hj Hq) in Hr.
    + by apply (Hmx j k q r).
  - intros j t [[-> Hq] | [Hnj Hj]]%Hlook; [by apply (Scomp t) |].
    destruct (Sout (Hother j _ Hnj Hj eq_refl)) as [-> _].
    by apply (Har j t).
  - intros j t [[-> Hq] | [Hnj Hj]]%Hlook Hdone.
    + destruct (Siss t (eq_sym Hq)) as [-> Hd]. rewrite Hd in Hdone.
      by rewrite (Har i t Hi) in Hdone.
    + destruct (Sout (Hother j _ Hnj Hj eq_refl)) as [Hd Ho].
      rewrite Ho; [apply (Hsg j t Hj); congruence |].
      intros Hp. apply Hnj. by apply (Huniq j i (DevIssued t) p t).
Qed.

End DevSteps.
(** *** Every run without a time-out keeps the invariants *)

Section Safety.
Context `{UfsHeaders}.
Hypothesis EAGAIN_nonzero : EAGAIN <> 0.

Lemma timeout_label_client (i : nat) (l : clabel) :
  timeout_label (LClient i l) = false -> l <> LDevWake false.
Proof. intros Hl ->. discriminate. Qed.

Lemma step_inv (l : label) (m m' : machine) :
  inv m /\ inv_dev m -> timeout_label l = false ->
  step l m = Some m' -> inv m' /\ inv_dev m'.
Proof.
  intros [Hinv Hdev] Hl Hstep.
  destruct l as [i l | l | o]; cbn [step] in Hstep.
  - destruct (clients m !! i) as [p |] eqn:Hi; [| discriminate].
    destruct (blocked l (clients m)) eqn:Hbl; [discriminate |].
    destruct (client_step l p (adapter m)) as [[p' h'] |] eqn:Hc;
      [| discriminate].
    injection Hstep as <-. apply timeout_label_client in Hl. split.
    + by apply (client_step_inv EAGAIN_nonzero m i l p).
    + by apply (client_step_dev_inv m i l p).
  - injection Hstep as <-. split.
    + by apply env_step_inv.
    + by apply env_step_dev_inv.
  - destruct (worker_step o (worker m) (wq m) (adapter m))
      as [[[w q] h'] |] eqn:Hw; [| discriminate].
    injection Hstep as <-. split.
    + by apply (worker_step_inv m o).
    + by apply (worker_step_dev_inv m o).
Qed.

Lemma run_inv (sched : list label) (m m' : machine) :
  inv m /\ inv_dev m -> timeout_free sched = true ->
  run sched m = Some m' -> inv m' /\ inv_dev m'.
Proof.
  revert m. induction sched as [| l sched IH]; intros m Hinv Hfree Hrun;
    cbn [run] in Hrun.
  - by injection Hrun as <-.
  - destruct (step l m) as [m1 |] eqn:Hstep; [| discriminate].
    cbn [timeout_free forallb] in Hfree.
    apply andb_true_iff in Hfree as [Hl Hfree].
    apply negb_true_iff in Hl.
    apply (IH m1); [| done | done]. by apply (step_inv l m).
Qed.

Lemma count_all_idle (l : list cpc) :
  Forall (fun p => p = CIdle) l -> count counted l = O.
Proof.
  induction 1 as [| p l -> _ IH]; [reflexivity |]. cbn. exact IH.
Qed.

Lemma initial_inv (m : machine) : initial m -> inv m.
Proof.
  intros [Hcap Hst Hact Hgate Hungate Hreqs Hdoor Htasks Huic Hasync
            Hnutrs Hlrb Hcl Hbd Hw Hq].
  assert (forall i p, clients m !! i = Some p -> p = CIdle) as Hidle
      by (intros i p Hi; by apply (Forall_lookup_1 _ _ _ _ Hcl Hi)).
  assert (inflight (adapter m) = O) as Hfl.
  { unfold inflight. apply count_below_all_false. intros t _.
    unfold slot_busy. by rewrite Hreqs, Z.bits_0. }
  split.
  - by split.
  - split; rewrite ?Hst, ?Hact, ?Hgate, ?Hungate, ?Hq, ?Hw, ?Hfl;
      try done; [by rewrite count_all_idle | by left].
  - split; rewrite ?Hreqs, ?Hdoor; try (intros t; by rewrite Z.bits_0);
      try (intros i p t Hi; rewrite (Hidle i p Hi); discriminate).
    intros i j p q t Hi _. rewrite (Hidle i p Hi). discriminate.
  - split; rewrite ?Htasks, ?Huic, ?Hasync; try done.
    intros s. by rewrite Z.bits_0.
Qed.

Lemma initial_inv_dev (m : machine) : initial m -> inv_dev m.
Proof.
  intros Hini.
  assert (forall i p, clients m !! i = Some p -> p = CIdle) as Hidle
      by (intros i p Hi;
          by apply (Forall_lookup_1 _ _ _ _ (init_clients m Hini) Hi)).
  split.
  - intros i p Hi. by rewrite (Hidle i p Hi).
  - intros i j p q Hi _ Hp. by rewrite (Hidle i p Hi) in Hp.
  - intros i t Hi. by pose proof (Hidle i _ Hi).
  - intros i t Hi. by pose proof (Hidle i _ Hi).
Qed.

Lemma reachable_inv (m0 m : machine) (sched : list label) :
  initial m0 -> timeout_free sched = true -> run sched m0 = Some m ->
  inv m /\ inv_dev m.
Proof.
  intros Hi. apply run_inv. split.
  - by apply initial_inv.
  - by apply initial_inv_dev.
Qed.

End Safety.

(** With the state variable away from [CLKS_ON] nothing holds a clock
    reference, so nothing can be outstanding. *)
Lemma inv_gating_safe (m : machine) : inv m -> gating_safe m.
Proof.
  intros [_ Hg [Hout _ _ _ _ _ _ _] [Htask Huic Hasync]] Hoff.
  assert (state (clk_gating (adapter m)) <> CLKS_ON) as Hne
      by (rewrite Hoff; discriminate).
  destruct (inv_on m Hg Hne) as [Hfl Hall].
  assert (forall i p, clients m !! i = Some p -> counted p = true -> False)
    as Hnone.
  { intros i p Hi Hc. pose proof (Hall i p Hi Hc) as ->.
    pose proof (inv_refs m Hg) as Hrefs.
    rewrite (inv_off m Hg (or_introl Hoff)), Hfl in Hrefs.
    pose proof (count_pos counted (clients m) i _ Hi eq_refl). lia. }
  assert (worker_uic (worker m) = true -> False) as Hwk.
  { intros Hu. apply (inv_committed m Hg); [| done].
    by destruct (worker m). }
  unfold quiescent. split_and!.
  - apply Z.bits_inj_0. intros t.
    destruct (Z.testbit (outstanding_reqs (adapter m)) t) eqn:Hb;
      [exfalso | reflexivity].
    destruct (Hout t Hb) as (Hr & _ & [Hc | (i & p & Hi & Hp)]).
    + unfold inflight in Hfl.
      assert (slot_busy (adapter m) t = true) as Hbusy
          by (unfold slot_busy; by rewrite Hb, Hc).
      rewrite (count_below_zero _ _ t Hfl) in Hbusy by lia. discriminate.
    + apply (Hnone i p Hi). by destruct p.
  - apply Z.bits_inj_0. intros s.
    destruct (Z.testbit (outstanding_tasks (adapter m)) s) eqn:Hb;
      [exfalso | reflexivity].
    destruct (Htask s Hb) as (i & p & Hi & Hp).
    apply (Hnone i p Hi). by destruct p.
  - destruct (active_uic_cmd (adapter m)) eqn:Ha; [exfalso | reflexivity].
    destruct Huic as [(i & p & Hi & Hp) | Hu]; [done | |].
    + apply (Hnone i p Hi). by destruct p.
    + by apply Hwk.
  - destruct (uic_async_done (adapter m)) eqn:Ha; [exfalso | reflexivity].
    destruct Hasync as [(i & p & Hi & Hp) | Hu]; [done | |].
    + apply (Hnone i p Hi). by destruct p.
    + by apply Hwk.
Qed.

Lemma inv_gate_check `{UfsHeaders} (m : machine) :
  inv m -> gate_check_validates m.
Proof.
  intros [_ _ [Hout _ _ _ _ _ _ _] _] _.
  unfold ufshcd_gate_work_check, gating_blocked.
  destruct (OPLUS_FEATURE_UFS_DRIVER && _); [discriminate |].
  destruct (is_suspended _ || bool_decide _) eqn:Hc; [discriminate |].
  match goal with
  | |- context [if ?b then _ else _] => destruct b eqn:Hb
  end; [discriminate |]. intros _.
  apply orb_false_iff in Hc as [_ Hst].
  apply bool_decide_eq_false in Hst.
  repeat (apply orb_false_iff in Hb as [Hb ?]).
  repeat match goal with
         | X : negb (_ =? 0) = false |- _ =>
             apply negb_false_iff, Z.eqb_eq in X
         | X : bool_decide _ = false |- _ =>
             apply bool_decide_eq_false in X
         end.
  assert (lrb_in_use (adapter m) = 0) as Hiu by done.
  unfold quiescent. split_and!; try done.
  - destruct (decide (state (clk_gating (adapter m)) = REQ_CLKS_OFF));
      [done | exfalso; by apply Hst].
  - apply Z.bits_inj_0. intros t.
    destruct (Z.testbit (outstanding_reqs (adapter m)) t) eqn:Ho;
      [exfalso | reflexivity].
    destruct (Hout t Ho) as (_ & Hu & _).
    by rewrite Hiu, Z.bits_0 in Hu.
  - destruct (active_uic_cmd (adapter m)); [exfalso | reflexivity].
    match goal with X : ~ _ |- _ => apply X end. done.
Qed.



Lemma inv_quiet_unless_on (m : machine) : inv m -> quiet_unless_on m.
Proof.
  intros [_ Hg [Hout _ _ _ _ _ _ _] [Htask Huic Hasync]] Hne.
  destruct (inv_on m Hg Hne) as [Hfl Hall].
  assert (forall i p, clients m !! i = Some p -> counted p = true ->
            p = CWait false) as Hnone by exact Hall.
  split_and!.
  - apply Z.bits_inj_0. intros t.
    destruct (Z.testbit (outstanding_reqs (adapter m)) t) eqn:Hb;
      [exfalso | reflexivity].
    destruct (Hout t Hb) as (Hr & _ & [Hc | (i & p & Hi & Hp)]).
    + unfold inflight in Hfl.
      assert (slot_busy (adapter m) t = true) as Hbusy
          by (unfold slot_busy; by rewrite Hb, Hc).
      rewrite (count_below_zero _ _ t Hfl) in Hbusy by lia. discriminate.
    + assert (counted p = true) as Hc
          by (destruct p; cbn in Hp |- *; repeat case_match; done).
      rewrite (Hnone i p Hi Hc) in Hp. discriminate.
  - apply Z.bits_inj_0. intros s.
    destruct (Z.testbit (outstanding_tasks (adapter m)) s) eqn:Hb;
      [exfalso | reflexivity].
    destruct (Htask s Hb) as (i & p & Hi & Hp).
    assert (counted p = true) as Hc by (by destruct p).
    rewrite (Hnone i p Hi Hc) in Hp. discriminate.
  - intros Hw. split.
    + destruct (active_uic_cmd (adapter m)) eqn:Ha; [exfalso | reflexivity].
      destruct Huic as [(i & p & Hi & Hp) | Hu]; [done | | congruence].
      assert (counted p = true) as Hc by (by destruct p).
      rewrite (Hnone i p Hi Hc) in Hp. discriminate.
    + destruct (uic_async_done (adapter m)) eqn:Ha; [exfalso | reflexivity].
      destruct Hasync as [(i & p & Hi & Hp) | Hu]; [done | | congruence].
      assert (counted p = true) as Hc by (by destruct p).
      rewrite (Hnone i p Hi Hc) in Hp. discriminate.
Qed.


(** *** Tags *)

Lemma inv_no_double_allocation (m : machine) :
  inv m -> no_double_allocation m.
Proof.
  intros [_ _ [_ _ _ Huniq _ _ _ _] _] i j t (p & Hi & Hp) (q & Hj & Hq).
  by apply (Huniq i j p q t).
Qed.

Lemma inv_second_claimant `{UfsHeaders} (m : machine) :
  inv m -> second_claimant_backs_off m.
Proof.
  intros [_ _ [_ _ Hown _ _ _ _ _] _] j t (q & Hj & Hq).
  destruct (Hown j q t Hj Hq) as (Hr & Hbit). split.
  - intros env c <- Hlock.
    unfold ufshcd_queuecommand, ufshcd_queuecommand_front,
      ufshcd_valid_tag, Bitops.test_and_set_bit_lock.
    destruct (Z.leb_spec 0 (request_tag c)); [| lia].
    destruct (Z.ltb_spec (request_tag c) (nutrs (adapter m))); [| lia].
    cbn [andb negb]. by rewrite Hlock, Hbit.
  - intros i Hi. unfold step. rewrite Hi. cbn [blocked client_step].
    unfold Bitops.test_and_set_bit_lock. rewrite Hbit.
    eexists. split; [reflexivity |]. hred. split; [reflexivity |].
    apply setbit_already_set; [lia | done].
Qed.


Lemma machine_idle_initial : initial machine_idle.
Proof.
  split; try reflexivity.
  - cbn. lia.
  - repeat constructor.
Qed.

Lemma machine_three_initial : initial machine_three.
Proof.
  split; try reflexivity.
  - cbn. lia.
  - repeat constructor.
Qed.

(** *** After a time-out whose clear fails *)

(** C2.  After a device-management command has timed out and
    [ufshcd_clear_cmd] has failed, the bit of its slot is taken out of
    [outstanding_reqs] while it is still set in the doorbell.  The
    completion of another command then puts the bit back into
    [outstanding_reqs]; the checks of [__ufshcd_release] and of
    [ufshcd_gate_work] look at [lrb_in_use], which is empty, and the
    clocks are gated: the state is [CLKS_OFF] with the request still
    in the doorbell and in [outstanding_reqs]. *)
Theorem clocks_off_with_request_outstanding :
  exists m,
    @run linux_headers sched_off_outstanding machine_three = Some m
    /\ state (clk_gating (adapter m)) = CLKS_OFF
    /\ lrb_in_use (adapter m) = 0
    /\ outstanding_reqs (adapter m) = 8
    /\ doorbell (adapter m) = 8
    /\ ~ gating_safe m.
Proof.
  eexists. split; [vm_compute; reflexivity |].
  split_and!; try reflexivity.
  intros Hsafe. by destruct (Hsafe eq_refl) as [Ho _].
Qed.

(** C3.  After a device-management command has timed out and
    [ufshcd_clear_cmd] has failed, the bit of its slot is taken out of
    [outstanding_reqs] while it is still set in the doorbell.  The next
    run of the completion handler takes the slot for completed; thread
    1 has meanwhile claimed tag 3 and bound its command, and the
    handler completes that command and frees the tag.  Thread 0 then
    acquires tag 3 for its next device-management command while thread
    1 is still in [ufshcd_queuecommand] with it: both hold tag 3. *)
Theorem tag_held_twice_after_failed_clear :
  exists m,
    @run linux_headers sched_tag_twice machine_three = Some m
    /\ clients m = [DevTagged 3; QBound qc_env_ok (read_cmd 3); CIdle]
    /\ holder m 0 3 /\ holder m 1 3
    /\ ~ no_double_allocation m.
Proof.
  eexists. split; [vm_compute; reflexivity |].
  assert (forall m' : machine,
            clients m'
            = [DevTagged 3; QBound qc_env_ok (read_cmd 3); CIdle] ->
            holder m' 0 3 /\ holder m' 1 3) as Hh.
  { intros m' Hcl. unfold holder. rewrite Hcl.
    split; eexists; (split; [reflexivity |]); reflexivity. }
  split; [reflexivity |].
  match goal with
  | |- holder ?x 0 3 /\ _ =>
      destruct (Hh x eq_refl) as [H0 H1]
  end.
  split_and!; [done | done |].
  intros Hno. by pose proof (Hno 0%nat 1%nat 3 H0 H1).
Qed.

(** *** What holds in every state reached without a time-out *)

(** X1.  In every state reached without a time-out of a
    device-management command: whenever [clk_gating.state] is
    [CLKS_OFF], no transfer request and no task is outstanding, no link
    command is active and no power mode change is under way. *)
Theorem gated_clocks_imply_quiescence `{UfsHeaders} (m0 m : machine)
    (sched : list label) :
  EAGAIN <> 0 -> initial m0 -> timeout_free sched = true ->
  run sched m0 = Some m -> gating_safe m.
Proof.
  intros He Hi Hfree Hrun. apply inv_gating_safe.
  by destruct (reachable_inv He m0 m sched Hi Hfree Hrun).
Qed.

(** X2.  In every state reached without a time-out of a
    device-management command in which the gate work is at its first
    critical section: if the checks there let it go on, the state is
    [REQ_CLKS_OFF], no reference is held, no slot is in use and
    nothing is outstanding on the transfer ring, the task ring or the
    link. *)
Theorem gate_work_goes_on_only_from_idle `{UfsHeaders} (m0 m : machine)
    (sched : list label) :
  EAGAIN <> 0 -> initial m0 -> timeout_free sched = true ->
  run sched m0 = Some m -> gate_check_validates m.
Proof.
  intros He Hi Hfree Hrun. apply inv_gate_check.
  by destruct (reachable_inv He m0 m sched Hi Hfree Hrun).
Qed.

(** X3.  In every state reached without a time-out of a
    device-management command, [clk_gating.active_reqs] is the number
    of threads between their [ufshcd_hold] and their [ufshcd_release]
    plus the number of SCSI commands in flight: no reference is lost
    or given back twice, and the counter stays within the range of an
    [int]. *)
Theorem clock_references_accounted `{UfsHeaders} (m0 m : machine)
    (sched : list label) :
  EAGAIN <> 0 -> initial m0 -> timeout_free sched = true ->
  run sched m0 = Some m ->
  active_reqs (clk_gating (adapter m))
  = Z.of_nat (count counted (clients m)) + Z.of_nat (inflight (adapter m))
  /\ 0 <= active_reqs (clk_gating (adapter m)) < 2 ^ 31 - 1.
Proof.
  intros He Hi Hfree Hrun.
  destruct (reachable_inv He m0 m sched Hi Hfree Hrun) as [Hinv _].
  split; [by destruct Hinv as [_ [? _ _ _ _ _ _ _ _] _ _] |].
  by apply active_range.
Qed.

(** X4.  In every state reached without a time-out of a
    device-management command, a thread that holds a clock reference
    and is not asleep waiting for the ungate work finds
    [clk_gating.state] at [CLKS_ON], and so does every SCSI command in
    flight. *)
Theorem clock_holders_see_clocks_on `{UfsHeaders} (m0 m : machine)
    (sched : list label) :
  EAGAIN <> 0 -> initial m0 -> timeout_free sched = true ->
  run sched m0 = Some m ->
  (forall i p, clients m !! i = Some p ->
     counted p = true -> waits_ungate p = false ->
     state (clk_gating (adapter m)) = CLKS_ON)
  /\ (inflight (adapter m) <> O ->
      state (clk_gating (adapter m)) = CLKS_ON).
Proof.
  intros He Hi Hfree Hrun.
  destruct (reachable_inv He m0 m sched Hi Hfree Hrun) as [Hinv _].
  split; [intros i p; by apply holder_on |].
  intros Hfl.
  destruct (decide (state (clk_gating (adapter m)) = CLKS_ON))
    as [? | Hne]; [done |].
  destruct Hinv as [_ Hg _ _]. by destruct (inv_on m Hg Hne).
Qed.

(** X5.  In every state reached without a time-out of a
    device-management command the three slot words are nested: a bit
    set in the doorbell is set in [outstanding_reqs], and a bit set in
    [outstanding_reqs] is set in [lrb_in_use] and lies below [nutrs]. *)
Theorem slot_words_nested `{UfsHeaders} (m0 m : machine)
    (sched : list label) :
  EAGAIN <> 0 -> initial m0 -> timeout_free sched = true ->
  run sched m0 = Some m ->
  forall t,
    (Z.testbit (doorbell (adapter m)) t = true ->
     Z.testbit (outstanding_reqs (adapter m)) t = true)
    /\ (Z.testbit (outstanding_reqs (adapter m)) t = true ->
        Z.testbit (lrb_in_use (adapter m)) t = true
        /\ 0 <= t < nutrs (adapter m)).
Proof.
  intros He Hi Hfree Hrun t.
  destruct (reachable_inv He m0 m sched Hi Hfree Hrun)
    as [[_ _ [Hout Hdoor _ _ _ _ _ _] _] _].
  split; [apply Hdoor |]. intros Hb. by destruct (Hout t Hb) as (? & ? & _).
Qed.

(** X27.  In every state reached without a time-out of a
    device-management command no tag is held by two threads, and a
    claimant of a tag that is held is turned away by its test-and-set
    with the bitmap unchanged: [ufshcd_queuecommand] returns
    SCSI_MLQUEUE_HOST_BUSY, and [ufshcd_get_dev_cmd_tag] goes round
    its loop again. *)
Theorem tags_not_shared_without_timeout `{UfsHeaders} (m0 m : machine)
    (sched : list label) :
  EAGAIN <> 0 -> initial m0 -> timeout_free sched = true ->
  run sched m0 = Some m ->
  no_double_allocation m /\ second_claimant_backs_off m.
Proof.
  intros He Hi Hfree Hrun.
  destruct (reachable_inv He m0 m sched Hi Hfree Hrun) as [Hinv _].
  split; [by apply inv_no_double_allocation | by apply inv_second_claimant].
Qed.


(** X29.  In every state reached without a time-out of a
    device-management command in which [clk_gating.state] is not
    [CLKS_ON] (gating requested, clocks off, or clocks requested): no
    transfer request and no task is outstanding, and a link command is
    active or a power mode change under way only for the hibern8
    command of the gate or ungate work itself. *)
Theorem requests_wait_for_clocks_on `{UfsHeaders} (m0 m : machine)
    (sched : list label) :
  EAGAIN <> 0 -> initial m0 -> timeout_free sched = true ->
  run sched m0 = Some m -> quiet_unless_on m.
Proof.
  intros He Hi Hfree Hrun. apply inv_quiet_unless_on.
  by destruct (reachable_inv He m0 m sched Hi Hfree Hrun).
Qed.


Lemma gated_clocks_imply_quiescence_witness :
  exists m,
    @run linux_headers sched_gate machine_idle = Some m
    /\ state (clk_gating (adapter m)) = CLKS_OFF
    /\ quiescent (adapter m).
Proof.
  eexists. split; [vm_compute; reflexivity |]. split; [reflexivity |].
  apply (@gated_clocks_imply_quiescence linux_headers machine_idle _
           sched_gate);
    [discriminate | exact machine_idle_initial | reflexivity
    | vm_compute; reflexivity | reflexivity].
Defined.

Lemma gate_work_goes_on_only_from_idle_witness :
  exists m,
    @run linux_headers sched_gate_start machine_idle = Some m
    /\ worker m = WGateStart
    /\ state (clk_gating (adapter m)) = REQ_CLKS_OFF
    /\ active_reqs (clk_gating (adapter m)) = 0
    /\ lrb_in_use (adapter m) = 0
    /\ quiescent (adapter m).
Proof.
  eexists. split; [vm_compute; reflexivity |]. split; [reflexivity |].
  apply (@gate_work_goes_on_only_from_idle linux_headers machine_idle _
           sched_gate_start);
    [discriminate | exact machine_idle_initial | reflexivity
    | vm_compute; reflexivity | reflexivity | reflexivity].
Defined.

Lemma clock_references_accounted_witness :
  exists m,
    @run linux_headers sched_submit machine_idle = Some m
    /\ clients m = [CIdle; CHold]
    /\ inflight (adapter m) = 1%nat
    /\ (active_reqs (clk_gating (adapter m))
        = Z.of_nat (count counted (clients m))
          + Z.of_nat (inflight (adapter m))
        /\ 0 <= active_reqs (clk_gating (adapter m)) < 2 ^ 31 - 1).
Proof.
  eexists. split; [vm_compute; reflexivity |]. split; [reflexivity |].
  split; [reflexivity |].
  apply (@clock_references_accounted linux_headers machine_idle _
           sched_submit);
    [discriminate | exact machine_idle_initial | reflexivity
    | vm_compute; reflexivity].
Defined.

Lemma clock_holders_see_clocks_on_witness :
  exists m,
    @run linux_headers sched_submit machine_idle = Some m
    /\ state (clk_gating (adapter m)) = CLKS_ON.
Proof.
  eexists. split; [vm_compute; reflexivity |].
  apply (@clock_holders_see_clocks_on linux_headers machine_idle _
           sched_submit);
    [discriminate | exact machine_idle_initial | reflexivity
    | vm_compute; reflexivity | discriminate].
Defined.

Lemma slot_words_nested_witness :
  exists m,
    @run linux_headers sched_submit machine_idle = Some m
    /\ Z.testbit (doorbell (adapter m)) 2 = true
    /\ Z.testbit (outstanding_reqs (adapter m)) 2 = true.
Proof.
  eexists. split; [vm_compute; reflexivity |]. split; [reflexivity |].
  apply (@slot_words_nested linux_headers machine_idle _ sched_submit);
    [discriminate | exact machine_idle_initial | reflexivity
    | vm_compute; reflexivity | reflexivity].
Defined.

Lemma tags_not_shared_without_timeout_witness :
  exists m,
    @run linux_headers sched_race machine_three = Some m
    /\ clients m = [DevTry 3; QClaimed qc_env_ok (read_cmd 3); CIdle]
    /\ no_double_allocation m
    /\ @second_claimant_backs_off linux_headers m.
Proof.
  eexists. split; [vm_compute; reflexivity |]. split; [reflexivity |].
  apply (@tags_not_shared_without_timeout linux_headers machine_three _
           sched_race);
    [discriminate | exact machine_three_initial | reflexivity
    | vm_compute; reflexivity].
Defined.

Lemma requests_wait_for_clocks_on_witness :
  exists m,
    @run linux_headers sched_cut machine_idle = Some m
    /\ state (clk_gating (adapter m)) = REQ_CLKS_ON
    /\ outstanding_reqs (adapter m) = 0
    /\ outstanding_tasks (adapter m) = 0
    /\ (worker_uic (worker m) = false ->
        active_uic_cmd (adapter m) = None
        /\ uic_async_done (adapter m) = false).
Proof.
  eexists. split; [vm_compute; reflexivity |]. split; [reflexivity |].
  apply (@requests_wait_for_clocks_on linux_headers machine_idle _
           sched_cut);
    [discriminate | exact machine_idle_initial | reflexivity
    | vm_compute; reflexivity | discriminate].
Defined.

End GatingSafety.

(** ** Resources taken and given back *)

Module ResourceProps.

Ltac fields :=
  cbn [cap_clk_gating cap_hibern8_with_clk_gating cap_clk_scaling
       cap_intr_aggr quirks nutrs lrb lrb_in_use outstanding_reqs
       outstanding_tasks ufshcd_state pm_op_in_progress force_reset
       uic_link_state_of active_uic_cmd uic_async_done dev_cmd_complete
       dev_cmd_done clk_gating clk_scaling_active_reqs doorbell trace
       state active_reqs is_suspended gate_work_pending
       ungate_work_pending
       set_lrb set_lrb_in_use set_outstanding_reqs set_outstanding_tasks
       set_ufshcd_state set_force_reset set_uic_link_state_of
       set_active_uic_cmd set_uic_async_done set_dev_cmd_complete
       set_dev_cmd_done set_clk_gating set_clk_scaling_active_reqs set_doorbell set_trace
       set_cg_state set_cg_active_reqs set_cg_is_suspended
       set_cg_gate_work_pending set_cg_ungate_work_pending emit
       fst snd].

Section WithHeaders.
Context `{UfsHeaders}.

(** What one pass of [ufshcd_hold] can end in. *)
Lemma ufshcd_hold_start_outcomes (async : bool) (h : ufs_hba) :
  let o := fst (ufshcd_hold_start async h) in
  let h' := snd (ufshcd_hold_start async h) in
  (o = HoldReturn 0 /\ state (clk_gating h') = CLKS_ON
   /\ active_reqs (clk_gating h') = active_reqs (clk_gating h))
  \/ (o = HoldReturn (- EAGAIN) /\ async = true
      /\ active_reqs (clk_gating h')
         = sint32 (active_reqs (clk_gating h) - 1))
  \/ ((exists from_on, o = HoldFlushUngate from_on) /\ async = false
      /\ active_reqs (clk_gating h') = active_reqs (clk_gating h)).
Proof.
  unfold ufshcd_hold_start, hold_case_clks_off, hold_case_req_clks_on,
    cancel_delayed_work_gate, queue_work_ungate, cg_dec_active_reqs.
  destruct (state (clk_gating h)) eqn:Hst; fields;
    repeat match goal with
           | |- context [if ?b then _ else _] => destruct b eqn:?; fields
           end;
    rewrite ?Hst; eauto 8.
Qed.

Lemma clearbit_setbit_fresh (w t : Z) :
  0 <= t -> Z.testbit w t = false -> Z.clearbit (Z.setbit w t) t = w.
Proof.
  intros Ht Hw. apply Z.bits_inj'. intros n Hn.
  rewrite Z.clearbit_eqb, Z.setbit_eqb by done.
  destruct (Z.eqb_spec t n) as [-> | Hne]; [by rewrite Hw |].
  by rewrite orb_false_l, andb_true_r.
Qed.

(** The fields a submission is accounted in. *)
Lemma ufshcd_hold_frame (async : bool) (h : ufs_hba) :
  let h' := snd (ufshcd_hold async h) in
  lrb_in_use h' = lrb_in_use h
  /\ outstanding_reqs h' = outstanding_reqs h
  /\ doorbell h' = doorbell h
  /\ cap_clk_gating h' = cap_clk_gating h.
Proof.
  unfold ufshcd_hold, ufshcd_hold_start, hold_case_clks_off,
    hold_case_req_clks_on, cancel_delayed_work_gate, queue_work_ungate,
    cg_dec_active_reqs, cg_inc_active_reqs.
  fields.
  repeat match goal with
         | |- context [if ?b then _ else _] => destruct b eqn:?; fields
         | |- context [match ?s with CLKS_OFF => _ | _ => _ end] =>
             destruct s eqn:?; fields
         end; done.
Qed.

Lemma ufshcd_hold_counter (async : bool) (h : ufs_hba) :
  EAGAIN <> 0 ->
  let o := fst (ufshcd_hold async h) in
  let h' := snd (ufshcd_hold async h) in
  active_reqs (clk_gating h')
  = if hold_rc o =? 0
    then if cap_clk_gating h
         then sint32 (active_reqs (clk_gating h) + 1)
         else active_reqs (clk_gating h)
    else sint32 (sint32 (active_reqs (clk_gating h) + 1) - 1).
Proof.
  intros He. unfold ufshcd_hold, ufshcd_is_clkgating_allowed.
  destruct (cap_clk_gating h) eqn:Hcap; cbn [negb]; [| done].
  destruct (ufshcd_hold_start_outcomes async (cg_inc_active_reqs h))
    as [(-> & Hs & Ha) | [(-> & Hy & Ha) | ([f ->] & Hy & Ha)]];
    cbv zeta; cbn [hold_rc]; rewrite Ha.
  - done.
  - by destruct (Z.eqb_spec (- EAGAIN) 0); [lia |].
  - done.
Qed.

Lemma ufshcd_release_frame (h : ufs_hba) :
  let h' := ufshcd_release h in
  lrb_in_use h' = lrb_in_use h
  /\ outstanding_reqs h' = outstanding_reqs h
  /\ doorbell h' = doorbell h
  /\ cap_clk_gating h' = cap_clk_gating h
  /\ lrb h' = lrb h
  /\ active_reqs (clk_gating h')
     = if cap_clk_gating h
       then sint32 (active_reqs (clk_gating h) - 1)
       else active_reqs (clk_gating h).
Proof.
  unfold ufshcd_release, __ufshcd_release, ufshcd_is_clkgating_allowed,
    queue_delayed_work_gate, cg_dec_active_reqs.
  destruct (cap_clk_gating h) eqn:Hcap; cbn [negb]; [| by rewrite Hcap].
  fields.
  match goal with
  | |- context [if ?b then _ else _] => destruct b eqn:?; fields
  end; by rewrite ?Hcap.
Qed.

Lemma qc_undo_frame (tag : Z) (h : ufs_hba) :
  let h' := qc_undo tag h in
  lrb_in_use h' = Bitops.clear_bit tag (lrb_in_use h)
  /\ outstanding_reqs h' = outstanding_reqs h
  /\ doorbell h' = doorbell h
  /\ cap_clk_gating h' = cap_clk_gating h
  /\ active_reqs (clk_gating h')
     = if cap_clk_gating h
       then sint32 (active_reqs (clk_gating h) - 1)
       else active_reqs (clk_gating h).
Proof.
  unfold qc_undo, lrb_update. fields.
  destruct (ufshcd_release_frame h) as (-> & -> & -> & -> & _ & ->).
  done.
Qed.

Lemma ufshcd_queuecommand_prepare_frame (env : qc_env) (c : scsi_cmnd)
    (tag : Z) (h : ufs_hba) :
  let e := fst (ufshcd_queuecommand_prepare env c tag h) in
  let h' := snd (ufshcd_queuecommand_prepare env c tag h) in
  outstanding_reqs h' = outstanding_reqs h
  /\ doorbell h' = doorbell h
  /\ cap_clk_gating h' = cap_clk_gating h
  /\ match e with
     | None =>
         lrb_in_use h' = lrb_in_use h
         /\ active_reqs (clk_gating h') = active_reqs (clk_gating h)
     | Some QcBug =>
         ufshpb_built = true /\ requeued_not_read c = true
         /\ lrb_in_use h' = lrb_in_use h
         /\ active_reqs (clk_gating h') = active_reqs (clk_gating h)
     | Some (QcReturn _) =>
         lrb_in_use h' = Bitops.clear_bit tag (lrb_in_use h)
         /\ active_reqs (clk_gating h')
            = if cap_clk_gating h
              then sint32 (active_reqs (clk_gating h) - 1)
              else active_reqs (clk_gating h)
     end.
Proof.
  unfold ufshcd_queuecommand_prepare, ufshcd_map_sg,
    ufshcd_comp_scsi_upiu.
  destruct (negb (qc_crypto_err env =? 0)); fields.
  - match goal with
    | |- context [qc_undo tag ?x] =>
        destruct (qc_undo_frame tag x) as (-> & -> & -> & -> & ->)
    end.
    done.
  - destruct ufshpb_built, (requeued_not_read c); cbn [andb]; fields;
      try done;
      try (destruct (negb (requeue_cnt c =? 0)); fields);
      try (destruct (qc_sg_segments env <? 0); fields);
      try (destruct (negb (_ =? 0)); fields);
      try done;
      match goal with
      | |- context [qc_undo tag ?x] =>
          destruct (qc_undo_frame tag x) as (-> & -> & -> & -> & ->)
      end;
      done.
Qed.

Lemma qc_out_compl_cmd_frame (err : Z) (c : scsi_cmnd) (tag : Z)
    (h : ufs_hba) :
  let h' := snd (qc_out_compl_cmd err c tag h) in
  lrb_in_use h' = Bitops.clear_bit tag (lrb_in_use h)
  /\ outstanding_reqs h' = outstanding_reqs h
  /\ doorbell h' = doorbell h
  /\ active_reqs (clk_gating h')
     = if cap_clk_gating h
       then sint32 (active_reqs (clk_gating h) - 1)
       else active_reqs (clk_gating h).
Proof.
  unfold qc_out_compl_cmd, lrb_update. fields.
  match goal with
  | |- context [ufshcd_release ?x] =>
      destruct (ufshcd_release_frame x) as (E1 & E2 & E3 & _ & _ & E4)
  end.
  destruct (err =? 0); fields; rewrite E1, E2, E3, E4; done.
Qed.

Lemma ufshcd_queuecommand_issue_frame (c : scsi_cmnd) (tag : Z)
    (h : ufs_hba) :
  let r := fst (ufshcd_queuecommand_issue c tag h) in
  let h' := snd (ufshcd_queuecommand_issue c tag h) in
  (r = QcReturn 0
   /\ lrb_in_use h' = lrb_in_use h
   /\ outstanding_reqs h' = Bitops.set_bit tag (outstanding_reqs h)
   /\ doorbell h' = Z.lor (doorbell h) (uint32 (Z.shiftl 1 tag))
   /\ active_reqs (clk_gating h') = active_reqs (clk_gating h))
  \/ (lrb_in_use h' = Bitops.clear_bit tag (lrb_in_use h)
      /\ outstanding_reqs h' = outstanding_reqs h
      /\ doorbell h' = doorbell h
      /\ active_reqs (clk_gating h')
         = if cap_clk_gating h
           then sint32 (active_reqs (clk_gating h) - 1)
           else active_reqs (clk_gating h)).
Proof.
  unfold ufshcd_queuecommand_issue. cbv zeta.
  repeat match goal with
         | |- context [snd (if ?b then _ else _)] => destruct b eqn:?
         end;
    try (right;
         match goal with
         | |- context [qc_out_compl_cmd ?e ?d tag ?x] =>
             destruct (qc_out_compl_cmd_frame e d tag x)
               as (-> & -> & -> & ->)
         end; fields; done).
  left. unfold ufshcd_send_command, ufshcd_clk_scaling_start_busy,
    ufshcd_writel.
  destruct (negb (ufshcd_is_clkscaling_supported h)); fields; done.
Qed.

(** X6.  [ufshcd_hold] with clock gating enabled, up to its first
    return or sleep: when it returns 0 the state is [CLKS_ON] and one
    reference has been added; it fails only when called with
    [async], and then with -EAGAIN and the reference given back; a
    blocking call that does not return 0 is asleep in [flush_work],
    its reference kept. *)
Theorem ufshcd_hold_outcomes (async : bool) (h : ufs_hba) :
  EAGAIN <> 0 ->
  cap_clk_gating h = true ->
  0 <= active_reqs (clk_gating h) < 2 ^ 31 - 1 ->
  let o := fst (ufshcd_hold async h) in
  let h' := snd (ufshcd_hold async h) in
  match o with
  | HoldReturn rc =>
      if rc =? 0
      then state (clk_gating h') = CLKS_ON
           /\ active_reqs (clk_gating h')
              = active_reqs (clk_gating h) + 1
      else async = true /\ rc = - EAGAIN
           /\ active_reqs (clk_gating h') = active_reqs (clk_gating h)
  | HoldFlushUngate _ =>
      async = false
      /\ active_reqs (clk_gating h') = active_reqs (clk_gating h) + 1
  end.
Proof.
  intros He Hcap Hr. unfold ufshcd_hold, ufshcd_is_clkgating_allowed.
  rewrite Hcap. cbn [negb].
  assert (Hinc : sint32 (active_reqs (clk_gating h) + 1)
                 = active_reqs (clk_gating h) + 1).
  { unfold sint32. rewrite Z.mod_small by lia. lia. }
  destruct (ufshcd_hold_start_outcomes async (cg_inc_active_reqs h))
    as [(-> & Hs & Ha) | [(-> & Hy & Ha) | ([f ->] & Hy & Ha)]];
    cbv zeta; rewrite Ha; unfold cg_inc_active_reqs; fields.
  - rewrite Z.eqb_refl. done.
  - destruct (Z.eqb_spec (- EAGAIN) 0); [lia |].
    split_and!; [done | done |]. apply sint32_inc_dec. lia.
  - done.
Qed.

(** X7.  [ufshcd_queuecommand], when nothing else runs in between,
    either issues the command, in which case it returns 0, the slot
    of the request tag was free and is now marked in [lrb_in_use] and
    in [outstanding_reqs], its doorbell bit has been written and one
    clock reference is held for the command, or it leaves
    [lrb_in_use], [outstanding_reqs], the doorbell and the reference
    count as they were.  The one other end is the [BUG_ON] of a
    build with [CONFIG_UFSHPB], met by a requeued command that is
    not a READ(10): the function stops there with the slot claimed
    and the reference taken, and nothing issued. *)
Theorem ufshcd_queuecommand_issues_or_gives_back (env : qc_env)
    (c : scsi_cmnd) (h : ufs_hba) :
  EAGAIN <> 0 ->
  0 <= active_reqs (clk_gating h) < 2 ^ 31 - 1 ->
  let tag := request_tag c in
  let r := fst (ufshcd_queuecommand env c h) in
  let h' := snd (ufshcd_queuecommand env c h) in
  (r = QcBug
   /\ ufshpb_built = true /\ requeued_not_read c = true
   /\ Bitops.test_bit tag (lrb_in_use h) = false
   /\ lrb_in_use h' = Bitops.set_bit tag (lrb_in_use h)
   /\ outstanding_reqs h' = outstanding_reqs h
   /\ doorbell h' = doorbell h
   /\ active_reqs (clk_gating h')
      = if cap_clk_gating h
        then active_reqs (clk_gating h) + 1
        else active_reqs (clk_gating h))
  \/ (r = QcReturn 0
   /\ Bitops.test_bit tag (lrb_in_use h) = false
   /\ lrb_in_use h' = Bitops.set_bit tag (lrb_in_use h)
   /\ outstanding_reqs h' = Bitops.set_bit tag (outstanding_reqs h)
   /\ doorbell h' = Z.lor (doorbell h) (uint32 (Z.shiftl 1 tag))
   /\ active_reqs (clk_gating h')
      = if cap_clk_gating h
        then active_reqs (clk_gating h) + 1
        else active_reqs (clk_gating h))
  \/ (lrb_in_use h' = lrb_in_use h
      /\ outstanding_reqs h' = outstanding_reqs h
      /\ doorbell h' = doorbell h
      /\ active_reqs (clk_gating h') = active_reqs (clk_gating h)).
Proof.
  intros He Hr tag. subst tag.
  assert (Hinc : sint32 (active_reqs (clk_gating h) + 1)
                 = active_reqs (clk_gating h) + 1).
  { unfold sint32. rewrite Z.mod_small by lia. lia. }
  assert (Hdec : sint32 (sint32 (active_reqs (clk_gating h) + 1) - 1)
                 = active_reqs (clk_gating h)).
  { apply sint32_inc_dec. lia. }
  unfold ufshcd_queuecommand, ufshcd_queuecommand_front. cbv zeta.
  destruct (ufshcd_valid_tag h (request_tag c)) eqn:Hv; cbn [negb];
    [| by right; right].
  destruct (qc_trylock env); cbn [negb]; [| by right; right].
  unfold Bitops.test_and_set_bit_lock.
  destruct (Z.testbit (lrb_in_use h) (request_tag c)) eqn:Hb;
    [by right; right |].
  assert (Ht : 0 <= request_tag c).
  { unfold ufshcd_valid_tag in Hv. lia. }
  set (h1 := set_lrb_in_use _ h).
  pose proof (ufshcd_hold_frame true h1) as (F1 & F2 & F3 & F4).
  pose proof (ufshcd_hold_counter true h1 He) as F5.
  destruct (ufshcd_hold true h1) as [o h2]. cbn [fst snd] in *.
  subst h1. revert F1 F2 F3 F4 F5. fields. intros F1 F2 F3 F4 F5.
  destruct (hold_rc o =? 0); cbn [negb].
  - pose proof (ufshcd_queuecommand_prepare_frame env c (request_tag c)
                  h2) as (P1 & P2 & P3 & P4).
    destruct (ufshcd_queuecommand_prepare env c (request_tag c) h2)
      as [[[| err] |] h3]; cbn [fst snd] in *.
    + left. destruct P4 as (Pb & Pq & P4 & P5).
      rewrite P4, P1, P2, P5, F1, F2, F3, F5.
      split_and!; try done.
      destruct (cap_clk_gating h); [done | done].
    + right; right. destruct P4 as [P4 P5].
      rewrite P4, P1, P2, P5, F1, F2, F3, F4, F5.
      unfold Bitops.clear_bit.
      rewrite clearbit_setbit_fresh by done.
      destruct (cap_clk_gating h); [| done].
      by rewrite Hinc, <- Hinc.
    + destruct P4 as [P4 P5].
      destruct (ufshcd_queuecommand_issue_frame c (request_tag c) h3)
        as [(-> & I1 & I2 & I3 & I4) | (I1 & I2 & I3 & I4)].
      * right; left.
        rewrite I1, I2, I3, I4, P4, P1, P2, P5, F1, F2, F3, F5.
        split_and!; try done.
        destruct (cap_clk_gating h); [done | done].
      * right; right.
        rewrite I1, I2, I3, I4, P4, P1, P2, P3, P5, F1, F2, F3,
          F4, F5.
        unfold Bitops.clear_bit.
        rewrite clearbit_setbit_fresh by done.
        destruct (cap_clk_gating h); [| done].
        by rewrite Hinc, <- Hinc.
  - right; right. fields. rewrite F1, F2, F3, F5.
    unfold Bitops.clear_bit.
    by rewrite clearbit_setbit_fresh.
Qed.

Lemma intr_ctl_app (a b : list event) :
  intr_ctl (a ++ b) = intr_ctl a ++ intr_ctl b.
Proof. apply omap_app. Qed.

Lemma uic_cmd_compl_effect (st a2 a3 : Z) (h : ufs_hba) :
  let h' := snd (ufshcd_uic_cmd_compl st a2 a3 h) in
  uic_link_state_of h' = uic_link_state_of h
  /\ uic_async_done h' = uic_async_done h
  /\ exists evs, trace h' = trace h ++ evs /\ intr_ctl evs = [].
Proof.
  unfold ufshcd_uic_cmd_compl.
  destruct (active_uic_cmd h) as [c |] eqn:Ha;
    [destruct (negb (Z.land st UIC_COMMAND_COMPL =? 0)) |];
    destruct (negb (Z.land st UFSHCD_UIC_PWR_MASK =? 0));
    destruct (uic_async_done h) eqn:Hy; fields; rewrite ?Ha, ?Hy;
    fields; cbn [andb]; fields; rewrite ?Ha; fields;
    (split_and!; [done | done |]);
    rewrite <- ?app_assoc;
    first [by exists [] ; rewrite app_nil_r
          | eexists; split; [reflexivity | reflexivity]].
Qed.

Lemma send_uic_cmd_effect (ready : bool) (c : uic_command)
    (h : ufs_hba) :
  let h' := snd (__ufshcd_send_uic_cmd ready c h) in
  uic_link_state_of h' = uic_link_state_of h
  /\ uic_async_done h' = uic_async_done h
  /\ exists evs, trace h' = trace h ++ evs /\ intr_ctl evs = [].
Proof.
  unfold __ufshcd_send_uic_cmd, ufshcd_dispatch_uic_cmd, ufshcd_writel.
  destruct ready; cbn [negb]; fields; (split_and!; [done | done |]).
  - rewrite <- !app_assoc. eexists. split; reflexivity.
  - exists []. by rewrite app_nil_r.
Qed.

(** X20.  [ufshcd_uic_pwr_ctrl] refuses with -ENOLINK, touching
    nothing, when the link is broken.  Otherwise, on every path, it
    leaves [active_uic_cmd] and [uic_async_done] cleared and has
    enabled the UIC command completion interrupt again if, and only
    if, it disabled it; a failure marks the link broken and ends with
    the error handler scheduled, a success leaves the link state as
    it was. *)
Theorem uic_pwr_ctrl_cleans_up (env : pwr_env) (cmd : uic_command)
    (hba : ufs_hba) :
  let ret := fst (ufshcd_uic_pwr_ctrl env cmd hba) in
  let hba' := snd (ufshcd_uic_pwr_ctrl env cmd hba) in
  if ufshcd_is_link_broken hba
  then ret = - ENOLINK /\ hba' = hba
  else
    active_uic_cmd hba' = None
    /\ uic_async_done hba' = false
    /\ (exists evs,
          trace hba' = trace hba ++ evs
          /\ intr_ctl evs
             = if pe_intr_enabled env
               then [EvDisableIntr UIC_COMMAND_COMPL;
                     EvEnableIntr UIC_COMMAND_COMPL]
               else [])
    /\ if ret =? 0
       then uic_link_state_of hba' = uic_link_state_of hba
       else uic_link_state_of hba' = UIC_LINK_BROKEN_STATE
            /\ exists evs, trace hba' = evs ++ [EvScheduleEhWork].
Proof.
  cbv zeta. unfold ufshcd_uic_pwr_ctrl.
  destruct (ufshcd_is_link_broken hba); [done |].
  unfold ufshcd_uic_pwr_ctrl_issue. cbv zeta.
  set (h1 := if pe_intr_enabled env then _ else _).
  assert (Hh1 : uic_link_state_of h1 = uic_link_state_of hba
                /\ exists evs, trace h1 = trace hba ++ evs
                     /\ intr_ctl evs
                        = if pe_intr_enabled env
                          then [EvDisableIntr UIC_COMMAND_COMPL]
                          else []).
  { subst h1. destruct (pe_intr_enabled env); fields.
    - split; [done |]. rewrite <- app_assoc. eexists.
      split; reflexivity.
    - split; [done |]. exists []. by rewrite app_nil_r. }
  destruct Hh1 as (Hl1 & evs1 & Ht1 & Hc1).
  destruct (send_uic_cmd_effect (pe_ready env) cmd h1)
    as (Hl2 & _ & evs2 & Ht2 & Hc2).
  destruct (__ufshcd_send_uic_cmd (pe_ready env) cmd h1) as [r2 h2].
  cbn [fst snd] in *.
  assert (Hfin : forall ret h3 evs3,
             uic_link_state_of h3 = uic_link_state_of hba ->
             trace h3 = trace hba ++ evs1 ++ evs2 ++ evs3 ->
             intr_ctl evs3 = [] ->
             let hba' := ufshcd_uic_pwr_ctrl_finish ret
                           (pe_intr_enabled env) h3 in
             active_uic_cmd hba' = None
             /\ uic_async_done hba' = false
             /\ (exists evs,
                   trace hba' = trace hba ++ evs
                   /\ intr_ctl evs
                      = if pe_intr_enabled env
                        then [EvDisableIntr UIC_COMMAND_COMPL;
                              EvEnableIntr UIC_COMMAND_COMPL]
                        else [])
             /\ if ret =? 0
                then uic_link_state_of hba' = uic_link_state_of hba
                else uic_link_state_of hba' = UIC_LINK_BROKEN_STATE
                     /\ exists evs,
                          trace hba' = evs ++ [EvScheduleEhWork]).
  { intros ret h3 evs3 Hl3 Ht3 Hc3. cbv zeta.
    unfold ufshcd_uic_pwr_ctrl_finish.
    destruct (pe_intr_enabled env), (ret =? 0); cbn [negb]; fields;
      rewrite ?Ht3, ?Hl3;
      (split; [done | split; [done | split;
        [ rewrite <- ?app_assoc; eexists;
          (split; [reflexivity |]);
          rewrite !intr_ctl_app, Hc1, Hc2, Hc3; reflexivity
        | first [done | split; [done | by eexists]] ]]]). }
  destruct (r2 =? 0) eqn:Hr2; cbn [negb fst snd].
  - cbv zeta in Hfin. unfold run_irq.
    destruct (pe_irq env) as [[[st a2] a3] |].
    + destruct (uic_cmd_compl_effect st a2 a3 h2)
        as (Hl3 & _ & evs3 & Ht3 & Hc3).
      apply (Hfin _ _ evs3); [congruence | | done].
      rewrite Ht3, Ht2, Ht1, <- !app_assoc. done.
    + apply (Hfin _ _ []); [congruence | | done].
      rewrite Ht2, Ht1, <- !app_assoc, app_nil_r. done.
  - specialize (Hfin r2 h2 []). cbv zeta in Hfin.
    apply Hfin; [congruence | | done].
    rewrite Ht2, Ht1, <- !app_assoc, app_nil_r. done.
Qed.

End WithHeaders.

Lemma ufshcd_hold_outcomes_witness :
  let h := set_cg_state REQ_CLKS_OFF
             (set_cg_gate_work_pending true hba_idle) in
  fst (@ufshcd_hold linux_headers true h) = HoldReturn 0
  /\ state (clk_gating (snd (@ufshcd_hold linux_headers true h))) = CLKS_ON
  /\ active_reqs (clk_gating (snd (@ufshcd_hold linux_headers true h)))
     = active_reqs (clk_gating h) + 1.
Proof.
  split; [reflexivity |].
  apply (@ufshcd_hold_outcomes linux_headers true
           (set_cg_state REQ_CLKS_OFF
              (set_cg_gate_work_pending true hba_idle)));
    [discriminate | reflexivity | simpl; lia].
Defined.

Lemma ufshcd_queuecommand_issues_or_gives_back_witness :
  let r := @ufshcd_queuecommand linux_headers qc_env_ok (read_cmd 2)
             hba_idle in
  fst r = QcReturn 0
  /\ lrb_in_use (snd r) = 4 /\ outstanding_reqs (snd r) = 4
  /\ doorbell (snd r) = 4 /\ active_reqs (clk_gating (snd r)) = 1.
Proof.
  intros r.
  destruct (@ufshcd_queuecommand_issues_or_gives_back linux_headers
              qc_env_ok (read_cmd 2) hba_idle)
    as [(Hr & _) | [(Hr & _ & H1 & H2 & H3 & H4) | (H1 & _)]];
    [discriminate | simpl; lia | discriminate Hr | | discriminate H1].
  repeat split; assumption.
Defined.

(** In a build with [CONFIG_UFSHPB] a requeued WRITE(10) stops at
    [BUG_ON(cmd->requeue_cnt)] with slot 2 claimed and one clock
    reference taken; nothing has been issued. *)
Lemma requeued_write_stops_in_bug :
  let r := @ufshcd_queuecommand linux_headers qc_env_ok
             (requeued_write_cmd 2) hba_idle in
  fst r = QcBug
  /\ lrb_in_use (snd r) = 4 /\ outstanding_reqs (snd r) = 0
  /\ doorbell (snd r) = 0 /\ active_reqs (clk_gating (snd r)) = 1.
Proof. vm_compute. repeat split. Qed.

End ResourceProps.

(** ** The error-register history *)

Module ErrHistProps.
Import ErrHist.

Section WithDefs.
Context `{UfsDefs}.

Lemma hist_inv_zero : 0 < UFS_ERR_REG_HIST_LENGTH -> hist_inv [] hist_zero.
Proof.
  intros HL. unfold hist_inv, hist_zero. cbn [pos reg tstamp length].
  rewrite !length_replicate. split_and!; try done.
  intros k Hk. unfold entry.
  destruct (Z.ltb_spec k 0); [| lia]. cbn [fst snd].
  pose proof (Z.mod_pos_bound k UFS_ERR_REG_HIST_LENGTH HL).
  split; apply lookup_replicate_2; lia.
Qed.

Lemma mod_differs (k n : Z) :
  0 < UFS_ERR_REG_HIST_LENGTH -> 0 < n - k < UFS_ERR_REG_HIST_LENGTH -> Z.to_nat (k mod UFS_ERR_REG_HIST_LENGTH) <> Z.to_nat (n mod UFS_ERR_REG_HIST_LENGTH).
Proof.
  intros HL Hd He.
  pose proof (Z.mod_pos_bound k UFS_ERR_REG_HIST_LENGTH HL).
  pose proof (Z.mod_pos_bound n UFS_ERR_REG_HIST_LENGTH HL).
  assert (Hm : k mod UFS_ERR_REG_HIST_LENGTH = n mod UFS_ERR_REG_HIST_LENGTH) by lia.
  assert (Hz : (n - k) mod UFS_ERR_REG_HIST_LENGTH = 0).
  { rewrite Zminus_mod, Hm, Z.sub_diag. by apply Zmod_0_l. }
  rewrite Z.mod_small in Hz by lia. lia.
Qed.

Lemma hist_inv_update (us : list (Z * Z)) (u : Z * Z)
    (h : ufs_err_reg_hist) :
  0 < UFS_ERR_REG_HIST_LENGTH < 2 ^ 30 ->
  hist_inv us h ->
  hist_inv (us ++ [u]) (ufshcd_update_reg_hist (snd u) h (fst u)).
Proof.
  intros HL (Hp & Hr & Ht & Hk).
  set (n := Z.of_nat (length us)) in *.
  assert (Hn : Z.of_nat (length (us ++ [u])) = n + 1).
  { rewrite length_app. cbn [length]. lia. }
  assert (HL0 : 0 < UFS_ERR_REG_HIST_LENGTH) by lia.
  pose proof (Z.mod_pos_bound n UFS_ERR_REG_HIST_LENGTH HL0) as Hnm.
  unfold hist_inv, ufshcd_update_reg_hist. cbn [pos reg tstamp].
  rewrite Hn, !length_insert. split_and!; try done.
  - rewrite Hp. unfold sint32. rewrite (Z.mod_small (_ + 2 ^ 31)) by lia.
    rewrite Z.rem_mod_nonneg by lia.
    replace (n mod UFS_ERR_REG_HIST_LENGTH + 1 + 2 ^ 31 - 2 ^ 31) with (n mod UFS_ERR_REG_HIST_LENGTH + 1) by lia.
    by rewrite Z.add_mod_idemp_l by lia.
  - intros k Hkr. rewrite Hp.
    destruct (decide (k = n)) as [-> | Hne].
    + rewrite !list_lookup_insert_eq by lia.
      unfold entry. destruct (Z.ltb_spec n 0); [lia |].
      rewrite list_lookup_fmap, lookup_app_r by lia.
      replace (Z.to_nat n - length us)%nat with 0%nat by lia.
      done.
    + rewrite !list_lookup_insert_ne by (apply not_eq_sym, mod_differs; lia).
      destruct (Hk k ltac:(lia)) as [-> ->].
      unfold entry. destruct (Z.ltb_spec k 0); [done |].
      rewrite !list_lookup_fmap, lookup_app_l by lia. done.
Qed.

Lemma hist_inv_after (us : list (Z * Z)) :
  0 < UFS_ERR_REG_HIST_LENGTH < 2 ^ 30 -> hist_inv us (hist_after us).
Proof.
  intros HL. induction us as [| u us IH] using rev_ind.
  - apply hist_inv_zero. lia.
  - unfold hist_after. rewrite foldl_app. cbn [foldl].
    by apply hist_inv_update.
Qed.

(** The rounds [i = k - (n - UFS_ERR_REG_HIST_LENGTH)], for [k] up to [n - 1], print the
    updates from number [k] on. *)
Lemma print_rounds (us : list (Z * Z)) (h : ufs_err_reg_hist) :
  0 < UFS_ERR_REG_HIST_LENGTH < 2 ^ 30 ->
  Forall (fun u => snd u <> 0) us ->
  hist_inv us h ->
  forall (m : nat) (k : Z),
    Z.of_nat (length us) - UFS_ERR_REG_HIST_LENGTH <= k ->
    k + Z.of_nat m = Z.of_nat (length us) ->
    hist_values
      (omap (err_hist_line h)
            (seqZ (k - (Z.of_nat (length us) - UFS_ERR_REG_HIST_LENGTH)) (Z.of_nat m)))
    = drop (Z.to_nat k)
           ((fun u => (uint32 (fst u), ktime_to_us (snd u))) <$> us).
Proof.
  intros HL Hnz (Hp & Hr & Ht & Hk).
  set (n := Z.of_nat (length us)) in *.
  induction m as [| m IH]; intros k Hlo Hkm.
  - cbn. rewrite drop_ge; [done |]. rewrite length_fmap. lia.
  - rewrite seqZ_cons by lia. cbn [omap list_omap].
    replace (Z.succ (k - (n - UFS_ERR_REG_HIST_LENGTH))) with ((k + 1) - (n - UFS_ERR_REG_HIST_LENGTH)) by lia.
    replace (Z.pred (Z.of_nat (S m))) with (Z.of_nat m) by lia.
    specialize (IH (k + 1) ltac:(lia) ltac:(lia)).
    assert (Hpk : Z.rem (sint32 (k - (n - UFS_ERR_REG_HIST_LENGTH) + pos h)) UFS_ERR_REG_HIST_LENGTH = k mod UFS_ERR_REG_HIST_LENGTH).
    { rewrite Hp.
      assert (HL0 : 0 < UFS_ERR_REG_HIST_LENGTH) by lia.
      pose proof (Z.mod_pos_bound n UFS_ERR_REG_HIST_LENGTH HL0).
      unfold sint32. rewrite (Z.mod_small (_ + 2 ^ 31)) by lia.
      rewrite Z.rem_mod_nonneg by lia.
      replace (k - (n - UFS_ERR_REG_HIST_LENGTH) + n mod UFS_ERR_REG_HIST_LENGTH + 2 ^ 31 - 2 ^ 31)
        with (k - n + 1 * UFS_ERR_REG_HIST_LENGTH + n mod UFS_ERR_REG_HIST_LENGTH) by lia.
      rewrite Z.add_mod_idemp_r by lia.
      replace (k - n + 1 * UFS_ERR_REG_HIST_LENGTH + n) with (k + 1 * UFS_ERR_REG_HIST_LENGTH) by lia.
      by rewrite Z_mod_plus_full. }
    unfold err_hist_line at 1. cbv zeta. rewrite Hpk.
    destruct (Hk k ltac:(lia)) as [-> ->]. unfold entry.
    destruct (Z.ltb_spec k 0) as [Hneg | Hnn]; cbn [fst snd].
    + rewrite Z.eqb_refl. rewrite IH.
      by replace (Z.to_nat (k + 1)) with (Z.to_nat k) by lia.
    + assert (Hlk : is_Some (us !! Z.to_nat k)).
      { apply lookup_lt_is_Some_2. lia. }
      destruct Hlk as [u Hu].
      rewrite list_lookup_fmap, Hu.
      cbn [fmap option_fmap option_map default fst snd id].
      rewrite Forall_lookup in Hnz. specialize (Hnz _ _ Hu).
      destruct (Z.eqb_spec (snd u) 0) as [| _]; [done |].
      unfold hist_values in IH |- *. cbn [omap list_omap].
      rewrite IH.
      replace (Z.to_nat (k + 1)) with (S (Z.to_nat k)) by lia.
      symmetry. apply drop_S. by rewrite list_lookup_fmap, Hu.
Qed.

(** X8.  The error history is a ring of the last
    [UFS_ERR_REG_HIST_LENGTH] updates: after any number of calls of
    [ufshcd_update_reg_hist] on the zeroed history, with non-zero
    time stamps, [ufshcd_print_err_hist] prints the most recent
    [UFS_ERR_REG_HIST_LENGTH] of them (all when there are fewer),
    oldest first, each with its register value and with
    [ktime_to_us] of its time stamp, and the no-record message only
    when there was no update. *)
Theorem err_hist_keeps_latest (us : list (Z * Z)) :
  0 < UFS_ERR_REG_HIST_LENGTH < 2 ^ 30 ->
  Forall (fun u => snd u <> 0) us ->
  hist_values (ufshcd_print_err_hist (hist_after us))
  = drop (length us - Z.to_nat UFS_ERR_REG_HIST_LENGTH)
         ((fun u => (uint32 (fst u), ktime_to_us (snd u))) <$> us)
  /\ (ufshcd_print_err_hist (hist_after us) = [HistNoRecord]
      <-> us = []).
Proof.
  intros HL Hnz.
  pose proof (hist_inv_after us HL) as Hinv.
  assert (Hlo : Z.of_nat (length us) - UFS_ERR_REG_HIST_LENGTH
                <= Z.of_nat (length us) - UFS_ERR_REG_HIST_LENGTH)
    by lia.
  assert (Hsum : Z.of_nat (length us) - UFS_ERR_REG_HIST_LENGTH
                 + Z.of_nat (Z.to_nat UFS_ERR_REG_HIST_LENGTH)
                 = Z.of_nat (length us)) by lia.
  pose proof (print_rounds us (hist_after us) HL Hnz Hinv
                (Z.to_nat UFS_ERR_REG_HIST_LENGTH)
                (Z.of_nat (length us) - UFS_ERR_REG_HIST_LENGTH)
                Hlo Hsum) as Hpr.
  clear Hlo Hsum.
  rewrite Z.sub_diag, Z2Nat.id in Hpr by lia.
  replace (Z.to_nat (Z.of_nat (length us) - UFS_ERR_REG_HIST_LENGTH))
    with (length us - Z.to_nat UFS_ERR_REG_HIST_LENGTH)%nat in Hpr by lia.
  assert (Hline : forall msg,
             msg ∈ omap (err_hist_line (hist_after us))
                        (seqZ 0 UFS_ERR_REG_HIST_LENGTH) ->
             exists p r t, msg = HistLine p r t).
  { intros msg Hin. apply list_elem_of_omap in Hin as (i & _ & Hi).
    unfold err_hist_line in Hi.
    repeat case_match; try done. injection Hi as <-. eauto. }
  unfold ufshcd_print_err_hist.
  destruct (omap _ _) as [| msg msgs] eqn:Hom.
  - cbn in Hpr. split; [by rewrite <- Hpr |]. split; [| done].
    intros _. destruct us as [| u us _] using rev_ind; [done |].
    exfalso. symmetry in Hpr. apply (f_equal length) in Hpr.
    rewrite length_drop, length_fmap, length_app in Hpr.
    cbn [length] in Hpr. lia.
  - split; [done |].
    destruct (Hline msg (list_elem_of_here _ _)) as (p & r & t & ->).
    split; [done |]. intros ->. by cbn in Hpr.
Qed.

End WithDefs.

Lemma err_hist_keeps_latest_witness :
  let us := [(1, 10500); (2, 20500); (3, 30500); (4, 40500); (5, 50500);
             (6, 60500); (7, 70500); (8, 80500); (9, 90500);
             (10, 100500)] in
  hist_values (@ufshcd_print_err_hist linux_defs
                 (@hist_after linux_defs us))
  = [(3, 30); (4, 40); (5, 50); (6, 60); (7, 70); (8, 80); (9, 90);
     (10, 100)].
Proof.
  apply (proj1 (@err_hist_keeps_latest linux_defs
                  [(1, 10500); (2, 20500); (3, 30500); (4, 40500);
                   (5, 50500); (6, 60500); (7, 70500); (8, 80500);
                   (9, 90500); (10, 100500)]
                  ltac:(simpl; lia)
                  ltac:(repeat constructor; simpl; lia))).
Defined.

End ErrHistProps.

(** ** The active ICC level *)

Module IccLevelProps.
Import IccLevel.

Section WithDefs.
Context `{UfsDefs}.

Lemma icc_scan_spec (sup : Z) (buff : list Z) (k : nat) :
  (2 * k <= length buff)%nat ->
  exists i, icc_scan sup buff k = Some i
    /\ -1 <= i < Z.of_nat k
    /\ (forall j, i < j < Z.of_nat k -> icc_supported sup buff j = false)
    /\ (0 <= i -> icc_supported sup buff i = true).
Proof.
  induction k as [| k IH]; intros Hlen.
  - exists (-1). cbn. split_and!; [done | lia | lia | intros; lia | lia].
  - cbn [icc_scan].
    assert (Hrow : exists data,
               be16_to_cpup buff (2 * Z.of_nat k) = Some data).
    { unfold be16_to_cpup.
      destruct (Z.ltb_spec (2 * Z.of_nat k) 0); [lia |].
      assert (Hb0 : (Z.to_nat (2 * Z.of_nat k) < length buff)%nat)
        by lia.
      assert (Hb1 : (Z.to_nat (2 * Z.of_nat k + 1) < length buff)%nat)
        by lia.
      destruct (lookup_lt_is_Some_2 _ _ Hb0) as [b0 ->].
      destruct (lookup_lt_is_Some_2 _ _ Hb1) as [b1 ->].
      eauto. }
    destruct Hrow as [data Hd]. rewrite Hd.
    destruct (sup >=? icc_row_curr_uA data) eqn:Hs.
    + exists (Z.of_nat k). split_and!; [done | lia | lia | intros; lia |].
      intros _. unfold icc_supported. by rewrite Hd.
    + assert (Hlen' : (2 * k <= length buff)%nat) by lia.
      destruct (IH Hlen') as (i & -> & Hi & Hout & Hin).
      exists i. split_and!; [done | lia | lia | | done].
      intros j Hj. destruct (decide (j = Z.of_nat k)) as [-> | Hne].
      * unfold icc_supported. by rewrite Hd.
      * apply Hout. lia.
Qed.

Lemma get_max_icc_level_spec (sup start : Z) (buff : list Z) :
  0 <= start < 2 ^ 31 - 1 ->
  2 * (start + 1) <= Z.of_nat (length buff) ->
  exists r, ufshcd_get_max_icc_level sup start buff = Some r
    /\ 0 <= r <= start
    /\ (forall j, r < j <= start -> icc_supported sup buff j = false)
    /\ (icc_supported sup buff r = true
        \/ r = 0 /\ icc_supported sup buff 0 = false).
Proof.
  intros Hs Hlen. unfold ufshcd_get_max_icc_level.
  assert (Hw : sint32 start = start).
  { unfold sint32. rewrite Z.mod_small by lia. lia. }
  rewrite Hw.
  assert (Hrows : (2 * Z.to_nat (start + 1) <= length buff)%nat) by lia.
  destruct (icc_scan_spec sup buff (Z.to_nat (start + 1)) Hrows)
    as (i & -> & Hi & Hout & Hin).
  rewrite Z2Nat.id in Hi, Hout by lia.
  destruct (Z.ltb_spec i 0) as [Hneg | Hnn].
  - exists 0. assert (i = -1) as -> by lia.
    split_and!; [done | lia | lia | intros; apply Hout; lia |].
    right. split; [done |]. apply Hout. lia.
  - exists i. unfold uint32. rewrite Z.mod_small by lia.
    split_and!; [done | lia | lia | intros; apply Hout; lia |].
    left. by apply Hin.
Qed.

(** X9.  [ufshcd_get_max_icc_level] returns the highest row of the
    table, not above [start_scan], whose current the regulator can
    supply; when no row qualifies it returns 0 all the same. *)
Theorem get_max_icc_level_highest_supported (sup start : Z)
    (buff : list Z) :
  0 <= start < 2 ^ 31 - 1 ->
  2 * (start + 1) <= Z.of_nat (length buff) ->
  exists r, ufshcd_get_max_icc_level sup start buff = Some r
    /\ 0 <= r <= start
    /\ (forall j, r < j <= start -> icc_supported sup buff j = false)
    /\ (icc_supported sup buff r = true
        \/ r = 0 /\ icc_supported sup buff 0 = false).
Proof.
  intros Hs Hlen. unfold ufshcd_get_max_icc_level.
  assert (Hw : sint32 start = start).
  { unfold sint32. rewrite Z.mod_small by lia. lia. }
  rewrite Hw.
  assert (Hrows : (2 * Z.to_nat (start + 1) <= length buff)%nat) by lia.
  destruct (icc_scan_spec sup buff (Z.to_nat (start + 1)) Hrows)
    as (i & -> & Hi & Hout & Hin).
  rewrite Z2Nat.id in Hi, Hout by lia.
  destruct (Z.ltb_spec i 0) as [Hneg | Hnn].
  - (* the scan ran out: the fallback *)
    exists 0. assert (i = -1) as -> by lia.
    split_and!; [done | lia | lia | intros; apply Hout; lia |].
    right. split; [done |]. apply Hout. lia.
  - (* the scan stopped at row [i] *)
    exists i. unfold uint32. rewrite Z.mod_small by lia.
    split_and!; [done | lia | lia | intros; apply Hout; lia |].
    left. by apply Hin.
Qed.

Lemma icc_narrow_spec (reg : option Z) (level off : Z)
    (desc_buf : list Z) :
  0 <= level < 2 ^ 31 - 1 ->
  0 <= off ->
  off + 2 * (level + 1) <= Z.of_nat (length desc_buf) ->
  exists r, icc_narrow reg level off desc_buf = Some r
    /\ 0 <= r <= level
    /\ forall j, r < j <= level -> icc_rules_out reg off desc_buf j.
Proof.
  intros Hl Ho Hlen. unfold icc_narrow.
  destruct reg as [max_uA |]; [| exists level; split_and!; [done | lia | lia | intros; lia]].
  destruct (Z.eqb_spec max_uA 0) as [| Hnz];
    [exists level; split_and!; [done | lia | lia | intros; lia] |].
  destruct (get_max_icc_level_spec max_uA level
              (drop (Z.to_nat off) desc_buf) Hl)
    as (r & -> & Hr & Hout & _).
  { rewrite length_drop. lia. }
  exists r. split_and!; [done | lia | lia |].
  intros j Hj. exists max_uA. split_and!; [done | done |].
  by apply Hout.
Qed.

(** X10.  [ufshcd_find_max_sup_active_icc_level] returns 0 when a
    regulator the device version needs is missing or VCC has no
    current limit; otherwise no level above the one it returns is
    within the limits of all the regulators it scans. *)
Theorem find_max_icc_level_maximal (vreg_info : ufs_vreg_info)
    (wspecversion : Z) (desc_buf : list Z) :
  0 < POWER_DESC_MAX_ACTV_ICC_LVLS < 2 ^ 31 ->
  0 <= PWR_DESC_ACTIVE_LVLS_VCC_0 ->
  0 <= PWR_DESC_ACTIVE_LVLS_VCCQ_0 ->
  0 <= PWR_DESC_ACTIVE_LVLS_VCCQ2_0 ->
  PWR_DESC_ACTIVE_LVLS_VCC_0 + 2 * POWER_DESC_MAX_ACTV_ICC_LVLS
    <= Z.of_nat (length desc_buf) ->
  PWR_DESC_ACTIVE_LVLS_VCCQ_0 + 2 * POWER_DESC_MAX_ACTV_ICC_LVLS
    <= Z.of_nat (length desc_buf) ->
  PWR_DESC_ACTIVE_LVLS_VCCQ2_0 + 2 * POWER_DESC_MAX_ACTV_ICC_LVLS
    <= Z.of_nat (length desc_buf) ->
  exists r,
    ufshcd_find_max_sup_active_icc_level vreg_info wspecversion desc_buf
    = Some r
    /\ 0 <= r <= POWER_DESC_MAX_ACTV_ICC_LVLS - 1
    /\ (vcc vreg_info = None \/ vcc vreg_info = Some 0
        \/ (vccq vreg_info = None /\ 768 <= wspecversion)
        \/ (vccq2 vreg_info = None /\ wspecversion < 768) -> r = 0)
    /\ ((exists max_uA, vcc vreg_info = Some max_uA /\ max_uA <> 0)
        /\ (vccq vreg_info = None -> wspecversion < 768)
        /\ (vccq2 vreg_info = None -> 768 <= wspecversion) ->
        forall j, r < j <= POWER_DESC_MAX_ACTV_ICC_LVLS - 1 ->
          icc_rules_out (vcc vreg_info) PWR_DESC_ACTIVE_LVLS_VCC_0
            desc_buf j
          \/ icc_rules_out (vccq vreg_info) PWR_DESC_ACTIVE_LVLS_VCCQ_0
               desc_buf j
          \/ icc_rules_out (vccq2 vreg_info)
               PWR_DESC_ACTIVE_LVLS_VCCQ2_0 desc_buf j).
Proof.
  intros HM Ho1 Ho2 Ho3 Hl1 Hl2 Hl3.
  unfold ufshcd_find_max_sup_active_icc_level.
  destruct (_ || _) eqn:Hmiss.
  { exists 0. split_and!; [done | lia | lia | done |].
    intros ([m [Hv _]] & Hq & Hq2). exfalso.
    rewrite Hv in Hmiss. cbn in Hmiss.
    apply orb_true_iff in Hmiss as [Hm | Hm];
      apply andb_true_iff in Hm as [Hm1 Hm2];
      apply bool_decide_eq_true in Hm1;
      rewrite ?Z.geb_leb in Hm2;
      first [apply Z.leb_le in Hm2 | apply Z.ltb_lt in Hm2];
      specialize (Hq Hm1) || specialize (Hq2 Hm1); lia. }
  apply orb_false_iff in Hmiss as [Hmiss Hm3].
  apply orb_false_iff in Hmiss as [Hm1 Hm2].
  apply bool_decide_eq_false in Hm1.
  destruct (vcc vreg_info) as [m |] eqn:Hvcc; [| done].
  assert (Hu : uint32 (POWER_DESC_MAX_ACTV_ICC_LVLS - 1)
               = POWER_DESC_MAX_ACTV_ICC_LVLS - 1).
  { unfold uint32. apply Z.mod_small. lia. }
  assert (Hfirst : exists r1,
             (if m =? 0 then Some 0
              else ufshcd_get_max_icc_level m
                     (uint32 (POWER_DESC_MAX_ACTV_ICC_LVLS - 1))
                     (drop (Z.to_nat PWR_DESC_ACTIVE_LVLS_VCC_0)
                           desc_buf)) = Some r1
             /\ 0 <= r1 <= POWER_DESC_MAX_ACTV_ICC_LVLS - 1
             /\ (m = 0 -> r1 = 0)
             /\ (m <> 0 ->
                 forall j, r1 < j <= POWER_DESC_MAX_ACTV_ICC_LVLS - 1 ->
                   icc_rules_out (Some m) PWR_DESC_ACTIVE_LVLS_VCC_0
                     desc_buf j)).
  { destruct (Z.eqb_spec m 0) as [-> | Hnz].
    - exists 0. split_and!; [done | lia | lia | done | done].
    - rewrite Hu.
      destruct (get_max_icc_level_spec m
                  (POWER_DESC_MAX_ACTV_ICC_LVLS - 1)
                  (drop (Z.to_nat PWR_DESC_ACTIVE_LVLS_VCC_0) desc_buf))
        as (r1 & -> & Hr1 & Hout & _); [lia | rewrite length_drop; lia |].
      exists r1. split_and!; [done | lia | lia | done |].
      intros _ j Hj. exists m. split_and!; [done | done |].
      by apply Hout. }
  destruct Hfirst as (r1 & -> & Hr1 & Hz1 & Hout1).
  destruct (icc_narrow_spec (vccq vreg_info) r1
              PWR_DESC_ACTIVE_LVLS_VCCQ_0 desc_buf)
    as (r2 & -> & Hr2 & Hout2); [lia | lia | lia |].
  destruct (icc_narrow_spec (vccq2 vreg_info) r2
              PWR_DESC_ACTIVE_LVLS_VCCQ2_0 desc_buf)
    as (r3 & -> & Hr3 & Hout3); [lia | lia | lia |].
  exists r3. split_and!; [done | lia | lia | |].
  - intros [Hc | [Hc | [[Hc Hv] | [Hc Hv]]]].
    + done.
    + injection Hc as ->. lia.
    + rewrite Hc in Hm2. cbn in Hm2.
      destruct (Z.geb_spec wspecversion 768); [done | lia].
    + rewrite Hc in Hm3. cbn in Hm3.
      destruct (Z.ltb_spec wspecversion 768); [done | lia].
  - intros ([m' [[= <-] Hnz]] & _ & _) j Hj.
    destruct (decide (r1 < j)) as [H1 |]; [left; apply Hout1; [done | lia] |].
    destruct (decide (r2 < j)) as [H2 |]; [right; left; apply Hout2; lia |].
    right; right. apply Hout3. lia.
Qed.

End WithDefs.

Lemma get_max_icc_level_highest_supported_witness :
  @ufshcd_get_max_icc_level linux_defs 65 15
    (drop 2 pwr_desc_example) = Some 6
  /\ exists r, @ufshcd_get_max_icc_level linux_defs 65 15
                 (drop 2 pwr_desc_example) = Some r
       /\ 0 <= r <= 15
       /\ (forall j, r < j <= 15 ->
             @icc_supported linux_defs 65 (drop 2 pwr_desc_example) j
             = false)
       /\ (@icc_supported linux_defs 65 (drop 2 pwr_desc_example) r = true
           \/ r = 0
              /\ @icc_supported linux_defs 65 (drop 2 pwr_desc_example) 0
                 = false).
Proof.
  split; [reflexivity |].
  apply (@get_max_icc_level_highest_supported linux_defs 65 15
           (drop 2 pwr_desc_example)); [lia | simpl; lia].
Defined.

Lemma find_max_icc_level_maximal_witness :
  let v := {| vcc := Some 65; vccq := Some 40000; vccq2 := None |} in
  @ufshcd_find_max_sup_active_icc_level linux_defs v 784 pwr_desc_example
  = Some 4
  /\ exists r,
      @ufshcd_find_max_sup_active_icc_level linux_defs v 784
        pwr_desc_example = Some r
      /\ 0 <= r <= 15
      /\ (vcc v = None \/ vcc v = Some 0
          \/ (vccq v = None /\ 768 <= 784)
          \/ (vccq2 v = None /\ 784 < 768) -> r = 0)
      /\ ((exists max_uA, vcc v = Some max_uA /\ max_uA <> 0)
          /\ (vccq v = None -> 784 < 768)
          /\ (vccq2 v = None -> 768 <= 784) ->
          forall j, r < j <= 15 ->
            @icc_rules_out linux_defs (vcc v) 2 pwr_desc_example j
            \/ @icc_rules_out linux_defs (vccq v) 34 pwr_desc_example j
            \/ @icc_rules_out linux_defs (vccq2 v) 66 pwr_desc_example j).
Proof.
  split; [reflexivity |].
  apply (@find_max_icc_level_maximal linux_defs
           {| vcc := Some 65; vccq := Some 40000; vccq2 := None |} 784
           pwr_desc_example); simpl; lia.
Defined.

End IccLevelProps.

(** ** Polling a register *)

Module RegPollProps.
Import RegPoll.

Section WithHeaders.
Context `{UfsHeaders}.

Lemma wait_for_register_loop_spec (mask val : Z) (delay : poll_event)
    (late : list bool) :
  forall (reads : list Z) (n : nat),
    late !! n = Some true ->
    (n + 2 <= length reads)%nat ->
    exists err evs,
      wait_for_register_loop mask val delay reads late = Some (err, evs)
      /\ (length evs <= S n)%nat
      /\ Forall (fun e => e = delay) evs
      /\ (forall i r, (i < length evs)%nat -> reads !! i = Some r ->
            reg_matches mask val r = false)
      /\ (forall i, (S i < length evs)%nat -> late !! i = Some false)
      /\ exists r, reads !! length evs = Some r
           /\ (err = 0 /\ reg_matches mask val r = true
               \/ err = - ETIMEDOUT /\ reg_matches mask val r = false
                  /\ exists k, length evs = S k
                       /\ late !! k = Some true).
Proof.
  induction late as [| l late IH]; intros reads n Hn Hlen; [done |].
  destruct reads as [| r reads]; [cbn in Hlen; lia |].
  cbn [wait_for_register_loop].
  destruct (reg_matches mask val r) eqn:Hr.
  { exists 0, []. cbn [length].
    split_and!; [done | lia | done | intros; lia | intros; lia |].
    exists r. split; [done |]. by left. }
  destruct l.
  - destruct reads as [| r2 reads]; [cbn in Hlen; lia |].
    eexists _, [delay]. cbn [length].
    split_and!; [done | lia | by repeat constructor | | intros; lia |].
    + intros [| i] r' Hi; [| lia]. by intros [= <-].
    + exists r2. split; [done |].
      destruct (reg_matches mask val r2) eqn:Hr2; [by left |].
      right. split_and!; [done | done |]. by exists 0%nat.
  - destruct n as [| n]; [done |]. cbn in Hn, Hlen.
    assert (Hlen' : (n + 2 <= length reads)%nat) by lia.
    destruct (IH reads n Hn Hlen')
      as (err & evs & -> & Hle & Hall & Hmis & Hlate & r' & Hr' & Hv).
    exists err, (delay :: evs). cbn [length].
    split_and!; [done | lia | by constructor | | |].
    + intros [| i] r0 Hi; [by intros [= <-] |].
      cbn. apply Hmis. lia.
    + intros [| i] Hi; [done |]. cbn. apply Hlate. lia.
    + exists r'. split; [done |].
      destruct Hv as [Hv | (He & Hm & k & Hk & Hkl)]; [by left |].
      right. split_and!; [done | done |].
      exists (S k). split; [by rewrite Hk | done].
Qed.

(** X11.  [ufshcd_wait_for_register] returns once the deadline has
    passed, if not before.  It returns 0 exactly when the last value
    it read matched and -ETIMEDOUT when the re-read after the deadline
    still did not; every earlier read did not match, and each of them
    was followed by one delay, which is [udelay] when [can_sleep] is
    false and [usleep_range] otherwise. *)
Theorem wait_for_register_verdict (mask val interval_us : Z)
    (can_sleep : bool) (reads : list Z) (late : list bool) (n : nat) :
  late !! n = Some true ->
  (n + 2 <= length reads)%nat ->
  let matches r :=
    reg_matches (uint32 mask) (Z.land (uint32 val) (uint32 mask)) r in
  exists err evs,
    ufshcd_wait_for_register mask val interval_us can_sleep reads late
    = Some (err, evs)
    /\ (length evs <= S n)%nat
    /\ Forall (fun e =>
                 e = if can_sleep
                     then PollUsleepRange (ulong interval_us)
                            (ulong (interval_us + 50))
                     else PollUdelay (ulong interval_us)) evs
    /\ (forall i r, (i < length evs)%nat -> reads !! i = Some r ->
          matches r = false)
    /\ (forall i, (S i < length evs)%nat -> late !! i = Some false)
    /\ exists r, reads !! length evs = Some r
         /\ (err = 0 /\ matches r = true
             \/ err = - ETIMEDOUT /\ matches r = false
                /\ exists k, length evs = S k /\ late !! k = Some true).
Proof.
  intros Hn Hlen. cbv zeta. unfold ufshcd_wait_for_register.
  by apply wait_for_register_loop_spec.
Qed.

End WithHeaders.

Lemma wait_for_register_verdict_witness :
  @ufshcd_wait_for_register linux_headers 3 1 1000 false
    [0; 2; 6; 7] [false; false; true]
  = Some (- 110, [PollUdelay 1000; PollUdelay 1000; PollUdelay 1000])
  /\ exists err evs,
      @ufshcd_wait_for_register linux_headers 3 1 1000 false
        [0; 2; 6; 7] [false; false; true] = Some (err, evs)
      /\ (length evs <= 3)%nat
      /\ Forall (fun e => e = PollUdelay (ulong 1000)) evs
      /\ (forall i r, (i < length evs)%nat ->
            [0; 2; 6; 7] !! i = Some r ->
            reg_matches (uint32 3) (Z.land (uint32 1) (uint32 3)) r
            = false)
      /\ (forall i, (S i < length evs)%nat ->
            [false; false; true] !! i = Some false)
      /\ exists r, [0; 2; 6; 7] !! length evs = Some r
           /\ (err = 0
               /\ reg_matches (uint32 3) (Z.land (uint32 1) (uint32 3)) r
                  = true
               \/ err = - @ETIMEDOUT linux_headers
                  /\ reg_matches (uint32 3) (Z.land (uint32 1) (uint32 3))
                       r = false
                  /\ exists k, length evs = S k
                       /\ [false; false; true] !! k = Some true).
Proof.
  split; [reflexivity |].
  apply (@wait_for_register_verdict linux_headers 3 1 1000 false
           [0; 2; 6; 7] [false; false; true] 2);
    [reflexivity | simpl; lia].
Defined.

End RegPollProps.

(** ** Task-management slots *)

Module TmSlotsProps.
Import TmSlots.

Lemma find_first_zero_from_spec (n : nat) (addr size : Z) :
  forall i, 0 <= i -> i + Z.of_nat n = size ->
    let r := find_first_zero_from n i addr size in
    (r = size /\ forall t, i <= t < size -> Z.testbit addr t = true)
    \/ (i <= r < size /\ Z.testbit addr r = false
        /\ forall t, i <= t < r -> Z.testbit addr t = true).
Proof.
  induction n as [| n IH]; intros i Hi Hsum; cbn [find_first_zero_from].
  - left. split; [done |]. intros; lia.
  - destruct (Z.testbit addr i) eqn:Hb.
    + destruct (IH (i + 1) ltac:(lia) ltac:(lia)) as [[Hr Hall] | (Hr & Hz & Hall)].
      * left. split; [done |]. intros t Ht.
        destruct (decide (t = i)) as [-> |]; [done | apply Hall; lia].
      * right. split_and!; [lia | lia | done |]. intros t Ht.
        destruct (decide (t = i)) as [-> |]; [done | apply Hall; lia].
    + right. split_and!; [lia | lia | done | intros; lia].
Qed.

(** X12.  [ufshcd_get_tm_free_slot] takes the lowest free slot below
    [nutmrs], marks that slot and no other, and fails, leaving the
    bitmap as it was, only when all [nutmrs] slots are taken;
    [ufshcd_put_tm_slot] on the slot it returned restores the bitmap. *)
Theorem tm_slot_lowest_free (rounds : nat) (hba : tm_hba) :
  0 <= nutmrs hba < 2 ^ 31 ->
  exists res hba',
    ufshcd_get_tm_free_slot (S rounds) false hba = Some (res, hba')
    /\ match res with
       | Some t =>
           0 <= t < nutmrs hba
           /\ Z.testbit (tm_slots_in_use hba) t = false
           /\ (forall t', 0 <= t' < t ->
                 Z.testbit (tm_slots_in_use hba) t' = true)
           /\ tm_slots_in_use hba' = Z.setbit (tm_slots_in_use hba) t
           /\ ufshcd_put_tm_slot t hba' = hba
       | None =>
           hba' = hba
           /\ forall t, 0 <= t < nutmrs hba ->
                Z.testbit (tm_slots_in_use hba) t = true
       end.
Proof.
  intros Hn. unfold ufshcd_get_tm_free_slot. cbn [get_tm_free_slot_loop].
  unfold find_first_zero_bit.
  assert (Hsum : 0 + Z.of_nat (Z.to_nat (nutmrs hba)) = nutmrs hba) by lia.
  pose proof (find_first_zero_from_spec (Z.to_nat (nutmrs hba))
                (tm_slots_in_use hba) (nutmrs hba) 0 (Z.le_refl 0) Hsum)
    as Hspec.
  cbv zeta in Hspec.
  set (r := find_first_zero_from _ _ _ _) in *.
  assert (Hw : sint32 r = r).
  { unfold sint32. rewrite Z.mod_small by lia. lia. }
  rewrite Hw.
  destruct Hspec as [[Hr Hall] | (Hr & Hz & Hall)].
  - rewrite Hr, (proj2 (Z.geb_le _ _)) by lia.
    exists None, hba. split_and!; [done | done |].
    intros t Ht. apply Hall. lia.
  - destruct (Z.geb_spec r (nutmrs hba)) as [| _]; [lia |].
    unfold Bitops.test_and_set_bit_lock. rewrite Hz.
    eexists (Some r), _. split; [done |].
    split_and!; [lia | lia | done | done | done |].
    unfold ufshcd_put_tm_slot, set_tm_slots_in_use, Bitops.clear_bit.
    cbn [tm_slots_in_use nutmrs].
    rewrite ResourceProps.clearbit_setbit_fresh by (done || lia).
    by destruct hba.
Qed.

Lemma tm_slot_lowest_free_witness :
  ufshcd_get_tm_free_slot 1 false {| tm_slots_in_use := 11; nutmrs := 8 |}
  = Some (Some 2, {| tm_slots_in_use := 15; nutmrs := 8 |})
  /\ exists res hba',
      ufshcd_get_tm_free_slot 1 false
        {| tm_slots_in_use := 11; nutmrs := 8 |} = Some (res, hba')
      /\ match res with
         | Some t =>
             0 <= t < 8
             /\ Z.testbit 11 t = false
             /\ (forall t', 0 <= t' < t -> Z.testbit 11 t' = true)
             /\ tm_slots_in_use hba' = Z.setbit 11 t
             /\ ufshcd_put_tm_slot t hba'
                = {| tm_slots_in_use := 11; nutmrs := 8 |}
         | None =>
             hba' = {| tm_slots_in_use := 11; nutmrs := 8 |}
             /\ forall t, 0 <= t < 8 -> Z.testbit 11 t = true
         end.
Proof.
  split; [reflexivity |].
  apply (tm_slot_lowest_free 0 {| tm_slots_in_use := 11; nutmrs := 8 |}).
  simpl; lia.
Defined.

End TmSlotsProps.

(** ** Power-management levels *)

Module PmLevelsProps.
Import PmLevels.

Section WithDefs.
Context `{UfsDefs}.

Lemma desired_pm_lvl_from_sound (dev : ufs_dev_pwr_mode)
    (link : uic_link_state) (n : nat) :
  forall lvl r,
    desired_pm_lvl_from n lvl dev link = Some r ->
    pm_lvl_row r = Some {| dev_state := dev; link_state := link |}
    \/ (r = UFS_PM_LVL_0
        /\ forall l, lvl <= l < lvl + Z.of_nat n ->
             pm_lvl_row l
             <> Some {| dev_state := dev; link_state := link |}).
Proof.
  induction n as [| n IH]; intros lvl r; cbn [desired_pm_lvl_from].
  - intros [= <-]. right. split; [done |]. intros; lia.
  - destruct (pm_lvl_row lvl) as [row |] eqn:Hrow; [| done].
    destruct (bool_decide (dev_state row = dev)
              && bool_decide (link_state row = link)) eqn:Hm.
    + intros [= <-]. left.
      apply andb_true_iff in Hm as [Hd Hl].
      apply bool_decide_eq_true in Hd, Hl.
      rewrite Hrow. destruct row. cbn in *. by subst.
    + intros Hr. destruct (IH _ _ Hr) as [Hf | [-> Hnone]]; [by left |].
      right. split; [done |]. intros l Hl.
      destruct (decide (l = lvl)) as [-> |]; [| apply Hnone; lia].
      rewrite Hrow. intros [= ->]. cbn in Hm.
      by rewrite !bool_decide_eq_true_2 in Hm.
Qed.

(** X13.  The level table can be read backwards: for every level
    below [UFS_PM_LVL_MAX],
    [ufs_get_desired_pm_lvl_for_dev_link_state] applied to the device
    and link states of that level gives the level back; for a pair of
    states that no level has it gives level 0. *)
Theorem pm_lvl_round_trip (lvl : Z) (dev : ufs_dev_pwr_mode)
    (link : uic_link_state) :
  0 <= UFS_PM_LVL_MAX <= 6 ->
  (0 <= lvl < UFS_PM_LVL_MAX ->
   ufs_get_pm_lvl_to_dev_pwr_mode lvl = Some dev ->
   ufs_get_pm_lvl_to_link_pwr_state lvl = Some link ->
   ufs_get_desired_pm_lvl_for_dev_link_state dev link = Some lvl)
  /\ exists r,
      ufs_get_desired_pm_lvl_for_dev_link_state dev link = Some r
      /\ (pm_lvl_row r = Some {| dev_state := dev; link_state := link |}
          \/ r = UFS_PM_LVL_0
             /\ forall l, 0 <= l < UFS_PM_LVL_MAX ->
                  pm_lvl_row l
                  <> Some {| dev_state := dev; link_state := link |}).
Proof.
  intros HM. unfold ufs_get_desired_pm_lvl_for_dev_link_state,
    UFS_PM_LVL_0. rewrite Z.sub_0_r.
  split.
  - intros Hl Hd Hk.
    assert (Hcases : UFS_PM_LVL_MAX = 1 \/ UFS_PM_LVL_MAX = 2
                     \/ UFS_PM_LVL_MAX = 3 \/ UFS_PM_LVL_MAX = 4
                     \/ UFS_PM_LVL_MAX = 5 \/ UFS_PM_LVL_MAX = 6)
      by lia.
    assert (Hlv : lvl = 0 \/ lvl = 1 \/ lvl = 2 \/ lvl = 3 \/ lvl = 4
                  \/ lvl = 5) by lia.
    destruct Hcases as [E | [E | [E | [E | [E | E]]]]];
      rewrite E in Hl |- *;
      destruct Hlv as [-> | [-> | [-> | [-> | [-> | ->]]]]];
      try lia;
      cbn in Hd, Hk; injection Hd as <-; injection Hk as <-;
      reflexivity.
  - destruct (desired_pm_lvl_from (Z.to_nat UFS_PM_LVL_MAX) 0 dev link)
      as [r |] eqn:Hr.
    + exists r. split; [done |].
      destruct (desired_pm_lvl_from_sound _ _ _ _ _ Hr)
        as [Hf | [-> Hnone]]; [by left |].
      right. split; [done |]. intros l Hl. apply Hnone. lia.
    + exfalso.
      assert (Hcases : UFS_PM_LVL_MAX = 0 \/ UFS_PM_LVL_MAX = 1
                       \/ UFS_PM_LVL_MAX = 2
                       \/ UFS_PM_LVL_MAX = 3 \/ UFS_PM_LVL_MAX = 4
                       \/ UFS_PM_LVL_MAX = 5 \/ UFS_PM_LVL_MAX = 6)
        by lia.
      destruct Hcases as [E | [E | [E | [E | [E | [E | E]]]]]];
        rewrite E in Hr; destruct dev, link; cbn in Hr; done.
Qed.

End WithDefs.

Lemma pm_lvl_round_trip_witness :
  @ufs_get_desired_pm_lvl_for_dev_link_state linux_defs
    UFS_SLEEP_PWR_MODE UIC_LINK_HIBERN8_STATE = Some 3.
Proof.
  apply (proj1 (@pm_lvl_round_trip linux_defs 3 UFS_SLEEP_PWR_MODE
                  UIC_LINK_HIBERN8_STATE ltac:(simpl; lia)));
    [simpl; lia | reflexivity | reflexivity].
Defined.

End PmLevelsProps.

(** ** The scaling pre-check *)

Module ScalingCheckProps.
Import Scaling ScalingCheck.

Section WithHeaders.
Context `{UfsHeaders}.

Lemma not_required_set_clk_freq_from (up : bool)
    (todo : list ufs_clk_info) :
  scaling_required_from up todo = false ->
  forall idx h, set_clk_freq_from up idx todo h = (0, h).
Proof.
  induction todo as [| c rest IH]; intros Hreq idx h;
    cbn [set_clk_freq_from]; [done |].
  cbn [scaling_required_from] in Hreq.
  destruct (clk_valid c); cbn [andb]; [| by apply IH].
  destruct up; cbn [andb negb] in *.
  - destruct (max_freq c =? 0); cbn [negb] in *; [by apply IH |].
    destruct (curr_freq c =? max_freq c); [| done].
    cbn [orb]. by apply IH.
  - destruct (min_freq c =? 0); cbn [negb] in *; [by apply IH |].
    destruct (curr_freq c =? min_freq c); [| done].
    cbn [orb]. by apply IH.
Qed.

Lemma retargeted_not_required (up : bool) (l : list ufs_clk_info) :
  Forall (fun c => clk_is_ice_hw_ctl c = false) l ->
  scaling_required_from up (retarget up <$> l) = false.
Proof.
  induction 1 as [| c l Hc _ IH]; [done |].
  cbn [fmap list_fmap scaling_required_from]. fold (fmap (retarget up) l).
  rewrite IH. unfold retarget. rewrite Hc, orb_false_r.
  destruct up, (clk_valid c) eqn:Hv, (max_freq c =? 0) eqn:Hmx,
    (min_freq c =? 0) eqn:Hmn, (curr_freq c =? max_freq c) eqn:E1,
    (curr_freq c =? min_freq c) eqn:E2;
    cbn [andb negb clk_set_curr clk_valid max_freq min_freq curr_freq];
    rewrite ?Hv, ?Hmx, ?Hmn, ?E1, ?E2, ?Z.eqb_refl;
    cbn [andb negb]; done.
Qed.

(** X14.  The pre-check agrees with what [ufshcd_set_clk_freq]
    does: when [ufshcd_is_devfreq_scaling_required] is false,
    [ufshcd_set_clk_freq] for the same direction sets no clock rate
    and returns 0 with the adapter unchanged; and after a successful
    [ufshcd_set_clk_freq], when no clock is the hardware-controlled
    ICE clock, scaling in that direction is no longer required. *)
Theorem scaling_required_agrees_with_set_clk_freq (up : bool)
    (h : sc_hba) :
  (ufshcd_is_devfreq_scaling_required up h = false ->
   ufshcd_set_clk_freq up h = (0, h))
  /\ (fst (ufshcd_set_clk_freq up h) = 0 ->
      Forall (fun c => clk_is_ice_hw_ctl c = false) (clk_list h) ->
      ufshcd_is_devfreq_scaling_required up
        (snd (ufshcd_set_clk_freq up h)) = false).
Proof.
  split.
  - unfold ufshcd_is_devfreq_scaling_required, ufshcd_set_clk_freq.
    intros Hreq. destruct (clk_list h) as [| c l] eqn:Hl; [done |].
    by apply not_required_set_clk_freq_from.
  - intros Hret Hice.
    destruct (ScalingProps.ufshcd_set_clk_freq_spec up h)
      as (_ & _ & _ & _ & Hc).
    specialize (Hc Hret).
    unfold ufshcd_is_devfreq_scaling_required. rewrite Hc.
    destruct (retarget up <$> clk_list h) eqn:Hl; [done |].
    rewrite <- Hl. by apply retargeted_not_required.
Qed.

End WithHeaders.

Lemma scaling_required_agrees_with_set_clk_freq_witness :
  let h := {| pwr_info := {| gear_rx := 3; gear_tx := 3;
                             other_attrs := 0 |};
              saved_pwr_info := {| gear_rx := 3; gear_tx := 3;
                                   other_attrs := 0 |};
              clk_list := [ {| clk_valid := true;
                               clk_is_ice_hw_ctl := false;
                               max_freq := 200; min_freq := 100;
                               curr_freq := 100 |} ];
              ans_doorbell_clr := 0; ans_notify := [];
              ans_clk_set_rate := []; ans_pwr_mode := [];
              sc_trace := [] |} in
  ufshcd_set_clk_freq false h = (0, h)
  /\ ufshcd_is_devfreq_scaling_required true h = true
  /\ ufshcd_is_devfreq_scaling_required true
       (snd (ufshcd_set_clk_freq true h)) = false.
Proof.
  split; [| split; [reflexivity |]].
  - apply (proj1 (scaling_required_agrees_with_set_clk_freq false _)).
    reflexivity.
  - apply (proj2 (scaling_required_agrees_with_set_clk_freq true _));
      [reflexivity | repeat constructor].
Defined.

End ScalingCheckProps.

(** ** Waiting for the doorbells *)

Module DoorbellWaitProps.
Import DoorbellWait.

Lemma lock_discipline_app (held : bool) (a b : list db_event) :
  lock_discipline held (a ++ b)
  = match lock_discipline held a with
    | Some held' => lock_discipline held' b
    | None => None
    end.
Proof.
  revert held. induction a as [| e a IH]; intros held; [done |].
  destruct e, held; cbn; by rewrite ?IH.
Qed.

Section WithHeaders.
Context `{UfsHeaders}.

Lemma doorbell_clr_loop_spec (samples : list db_sample) :
  forall (b : bool) (n : nat),
    (b = true /\ samples <> [])
    \/ (b = false
        /\ (exists s, samples !! n = Some s /\ s_late s = true)
        /\ (n + 2 <= length samples)%nat) ->
    exists ret evs k s,
      doorbell_clr_loop b b samples = Some (ret, evs)
      /\ lock_discipline true evs = Some true
      /\ samples !! k = Some s
      /\ (forall i s', (i < k)%nat -> samples !! i = Some s' ->
            operational s' = true /\ doorbells_clear s' = false)
      /\ (ret = 0 /\ operational s = true /\ doorbells_clear s = true
          \/ ret = - EBUSY /\ operational s = false
          \/ ret = - EBUSY /\ operational s = true
             /\ doorbells_clear s = false
             /\ (b = true /\ k = 0%nat
                 \/ exists j s', k = S j /\ samples !! j = Some s'
                      /\ s_late s' = true)).
Proof.
  induction samples as [| s rest IH]; intros b n Hpre.
  { destruct Hpre as [[_ ?] | (_ & _ & Hl)]; [done | cbn in Hl; lia]. }
  cbn [doorbell_clr_loop]. fold (operational s).
  destruct (operational s) eqn:Hop; cbn [negb].
  2: { exists (- EBUSY), [], 0%nat, s.
       split_and!; [done | done | done | intros; lia |].
       right; left. done. }
  fold (doorbells_clear s).
  destruct (doorbells_clear s) eqn:Hcl.
  { exists 0, [], 0%nat, s.
    split_and!; [done | done | done | intros; lia |]. by left. }
  destruct b.
  { exists (- EBUSY), [], 0%nat, s.
    split_and!; [done | done | done | intros; lia |].
    right; right. split_and!; try done. by left. }
  destruct Hpre as [[? _] | (_ & (sl & Hsl & Hlate) & Hlen)]; [done |].
  rewrite !orb_false_r.
  assert (Hrest :
            (s_late s = true /\ rest <> [])
            \/ (s_late s = false
                /\ (exists s0, rest !! pred n = Some s0
                               /\ s_late s0 = true)
                /\ (pred n + 2 <= length rest)%nat)).
  { destruct (s_late s) eqn:Hl.
    - left. split; [done |]. destruct rest; [cbn in Hlen; lia | done].
    - right. split; [done |].
      destruct n as [| n]; [cbn in Hsl; congruence |].
      cbn in Hsl, Hlen |- *. split; [eauto | lia]. }
  destruct (IH (s_late s) (pred n) Hrest)
    as (ret & evs & k & s1 & -> & Hld & Hk & Hbefore & Hv).
  exists ret, ([DbUnlock; DbSchedule; DbLock] ++ evs), (S k), s1.
  split_and!; [done | done | done | |].
  - intros [| i] s' Hi; cbn.
    + by intros [= <-].
    + apply Hbefore. lia.
  - destruct Hv as [Hv | [Hv | (Hr & Ho & Hc & Hw)]];
      [by left | by right; left |].
    right; right. split_and!; try done. right.
    destruct Hw as [[Hl ->] | (j & s' & -> & Hj & Hl)].
    + exists 0%nat, s. done.
    + exists (S j), s'. done.
Qed.

(** X15.  [ufshcd_wait_for_doorbell_clr] returns once the time is up,
    if not before.  It returns 0 only when the adapter was
    operational and both doorbell registers read zero in the last
    round, and -EBUSY when the adapter was not operational or when,
    the time being up in the round before, a doorbell bit was still
    set; every earlier round saw the adapter operational with a
    doorbell bit set.  It calls [schedule()] only with the host lock
    released and ends with the lock released and the clock reference
    given back. *)
Theorem wait_for_doorbell_clr_verdict (samples : list db_sample)
    (n : nat) (sl : db_sample) :
  samples !! n = Some sl ->
  s_late sl = true ->
  (n + 2 <= length samples)%nat ->
  exists ret evs k s,
    ufshcd_wait_for_doorbell_clr samples = Some (ret, evs)
    /\ lock_discipline false evs = Some false
    /\ (exists mid,
          evs = [DbHold; DbLock] ++ mid ++ [DbUnlock; DbRelease])
    /\ samples !! k = Some s
    /\ (forall i s', (i < k)%nat -> samples !! i = Some s' ->
          operational s' = true /\ doorbells_clear s' = false)
    /\ (ret = 0 /\ operational s = true /\ doorbells_clear s = true
        \/ ret = - EBUSY /\ operational s = false
        \/ ret = - EBUSY /\ operational s = true
           /\ doorbells_clear s = false
           /\ exists j s', k = S j /\ samples !! j = Some s'
                /\ s_late s' = true).
Proof.
  intros Hn Hl Hlen. unfold ufshcd_wait_for_doorbell_clr.
  destruct (doorbell_clr_loop_spec samples false n)
    as (ret & evs & k & s & -> & Hld & Hk & Hbefore & Hv).
  { right. eauto. }
  exists ret, ([DbHold; DbLock] ++ evs ++ [DbUnlock; DbRelease]), k, s.
  split_and!; [done | | by exists evs | done | done |].
  - cbn. by rewrite lock_discipline_app, Hld.
  - destruct Hv as [Hv | [Hv | (Hr & Ho & Hc & [[? _] | Hw])]];
      [by left | by right; left | done | by right; right].
Qed.

End WithHeaders.

Lemma wait_for_doorbell_clr_verdict_witness :
  let busy := {| s_ufshcd_state := UFSHCD_STATE_OPERATIONAL;
                 s_tm_doorbell := 0; s_tr_doorbell := 4;
                 s_late := false |} in
  let late := {| s_ufshcd_state := UFSHCD_STATE_OPERATIONAL;
                 s_tm_doorbell := 0; s_tr_doorbell := 4;
                 s_late := true |} in
  let idle := {| s_ufshcd_state := UFSHCD_STATE_OPERATIONAL;
                 s_tm_doorbell := 0; s_tr_doorbell := 0;
                 s_late := false |} in
  @ufshcd_wait_for_doorbell_clr linux_headers [busy; late; idle]
  = Some (0, [DbHold; DbLock; DbUnlock; DbSchedule; DbLock;
              DbUnlock; DbSchedule; DbLock; DbUnlock; DbRelease])
  /\ @ufshcd_wait_for_doorbell_clr linux_headers [busy; late; busy]
     = Some (- 16, [DbHold; DbLock; DbUnlock; DbSchedule; DbLock;
                    DbUnlock; DbSchedule; DbLock; DbUnlock; DbRelease])
  /\ exists ret evs k s,
      @ufshcd_wait_for_doorbell_clr linux_headers [busy; late; idle]
      = Some (ret, evs)
      /\ lock_discipline false evs = Some false
      /\ (exists mid,
            evs = [DbHold; DbLock] ++ mid ++ [DbUnlock; DbRelease])
      /\ [busy; late; idle] !! k = Some s
      /\ (forall i s', (i < k)%nat -> [busy; late; idle] !! i = Some s' ->
            @operational s' = true /\ doorbells_clear s' = false)
      /\ (ret = 0 /\ operational s = true /\ doorbells_clear s = true
          \/ ret = - @EBUSY linux_headers /\ operational s = false
          \/ ret = - @EBUSY linux_headers /\ operational s = true
             /\ doorbells_clear s = false
             /\ exists j s', k = S j /\ [busy; late; idle] !! j = Some s'
                  /\ s_late s' = true).
Proof.
  intros busy late idle.
  split; [reflexivity |]. split; [reflexivity |].
  apply (@wait_for_doorbell_clr_verdict linux_headers
           [busy; late; idle] 1 late);
    [reflexivity | reflexivity | simpl; lia].
Defined.

End DoorbellWaitProps.

(** ** The interrupt service routine *)

Module IntrLoopProps.
Import IntrLoop.

Section WithDefs.
Context `{UfsDefs}.

Lemma intr_loop_spec (retries : nat) :
  forall (s e : Z) (rv : irqreturn_t) (rounds : list intr_round),
    (retries <= length rounds)%nat ->
    (CONFIG_SCSI_UFSHCD_QTI = true -> e <> 0 -> rv = IRQ_HANDLED) ->
    exists s' e' rv' evs,
      intr_loop retries s e rv rounds = Some (s', e', rv', evs)
      /\ (length (filter (fun x => is_ack x = true) evs) <= retries)%nat
      /\ (forall x, x ∈ evs ->
            match x with
            | IntrAck a => a <> 0
            | IntrSl en _ => en <> 0
            | IntrUnhandled _ => False
            end)
      /\ (rv' = IRQ_HANDLED <->
          rv = IRQ_HANDLED
          \/ exists en r, IntrSl en r ∈ evs
               /\ (CONFIG_SCSI_UFSHCD_QTI = true \/ r = IRQ_HANDLED))
      /\ (CONFIG_SCSI_UFSHCD_QTI = true -> e' <> 0 -> rv' = IRQ_HANDLED).
Proof.
  induction retries as [| retries IH]; intros s e rv rounds Hlen Hinv.
  - exists s, e, rv, []. cbn [intr_loop].
    split_and!.
    + by destruct (s =? 0).
    + cbn. lia.
    + intros x Hx. by apply elem_of_nil in Hx.
    + split; [by left |]. intros [? | (? & ? & Hx & _)]; [done |].
      by apply elem_of_nil in Hx.
    + done.
  - cbn [intr_loop]. destruct (Z.eqb_spec s 0) as [-> | Hs].
    { exists 0, e, rv, []. split_and!.
      + done.
      + cbn. lia.
      + intros x Hx. by apply elem_of_nil in Hx.
      + split; [by left |]. intros [? | (? & ? & Hx & _)]; [done |].
        by apply elem_of_nil in Hx.
      + done. }
    destruct rounds as [| r rest]; [cbn in Hlen; lia |].
    cbv zeta.
    set (en := Z.land s (uint32 (r_enable r))).
    set (rv1 := if CONFIG_SCSI_UFSHCD_QTI && negb (en =? 0)
                then IRQ_HANDLED
                else if negb (en =? 0) then irq_or rv (r_sl_ret r)
                     else rv).
    assert (Hlen' : (retries <= length rest)%nat) by (cbn in Hlen; lia).
    assert (Hinv1 : CONFIG_SCSI_UFSHCD_QTI = true -> en <> 0 ->
                    rv1 = IRQ_HANDLED).
    { intros Hq Hen. subst rv1. rewrite Hq.
      by destruct (Z.eqb_spec en 0). }
    destruct (IH (uint32 (r_next_status r)) en rv1 rest Hlen' Hinv1)
      as (s' & e' & rv' & evs & -> & Hcnt & Hall & Hrv & Hq).
    eexists s', e', rv', _. split; [done |].
    split_and!.
    + rewrite filter_cons_True by done.
      cbn [length]. rewrite list.filter_app, length_app.
      destruct (negb (en =? 0));
        [rewrite filter_cons_False by done |];
        rewrite filter_nil; cbn [length]; lia.
    + intros x Hx. apply elem_of_cons in Hx as [-> | Hx]; [done |].
      apply elem_of_app in Hx as [Hx | Hx]; [| by apply Hall].
      destruct (Z.eqb_spec en 0); cbn in Hx;
        [by apply elem_of_nil in Hx |].
      by apply list_elem_of_singleton in Hx as ->.
    + rewrite Hrv. subst rv1. split.
      * intros [Hh | (en' & r' & Hin & Hc)].
        -- destruct (Z.eqb_spec en 0) as [Hz | Hnz]; cbn [negb] in *.
           ++ rewrite andb_false_r in Hh. by left.
           ++ rewrite andb_true_r in Hh.
              destruct CONFIG_SCSI_UFSHCD_QTI eqn:Hqti.
              ** right. exists en, (r_sl_ret r).
                 split; [| by left].
                 apply elem_of_cons; right. apply elem_of_app; left.
                 by apply list_elem_of_singleton.
              ** destruct rv; [| by left].
                 destruct (r_sl_ret r) eqn:Hsl; [done |].
                 right. exists en, IRQ_HANDLED.
                 split; [| by right].
                 apply elem_of_cons; right. apply elem_of_app; left.
                 by apply list_elem_of_singleton.
        -- right. exists en', r'. split; [| done].
           apply elem_of_cons; right. apply elem_of_app. by right.
      * intros [Hh | (en' & r' & Hin & Hc)].
        -- left. subst rv.
           destruct (CONFIG_SCSI_UFSHCD_QTI && _); [done |].
           by destruct (negb _), (r_sl_ret r).
        -- apply elem_of_cons in Hin as [? | Hin]; [done |].
           apply elem_of_app in Hin as [Hin | Hin];
             [| right; by exists en', r'].
           left.
           destruct (Z.eqb_spec en 0) as [Hz | Hnz]; cbn [negb] in *;
             [by apply elem_of_nil in Hin |].
           apply list_elem_of_singleton in Hin. injection Hin as -> ->.
           destruct Hc as [-> | ->]; [done |].
           rewrite andb_true_r.
           destruct CONFIG_SCSI_UFSHCD_QTI; [done |]. by destruct rv.
    + done.
Qed.

(** X16.  [ufshcd_intr] goes round its loop at most [nutrs] times,
    however long the status register stays non-zero.  Every round
    writes back the non-zero status it read, and calls
    [ufshcd_sl_intr] only when an enabled bit is set.  The handler
    returns IRQ_HANDLED exactly when [ufshcd_sl_intr] was called and,
    unless CONFIG_SCSI_UFSHCD_QTI is set, returned IRQ_HANDLED at
    least once; with CONFIG_SCSI_UFSHCD_QTI it never reports an
    unhandled interrupt. *)
Theorem intr_loop_bounded (nutrs status : Z)
    (rounds : list intr_round) :
  0 <= nutrs < 2 ^ 31 ->
  nutrs <= Z.of_nat (length rounds) ->
  exists ret evs,
    ufshcd_intr nutrs status rounds = Some (ret, evs)
    /\ Z.of_nat (length (filter (fun x => is_ack x = true) evs)) <= nutrs
    /\ (forall a, IntrAck a ∈ evs -> a <> 0)
    /\ (forall en r, IntrSl en r ∈ evs -> en <> 0)
    /\ (ret = IRQ_HANDLED <->
        exists en r, IntrSl en r ∈ evs
          /\ (CONFIG_SCSI_UFSHCD_QTI = true \/ r = IRQ_HANDLED))
    /\ (CONFIG_SCSI_UFSHCD_QTI = true ->
        forall s, IntrUnhandled s ∉ evs).
Proof.
  intros Hn Hlen. unfold ufshcd_intr.
  assert (Hw : sint32 nutrs = nutrs).
  { unfold sint32. rewrite Z.mod_small by lia. lia. }
  rewrite Hw. destruct (Z.ltb_spec nutrs 0); [lia |].
  assert (Hlen' : (Z.to_nat nutrs <= length rounds)%nat) by lia.
  destruct (intr_loop_spec (Z.to_nat nutrs) (uint32 status) 0 IRQ_NONE
              rounds Hlen')
    as (s' & e' & rv' & evs & -> & Hcnt & Hall & Hrv & Hq); [done |].
  eexists rv', _. split; [done |].
  set (tail := if negb (e' =? 0) then _ else _).
  assert (Htail : tail = [] \/ tail = [IntrUnhandled s']
                               /\ e' <> 0 /\ rv' = IRQ_NONE).
  { subst tail. destruct (Z.eqb_spec e' 0); cbn [negb]; [by left |].
    destruct rv'; [by right | by left]. }
  split_and!.
  - rewrite list.filter_app, length_app.
    destruct Htail as [-> | [-> _]];
      [| rewrite filter_cons_False by done];
      rewrite filter_nil; cbn [length]; lia.
  - intros a Ha. apply elem_of_app in Ha as [Ha | Ha].
    + apply (Hall _ Ha).
    + destruct Htail as [Ht | [Ht _]]; rewrite Ht in Ha;
        [by apply elem_of_nil in Ha |
         by apply list_elem_of_singleton in Ha].
  - intros en r Ha. apply elem_of_app in Ha as [Ha | Ha].
    + apply (Hall _ Ha).
    + destruct Htail as [Ht | [Ht _]]; rewrite Ht in Ha;
        [by apply elem_of_nil in Ha |
         by apply list_elem_of_singleton in Ha].
  - rewrite Hrv. split.
    + intros [? | (en & r & Hin & Hc)]; [done |].
      exists en, r. split; [| done]. apply elem_of_app. by left.
    + intros (en & r & Hin & Hc). right. exists en, r.
      split; [| done]. apply elem_of_app in Hin as [Hin | Hin]; [done |].
      destruct Htail as [Ht | [Ht _]]; rewrite Ht in Hin;
        [by apply elem_of_nil in Hin |
         by apply list_elem_of_singleton in Hin].
  - intros Hqti s Hin. apply elem_of_app in Hin as [Hin | Hin].
    + apply (Hall _ Hin).
    + destruct Htail as [Ht | (Ht & He & Hnone)]; rewrite Ht in Hin.
      * by apply elem_of_nil in Hin.
      * specialize (Hq Hqti He). congruence.
Qed.

End WithDefs.

Lemma intr_loop_bounded_witness :
  let stuck := {| r_enable := 1; r_sl_ret := IRQ_HANDLED;
                  r_next_status := 1 |} in
  @ufshcd_intr linux_defs 2 1 [stuck; stuck; stuck]
  = Some (IRQ_HANDLED,
          [IntrAck 1; IntrSl 1 IRQ_HANDLED; IntrAck 1;
           IntrSl 1 IRQ_HANDLED])
  /\ exists ret evs,
      @ufshcd_intr linux_defs 2 1 [stuck; stuck; stuck] = Some (ret, evs)
      /\ Z.of_nat (length (filter (fun x => is_ack x = true) evs)) <= 2
      /\ (forall a, IntrAck a ∈ evs -> a <> 0)
      /\ (forall en r, IntrSl en r ∈ evs -> en <> 0)
      /\ (ret = IRQ_HANDLED <->
          exists en r, IntrSl en r ∈ evs
            /\ (@CONFIG_SCSI_UFSHCD_QTI linux_defs = true
                \/ r = IRQ_HANDLED))
      /\ (@CONFIG_SCSI_UFSHCD_QTI linux_defs = true ->
          forall s, IntrUnhandled s ∉ evs).
Proof.
  intros stuck. split; [reflexivity |].
  apply (@intr_loop_bounded linux_defs 2 1 [stuck; stuck; stuck]);
    simpl; lia.
Defined.

End IntrLoopProps.

(** ** Queue depth *)

Module QueueDepthProps.
Import QueueDepth.

Section WithDefs.
Context `{UfsDefs}.

(** X17.  On an adapter with between 1 and 255 slots,
    [ufshcd_set_queue_depth] activates a queue depth of at least 1
    and at most [nutrs], whatever the unit descriptor says, and
    [ufshcd_change_queue_depth] lowers a requested depth to [nutrs]
    and changes no depth that is within it. *)
Theorem queue_depth_within_slots (nutrs ret depth : Z)
    (stored : option Z) :
  1 <= nutrs <= 255 ->
  1 <= ufshcd_set_queue_depth nutrs ret stored <= nutrs
  /\ ufshcd_change_queue_depth nutrs depth = Z.min depth nutrs.
Proof.
  intros Hn. split.
  - unfold ufshcd_set_queue_depth.
    assert (Hu : uint8 nutrs = nutrs).
    { unfold uint8. apply Z.mod_small. lia. }
    assert (Hs : sint32 nutrs = nutrs).
    { unfold sint32. rewrite Z.mod_small by lia. lia. }
    set (q := match stored with Some b => uint8 b | None => _ end).
    assert (Hq : 0 <= q <= 255).
    { subst q. destruct stored as [b |]; [| lia].
      unfold uint8. pose proof (Z.mod_pos_bound b (2 ^ 8)). lia. }
    destruct (ret =? - EOPNOTSUPP); [lia |].
    destruct (Z.eqb_spec q 0); [lia |].
    assert (Hsq : sint32 q = q).
    { unfold sint32. rewrite Z.mod_small by lia. lia. }
    rewrite Hsq, Hs. unfold uint8. rewrite Z.mod_small by lia. lia.
  - unfold ufshcd_change_queue_depth.
    destruct (Z.gtb_spec depth nutrs); lia.
Qed.

End WithDefs.

Lemma queue_depth_within_slots_witness :
  1 <= @ufshcd_set_queue_depth linux_defs 32 0 (Some 0) <= 32
  /\ ufshcd_change_queue_depth 32 64 = Z.min 64 32.
Proof.
  apply (@queue_depth_within_slots linux_defs 32 0 64 (Some 0)). lia.
Defined.

End QueueDepthProps.

(** ** Device management: tags and responses *)

Module DevCmdProps.
Import DevCmdCompletion.

Section WithHeaders.
Context `{UfsHeaders} `{UfsDefs}.

(** X18.  A device management tag goes back where it came from:
    [ufshcd_put_dev_cmd_tag] on the tag [ufshcd_get_dev_cmd_tag]
    returned restores the adapter state, and a second
    [ufshcd_get_dev_cmd_tag] before that returns a lower tag or
    none. *)
Theorem dev_cmd_tag_round_trip (hba hba1 : ufs_hba) (t : Z) :
  0 <= nutrs hba <= BITS_PER_LONG ->
  ufshcd_get_dev_cmd_tag hba = (Some t, hba1) ->
  ufshcd_put_dev_cmd_tag t hba1 = hba
  /\ match fst (ufshcd_get_dev_cmd_tag hba1) with
     | Some t' => 0 <= t' < t
     | None => True
     end.
Proof.
  intros Hn. unfold ufshcd_get_dev_cmd_tag, Bitops.test_and_set_bit_lock.
  pose proof (dev_cmd_tag_candidate_spec (nutrs hba) (lrb_in_use hba) Hn)
    as Hc.
  destruct (dev_cmd_tag_candidate (nutrs hba) (lrb_in_use hba))
    as [t0 |]; [| done].
  destruct Hc as (Ht & Hfree & Hhigh). intros [= -> <-].
  split.
  - unfold ufshcd_put_dev_cmd_tag, Bitops.clear_bit.
    cbn [lrb_in_use set_lrb_in_use].
    rewrite ResourceProps.clearbit_setbit_fresh by (done || lia).
    by destruct hba.
  - cbn [lrb_in_use nutrs set_lrb_in_use].
    pose proof (dev_cmd_tag_candidate_spec (nutrs hba)
                  (Z.setbit (lrb_in_use hba) t) Hn) as Hc.
    destruct (dev_cmd_tag_candidate (nutrs hba)
                (Z.setbit (lrb_in_use hba) t)) as [t' |]; [| done].
    cbn [fst]. destruct Hc as (Ht' & Hfree' & _).
    split; [lia |].
    destruct (Z.lt_trichotomy t' t) as [Hlt | [-> | Hgt]]; [done | |].
    + rewrite Z.setbit_eq in Hfree' by lia. done.
    + rewrite Z.setbit_neq in Hfree' by lia.
      rewrite Hhigh in Hfree' by lia. done.
Qed.

(** X19.  [ufshcd_dev_cmd_completion] returns 0 only for a NOP IN
    answering a NOP and for a query response whose response code is
    zero.  It writes to the caller's descriptor buffer only then, and
    only the data segment of a read-descriptor response that is no
    longer than the length requested: the bytes behind it stay as
    they were.  A longer data segment gives -EINVAL and an untouched
    buffer. *)
Theorem dev_cmd_completion_copy_bounded (d : dev_cmd)
    (lrbp : ufshcd_lrb) (qr : query_rsp) :
  EINVAL <> 0 -> EPERM <> 0 ->
  (forall buf, dc_descriptor d = Some buf ->
     uint16 (dc_req_length d) <= Z.of_nat (length buf)) ->
  uint16 (Z.land (rsp_dword_2 lrbp) MASK_QUERY_DATA_SEG_LEN)
    <= Z.of_nat (length (qr_data qr)) ->
  let resp_len :=
    uint16 (Z.land (rsp_dword_2 lrbp) MASK_QUERY_DATA_SEG_LEN) in
  exists err d',
    ufshcd_dev_cmd_completion d lrbp qr = Some (err, d')
    /\ (err = 0 ->
        sint32 (ufshcd_get_req_rsp lrbp) = UPIU_TRANSACTION_NOP_IN
        /\ dc_type d = DEV_CMD_TYPE_NOP
        \/ sint32 (ufshcd_get_req_rsp lrbp) = UPIU_TRANSACTION_QUERY_RSP
           /\ dc_response d' = 0)
    /\ (dc_descriptor d' = dc_descriptor d
        \/ exists buf,
             dc_descriptor d = Some buf
             /\ err = 0
             /\ qr_opcode qr = UPIU_QUERY_OPCODE_READ_DESC
             /\ resp_len <= uint16 (dc_req_length d)
             /\ dc_descriptor d'
                = Some (take (Z.to_nat resp_len) (qr_data qr)
                        ++ drop (Z.to_nat resp_len) buf))
    /\ (forall buf,
          dc_descriptor d = Some buf ->
          sint32 (ufshcd_get_req_rsp lrbp) = UPIU_TRANSACTION_QUERY_RSP ->
          UPIU_TRANSACTION_QUERY_RSP <> UPIU_TRANSACTION_NOP_IN ->
          dc_response d' = 0 ->
          qr_opcode qr = UPIU_QUERY_OPCODE_READ_DESC ->
          uint16 (dc_req_length d) < resp_len ->
          err = - EINVAL /\ dc_descriptor d' = Some buf).
Proof.
  intros Hei Hep Hbuf Hdata resp_len.
  unfold ufshcd_dev_cmd_completion. cbv zeta.
  destruct (Z.eqb_spec (sint32 (ufshcd_get_req_rsp lrbp))
              UPIU_TRANSACTION_NOP_IN) as [Hnop | Hnnop].
  { destruct (dc_type d) eqn:Hty.
    - exists 0, d. split_and!; [done | by left | by left |].
      intros buf _ Hq Hne. congruence.
    - exists (- EINVAL), d. split_and!; [done | lia | by left |].
      intros buf _ Hq Hne. congruence. }
  destruct (Z.eqb_spec (sint32 (ufshcd_get_req_rsp lrbp))
              UPIU_TRANSACTION_QUERY_RSP) as [Hqr | Hnqr].
  2: { destruct (_ =? UPIU_TRANSACTION_REJECT_UPIU).
       - exists (- EPERM), d. split_and!; [done | lia | by left | done].
       - exists (- EINVAL), d. split_and!; [done | lia | by left | done]. }
  unfold ufshcd_check_query_response. cbv zeta.
  set (response := uint8 _).
  destruct (Z.eqb_spec response 0) as [Hz | Hnz].
  2: { exists response, (set_dc_response response d).
       split_and!; [done | done | by left |].
       intros buf _ _ _ Hr. cbn in Hr. done. }
  unfold ufshcd_copy_query_response. cbv zeta.
  cbn [dc_descriptor set_dc_upiu_res set_dc_response dc_req_length].
  destruct (dc_descriptor d) as [buf |] eqn:Hd.
  2: { eexists 0, _. split_and!; [done | | by left | done].
       intros _. right. by rewrite Hz. }
  destruct (Z.eqb_spec (qr_opcode qr) UPIU_QUERY_OPCODE_READ_DESC)
    as [Hop | Hnop'].
  2: { eexists 0, _. split_and!; [done | | by left |].
       - intros _. right. by rewrite Hz.
       - intros; done. }
  fold resp_len.
  destruct (Z.geb_spec (uint16 (dc_req_length d)) resp_len)
    as [Hfit | Hlong].
  - unfold memcpy.
    assert (Hr0 : 0 <= resp_len).
    { subst resp_len. unfold uint16.
      apply Z.mod_pos_bound. lia. }
    specialize (Hbuf buf eq_refl).
    destruct (Z.ltb_spec resp_len 0); [lia |].
    destruct (Z.ltb_spec (Z.of_nat (length (qr_data qr))) resp_len);
      [lia |].
    destruct (Z.ltb_spec (Z.of_nat (length buf)) resp_len); [lia |].
    cbn [orb]. eexists 0, _. split_and!; [done | | | ].
    + intros _. right. by rewrite Hz.
    + right. exists buf. split_and!; try done; lia.
    + intros; lia.
  - eexists (- EINVAL), _. split_and!; [done | lia | by left |].
    intros buf' [= <-] _ _ _ _ _. done.
Qed.

End WithHeaders.

Lemma dev_cmd_tag_round_trip_witness :
  ufshcd_get_dev_cmd_tag hba_idle = (Some 3, set_lrb_in_use 8 hba_idle)
  /\ ufshcd_put_dev_cmd_tag 3 (set_lrb_in_use 8 hba_idle) = hba_idle
  /\ match fst (ufshcd_get_dev_cmd_tag (set_lrb_in_use 8 hba_idle)) with
     | Some t' => 0 <= t' < 3
     | None => True
     end.
Proof.
  split; [reflexivity |].
  apply (dev_cmd_tag_round_trip hba_idle (set_lrb_in_use 8 hba_idle) 3);
    [simpl; unfold BITS_PER_LONG; lia | reflexivity].
Defined.

Lemma dev_cmd_completion_copy_bounded_witness :
  let d := {| dc_type := DEV_CMD_TYPE_QUERY;
              dc_descriptor := Some [0; 0; 0; 0];
              dc_req_length := 4; dc_response := 255;
              dc_upiu_res := None |} in
  let qr := {| qr_opcode := 1; qr_data := [7; 8; 9] |} in
  let lrbp := {| cmd := None; command_type := UTP_CMD_TYPE_DEV_MANAGE;
                 task_tag := 3; intr_cmd := true;
                 req_abort_skip := false; utrd_dword_2 := 0;
                 rsp_dword_0 := 905969664; rsp_dword_1 := 0;
                 rsp_dword_2 := 3 |} in
  exists d',
    @ufshcd_dev_cmd_completion linux_headers linux_defs d lrbp qr
    = Some (0, d')
    /\ dc_descriptor d' = Some [7; 8; 9; 0].
Proof.
  intros d qr lrbp.
  destruct (@dev_cmd_completion_copy_bounded linux_headers linux_defs
              d lrbp qr)
    as (err & d' & Hrun & _ & Hcopy & _);
    [discriminate | discriminate
     | intros buf [= <-]; vm_compute; discriminate
     | vm_compute; discriminate |].
  vm_compute in Hrun. injection Hrun as <- <-.
  eexists. split; reflexivity.
Defined.

End DevCmdProps.

(** ** Busy time for devfreq *)

Module BusyTimeProps.
Import BusyTime.

Lemma us_delta_bounds (later earlier : Z) :
  0 < earlier <= later -> later < 2 ^ 62 ->
  0 <= ktime_us_delta later earlier
  /\ 1000 * ktime_us_delta later earlier <= later - earlier
       < 1000 * ktime_us_delta later earlier + 1000
  /\ ktime_us_delta later earlier < 2 ^ 62.
Proof.
  intros He Hl. unfold ktime_us_delta, ktime_to_us, ktime_sub, sint64.
  rewrite Z.mod_small by lia.
  replace (later - earlier + 2 ^ 63 - 2 ^ 63) with (later - earlier) by lia.
  rewrite Z.quot_div_nonneg by lia.
  pose proof (Z.div_mod (later - earlier) 1000 ltac:(lia)).
  pose proof (Z.mod_pos_bound (later - earlier) 1000 ltac:(lia)).
  lia.
Qed.

Lemma bt_inv_mono (t t' : Z) (s : ufs_clk_scaling) :
  t <= t' -> bt_inv t s -> bt_inv t' s.
Proof.
  intros Ht Hi Hw. destruct (Hi Hw) as (Hws & Hb & Hrest).
  split_and!; [lia | lia | done |].
  destruct (is_busy_started s); lia.
Qed.

Section WithHeaders.
Context `{UfsHeaders}.

Lemma start_busy_inv (supported pm : bool) (t : Z)
    (s : ufs_clk_scaling) :
  0 < t -> bt_inv t s ->
  bt_inv t (snd (ufshcd_clk_scaling_start_busy supported pm t s)).
Proof.
  intros Ht Hi. unfold ufshcd_clk_scaling_start_busy.
  destruct supported; cbn [negb]; [| done].
  cbn [is_allowed window_start_t is_busy_started].
  destruct (negb (is_allowed s) || pm); [done |].
  destruct (Z.eqb_spec (window_start_t s) 0) as [Hz | Hnz];
    cbn [is_busy_started negb snd].
  - intros _. cbn. lia.
  - destruct (Hi Hnz) as (Hws & Hb & Hrest).
    destruct (is_busy_started s) eqn:Hbs; cbn [negb snd].
    + intros _. cbn. lia.
    + intros _. cbn. lia.
Qed.

Lemma update_busy_inv (supported : bool) (o t : Z)
    (s : ufs_clk_scaling) :
  0 < t < 2 ^ 62 -> bt_inv t s ->
  bt_inv t (ufshcd_clk_scaling_update_busy supported o t s).
Proof.
  intros Ht Hi. unfold ufshcd_clk_scaling_update_busy.
  destruct supported; cbn [negb]; [| done].
  destruct (o =? 0); cbn [andb]; [| done].
  destruct (is_busy_started s) eqn:Hbs; [| done].
  intros Hw. cbn in Hw. destruct (Hi Hw) as (Hws & Hb & Hrest).
  rewrite Hbs in Hrest. destruct Hrest as [Hs Hfit].
  fold (ktime_us_delta t (busy_start_t s)).
  destruct (us_delta_bounds t (busy_start_t s)) as (Hd0 & Hd1 & Hd2);
    [lia | lia |].
  cbn. unfold ulong, BITS_PER_LONG. rewrite Z.mod_small by lia. lia.
Qed.

Lemma get_dev_status_inv (supported : bool) (o f t : Z)
    (s : ufs_clk_scaling) :
  0 < t < 2 ^ 62 -> bt_inv t s ->
  let r := ufshcd_devfreq_get_dev_status supported o f t s in
  bt_inv t (snd r)
  /\ forall st, snd (fst r) = Some st ->
       0 <= busy_time st <= total_time st.
Proof.
  intros Ht Hi. cbv zeta. unfold ufshcd_devfreq_get_dev_status.
  destruct supported; cbn [negb]; [| by split].
  destruct (Z.eqb_spec (window_start_t s) 0) as [Hz | Hnz]; cbn [fst snd].
  - split.
    + intros _. cbn. destruct (o =? 0); cbn; lia.
    + intros st [= <-]. cbn. lia.
  - destruct (Hi Hnz) as (Hws & Hb & Hrest). split.
    + destruct (is_busy_started s); cbn [fst snd];
        intros _; cbn; destruct (o =? 0); cbn; lia.
    + destruct (us_delta_bounds t (window_start_t s))
        as (Hw0 & Hw1 & Hw2); [lia | lia |].
      destruct (is_busy_started s); cbn [fst snd];
        intros st [= <-]; cbn [busy_time total_time];
        unfold ulong, BITS_PER_LONG.
      * destruct Hrest as [Hs Hfit].
        destruct (us_delta_bounds t (busy_start_t s))
          as (Hd0 & Hd1 & Hd2); [lia | lia |].
        rewrite !Z.mod_small by lia. lia.
      * rewrite Z.mod_small by lia. lia.
Qed.

Lemma suspend_inv (t : Z) (s : ufs_clk_scaling) :
  bt_inv t (__ufshcd_suspend_clkscaling s).
Proof. intros Hw. by cbn in Hw. Qed.

Lemma bt_run_reports (supported : bool) (ops : list (Z * bt_op)) :
  forall (prev : Z) (s : ufs_clk_scaling),
    0 < prev -> times_ok prev ops -> bt_inv prev s ->
    Forall (fun st => 0 <= busy_time st <= total_time st)
           (fst (bt_run supported ops s)).
Proof.
  induction ops as [| [t op] rest IH]; intros prev s Hp Hts Hi;
    [by constructor |].
  destruct Hts as [Ht Hrest].
  apply (bt_inv_mono prev t) in Hi; [| lia].
  cbn [bt_run]. destruct op as [pm | o | o f |].
  - apply (IH t); [lia | done |]. apply start_busy_inv; [lia | done].
  - apply (IH t); [lia | done |]. apply update_busy_inv; [lia | done].
  - destruct (get_dev_status_inv supported o f t s ltac:(lia) Hi)
      as [Hi' Hst].
    destruct (ufshcd_devfreq_get_dev_status supported o f t s)
      as [[ret stat] s']. cbn [fst snd] in *.
    specialize (IH t s' ltac:(lia) Hrest Hi').
    destruct (bt_run supported rest s') as [stats s'']. cbn [fst] in *.
    destruct stat as [st |]; [| done].
    constructor; [by apply Hst | done].
  - apply (IH t); [lia | done |]. apply suspend_inv.
Qed.

(** X21.  The load figures handed to devfreq are consistent: in any
    history of [ufshcd_clk_scaling_start_busy],
    [ufshcd_clk_scaling_update_busy], [ufshcd_devfreq_get_dev_status]
    and [__ufshcd_suspend_clkscaling] calls made at times that do
    not go back, starting with no window open, every status report
    has a busy time between 0 and its total time. *)
Theorem busy_time_within_total (supported : bool)
    (ops : list (Z * bt_op)) (s : ufs_clk_scaling) :
  window_start_t s = 0 ->
  times_ok 1 ops ->
  Forall (fun st => 0 <= busy_time st <= total_time st)
         (fst (bt_run supported ops s)).
Proof.
  intros Hw Hts. apply (bt_run_reports supported ops 1); [lia | done |].
  intros Hne. done.
Qed.

End WithHeaders.

Lemma busy_time_within_total_witness :
  let s0 := {| cs_active_reqs := 0; is_allowed := true;
               window_start_t := 0; tot_busy_t := 0; busy_start_t := 0;
               is_busy_started := false |} in
  let ops := [ (1000000, OpStartBusy false);
               (3000000, OpUpdateBusy 0);
               (5000000, OpStartBusy false);
               (9000000, OpGetDevStatus 4 200);
               (12000000, OpUpdateBusy 0);
               (13000000, OpGetDevStatus 0 200) ] in
  fst (@bt_run linux_headers true ops s0)
  = [ {| total_time := 8000; busy_time := 6000;
         current_frequency := 200 |};
      {| total_time := 4000; busy_time := 3000;
         current_frequency := 200 |} ]
  /\ Forall (fun st => 0 <= busy_time st <= total_time st)
            (fst (@bt_run linux_headers true ops s0)).
Proof.
  intros s0 ops. split; [reflexivity |].
  apply (@busy_time_within_total linux_headers true ops s0);
    [reflexivity | simpl; lia].
Defined.

End BusyTimeProps.

(** ** Waiting for a device management command *)

Module DevCmdWaitProps.
Import RegPoll DevCmdCompletion DevCmdWait.

Lemma doorbell_bit_clear (tag r : Z) :
  0 <= tag < 32 ->
  let mask := uint32 (Z.shiftl 1 tag) in
  reg_matches (uint32 mask)
    (Z.land (uint32 (uint32 (Z.lnot mask))) (uint32 mask)) r
  = negb (Z.testbit r tag).
Proof.
  intros Ht mask. unfold reg_matches.
  assert (Hm : forall i, Z.testbit (uint32 mask) i = bool_decide (i = tag)).
  { intros i. subst mask.
    rewrite !GatingProps.testbit_uint32, GatingProps.testbit_shiftl_one.
    case_bool_decide as Hi.
    - subst i. destruct (Z.leb_spec 0 tag), (Z.ltb_spec tag 32);
        first [lia | done].
    - done. }
  assert (Hv : Z.land (uint32 (uint32 (Z.lnot mask))) (uint32 mask) = 0).
  { apply Z.bits_inj'. intros i Hi.
    rewrite Z.land_spec, Hm, !GatingProps.testbit_uint32, Z.bits_0.
    case_bool_decide as Hd; [| by rewrite andb_false_r].
    subst i. rewrite Z.lnot_spec by lia.
    replace (Z.testbit mask tag) with true; [done |].
    symmetry. subst mask.
    rewrite GatingProps.testbit_uint32, GatingProps.testbit_shiftl_one.
    rewrite bool_decide_eq_true_2 by done.
    destruct (Z.leb_spec 0 tag), (Z.ltb_spec tag 32);
      first [lia | done]. }
  rewrite Hv.
  destruct (Z.testbit r tag) eqn:Hr; cbn [negb].
  - apply Z.eqb_neq. intros Hz.
    apply (f_equal (fun z => Z.testbit z tag)) in Hz.
    rewrite Z.land_spec, Hm, GatingProps.testbit_uint32, Hr, Z.bits_0
      in Hz.
    rewrite bool_decide_eq_true_2 in Hz by done.
    destruct (Z.ltb_spec tag 32); [done | lia].
  - apply Z.eqb_eq. apply Z.bits_inj'. intros i Hi.
    rewrite Z.land_spec, Hm, GatingProps.testbit_uint32, Z.bits_0.
    case_bool_decide as Hd; [| by rewrite andb_false_r].
    subst i. by rewrite Hr.
Qed.

Section WithHeaders.
Context `{UfsHeaders} `{UfsDefs}.

(** X22.  When the wait for a device management command times out,
    [ufshcd_wait_for_dev_cmd] asks the controller to clear the slot
    and polls the doorbell: it returns -EAGAIN when the doorbell bit
    of the tag was seen clear and -ETIMEDOUT when it was still set
    after the polling deadline, never 0; in both cases the bit of
    the tag is taken out of [outstanding_reqs], [dev_cmd.complete]
    is NULL and [lrb_in_use] is as before.  When the command
    completed in time, [outstanding_reqs] is left to the interrupt
    handler. *)
Theorem wait_for_dev_cmd_timeout (time_left : Z) (lrbp : ufshcd_lrb)
    (qr : query_rsp) (reads : list Z) (late : list bool) (d : dev_cmd)
    (hba : ufs_hba) (n : nat) :
  EAGAIN <> 0 -> ETIMEDOUT <> 0 ->
  0 <= task_tag lrbp < 32 ->
  late !! n = Some true ->
  (n + 2 <= length reads)%nat ->
  (time_left = 0 ->
   exists err hba' k r,
     ufshcd_wait_for_dev_cmd time_left lrbp qr reads late d hba
     = Some (err, d, hba')
     /\ dev_cmd_complete hba' = false
     /\ outstanding_reqs hba'
        = Bitops.clear_bit (task_tag lrbp) (outstanding_reqs hba)
     /\ lrb_in_use hba' = lrb_in_use hba
     /\ (k <= S n)%nat
     /\ reads !! k = Some r
     /\ (forall i r', (i < k)%nat -> reads !! i = Some r' ->
           Z.testbit r' (task_tag lrbp) = true)
     /\ err <> 0
     /\ (err = - EAGAIN /\ Z.testbit r (task_tag lrbp) = false
         \/ err = - ETIMEDOUT /\ Z.testbit r (task_tag lrbp) = true))
  /\ (time_left <> 0 ->
      forall err d' hba',
        ufshcd_wait_for_dev_cmd time_left lrbp qr reads late d hba
        = Some (err, d', hba') ->
        dev_cmd_complete hba' = false
        /\ outstanding_reqs hba' = outstanding_reqs hba
        /\ lrb_in_use hba' = lrb_in_use hba
        /\ (sint32 (ufshcd_get_tr_ocs lrbp) <> 0 ->
            err = sint32 (ufshcd_get_tr_ocs lrbp) /\ d' = d)).
Proof.
  intros Hea Het Htag Hn Hlen. split.
  - intros ->. unfold ufshcd_wait_for_dev_cmd. cbn [Z.eqb negb].
    unfold ufshcd_clear_cmd. cbv zeta.
    destruct (RegPollProps.wait_for_register_loop_spec
                (uint32 (uint32 (Z.shiftl 1 (task_tag lrbp))))
                (Z.land
                   (uint32 (uint32 (Z.lnot
                              (uint32 (Z.shiftl 1 (task_tag lrbp))))))
                   (uint32 (uint32 (Z.shiftl 1 (task_tag lrbp)))))
                (PollUsleepRange (ulong 1000) (ulong (1000 + 50)))
                late reads n Hn Hlen)
      as (cerr & evs & Hrun & Hk & _ & Hmis & _ & r & Hr & Hv).
    unfold ufshcd_wait_for_register. cbv zeta. rewrite Hrun.
    eexists _, _, (length evs), r. split; [reflexivity |].
    split_and!.
    + unfold Gating.ufshcd_outstanding_req_clear,
        Gating.ufshcd_utrl_clear, ufshcd_writel.
      by destruct (negb _).
    + unfold Gating.ufshcd_outstanding_req_clear,
        Gating.ufshcd_utrl_clear, ufshcd_writel.
      by destruct (negb _).
    + unfold Gating.ufshcd_outstanding_req_clear,
        Gating.ufshcd_utrl_clear, ufshcd_writel.
      by destruct (negb _).
    + done.
    + done.
    + intros i r' Hi Hr'. specialize (Hmis i r' Hi Hr').
      rewrite (doorbell_bit_clear (task_tag lrbp) r' Htag) in Hmis.
      by apply negb_false_iff in Hmis.
    + destruct (cerr =? 0); lia.
    + rewrite (doorbell_bit_clear (task_tag lrbp) r Htag) in Hv.
      destruct Hv as [[-> Hm] | (-> & Hm & _)].
      * left. split; [done |]. by apply negb_true_iff in Hm.
      * destruct (Z.eqb_spec (- ETIMEDOUT) 0) as [Hz | _]; [lia |].
        right. apply negb_false_iff in Hm. done.
  - intros Hne err d' hba'. unfold ufshcd_wait_for_dev_cmd.
    destruct (Z.eqb_spec time_left 0) as [| _]; [done |]. cbn [negb].
    destruct (Z.eqb_spec (sint32 (ufshcd_get_tr_ocs lrbp)) 0)
      as [Hz | Hnz].
    + destruct (ufshcd_dev_cmd_completion d lrbp qr) as [[e1 d1] |];
        [| done].
      intros [= <- <- <-]. split_and!; try done.
    + intros [= <- <- <-]. split_and!; done.
Qed.

End WithHeaders.

Lemma wait_for_dev_cmd_timeout_witness :
  let lrbp := {| cmd := None; command_type := UTP_CMD_TYPE_DEV_MANAGE;
                 task_tag := 3; intr_cmd := true;
                 req_abort_skip := false; utrd_dword_2 := 0;
                 rsp_dword_0 := 0; rsp_dword_1 := 0; rsp_dword_2 := 0 |} in
  let qr := {| qr_opcode := 0; qr_data := [] |} in
  let d := {| dc_type := DEV_CMD_TYPE_NOP; dc_descriptor := None;
              dc_req_length := 0; dc_response := 0;
              dc_upiu_res := None |} in
  let hba := set_outstanding_reqs 8 (set_lrb_in_use 8 hba_idle) in
  exists hba',
    @ufshcd_wait_for_dev_cmd linux_headers linux_defs 0 lrbp qr
      [8; 8; 0] [false; true] d hba
    = Some (- 11, d, hba')
    /\ outstanding_reqs hba' = 0.
Proof.
  intros lrbp qr d hba.
  destruct (proj1 (@wait_for_dev_cmd_timeout linux_headers linux_defs
                     0 lrbp qr [8; 8; 0] [false; true] d hba 1
                     ltac:(discriminate) ltac:(discriminate)
                     ltac:(simpl; lia) eq_refl ltac:(simpl; lia))
                  eq_refl)
    as (err & hba' & k & r & Hrun & _ & Ho & _).
  vm_compute in Hrun. injection Hrun as <- <-.
  eexists. split; reflexivity.
Defined.

End DevCmdWaitProps.

(** ** Switching the clocks *)

Module SetupClocksProps.
Import SetupClocks.

Ltac clk_facts :=
  cbv beta;
  repeat match goal with
         | E : ck_valid _ = _ |- _ => rewrite E
         | E : clk_skipped _ _ = _ |- _ => rewrite E
         end;
  cbn [andb negb];
  unfold clk_same_id, clk_switched, clk_untouched, clk_switch;
  cbn [ck_valid ck_name_ref_clk ck_name_core_clk_unipro ck_enabled
       ck_hw_count Z.b2z];
  repeat match goal with
         | E : ck_enabled _ = _ |- _ => rewrite E
         end;
  cbn [Z.b2z]; repeat split; lia || done.

Section WithDefs.
Context `{UfsDefs}.

(** The first loop, wherever it stops: every clock keeps its
    identity and is either untouched or switched. *)
Lemma setup_clocks_loop_touched (on skip : bool)
    (todo : list clk_info) :
  forall (rets : list Z) (changed : bool),
    Forall2
      (fun c c' =>
         clk_same_id c c'
         /\ (clk_untouched c c'
             \/ ck_valid c = true /\ clk_switched on c c'))
      todo (snd (fst (setup_clocks_loop on skip todo rets changed))).
Proof.
  induction todo as [| c rest IH]; intros rets changed;
    cbn [setup_clocks_loop]; [constructor |].
  assert (Hrefl : Forall2
                    (fun c c' =>
                       clk_same_id c c'
                       /\ (clk_untouched c c'
                           \/ ck_valid c = true
                              /\ clk_switched on c c'))
                    rest rest).
  { clear. induction rest; constructor; [| done].
    split; [clk_facts | left; clk_facts]. }
  destruct (ck_valid c) eqn:Hv; cbn [andb].
  2: { specialize (IH rets changed).
       destruct (setup_clocks_loop on skip rest rets changed)
         as [[r l] ch]. cbn [fst snd] in *.
       constructor; [| done]. split; [clk_facts | left; clk_facts]. }
  destruct (clk_skipped skip c) eqn:Hsk; cbn [negb].
  { specialize (IH rets changed).
    destruct (setup_clocks_loop on skip rest rets changed)
      as [[r l] ch]. cbn [fst snd] in *.
    constructor; [| done]. split; [clk_facts | left; clk_facts]. }
  destruct on, (ck_enabled c) eqn:He; cbn [andb negb xorb].
  2: { destruct (Scaling.next_answer rets) as [ret rets'].
       destruct (Z.eqb_spec ret 0) as [-> | Hne]; cbn [negb].
       - specialize (IH rets' true).
         destruct (setup_clocks_loop true skip rest rets' true)
           as [[r l] ch]. cbn [fst snd] in *.
         constructor; [| done].
         split; [clk_facts | right; split; [done | clk_facts]].
       - cbn [fst snd]. constructor; [| done].
         split; [clk_facts | left; clk_facts]. }
  all: match goal with
       | |- context [setup_clocks_loop ?o ?s ?l0 ?r0 ?ch] =>
           specialize (IH r0 ch);
           destruct (setup_clocks_loop o s l0 r0 ch) as [[r l] ch']
       end;
    cbn [fst snd] in *; (constructor; [| done]);
    (split; [clk_facts | right; split; [done | clk_facts]]).
Qed.

(** The first loop when it runs to the end. *)
Lemma setup_clocks_loop_done (on skip : bool) (todo : list clk_info) :
  forall (rets : list Z) (changed : bool),
    fst (fst (setup_clocks_loop on skip todo rets changed)) = 0 ->
    Forall2
      (fun c c' =>
         clk_same_id c c'
         /\ if ck_valid c && negb (clk_skipped skip c)
            then clk_switched on c c'
            else clk_untouched c c')
      todo (snd (fst (setup_clocks_loop on skip todo rets changed))).
Proof.
  induction todo as [| c rest IH]; intros rets changed;
    cbn [setup_clocks_loop]; [constructor |].
  destruct (ck_valid c) eqn:Hv; cbn [andb].
  2: { specialize (IH rets changed).
       destruct (setup_clocks_loop on skip rest rets changed)
         as [[r l] ch]. cbn [fst snd] in *. intros Hr.
       constructor; [| by apply IH]. split; clk_facts. }
  destruct (clk_skipped skip c) eqn:Hsk; cbn [negb].
  { specialize (IH rets changed).
    destruct (setup_clocks_loop on skip rest rets changed)
      as [[r l] ch]. cbn [fst snd] in *. intros Hr.
    constructor; [| by apply IH]. split; clk_facts. }
  destruct on, (ck_enabled c) eqn:He; cbn [andb negb xorb].
  2: { destruct (Scaling.next_answer rets) as [ret rets'].
       destruct (Z.eqb_spec ret 0) as [-> | Hne]; cbn [negb].
       - specialize (IH rets' true).
         destruct (setup_clocks_loop true skip rest rets' true)
           as [[r l] ch]. cbn [fst snd] in *. intros Hr.
         constructor; [| by apply IH]. split; clk_facts.
       - cbn [fst snd]. done. }
  all: match goal with
       | |- context [setup_clocks_loop ?o ?s ?l0 ?r0 ?ch] =>
           specialize (IH r0 ch);
           destruct (setup_clocks_loop o s l0 r0 ch) as [[r l] ch']
       end;
    cbn [fst snd] in *; intros Hr;
    (constructor; [| by apply IH]); split; clk_facts.
Qed.

(** Switching off cannot fail. *)
Lemma setup_clocks_loop_off (skip : bool) (todo : list clk_info) :
  forall (rets : list Z) (changed : bool),
    fst (fst (setup_clocks_loop false skip todo rets changed)) = 0.
Proof.
  induction todo as [| c rest IH]; intros rets ch; [done |].
  cbn [setup_clocks_loop andb negb].
  destruct (ck_valid c && negb (clk_skipped skip c)).
  - destruct (ck_enabled c); cbn [xorb];
      match goal with
      | |- context [setup_clocks_loop ?o ?s ?l1 ?r1 ?ch1] =>
          specialize (IH r1 ch1);
          destruct (setup_clocks_loop o s l1 r1 ch1) as [[r0 l0] ch0]
      end; done.
  - specialize (IH rets ch).
    destruct (setup_clocks_loop false skip rest rets ch)
      as [[r0 l0] ch0]. done.
Qed.

(** X23.  [__ufshcd_setup_clocks] that returns 0 has switched every
    usable clock it does not skip: its [enabled] flag says [on], and
    [clk_prepare_enable] or [clk_disable_unprepare] has been called
    on it once if, and only if, the flag had to change; the skipped
    and the unusable clocks are untouched, and when switching on the
    gating state is CLKS_ON. *)
Theorem setup_clocks_success (on skip : bool) (env : clk_env)
    (clks : list clk_info) (st : clk_gating_state) :
  let r := __ufshcd_setup_clocks on skip env clks st in
  fst (fst (fst r)) = 0 ->
  Forall2
    (fun c c' =>
       clk_same_id c c'
       /\ if ck_valid c && negb (clk_skipped skip c)
          then clk_switched on c c'
          else clk_untouched c c')
    clks (snd (fst (fst r)))
  /\ snd (fst r) = if on then CLKS_ON else st.
Proof.
  cbv zeta. unfold __ufshcd_setup_clocks.
  destruct clks as [| c0 clks0] eqn:Hc; [by split |]. rewrite <- Hc.
  clear Hc.
  destruct (Z.eqb_spec (ce_vops_pre env) 0) as [Hpre | Hpre];
    cbn [negb fst snd]; [| done].
  pose proof (setup_clocks_loop_done on skip clks
                (ce_prepare_enable env) false) as Hdone.
  destruct (setup_clocks_loop on skip clks (ce_prepare_enable env)
              false) as [[r l] ch]. cbn [fst snd] in *.
  destruct (Z.eqb_spec r 0) as [-> | Hr]; cbn [negb fst snd];
    [| done].
  destruct (Z.eqb_spec (ce_vops_post env) 0) as [Hpost | Hpost];
    cbn [negb fst snd]; [| done].
  intros _. split; [by apply Hdone | done].
Qed.

(** X24.  When a [clk_prepare_enable] fails, [__ufshcd_setup_clocks]
    calls [clk_disable_unprepare] on every usable clock whose
    [enabled] flag is set, be it set by this call or before it, the
    reference clock included, and clears no flag.  So if the flags
    told the truth before the call, no usable clock is left running,
    while the flags of the clocks that were on or were switched on
    still say enabled; the gating state is not changed. *)
Theorem setup_clocks_failed_enable (on skip : bool) (env : clk_env)
    (clks : list clk_info) (st : clk_gating_state) :
  let loop := setup_clocks_loop on skip clks (ce_prepare_enable env)
                false in
  let r := __ufshcd_setup_clocks on skip env clks st in
  ce_vops_pre env = 0 ->
  fst (fst loop) <> 0 ->
  fst (fst (fst r)) = fst (fst loop)
  /\ snd (fst r) = st
  /\ Forall2
       (fun c c' =>
          clk_same_id c c'
          /\ (ck_enabled c = true -> ck_enabled c' = true)
          /\ (ck_valid c = true ->
              ck_hw_count c' = ck_hw_count c - Z.b2z (ck_enabled c))
          /\ (ck_valid c = true -> clk_consistent c ->
              ck_hw_count c' = 0))
       clks (snd (fst (fst r))).
Proof.
  cbv zeta. intros Hpre Hfail. unfold __ufshcd_setup_clocks.
  destruct clks as [| c0 clks0] eqn:Hc; [done |]. rewrite <- Hc in *.
  clear Hc. rewrite Hpre. cbn [Z.eqb negb].
  pose proof (setup_clocks_loop_touched on skip clks
                (ce_prepare_enable env) false) as Htouched.
  (* only switching on can fail *)
  assert (Hon : on = true).
  { destruct on; [done |]. exfalso. apply Hfail.
    apply setup_clocks_loop_off. }
  subst on.
  destruct (setup_clocks_loop true skip clks (ce_prepare_enable env)
              false) as [[r l] ch]. cbn [fst snd] in *.
  destruct (Z.eqb_spec r 0) as [| _]; [done |]. cbn [negb fst snd].
  split_and!; [done | done |].
  unfold setup_clocks_undo. apply Forall2_fmap_r.
  eapply List.Forall2_impl; [| exact Htouched].
  intros c c' [(Hv & Hn1 & Hn2) Hcase].
  unfold compose, clk_consistent, clk_same_id, clk_untouched,
    clk_switched in *.
  rewrite Hv.
  destruct (ck_valid c) eqn:Hvc, (ck_enabled c) eqn:Hec,
    Hcase as [[He Hh] | [Hvv [He Hh]]];
    rewrite He; cbn [andb];
    unfold clk_disable_unprepare, clk_switch;
    cbn [ck_valid ck_name_ref_clk ck_name_core_clk_unipro ck_enabled
         ck_hw_count Z.b2z] in *;
    (split_and!; try done; try lia;
     try (intros _ Hcons; specialize (Hcons eq_refl); lia)).
Qed.

End WithDefs.

Lemma setup_clocks_success_witness :
  let core := {| ck_valid := true; ck_name_ref_clk := false;
                 ck_name_core_clk_unipro := false; ck_enabled := false;
                 ck_hw_count := 0 |} in
  let ref := {| ck_valid := true; ck_name_ref_clk := true;
                ck_name_core_clk_unipro := false; ck_enabled := false;
                ck_hw_count := 0 |} in
  let env := {| ce_vops_pre := 0; ce_vops_post := 0;
                ce_prepare_enable := [] |} in
  let r := @__ufshcd_setup_clocks linux_defs true true env [core; ref]
             CLKS_OFF in
  r = (0, [clk_switch true 1 core; ref], CLKS_ON, true)
  /\ Forall2
       (fun c c' =>
          clk_same_id c c'
          /\ if ck_valid c && negb (@clk_skipped linux_defs true c)
             then clk_switched true c c'
             else clk_untouched c c')
       [core; ref] (snd (fst (fst r)))
  /\ snd (fst r) = CLKS_ON.
Proof.
  intros core ref env r. split; [reflexivity |].
  apply (@setup_clocks_success linux_defs true true env [core; ref]
           CLKS_OFF).
  reflexivity.
Defined.

Lemma setup_clocks_failed_enable_witness :
  let on_clk := {| ck_valid := true; ck_name_ref_clk := false;
                   ck_name_core_clk_unipro := false; ck_enabled := true;
                   ck_hw_count := 1 |} in
  let off_clk := {| ck_valid := true; ck_name_ref_clk := false;
                    ck_name_core_clk_unipro := false;
                    ck_enabled := false; ck_hw_count := 0 |} in
  let env := {| ce_vops_pre := 0; ce_vops_post := 0;
                ce_prepare_enable := [0; -5] |} in
  let r := @__ufshcd_setup_clocks linux_defs true false env
             [on_clk; off_clk; off_clk] CLKS_OFF in
  r = (-5, [clk_switch true (-1) on_clk; clk_switch true 0 off_clk;
            off_clk], CLKS_OFF, true)
  /\ Forall2
       (fun c c' =>
          clk_same_id c c'
          /\ (ck_enabled c = true -> ck_enabled c' = true)
          /\ (ck_valid c = true ->
              ck_hw_count c' = ck_hw_count c - Z.b2z (ck_enabled c))
          /\ (ck_valid c = true -> clk_consistent c ->
              ck_hw_count c' = 0))
       [on_clk; off_clk; off_clk] (snd (fst (fst r))).
Proof.
  intros on_clk off_clk env r. split; [reflexivity |].
  apply (@setup_clocks_failed_enable linux_defs true false env
           [on_clk; off_clk; off_clk] CLKS_OFF);
    [reflexivity | discriminate].
Defined.

End SetupClocksProps.

(** ** Query requests with retries *)

Module QueryRetryProps.
Import QueryRetry.

Lemma query_retry_loop_spec (stop : Z -> bool) (n : nat) :
  forall (answers : list Z) (ret : option Z) (calls : nat),
    (n <= length answers)%nat ->
    exists ret' made,
      query_retry_loop stop n answers ret calls
      = Some (ret', (calls + made)%nat)
      /\ (made <= n)%nat
      /\ (forall i a, (S i < made)%nat -> answers !! i = Some a ->
            stop a = false)
      /\ match made with
         | O => ret' = ret /\ n = O
         | S k =>
             exists a, answers !! k = Some a /\ ret' = Some a
               /\ (stop a = true \/ stop a = false /\ made = n)
         end.
Proof.
  induction n as [| n IH]; intros answers ret calls Hlen.
  - exists ret, 0%nat. cbn. rewrite Nat.add_0_r.
    split_and!; [done | lia | intros; lia | done | done].
  - destruct answers as [| a rest]; [cbn in Hlen; lia |].
    cbn [query_retry_loop]. destruct (stop a) eqn:Hs.
    + exists (Some a), 1%nat. rewrite Nat.add_1_r.
      split_and!; [done | lia | intros; lia |].
      exists a. split_and!; [done | done | by left].
    + cbn in Hlen. assert (Hlen' : (n <= length rest)%nat) by lia.
      destruct (IH rest (Some a) (S calls) Hlen')
        as (ret' & made & -> & Hm & Hbefore & Hlast).
      exists ret', (S made).
      replace (S calls + made)%nat with (calls + S made)%nat by lia.
      split_and!; [done | lia | |].
      * intros [| i] a' Hi; cbn; [by intros [= <-] |].
        apply Hbefore. lia.
      * destruct made as [| k].
        -- destruct Hlast as [-> ->]. exists a.
           split_and!; [done | done |]. right. done.
        -- destruct Hlast as (a' & Ha' & -> & Hstop).
           exists a'. split_and!; [done | done |].
           destruct Hstop as [? | [? ->]]; [by left | by right].
Qed.

Section WithHeaders.
Context `{UfsHeaders} `{UfsDefs}.

(** X25.  The three query wrappers give up after QUERY_REQ_RETRIES
    calls: each makes at least one call and at most that many,
    returns what its last call returned, and makes another call
    only after a failure; [ufshcd_query_flag_retry] and
    [ufshcd_query_attr_retry] stop at the first call that returns
    0, [ufshcd_query_descriptor_retry] also at the first that
    returns -EINVAL, which it does not retry. *)
Theorem query_retries_bounded (answers : list Z) :
  1 <= QUERY_REQ_RETRIES < 2 ^ 31 ->
  QUERY_REQ_RETRIES <= Z.of_nat (length answers) ->
  let verdict (stop : Z -> bool) (r : option (option Z * nat)) :=
    exists a k,
      r = Some (Some a, S k)
      /\ Z.of_nat (S k) <= QUERY_REQ_RETRIES
      /\ answers !! k = Some a
      /\ (forall i a', (i < k)%nat -> answers !! i = Some a' ->
            stop a' = false)
      /\ (stop a = true
          \/ stop a = false /\ Z.of_nat (S k) = QUERY_REQ_RETRIES) in
  verdict (fun r => r =? 0) (ufshcd_query_flag_retry answers)
  /\ verdict (fun r => r =? 0) (ufshcd_query_attr_retry answers)
  /\ verdict (fun r => (r =? 0) || (r =? - EINVAL))
       (ufshcd_query_descriptor_retry answers).
Proof.
  intros HQ Hlen verdict.
  assert (Hs : sint32 QUERY_REQ_RETRIES = QUERY_REQ_RETRIES).
  { unfold sint32. rewrite Z.mod_small by lia. lia. }
  assert (Hu : uint32 QUERY_REQ_RETRIES = QUERY_REQ_RETRIES).
  { unfold uint32. apply Z.mod_small. lia. }
  assert (Hn : (Z.to_nat QUERY_REQ_RETRIES <= length answers)%nat)
    by lia.
  assert (Hv : forall stop ret,
             verdict stop
               (query_retry_loop stop (Z.to_nat QUERY_REQ_RETRIES)
                  answers ret 0)).
  { intros stop ret.
    destruct (query_retry_loop_spec stop (Z.to_nat QUERY_REQ_RETRIES)
                answers ret 0%nat Hn)
      as (ret' & made & Hrun & Hm & Hbefore & Hlast).
    destruct made as [| k]; [destruct Hlast as [_ ?]; lia |].
    destruct Hlast as (a & Ha & -> & Hstop).
    exists a, k. rewrite Hrun. cbn [Nat.add].
    split_and!; [done | lia | done | |].
    - intros i a' Hi. apply Hbefore. lia.
    - destruct Hstop as [? | [? Hk]]; [by left | right].
      split; [done | lia]. }
  unfold ufshcd_query_flag_retry, ufshcd_query_attr_retry,
    ufshcd_query_descriptor_retry. rewrite Hs, Hu.
  split_and!; apply Hv.
Qed.

End WithHeaders.

Lemma query_retries_bounded_witness :
  @ufshcd_query_descriptor_retry linux_headers linux_defs [-5; -22; 0]
  = Some (Some (- 22), 2%nat)
  /\ @ufshcd_query_flag_retry linux_defs [-5; -22; -5; 0]
     = Some (Some (- 5), 3%nat).
Proof.
  destruct (@query_retries_bounded linux_headers linux_defs [-5; -22; 0]
              ltac:(simpl; lia) ltac:(simpl; lia)) as (_ & _ & Hd).
  destruct (@query_retries_bounded linux_headers linux_defs
              [-5; -22; -5; 0] ltac:(simpl; lia) ltac:(simpl; lia))
    as (Hf & _ & _).
  destruct Hd as (a & k & Hd & _). destruct Hf as (a' & k' & Hf & _).
  split; reflexivity.
Defined.

End QueryRetryProps.

(** ** Scheduling the error handler *)

Module ErrorSchedulingProps.
Import ErrorScheduling.

Section WithHeaders.
Context `{UfsHeaders}.

Lemma uic_cmd_compl_run_state (st a2 a3 : Z) (h : ufs_hba) :
  let h' := snd (ufshcd_uic_cmd_compl st a2 a3 h) in
  ufshcd_state h' = ufshcd_state h
  /\ force_reset h' = force_reset h
  /\ uic_link_state_of h' = uic_link_state_of h.
Proof.
  unfold ufshcd_uic_cmd_compl.
  destruct (active_uic_cmd h) as [c |] eqn:Ha;
    [destruct (negb (Z.land st UIC_COMMAND_COMPL =? 0)) |];
    destruct (negb (Z.land st UFSHCD_UIC_PWR_MASK =? 0));
    destruct (uic_async_done h) eqn:Hy; ResourceProps.fields;
    rewrite ?Ha, ?Hy; ResourceProps.fields; cbn [andb];
    ResourceProps.fields; rewrite ?Ha; ResourceProps.fields; done.
Qed.

Lemma uic_pwr_ctrl_run_state (env : pwr_env) (cmd : uic_command)
    (hba : ufs_hba) :
  let r := ufshcd_uic_pwr_ctrl env cmd hba in
  ufshcd_state (snd r) = ufshcd_state hba
  /\ force_reset (snd r) = force_reset hba
  /\ (ufshcd_is_link_broken hba = false -> fst r <> 0 ->
      ufshcd_is_link_broken (snd r) = true).
Proof.
  cbv zeta. unfold ufshcd_uic_pwr_ctrl.
  destruct (ufshcd_is_link_broken hba) eqn:Hb; [done |].
  unfold ufshcd_uic_pwr_ctrl_issue, __ufshcd_send_uic_cmd,
    ufshcd_dispatch_uic_cmd, ufshcd_writel. cbv zeta.
  assert (Hfin : forall ret h3,
             ufshcd_state h3 = ufshcd_state hba ->
             force_reset h3 = force_reset hba ->
             let h' := ufshcd_uic_pwr_ctrl_finish ret
                         (pe_intr_enabled env) h3 in
             ufshcd_state h' = ufshcd_state hba
             /\ force_reset h' = force_reset hba
             /\ (false = false -> ret <> 0 ->
                 ufshcd_is_link_broken h' = true)).
  { intros ret h3 Hs Hf. cbv zeta. unfold ufshcd_uic_pwr_ctrl_finish.
    destruct (pe_intr_enabled env), (Z.eqb_spec ret 0);
      cbn [negb]; ResourceProps.fields; split_and!; done. }
  destruct (pe_ready env);
    cbn [negb fst snd];
    try (destruct (Z.eqb_spec (- EIO) 0) as [Hz | Hnz]; cbn [negb]);
    cbn [Z.eqb negb fst snd];
    try (apply Hfin; ResourceProps.fields; done);
    unfold run_irq;
    destruct (pe_irq env) as [[[st a2] a3] |];
    try match goal with
        | |- context [ufshcd_uic_cmd_compl ?s ?x ?y ?h] =>
            destruct (uic_cmd_compl_run_state s x y h)
              as (Es & Ef & _)
        end;
    apply Hfin; rewrite ?Es, ?Ef;
    ResourceProps.fields;
    destruct (pe_intr_enabled env); ResourceProps.fields; done.
Qed.

(** X26.  A failed power-mode change keeps new commands off the
    controller.  When [ufshcd_uic_pwr_ctrl] fails on a link that was
    not broken, the link is marked broken and
    [ufshcd_schedule_eh_work] puts the adapter in
    EH_SCHEDULED_FATAL, unless it is in ERROR already; in the state
    that results [ufshcd_queuecommand] writes no doorbell and marks
    no request outstanding for any command. *)
Theorem pwr_ctrl_failure_blocks_submission (saved_err_fatal : bool)
    (env : pwr_env) (cmd : uic_command) (hba : ufs_hba)
    (qenv : qc_env) (c : scsi_cmnd) :
  ufshcd_is_link_broken hba = false ->
  fst (ufshcd_uic_pwr_ctrl_eh saved_err_fatal env cmd hba) <> 0 ->
  let h1 := snd (ufshcd_uic_pwr_ctrl_eh saved_err_fatal env cmd hba) in
  ufshcd_is_link_broken h1 = true
  /\ (ufshcd_state h1 = UFSHCD_STATE_EH_SCHEDULED_FATAL
      \/ ufshcd_state h1 = UFSHCD_STATE_ERROR
         /\ ufshcd_state hba = UFSHCD_STATE_ERROR)
  /\ not_issuing h1 (snd (ufshcd_queuecommand qenv c h1)).
Proof.
  intros Hb. unfold ufshcd_uic_pwr_ctrl_eh. rewrite Hb. cbn [negb andb].
  destruct (uic_pwr_ctrl_run_state env cmd hba) as (Hs & Hf & Hl).
  specialize (Hl Hb).
  destruct (ufshcd_uic_pwr_ctrl env cmd hba) as [ret h0].
  cbn [fst snd] in *.
  destruct (Z.eqb_spec ret 0) as [| Hne]; cbn [negb fst snd]; [done |].
  intros _. specialize (Hl Hne).
  set (h1 := ufshcd_schedule_eh_work saved_err_fatal h0).
  assert (Hh1 : ufshcd_is_link_broken h1 = true
                /\ (ufshcd_state h1 = UFSHCD_STATE_EH_SCHEDULED_FATAL
                    \/ ufshcd_state h1 = UFSHCD_STATE_ERROR
                       /\ ufshcd_state hba = UFSHCD_STATE_ERROR)).
  { subst h1. unfold ufshcd_schedule_eh_work. rewrite Hl, Hs.
    rewrite orb_true_r. cbn [orb].
    destruct (Z.eqb_spec (ufshcd_state hba) UFSHCD_STATE_ERROR)
      as [He | Hne']; cbn [negb].
    - split; [done |]. right. by rewrite Hs.
    - split; [| by left].
      unfold ufshcd_is_link_broken in *. ResourceProps.fields.
      exact Hl. }
  destruct Hh1 as [Hbroken Hstate].
  split_and!; [done | done |].
  unfold ufshcd_queuecommand.
  pose proof (ufshcd_queuecommand_front_not_issuing qenv c h1) as Hfront.
  destruct (ufshcd_queuecommand_front qenv c h1) as [[r h2] | h2];
    [exact Hfront |].
  eapply not_issuing_trans; [exact Hfront |].
  destruct Hfront as (_ & _ & _ & Hst & Hpm & _).
  unfold ufshcd_queuecommand_issue. rewrite Hst.
  destruct Hstate as [-> | [-> _]]; cbn [Z.eqb orb andb].
  - destruct (pm_op_in_progress h2).
    + eapply not_issuing_trans;
        [| apply qc_out_compl_cmd_not_issuing].
      unfold not_issuing. ResourceProps.fields. done.
    + apply qc_out_compl_cmd_not_issuing.
  - apply qc_out_compl_cmd_not_issuing.
Qed.

End WithHeaders.

Lemma pwr_ctrl_failure_blocks_submission_witness :
  let env := {| pe_ready := true; pe_intr_enabled := true;
                pe_irq := None; pe_in_time := false; pe_hcs := 0 |} in
  let cmd := {| command := 23; argument1 := 0; argument2 := 0;
                argument3 := 0; cmd_active := 0 |} in
  let r := @ufshcd_uic_pwr_ctrl_eh linux_headers false env cmd hba_idle in
  fst r = - 110
  /\ ufshcd_state (snd r) = UFSHCD_STATE_EH_SCHEDULED_FATAL
  /\ not_issuing (snd r)
       (snd (@ufshcd_queuecommand linux_headers qc_env_ok (read_cmd 2)
               (snd r))).
Proof.
  intros env cmd r. split; [reflexivity |]. split; [reflexivity |].
  apply (@pwr_ctrl_failure_blocks_submission linux_headers false env cmd
           hba_idle qc_env_ok (read_cmd 2));
    [reflexivity | discriminate].
Defined.

End ErrorSchedulingProps.
